(* ===== verification/_CoqProject ===== *)
-Q . S2P
Prelude.v
Json.v
JsonFacts.v
StateRecords.v
MemoryStateStore.v
QueueLiveness.v
Identity.v
Http.v
SourceFetch.v
Config.v
Sha256.v
Paths.v
FileSystem.v
FileSystemFacts.v
PathFacts.v
DirectoryFacts.v
Toml.v
Manifest.v
TomlFacts.v
Lockfile.v
Process.v
RegistrySecurity.v
CachePaths.v
Agreement.v
Toolchain.v
GitFetcher.v
SourceBuild.v
RegistryClient.v
RouterSupport.v
PostgresSql.v
Demo.v
SourceBuildFacts.v
JobQueue.v
Workspace.v
ObjectStore.v
Governance.v
ExternalIdentity.v
ResolvedGraph.v
CompilePlan.v
CloudExecution.v
Resolver.v
RegistryIdentifiers.v
RegistryIndexStore.v
Postgres.v
RegistryAccess.v
RegistryQueries.v
Frames.v
PostgresFacts.v
RegistryTrust.v
DemoServices.v
ManifestFacts.v
ToolchainFacts.v
LockfileFacts.v
ResolverFacts.v
ProjectGraph.v
PlanWriter.v
ResolverTermination.v
OfflineFacts.v
RegistryPublish.v
PublishFacts.v
RegistryDistribution.v
Recovery.v
MirrorSync.v
MirrorFacts.v
Router.v
HttpWire.v
Certificates.v
CertificateFacts.v
HttpServer.v
HttpWireFacts.v
HttpServerFacts.v
OperatingSystem.v
Worker.v
CloudFacts.v
WorkerFacts.v
Daemon.v
DaemonFacts.v
