(* ===== verification/Prelude.v ===== *)
(** * The Styio platform

    A model of the platform under [src/src]: the control plane [styio-platformd]
    (router, workspaces, registry, governance, recovery), the worker, the package
    client (manifests, resolution, registry and git sources, compile plans) and the
    libraries below them.  File names in the comments are relative to [src/src].

    ** How the program is modelled

    - State is passed explicitly.  [M E S A] (this file) is a computation over a
      state that returns or throws; a C++ exception keeps the assignments made
      before it, and [catch] runs its handler in the state reached.  Exceptions are
      the constructors of [Json.exn]; [UndefinedBehaviour] is no exception and is
      never caught.  [Frames.v] holds the relations between the states before and
      after a computation that compose along it.
    - C++ containers are [gmap]s, iterated in key order by [items]; [std::string] is
      a string of bytes; machine integers are [Z] with their range or their
      wrap-around written out ([u64], [i32], the 32-bit words of [Sha256.v]);
      [std::sort] is taken to be stable.
    - What is not the program's is an argument, a class with what the program uses
      of it: [JsonLib] (printing and parsing of nlohmann::json), [TomlLib] (toml++),
      [FileHost] (working directory, order of directory entries), [Host] (clock,
      SHA-256 and random bytes of OpenSSL), [ProgramHost] (environment, child
      processes such as git and curl), [CurlHost] and [SigningHost] (the curl and
      openssl commands of the server), [PostgresStore] (the store as the router sees
      it), [LibPq] (libpq and the database server behind it), [OpenSsl] and [Pem]
      (keys, certificates), [Sockets], [ListenHost] (the calls that bring a listener
      up), [Schedule] (heartbeats that a build is accompanied by), [BuildTarget] (the
      system and processor of the client), [Terminal] (the prompt of a source build).  Laws of such code are hypotheses of the theorems that need
      them ([JsonTextLaws], for instance, with the concrete format of [JsonFacts.v]
      on which they hold).  [Demo.v] and [DemoServices.v] are the concrete instances
      on which the theorems are applied.

    ** The parts

    - Foundations: [Json.v], [JsonFacts.v]; [Paths.v], [FileSystem.v] and their facts
      in [FileSystemFacts.v] and [DirectoryFacts.v] (paths and trees of
      [std::filesystem]), with the normal forms of paths in [PathFacts.v]; [Toml.v] and
      [TomlFacts.v] (documents of plain sections, and a reader on which their law
      holds); [Process.v] (PlatformCore/Core/Process.cpp, a run
      as the system calls return); [Sha256.v] (PlatformCore/Core/Sha256.cpp);
      [Config.v]; [OperatingSystem.v] (PlatformCore/System).
    - State: [StateRecords.v], [MemoryStateStore.v], [QueueLiveness.v] and, for
      PostgreSQL, [PostgresSql.v] (every statement, text for text), [Postgres.v]
      (every operation as the statements it sends) and [PostgresFacts.v]
      (PlatformStorage/PlatformPersistence).
    - HTTP and routing: [Http.v] (messages, route tables, matching), [Identity.v]
      (roles and authorization), [RouterSupport.v] (router state, rate limiter,
      metrics), [Router.v] ([Dispatch]: identity, limits, dispatchers, and the node,
      work-group and operations handlers), [HttpWire.v] and [HttpServer.v] (requests
      and responses on a socket, the listeners and accept loops of
      PlatformService/BeastServer.cpp) with [HttpWireFacts.v] and [HttpServerFacts.v].
    - Entry point: [Daemon.v], [DaemonFacts.v] (PlatformService/Daemon.cpp).
    - Workspaces: [JobQueue.v], [Workspace.v] (handlers of
      PlatformCloud/DeveloperWorkspace) and [Worker.v], [WorkerFacts.v] (the worker
      that calls them).
    - Registry: [RegistryIdentifiers.v], [RegistryIndexStore.v], [RegistryAccess.v],
      [RegistryQueries.v], [RegistryTrust.v], [RegistryPublish.v], [PublishFacts.v],
      [RegistryDistribution.v], [MirrorSync.v], [MirrorFacts.v]
      (PlatformCloud/PackageRegistry), [ObjectStore.v].
    - Recovery, governance, identity: [Recovery.v], [Governance.v],
      [ExternalIdentity.v], [Certificates.v], [CertificateFacts.v]
      (PlatformSecurity/PlatformCA).
    - Package client: [SourceFetch.v], [GitFetcher.v], [RegistrySecurity.v],
      [CachePaths.v], [RegistryClient.v], [Manifest.v], [Lockfile.v],
      [ResolvedGraph.v], [Resolver.v], [CompilePlan.v], with [ManifestFacts.v],
      [LockfileFacts.v], [ResolverFacts.v], [ResolverTermination.v],
      [OfflineFacts.v], and [PlanWriter.v], which writes the plan of a resolution;
      [Agreement.v] holds the runs that do not depend on some of the host's programs.
    - Tool chain: [Toolchain.v], [ToolchainFacts.v] (the vocabularies and the state file
      of PlatformCore/Toolchain), [SourceBuild.v], [SourceBuildFacts.v] (compilers built
      from source).
    - Client contracts (SpioPlatformProtocols): [CloudExecution.v], [CloudFacts.v] (the
      policy of a project's cloud jobs and the jobs themselves), [ProjectGraph.v].

    The parts call each other as the code does: [HttpServer] hands requests to
    [Router.Dispatch], which runs the handlers on the router's state (memory store or
    PostgreSQL store, rate limiter, metrics, files, curl history); [Worker] runs in
    its own world of files and programs and reaches the router only through [Sockets];
    [Resolver] calls [GitFetcher] and [RegistryClient] in the client's world
    ([CachePaths.ClientWorld]) and [CompilePlan] and [ProjectGraph] consume its graph;
    the jobs of [CloudExecution] are what [JobQueue] validates and [Worker] runs;
    [Daemon.main] starts the server, the worker, the mirror or the migrations, and the
    TLS listener gets its certificate from [Certificates].

    ** What the theorems show

    - The job queue: every call of the store is a move of an abstract job machine
      ([store_call_refines_job_machine]), claims are exclusive and take the least
      queued job, event logs only grow, records stay consistent, containers serve one
      user, and queued jobs are served ([queued_jobs_are_served]).
    - The daemon: every run ends with a code of its command, and the self test passes on
      a memory store.
    - The router: requests without the required certificate or role change nothing,
      workspace requests are answered, limits are enforced, routes are unambiguous,
      submissions can be read back.
    - The wire: requests are read as they were rendered however they are cut, bytes of
      strangers change nothing, calls of the worker reach the router and come back,
      and one kind of request stops the server.
    - PostgreSQL: transactions happen whole or are rolled back, whatever the server
      answers, the other operations write by one statement (migrations and heartbeats by
      several, which may stop halfway), and no statement is built from data.
    - The registry: publishing is authorized, happens once per version and is audited;
      access changes are audited; tokens live as they should (and can exceed their
      owner); versions are ordered; keys are canonical; a snapshot restores exactly; a
      mirror publishes what it verified.
    - The client: manifests are read exactly, resolved graphs are consistent,
      path-only resolution ends, offline resolution is local, the package order is
      topological and the plans that are written can be built, SHA-256 is computed, output
      of processes is captured, the git policy admits exactly what it says.
    - The tool chain: states with a plain revision are read back as they were written, and
      all hold supported values only; source builds leave a compiler, and need no network when offline; project
      graphs are closed; the policy of cloud jobs protects the platform, while the jobs
      clients build are queued but refused by every worker.
    - Workers and certificates: a claimed job is reported, certificates name their
      service and are issued once.

    ** Fuel

    Recursions that are not structural carry fuel, and a result [None] means that
    there was too little.  [FileSystem.copy_recursive] gets the size of the tree plus
    two, which [FileSystemFacts] shows to be enough; the package order gets one more
    than the number of packages, enough by [package_order_is_topological];
    [find_upwards] gets the length of the path.  [Resolver.ResolveNode] takes its fuel
    from the caller, since a git or registry package may bring any number of others;
    for trees of path dependencies two more than the number of files is enough
    ([local_resolution_ends]).  The loop of [Worker.RunWorker] never ends by itself: it
    is given a number of turns.

    ** Not modelled

    Links, permissions and failures of disks; the parsing of TOML and JSON text and the
    execution of SQL, which are other programs'; sockets, TLS and threads beyond what
    they deliver; the texts written to standard error; the child's side of [fork] in
    Process.cpp; and the status of the installed tools in the project graph, whose
    headers the repository does not hold ([ProjectGraph.v] takes its payload as an
    argument). *)
From stdpp Require Import base list gmap sets strings pretty sorting.
From Stdlib Require Import ZArith Lia Ascii String.

Create HintDb platform.

Declare Scope spio_scope.
Delimit Scope spio_scope with spio.
Global Open Scope Z_scope.

(** * State and exceptions *)

(** A computation over the mutable state [S] that returns an [A] or throws an
    [E].  The state reached is kept on both outcomes: a C++ exception does not
    undo the assignments made before the [throw]. *)
Definition M (E S A : Type) : Type := S -> (E + A) * S.

Definition m_ret {E S A} (a : A) : M E S A := fun s => (inr a, s).

Definition m_bind {E S A B} (m : M E S A) (k : A -> M E S B) : M E S B :=
  fun s => match m s with
           | (inl e, s') => (inl e, s')
           | (inr a, s') => k a s'
           end.

Definition throw {E S A} (e : E) : M E S A := fun s => (inl e, s).

(** [try { m } catch (...) { h }]: the handler runs in the state reached. *)
Definition catch {E S A} (m : M E S A) (h : E -> M E S A) : M E S A :=
  fun s => match m s with
           | (inl e, s') => h e s'
           | (inr a, s') => (inr a, s')
           end.

Definition gets {E S A} (f : S -> A) : M E S A := fun s => (inr (f s), s).
Definition modify {E S} (f : S -> S) : M E S unit := fun s => (inr tt, f s).

(** A pure fallible value used inside a stateful computation. *)
Definition lift {E S A} (r : E + A) : M E S A := fun s => (r, s).

(** Run a computation on a component of the state. *)
Definition zoom {E S T A} (get : S -> T) (put : T -> S -> S) (m : M E T A) : M E S A :=
  fun s => match m (get s) with (r, t) => (r, put t s) end.

Definition when {E S} (b : bool) (m : M E S unit) : M E S unit :=
  if b then m else m_ret tt.

Notation "x <- m ;; k" := (m_bind m (fun x => k))
  (at level 100, m at next level, right associativity) : spio_scope.
Notation "m ;;; k" := (m_bind m (fun _ => k))
  (at level 100, right associativity) : spio_scope.

(** The pure exception monad. *)
Definition r_bind {E A B} (m : E + A) (k : A -> E + B) : E + B :=
  match m with inl e => inl e | inr a => k a end.
Notation "x <-? m ;; k" := (r_bind m (fun x => k))
  (at level 100, m at next level, right associativity) : spio_scope.

Lemma m_bind_inr {E S A B} (m : M E S A) (k : A -> M E S B) s b s' :
  m_bind m k s = (inr b, s') -> exists a s1, m s = (inr a, s1) /\ k a s1 = (inr b, s').
Proof. unfold m_bind. destruct (m s) as [[e|a] s1]; [done|]. eauto. Qed.

(** A run that returned, taken apart one step at a time. *)
Tactic Notation "run_step" hyp(H) simple_intropattern(a) simple_intropattern(s1)
    simple_intropattern(Hm) := apply m_bind_inr in H as (a & s1 & Hm & H).

(** Loops that collect results and stop at the first exception. *)
Fixpoint traverse {E A B} (f : A -> E + B) (l : list A) : E + list B :=
  match l with
  | [] => inr []
  | a :: l => r_bind (f a) (fun b => r_bind (traverse f l) (fun bs => inr (b :: bs)))
  end.
Fixpoint traverse_m {E S A B} (f : A -> M E S B) (l : list A) : M E S (list B) :=
  match l with
  | [] => m_ret []
  | a :: l => m_bind (f a) (fun b => m_bind (traverse_m f l) (fun bs => m_ret (b :: bs)))
  end.

Notation "a =s b" := (String.eqb a b) (at level 70) : spio_scope.
Notation "a <>s b" := (negb (String.eqb a b)) (at level 70) : spio_scope.
Global Open Scope spio_scope.

(** * Machine integers *)

Definition u64 (z : Z) : Z := z mod 2 ^ 64.
Definition u32 (z : Z) : Z := z mod 2 ^ 32.
(** The value an [int] holds after a conversion from a wider integer. *)
Definition i32 (z : Z) : Z := (z + 2 ^ 31) mod 2 ^ 32 - 2 ^ 31.

(** * Strings *)

Definition is_empty (s : string) : bool := match s with "" => true | _ => false end%string.

Definition char_code (c : ascii) : Z := Z.of_N (N_of_ascii c).

Definition chars (s : string) : list ascii := String.list_ascii_of_string s.
Definition of_chars (l : list ascii) : string := String.string_of_list_ascii l.

Definition str_starts_with (s p : string) : bool := String.prefix p s.
Definition newline_text : string := String "010"%char EmptyString.
Definition string_in (s : string) (l : list string) : bool := existsb (String.eqb s) l.
Definition str_length (s : string) : nat := String.length s.

(** [s.substr(n)]. *)
Definition str_drop (n : nat) (s : string) : string := of_chars (drop n (chars s)).
Definition str_take (n : nat) (s : string) : string := of_chars (take n (chars s)).

Definition str_ends_with (s p : string) : bool :=
  (str_length p <=? str_length s)%nat && (str_drop (str_length s - str_length p) s =s p).

Definition char_in (c : ascii) (l : list ascii) : bool := existsb (Ascii.eqb c) l.
Definition str_contains_char (s : string) (c : ascii) : bool := char_in c (chars s).

(** [s.find(sub)], [None] for [npos]. *)
Definition str_find (sub s : string) : option nat := String.index 0 sub s.
Definition str_contains (s sub : string) : bool :=
  match str_find sub s with Some _ => true | None => false end.

(** [s.find(c)] and [s.rfind(c)] on characters. *)
Fixpoint find_char (c : ascii) (l : list ascii) : option nat :=
  match l with
  | [] => None
  | d :: r => if Ascii.eqb c d then Some 0%nat else S <$> find_char c r
  end.
Fixpoint rfind_char (c : ascii) (l : list ascii) : option nat :=
  match l with
  | [] => None
  | d :: r => match rfind_char c r with
              | Some n => Some (S n)
              | None => if Ascii.eqb c d then Some 0%nat else None
              end
  end.

(** One [std::getline(stream, part, sep)] on the characters left in the stream:
    [None] at end of file, otherwise the piece and what is left ([None] when the
    stream has reached end of file). *)
Fixpoint getline_piece (sep : ascii) (l : list ascii) : list ascii * option (list ascii) :=
  match l with
  | [] => ([], None)
  | c :: r => if Ascii.eqb c sep then ([], Some r)
              else let '(p, rest) := getline_piece sep r in (c :: p, rest)
  end.

(** [while (std::getline(stream, part, sep)) parts.push_back(part)]: a final
    empty piece is not produced. *)
Fixpoint getline_all_aux (sep : ascii) (acc : list ascii) (l : list ascii) : list string :=
  match l with
  | [] => if acc is [] then [] else [of_chars (rev acc)]
  | c :: r => if Ascii.eqb c sep then of_chars (rev acc) :: getline_all_aux sep [] r
              else getline_all_aux sep (c :: acc) r
  end.
Definition getline_all (sep : ascii) (s : string) : list string :=
  getline_all_aux sep [] (chars s).

(** A text splits at every separator, empty pieces included. *)
Fixpoint split_all (sep : ascii) (acc l : list ascii) : list string :=
  match l with
  | [] => [of_chars (rev acc)]
  | c :: r => if Ascii.eqb c sep then of_chars (rev acc) :: split_all sep [] r
              else split_all sep (c :: acc) r
  end.
Definition components (key : string) : list string := split_all "/" [] (chars key).

Definition is_lower (c : ascii) : bool := (97 <=? char_code c) && (char_code c <=? 122).
Definition is_upper (c : ascii) : bool := (65 <=? char_code c) && (char_code c <=? 90).
Definition is_digit (c : ascii) : bool := (48 <=? char_code c) && (char_code c <=? 57).
Definition is_alnum (c : ascii) : bool := is_lower c || is_upper c || is_digit c.
(** [std::isspace] in the C locale. *)
Definition is_space (c : ascii) : bool :=
  (char_code c =? 32) || ((9 <=? char_code c) && (char_code c <=? 13)).
Definition to_lower (c : ascii) : ascii :=
  if is_upper c then ascii_of_N (N_of_ascii c + 32) else c.

Definition str_map (f : ascii -> ascii) (s : string) : string := of_chars (map f (chars s)).
Definition str_forall (p : ascii -> bool) (s : string) : bool := forallb p (chars s).

(** Drop the longest prefix of characters satisfying [p]. *)
Fixpoint drop_while {A} (p : A -> bool) (l : list A) : list A :=
  match l with
  | [] => []
  | c :: r => if p c then drop_while p r else l
  end.
Definition drop_while_end {A} (p : A -> bool) (l : list A) : list A :=
  rev (drop_while p (rev l)).

Fixpoint repeat_char (c : ascii) (n : nat) : string :=
  match n with O => EmptyString | S n => String c (repeat_char c n) end.

(** [stream << std::setw(width) << std::setfill(fill) << text]. *)
Definition pad_left (fill : ascii) (width : nat) (text : string) : string :=
  repeat_char fill (width - str_length text) +:+ text.

(** Decimal and hexadecimal printing of an unsigned value. *)
Definition decimal (z : Z) : string := pretty z.
Definition hex_digit (z : Z) : ascii :=
  default "0"%char (chars "0123456789abcdef" !! Z.to_nat z).
Fixpoint hex_fixed (digits : nat) (z : Z) : string :=
  match digits with
  | O => EmptyString
  | S d => hex_fixed d (z / 16) +:+ String (hex_digit (z mod 16)) EmptyString
  end.

(** * Ordered containers *)

(** [std::string]'s [operator<]: lexicographic on unsigned characters. *)
Definition str_ltb (a b : string) : bool := String.ltb a b.
Definition key_le {V} (p q : string * V) : Prop := String.leb p.1 q.1 = true.

#[export] Instance key_le_dec V (p q : string * V) : Decision (key_le p q) := bool_eq_dec _ _.

Definition str_le (a b : string) : Prop := String.leb a b = true.
#[export] Instance str_le_dec a b : Decision (str_le a b) := bool_eq_dec _ _.
(** [std::sort] on strings. *)
Definition sort_strings (l : list string) : list string := merge_sort str_le l.

(** The elements of a [std::map<std::string, V>] in iteration order. *)
Definition items {V} (m : gmap string V) : list (string * V) :=
  merge_sort key_le (map_to_list m).

Definition map_has {V} (m : gmap string V) (k : string) : bool :=
  match m !! k with Some _ => true | None => false end.

(** * Lemmas on strings *)


Lemma str_eqb_refl (a : string) : (a =s a) = true.
Proof. apply String.eqb_refl. Qed.

Lemma str_eqb_iff (a b : string) : (a =s b) = true <-> a = b.
Proof. apply String.eqb_eq. Qed.

Lemma str_eqb_false (a b : string) : (a =s b) = false <-> a <> b.
Proof. apply String.eqb_neq. Qed.

Lemma is_empty_true (s : string) : is_empty s = true <-> s = EmptyString.
Proof. by destruct s. Qed.

Lemma is_empty_false (s : string) : is_empty s = false <-> s <> EmptyString.
Proof. by destruct s. Qed.

Lemma chars_of_chars l : chars (of_chars l) = l.
Proof. apply String.list_ascii_of_string_of_list_ascii. Qed.

Lemma of_chars_chars s : of_chars (chars s) = s.
Proof. apply String.string_of_list_ascii_of_string. Qed.

Lemma chars_app a b : chars (a +:+ b) = chars a ++ chars b.
Proof.
  induction a as [|c a IH]; [done|].
  change (c :: chars (a +:+ b) = c :: chars a ++ chars b). by rewrite IH.
Qed.

Lemma of_chars_app a b : of_chars (a ++ b) = of_chars a +:+ of_chars b.
Proof.
  induction a as [|c a IH]; [done|].
  change (String c (of_chars (a ++ b)) = String c (of_chars a +:+ of_chars b)). by rewrite IH.
Qed.

Lemma chars_inj a b : chars a = chars b -> a = b.
Proof. intros H. by rewrite <- (of_chars_chars a), <- (of_chars_chars b), H. Qed.

Lemma str_app_assoc (a b c : string) : (a +:+ b) +:+ c = a +:+ (b +:+ c).
Proof. apply chars_inj. by rewrite !chars_app, (assoc_L (++)). Qed.

Lemma str_app_inv_head (a b c : string) : a +:+ b = a +:+ c -> b = c.
Proof. intros H. apply chars_inj. apply (f_equal chars) in H.
  rewrite !chars_app in H. by apply app_inv_head in H. Qed.

Lemma str_length_chars s : str_length s = List.length (chars s).
Proof. induction s as [|c s IH]; [done|]. unfold str_length in *. cbn. f_equal. exact IH. Qed.

Lemma chars_str_take n s : chars (str_take n s) = take n (chars s).
Proof. apply chars_of_chars. Qed.
Lemma chars_str_drop n s : chars (str_drop n s) = drop n (chars s).
Proof. apply chars_of_chars. Qed.
Lemma str_length_app a b : str_length (a +:+ b) = (str_length a + str_length b)%nat.
Proof. by rewrite !str_length_chars, chars_app, length_app. Qed.
Lemma str_length_take n s : str_length (str_take n s) = Nat.min n (str_length s).
Proof. by rewrite !str_length_chars, chars_str_take, length_take. Qed.
Lemma str_take_ge n s : (str_length s <= n)%nat -> str_take n s = s.
Proof. rewrite str_length_chars. intros Hn. apply chars_inj. rewrite chars_str_take. by apply take_ge. Qed.
Lemma str_drop_ge n s : (str_length s <= n)%nat -> str_drop n s = EmptyString.
Proof. rewrite str_length_chars. intros Hn. apply chars_inj. rewrite chars_str_drop. by apply drop_ge. Qed.
Lemma str_take_app_le n a b : (n <= str_length a)%nat -> str_take n (a +:+ b) = str_take n a.
Proof.
  rewrite str_length_chars. intros Hn. apply chars_inj. rewrite !chars_str_take, chars_app.
  by apply take_app_le.
Qed.
Lemma str_drop_app_le n a b : (n <= str_length a)%nat -> str_drop n (a +:+ b) = str_drop n a +:+ b.
Proof.
  rewrite str_length_chars. intros Hn. apply chars_inj.
  rewrite chars_app, !chars_str_drop, chars_app. by apply drop_app_le.
Qed.
Lemma str_take_all a b : str_take (str_length a) (a +:+ b) = a.
Proof. rewrite str_take_app_le by done. by apply str_take_ge. Qed.
Lemma str_drop_all a b : str_drop (str_length a) (a +:+ b) = b.
Proof. rewrite str_drop_app_le, str_drop_ge by done. done. Qed.

(** * The order on strings *)

Lemma str_compare_cons a s b t :
  String.compare (String a s) (String b t)
  = match Ascii.compare a b with Eq => String.compare s t | c => c end.
Proof. reflexivity. Qed.

Lemma ascii_compare_N a b : Ascii.compare a b = (N_of_ascii a ?= N_of_ascii b)%N.
Proof. reflexivity. Qed.

Lemma N_of_ascii_inj a b : N_of_ascii a = N_of_ascii b -> a = b.
Proof. intros H. by rewrite <- (ascii_N_embedding a), <- (ascii_N_embedding b), H. Qed.

Lemma str_compare_refl s : String.compare s s = Eq.
Proof.
  induction s as [|c s IH]; [done|].
  by rewrite str_compare_cons, ascii_compare_N, N.compare_refl.
Qed.

Lemma str_lt_trans a b c :
  String.compare a b = Lt -> String.compare b c = Lt -> String.compare a c = Lt.
Proof.
  revert b c. induction a as [|x a IH]; intros [|y b] [|z c]; try (cbn; congruence).
  rewrite !str_compare_cons, !ascii_compare_N.
  destruct (N.compare_spec (N_of_ascii x) (N_of_ascii y)) as [Hxy|Hxy|Hxy];
  destruct (N.compare_spec (N_of_ascii y) (N_of_ascii z)) as [Hyz|Hyz|Hyz];
  destruct (N.compare_spec (N_of_ascii x) (N_of_ascii z)) as [Hxz|Hxz|Hxz];
  try congruence; try lia. apply IH.
Qed.

Lemma str_leb_spec a b : String.leb a b = true <-> a = b \/ String.compare a b = Lt.
Proof.
  unfold String.leb. destruct (String.compare a b) eqn:H; split; try naive_solver.
  - intros _. left. by apply String.compare_eq_iff.
  - intros [->|?]; [|done]. by rewrite str_compare_refl in H.
Qed.

Lemma str_leb_trans a b c :
  String.leb a b = true -> String.leb b c = true -> String.leb a c = true.
Proof.
  rewrite !str_leb_spec. intros [->|H1] [->|H2]; auto. right. by eapply str_lt_trans.
Qed.

#[export] Instance key_le_trans V : Transitive (@key_le V).
Proof. intros [a ?] [b ?] [c ?]. apply str_leb_trans. Qed.

#[export] Instance key_le_total V : Total (@key_le V).
Proof. intros [a ?] [b ?]. apply String.leb_total. Qed.

#[export] Instance str_le_trans : Transitive str_le.
Proof. intros a b c. apply str_leb_trans. Qed.

#[export] Instance str_le_total : Total str_le.
Proof. intros a b. apply String.leb_total. Qed.

Lemma sort_strings_permutation l : sort_strings l ≡ₚ l.
Proof. apply merge_sort_Permutation. Qed.

Lemma string_in_iff x l : string_in x l = true <-> x ∈ l.
Proof.
  unfold string_in. rewrite existsb_exists. setoid_rewrite str_eqb_iff. split.
  - intros (y & Hy & ->). by apply list_elem_of_In.
  - intros Hx. exists x. split; [by apply list_elem_of_In|done].
Qed.

(** * Lemmas on ordered maps *)

Lemma items_permutation {V} (m : gmap string V) : items m ≡ₚ map_to_list m.
Proof. apply merge_sort_Permutation. Qed.

Lemma elem_of_items {V} (m : gmap string V) k v : (k, v) ∈ items m <-> m !! k = Some v.
Proof. rewrite items_permutation. apply elem_of_map_to_list. Qed.

Lemma items_sorted {V} (m : gmap string V) : StronglySorted key_le (items m).
Proof. apply StronglySorted_merge_sort; apply _. Qed.

Lemma items_keys_NoDup {V} (m : gmap string V) : NoDup (items m).*1.
Proof. rewrite items_permutation. apply NoDup_fst_map_to_list. Qed.

Lemma items_length {V} (m : gmap string V) : List.length (items m) = size m.
Proof. rewrite items_permutation. apply length_map_to_list. Qed.

Lemma map_has_true {V} (m : gmap string V) k : map_has m k = true <-> is_Some (m !! k).
Proof. unfold map_has. destruct (m !! k); split; naive_solver. Qed.

(** [std::find_if] over a map: the first match has the least key. *)
Lemma find_items_Some {V} (p : string * V -> bool) m k v :
  List.find p (items m) = Some (k, v) ->
  m !! k = Some v /\ p (k, v) = true /\
  forall k' v', m !! k' = Some v' -> p (k', v') = true -> String.leb k k' = true.
Proof.
  intros H. pose proof (items_sorted m) as Hs.
  destruct (List.find_some _ _ H) as [Hin Hp%id]. apply list_elem_of_In in Hin.
  split_and!; [by apply elem_of_items|done|].
  clear Hp. intros k' v' Hk' Hp. apply elem_of_items in Hk'. clear Hin. revert H Hs Hk'.
  induction (items m) as [|[k0 v0] l IH]; [done|]; cbn. intros Hf Hs Hel.
  apply StronglySorted_inv in Hs as [Hs Hall].
  destruct (p (k0, v0)) eqn:Hp0.
  - simplify_eq. apply elem_of_cons in Hel as [?|Hel].
    + simplify_eq. by destruct (String.leb_total k k).
    + rewrite Forall_forall in Hall. by apply (Hall (k', v')).
  - apply elem_of_cons in Hel as [?|Hel]; [simplify_eq; congruence|]. by apply IH.
Qed.

Lemma find_items_None {V} (p : string * V -> bool) m :
  List.find p (items m) = None <-> forall k v, m !! k = Some v -> p (k, v) = false.
Proof.
  split.
  - intros H k v Hk. apply elem_of_items, list_elem_of_In in Hk. by eapply List.find_none in H.
  - intros H. destruct (List.find p (items m)) as [[k v]|] eqn:E; [|done].
    apply find_items_Some in E as (Hk & Hp & _). by rewrite H in Hp.
Qed.

Lemma gmap_lookup_insert_case {V} (m : gmap string V) k k' v :
  <[k := v]> m !! k' = if k =s k' then Some v else m !! k'.
Proof.
  destruct (k =s k') eqn:E.
  - apply str_eqb_iff in E as ->. by rewrite lookup_insert_eq.
  - apply str_eqb_false in E. by rewrite lookup_insert_ne.
Qed.

(** * Decimal text is injective, padded or not *)

Definition decimal_value (acc : N) (l : list ascii) : N :=
  fold_left (fun a c => (a * 10 + (N_of_ascii c - 48))%N) l acc.

Lemma pretty_N_char_value d : (d < 10)%N -> (N_of_ascii (pretty_N_char d) - 48)%N = d.
Proof.
  intros H. assert (Hd : d = 0%N \/ d = 1%N \/ d = 2%N \/ d = 3%N \/ d = 4%N \/ d = 5%N
    \/ d = 6%N \/ d = 7%N \/ d = 8%N \/ d = 9%N) by lia.
  by repeat destruct Hd as [->|Hd]; subst.
Qed.

Lemma decimal_value_go x s :
  decimal_value 0 (chars (pretty_N_go x s)) = decimal_value x (chars s).
Proof.
  revert s. induction (N.lt_wf_0 x) as [x _ IH]. intros s.
  destruct (decide (x = 0)%N) as [->|Hx]; [by rewrite pretty_N_go_0|].
  assert (Hp : (0 < x)%N) by lia. rewrite (pretty_N_go_step _ _ Hp), IH.
  - change (decimal_value (x / 10 * 10 + (N_of_ascii (pretty_N_char (x mod 10)) - 48)) (chars s)
            = decimal_value x (chars s)).
    rewrite pretty_N_char_value by (apply N.mod_lt; lia). f_equal.
    pose proof (N.div_mod x 10). lia.
  - apply N.div_lt; lia.
Qed.

Lemma decimal_value_pretty z : 0 <= z -> decimal_value 0 (chars (decimal z)) = Z.to_N z.
Proof.
  intros Hz. destruct z as [|p|p]; [done| |lia].
  change (decimal_value 0 (chars (pretty (N.pos p))) = N.pos p).
  unfold pretty, pretty_N. rewrite decide_False by done. by rewrite decimal_value_go.
Qed.

Lemma decimal_value_zeros n s :
  decimal_value 0 (chars (repeat_char "0" n +:+ s)) = decimal_value 0 (chars s).
Proof. induction n as [|n IH]; [done|]. exact IH. Qed.

Lemma padded_decimal_inj w a b :
  0 <= a -> 0 <= b -> pad_left "0" w (decimal a) = pad_left "0" w (decimal b) -> a = b.
Proof.
  intros Ha Hb H. apply (f_equal (fun s => decimal_value 0 (chars s))) in H.
  unfold pad_left in H. rewrite !decimal_value_zeros, !decimal_value_pretty in H by done. lia.
Qed.

Lemma pretty_N_char_digit d : (d < 10)%N -> is_digit (pretty_N_char d) = true.
Proof.
  intros H. assert (Hd : d = 0%N \/ d = 1%N \/ d = 2%N \/ d = 3%N \/ d = 4%N \/ d = 5%N
    \/ d = 6%N \/ d = 7%N \/ d = 8%N \/ d = 9%N) by lia.
  by repeat destruct Hd as [->|Hd]; subst.
Qed.

Lemma digits_go x s :
  forallb is_digit (chars s) = true -> forallb is_digit (chars (pretty_N_go x s)) = true.
Proof.
  revert s. induction (N.lt_wf_0 x) as [x _ IH]. intros s Hs.
  destruct (decide (x = 0)%N) as [->|Hx]; [by rewrite pretty_N_go_0|].
  rewrite pretty_N_go_step by lia. apply IH; [apply N.div_lt; lia|].
  change (is_digit (pretty_N_char (x mod 10)) && forallb is_digit (chars s) = true).
  rewrite pretty_N_char_digit by (apply N.mod_lt; lia). done.
Qed.

(** The text of a number is a non-empty run of digits. *)
Lemma decimal_digits z : 0 <= z ->
  forallb is_digit (chars (decimal z)) = true /\ decimal z <> EmptyString.
Proof.
  intros Hz. split.
  - destruct z as [|p|p]; [done| |lia].
    change (forallb is_digit (chars (pretty (N.pos p))) = true).
    unfold pretty, pretty_N. rewrite decide_False by done. by apply digits_go.
  - intros H. pose proof (decimal_value_pretty z Hz) as Hv. rewrite H in Hv. cbn in Hv.
    assert (z = 0) as -> by lia. by vm_compute in H.
Qed.

(** Pieces of a joined text. *)
Lemma getline_join sep acc a b :
  forallb (fun c => negb (Ascii.eqb c sep)) a = true ->
  getline_all_aux sep acc (a ++ sep :: b) = of_chars (rev acc ++ a) :: getline_all_aux sep [] b.
Proof.
  revert acc. induction a as [|c a IH]; intros acc; cbn.
  - intros _. by rewrite Ascii.eqb_refl, app_nil_r.
  - intros [Hc Ha]%andb_true_iff. apply negb_true_iff in Hc. rewrite Hc, IH by done. cbn.
    by rewrite <- (assoc_L (++)).
Qed.

Lemma getline_single sep acc a :
  forallb (fun c => negb (Ascii.eqb c sep)) a = true -> acc ++ a <> [] ->
  getline_all_aux sep acc a = [of_chars (rev acc ++ a)].
Proof.
  revert acc. induction a as [|c a IH]; intros acc; cbn.
  - intros _. rewrite !app_nil_r. by destruct acc.
  - intros [Hc Ha]%andb_true_iff _. apply negb_true_iff in Hc. rewrite Hc, IH by done. cbn.
    by rewrite <- (assoc_L (++)).
Qed.

(** A character that occurs exactly once. *)
Lemma find_rfind_once c l i :
  find_char c l = Some i -> rfind_char c l = Some i ->
  exists a b, l = a ++ c :: b /\ i = List.length a /\ char_in c a = false /\ char_in c b = false.
Proof.
  unfold char_in. revert i. induction l as [|d l IH]; intros i; cbn; [done|].
  destruct (Ascii.eqb_spec c d) as [->|Hne].
  - intros [= <-] Hr. exists [], l. split_and!; [done|done|done|].
    destruct (rfind_char d l) eqn:E; [done|]. clear Hr IH. revert E.
    induction l as [|e l IH]; cbn; [done|].
    destruct (rfind_char d l); [done|]. destruct (Ascii.eqb d e); [done|]. auto.
  - destruct (find_char c l) as [j|] eqn:Ef; [|done]. intros [= <-].
    destruct (rfind_char c l) as [k|] eqn:Er; [|done]. intros [= ->].
    destruct (IH j eq_refl eq_refl) as (a & b & -> & -> & Ha & Hb).
    exists (d :: a), b. split_and!; [done|done| |done]. cbn.
    apply Ascii.eqb_neq in Hne. by rewrite Hne.
Qed.

(** A separator that does not occur in the left parts splits two joined strings
    the same way. *)
Lemma join_char_inj (sep : ascii) (a b c d : string) :
  str_contains_char a sep = false -> str_contains_char c sep = false ->
  a +:+ String sep b = c +:+ String sep d -> a = c /\ b = d.
Proof.
  revert c. induction a as [|x a IH]; intros [|y c] Ha Hc H; cbn in *; simplify_eq; [done|..].
  - unfold str_contains_char in Hc. cbn in Hc. by rewrite Ascii.eqb_refl in Hc.
  - unfold str_contains_char in Ha. cbn in Ha. by rewrite Ascii.eqb_refl in Ha.
  - unfold str_contains_char in *. cbn in *. apply orb_false_iff in Ha as [_ Ha].
    apply orb_false_iff in Hc as [_ Hc]. destruct (IH c) as [-> ->]; done.
Qed.

Lemma str_contains_char_app (a b : string) (c : ascii) :
  str_contains_char (a +:+ b) c = str_contains_char a c || str_contains_char b c.
Proof.
  unfold str_contains_char, chars, char_in. induction a as [|x a IH]; [done|].
  change ((String x a) +:+ b) with (String x (a +:+ b)).
  cbn [list_ascii_of_string existsb]. by rewrite IH, orb_assoc.
Qed.

(** The same for a separator that does not occur in the right parts. *)
Lemma join_char_inj_r (sep : ascii) (a b c d : string) :
  str_contains_char b sep = false -> str_contains_char d sep = false ->
  a +:+ String sep b = c +:+ String sep d -> a = c /\ b = d.
Proof.
  intros Hb Hd. revert c.
  assert (Hin : forall x y, str_contains_char (x +:+ String sep y) sep = true).
  { intros x y. rewrite str_contains_char_app. unfold str_contains_char at 2. cbn.
    rewrite Ascii.eqb_refl. by rewrite orb_true_r. }
  induction a as [|x a IH]; intros [|y c] H; cbn in H.
  - injection H as ->. done.
  - injection H as -> H. rewrite H, Hin in Hb. done.
  - injection H as -> H. rewrite <- H, Hin in Hd. done.
  - injection H as -> H. destruct (IH c H) as [-> ->]. done.
Qed.

Lemma str_starts_with_iff (s p : string) :
  str_starts_with s p = true <-> exists rest, s = p +:+ rest.
Proof.
  unfold str_starts_with. revert s. induction p as [|c p IH]; intros s.
  - split; [by exists s|by destruct s].
  - destruct s as [|d s]; cbn.
    + split; [done|]. by intros [rest H].
    + destruct (ascii_dec c d) as [->|Hne].
      * rewrite IH. split; intros [rest H]; exists rest.
        -- by rewrite H.
        -- by injection H.
      * split; [done|]. intros [rest H]. by injection H.
Qed.

Lemma str_ends_with_iff (s p : string) :
  str_ends_with s p = true <-> exists rest, s = rest +:+ p.
Proof.
  unfold str_ends_with. rewrite andb_true_iff, Nat.leb_le, str_eqb_iff, !str_length_chars.
  unfold str_drop. split.
  - intros [Hl Hd]. exists (str_take (List.length (chars s) - List.length (chars p)) s).
    apply chars_inj. rewrite chars_app. unfold str_take. rewrite chars_of_chars.
    assert (Hp : chars p = drop (List.length (chars s) - List.length (chars p)) (chars s))
      by (by rewrite <- Hd at 1; rewrite chars_of_chars).
    rewrite Hp at 2. by rewrite take_drop.
  - intros [rest ->]. rewrite chars_app, length_app. split; [lia|].
    replace (_ + _ - _)%nat with (List.length (chars rest)) by lia.
    by rewrite drop_app_length, of_chars_chars.
Qed.

(** A separator that occurs once on one side splits both sides there. *)
Lemma split_once c a b a' b' :
  char_in c a = false -> char_in c b = false -> a ++ c :: b = a' ++ c :: b' -> a = a' /\ b = b'.
Proof.
  unfold char_in. revert a'. induction a as [|x a IH]; intros [|y a'] Ha Hb H; cbn in *.
  - by injection H as ->.
  - injection H as -> ->. rewrite existsb_app in Hb. cbn in Hb.
    by rewrite Ascii.eqb_refl, orb_true_r in Hb.
  - injection H as -> _. by rewrite Ascii.eqb_refl in Ha.
  - injection H as -> H. apply orb_false_iff in Ha as [_ Ha].
    destruct (IH a' Ha Hb H) as [-> ->]. done.
Qed.

Lemma existsb_forallb {A} (p : A -> bool) l :
  existsb p l = negb (forallb (fun a => negb (p a)) l).
Proof. induction l as [|a l IH]; cbn; [done|]. rewrite IH. by destruct (p a). Qed.

Lemma find_char_at c a b :
  forallb (fun d => negb (Ascii.eqb d c)) a = true ->
  find_char c (a ++ c :: b) = Some (List.length a).
Proof.
  induction a as [|d a IH]; cbn; [by rewrite Ascii.eqb_refl|].
  intros [Hd Ha]%andb_true_iff. apply negb_true_iff in Hd. rewrite Ascii.eqb_sym, Hd.
  by rewrite IH.
Qed.

Lemma rfind_char_none c l :
  forallb (fun d => negb (Ascii.eqb d c)) l = true -> rfind_char c l = None.
Proof.
  induction l as [|d l IH]; cbn; [done|]. intros [Hd Hl]%andb_true_iff.
  apply negb_true_iff in Hd. by rewrite IH, Ascii.eqb_sym, Hd.
Qed.

Lemma rfind_char_at c a b :
  forallb (fun d => negb (Ascii.eqb d c)) b = true ->
  rfind_char c (a ++ c :: b) = Some (List.length a).
Proof.
  intros Hb. induction a as [|d a IH]; cbn.
  - by rewrite rfind_char_none, Ascii.eqb_refl.
  - by rewrite IH.
Qed.

Lemma char_in_forallb c l :
  char_in c l = false <-> forallb (fun d => negb (Ascii.eqb d c)) l = true.
Proof.
  induction l as [|d l IH]; [done|]. unfold char_in in *. cbn [existsb forallb].
  rewrite orb_false_iff, andb_true_iff, IH, (Ascii.eqb_sym d c), negb_true_iff. done.
Qed.
