(* ===== verification/Json.v ===== *)
(** JSON values as the platform handles them through [nlohmann::json], and the
    exceptions its code throws.

    [json] is the value type (objects are ordered maps, so [gmap string json]
    iterated with [Prelude.items]); the accessors follow the documented
    behaviour of [contains], [operator[]], [get<T>], [value(key, default)],
    [empty] and initializer lists.  Text (parsing, [dump], the [what()] of
    exceptions the libraries throw) and floating-point conversion belong to the
    libraries: they are the class [JsonLib], an argument of what uses them. *)
From stdpp Require Import base list gmap strings.
From Stdlib Require Import ZArith Ascii String.
From S2P Require Import Prelude.

Inductive json : Type :=
| JNull
| JBool (b : bool)
| JInt (z : Z)
| JFloat (literal : string)
| JString (s : string)
| JArray (l : list json)
| JObject (m : gmap string json).

(** Exceptions, by the C++ class thrown; of the result a [SourceFetchError] carries
    the code reads whether the program timed out, its exit code and its errors. *)
Inductive exn : Type :=
| RuntimeError (what : string)
| ValidationError (what : string)
| MemoryStateStoreError (what : string)
| PostgresStateStoreError (what : string)
| InvalidArgument (what : string)
| FetchError (what : string)
| CacheError (what : string)
| WorkspaceError (what : string)
| ResolutionError (what : string)
| PublishError (what : string)
| ToolError (what : string)
| LogicError (what : string)
| SourceFetchError (operation what : string) (timed_out : bool) (exit_code : Z) (stderr_text : string)
| OutOfRange
| JsonTypeError (id : Z) (value : json)
| JsonParseError (text : string)
| FilesystemError (operation path : string)
| UndefinedBehaviour.

(** [json_dump] is [dump()] and [json_dump_indented] is [dump(2)]; both throw on
    a string that is not UTF-8. *)
Class JsonLib := {
  json_parse : string -> option json;
  json_dump : json -> exn + string;
  json_dump_indented : json -> exn + string;
  library_what : exn -> string;
  float_to_Z : string -> Z;
  numbers_equal : json -> json -> bool;
}.

(** [error.what()]. *)
Definition what `{JsonLib} (e : exn) : string :=
  match e with
  | RuntimeError w | ValidationError w | InvalidArgument w | MemoryStateStoreError w
  | PostgresStateStoreError w | FetchError w | CacheError w | WorkspaceError w
  | ResolutionError w | PublishError w | ToolError w | LogicError w
  | SourceFetchError _ w _ _ _ => w
  | _ => library_what e
  end.

(** [catch (const std::exception &error)], [catch (const MemoryStateStoreError &)]
    and [catch (const PostgresStoreError &)]; undefined behaviour is no exception. *)
Definition catch_std {S A} (m : M exn S A) (h : exn -> M exn S A) : M exn S A :=
  catch m (fun e => match e with UndefinedBehaviour => throw e | _ => h e end).
Definition catch_memory {S A} (m : M exn S A) (h : string -> M exn S A) : M exn S A :=
  catch m (fun e => match e with MemoryStateStoreError w => h w | _ => throw e end).
Definition catch_postgres {S A} (m : M exn S A) (h : string -> M exn S A) : M exn S A :=
  catch m (fun e => match e with PostgresStateStoreError w => h w | _ => throw e end).

Definition is_object (j : json) : bool := match j with JObject _ => true | _ => false end.
Definition is_array (j : json) : bool := match j with JArray _ => true | _ => false end.
Definition is_string (j : json) : bool := match j with JString _ => true | _ => false end.
Definition is_boolean (j : json) : bool := match j with JBool _ => true | _ => false end.
Definition is_number_integer (j : json) : bool := match j with JInt _ => true | _ => false end.
Definition is_null (j : json) : bool := match j with JNull => true | _ => false end.

(** [j.empty()]. *)
Definition j_empty (j : json) : bool :=
  match j with
  | JNull => true
  | JArray [] => true
  | JArray _ => false
  | JObject m => bool_decide (m = ∅)
  | _ => false
  end.

Definition j_lookup (j : json) (key : string) : option json :=
  match j with JObject m => m !! key | _ => None end.

(** [j.contains(key)]. *)
Definition contains (j : json) (key : string) : bool :=
  match j_lookup j key with Some _ => true | None => false end.

(** [j[key]] on a constant value: a missing key is outside the library's
    contract. *)
Definition at_key (j : json) (key : string) : exn + json :=
  match j with
  | JObject m => match m !! key with Some v => inr v | None => inl UndefinedBehaviour end
  | _ => inl (JsonTypeError 305 j)
  end.

Definition get_string (j : json) : exn + string :=
  match j with JString s => inr s | _ => inl (JsonTypeError 302 j) end.

Definition get_bool (j : json) : exn + bool :=
  match j with JBool b => inr b | _ => inl (JsonTypeError 302 j) end.

(** [get<int>]: any arithmetic value, converted to [int]. *)
Definition get_int `{JsonLib} (j : json) : exn + Z :=
  match j with
  | JInt z => inr (i32 z)
  | JBool b => inr (if b then 1 else 0)
  | JFloat t => inr (i32 (float_to_Z t))
  | _ => inl (JsonTypeError 302 j)
  end.

(** [j.value(key, default)]. *)
Definition value_or {A} (get : json -> exn + A) (j : json) (key : string) (d : A) : exn + A :=
  match j with
  | JObject m => match m !! key with Some v => get v | None => inr d end
  | _ => inl (JsonTypeError 306 j)
  end.
Definition value_string := value_or get_string.
Definition value_bool := value_or get_bool.
Definition value_int `{JsonLib} := value_or get_int.
Definition value_json := value_or (fun j => inr j).

(** [j.at(key)]. *)
Definition j_at (j : json) (key : string) : exn + json :=
  match j with
  | JObject m => match m !! key with Some v => inr v | None => inl OutOfRange end
  | _ => inl (JsonTypeError 304 j)
  end.

(** [get<int64_t>]. *)
Definition get_int64 `{JsonLib} (j : json) : exn + Z :=
  match j with
  | JInt z => inr ((z + 2 ^ 63) mod 2 ^ 64 - 2 ^ 63)
  | JBool b => inr (if b then 1 else 0)
  | JFloat t => inr (float_to_Z t)
  | _ => inl (JsonTypeError 302 j)
  end.

(** [j[key].get<std::string>()]. *)
Definition field_string (j : json) (key : string) : exn + string :=
  v <-? at_key j key ;; get_string v.

(** [{{"k", v}, ...}]: the first of two equal keys is kept. *)
Definition obj (l : list (string * json)) : json := JObject (list_to_map l).

(** [payload[key] = v] on a value that is an object (or null). *)
Definition j_set (j : json) (key : string) (v : json) : json :=
  match j with
  | JObject m => JObject (<[key := v]> m)
  | JNull => JObject {[ key := v ]}
  | _ => j
  end.

(** [if (c) payload[key] = v;] *)
Definition j_set_if (c : bool) (key : string) (v : json) (j : json) : json :=
  if c then j_set j key v else j.

(** [j == text]. *)
Definition equals_string (j : json) (text : string) : bool :=
  match j with JString s => s =s text | _ => false end.

(** [payload[key] = v] on any value. *)
Definition j_assign (j : json) (key : string) (v : json) : exn + json :=
  match j with
  | JObject _ | JNull => inr (j_set j key v)
  | _ => inl (JsonTypeError 305 j)
  end.

(** [j.size()]. *)
Definition j_size (j : json) : Z :=
  match j with
  | JNull => 0
  | JArray l => Z.of_nat (List.length l)
  | JObject m => Z.of_nat (size m)
  | _ => 1
  end.

(** [j.push_back(v)]. *)
Definition j_push_back (j v : json) : exn + json :=
  match j with
  | JNull => inr (JArray [v])
  | JArray l => inr (JArray (l ++ [v]))
  | _ => inl (JsonTypeError 308 j)
  end.

Definition strings (l : list string) : json := JArray (map JString l).

(** * Lemmas *)

Lemma contains_lookup j k : contains j k = true <-> is_Some (j_lookup j k).
Proof. unfold contains. destruct (j_lookup j k); split; naive_solver. Qed.

Lemma at_key_lookup j k v : j_lookup j k = Some v -> at_key j k = inr v.
Proof. destruct j; cbn; try done. by intros ->. Qed.

Lemma at_key_inr j k v : at_key j k = inr v -> j_lookup j k = Some v.
Proof. destruct j; cbn; try done. by destruct (m !! k); intros; simplify_eq. Qed.

Lemma j_lookup_set_eq m k v : j_lookup (j_set (JObject m) k v) k = Some v.
Proof. cbn. apply lookup_insert_eq. Qed.

Lemma j_lookup_set_ne j k k' v : k <> k' -> j_lookup (j_set j k v) k' = j_lookup j k'.
Proof.
  intros Hne. destruct j; cbn; try done.
  - by rewrite lookup_singleton_ne.
  - by rewrite lookup_insert_ne.
Qed.

Lemma field_string_lookup j k s : j_lookup j k = Some (JString s) -> field_string j k = inr s.
Proof. intros H. unfold field_string. by rewrite (at_key_lookup _ _ _ H). Qed.

Lemma value_string_absent m k d : m !! k = None -> value_string (JObject m) k d = inr d.
Proof. intros H. unfold value_string, value_or. by rewrite H. Qed.

Lemma is_string_true j : is_string j = true <-> exists s, j = JString s.
Proof. destruct j; split; naive_solver. Qed.

(** Evaluate the reads of string fields whose values are known. *)
Ltac read_fields :=
  repeat match goal with
         | Hk : j_lookup ?b ?k = Some (JString _) |- context [field_string ?b ?k] =>
             rewrite (field_string_lookup b k _ Hk)
         end.
