(* ===== verification/JsonFacts.v ===== *)
(** Induction on JSON values, their equality, and one concrete text format for
    them on which the laws of printing and parsing hold. *)
From stdpp Require Import base list gmap strings countable.
From Stdlib Require Import ZArith Lia Ascii String.
From S2P Require Import Prelude Json.

(** * Induction *)

Fixpoint json_size (j : json) : nat :=
  match j with
  | JArray l => S (list_sum (map json_size l))
  | JObject m => S (map_fold (fun _ v n => json_size v + n)%nat 0%nat m)
  | _ => 1
  end.

Lemma json_size_member m k v : m !! k = Some v -> (json_size v < json_size (JObject m))%nat.
Proof.
  intros Hk. cbn. rewrite (map_fold_delete_L _ _ k v m);
    [apply Nat.lt_succ_r, Nat.le_add_r|intros; lia|done].
Qed.

Lemma json_size_element l v : v ∈ l -> (json_size v < json_size (JArray l))%nat.
Proof.
  intros Hv. cbn. unfold list_sum.
  induction Hv as [v l|v w l _ IH]; cbn [map fold_right] in *; lia.
Qed.

Lemma json_induction (P : json -> Prop) :
  P JNull -> (forall b, P (JBool b)) -> (forall z, P (JInt z)) -> (forall t, P (JFloat t)) ->
  (forall s, P (JString s)) -> (forall l, Forall P l -> P (JArray l)) ->
  (forall m, map_Forall (fun _ => P) m -> P (JObject m)) -> forall j, P j.
Proof.
  intros H1 H2 H3 H4 H5 Ha Ho j. remember (json_size j) as n eqn:Hn. revert j Hn.
  induction (lt_wf n) as [n _ IH]. intros j ->.
  destruct j as [|b|z|t|s|l|m]; auto.
  - apply Ha, Forall_forall. intros v Hv%list_elem_of_In.
    apply (IH (json_size v)); [by apply json_size_element|done].
  - apply Ho. intros k v Hk. apply (IH (json_size v)); [by apply (json_size_member m k)|done].
Qed.

(** * Equality *)

(** [a == b]; two numbers of which one is a float are compared by the library. *)
Fixpoint json_eqb `{JsonLib} (a b : json) : bool :=
  match a, b with
  | JNull, JNull => true
  | JBool x, JBool y => Bool.eqb x y
  | JInt x, JInt y => x =? y
  | JFloat _, JFloat _ | JInt _, JFloat _ | JFloat _, JInt _ => numbers_equal a b
  | JString x, JString y => x =s y
  | JArray x, JArray y =>
      (fix go x y := match x, y with
                     | [], [] => true
                     | u :: x, v :: y => json_eqb u v && go x y
                     | _, _ => false
                     end) x y
  | JObject x, JObject y =>
      Nat.eqb (size x) (size y)
      && map_fold (fun k v acc => match y !! k with Some w => json_eqb v w | None => false end
                                  && acc) true x
  | _, _ => false
  end.

Lemma map_fold_andb {A} (p : string -> A -> bool) m :
  map_fold (fun k v acc => p k v && acc) true m = true <-> map_Forall (fun k v => p k v = true) m.
Proof.
  induction m as [|k v m Hk IH] using map_ind; [by rewrite map_fold_empty|].
  rewrite map_fold_insert_L by (done || intros; by rewrite !andb_assoc, (andb_comm (p _ _))).
  rewrite andb_true_iff, IH, map_Forall_insert by done. done.
Qed.

(** A value without floats is equal to itself and to nothing else. *)
Fixpoint float_free (j : json) : bool :=
  match j with
  | JFloat _ => false
  | JArray l => forallb float_free l
  | JObject m => map_fold (fun _ v acc => float_free v && acc) true m
  | _ => true
  end.

Lemma json_eqb_refl `{JsonLib} j : float_free j = true -> json_eqb j j = true.
Proof.
  induction j as [|b|z|t|s|l IH|m IH] using json_induction; cbn; intros Hf; try done.
  - by apply Bool.eqb_reflx.
  - apply Z.eqb_refl.
  - apply String.eqb_refl.
  - induction IH as [|v l Hv _ IHl]; [done|]. cbn in *. apply andb_true_iff in Hf as [Hf1 Hf2].
    by rewrite Hv, IHl.
  - rewrite Nat.eqb_refl. cbn. apply map_fold_andb. intros k v Hk. rewrite Hk.
    apply (IH k v Hk). apply (map_fold_andb (fun _ v => float_free v)) in Hf. by apply (Hf k).
Qed.

(** * A concrete text format *)

Abbreviation tree := (gen_tree (unit + bool + Z + string)).

Fixpoint json_tree (j : json) : tree :=
  match j with
  | JNull => GenLeaf (inl (inl (inl tt)))
  | JBool b => GenLeaf (inl (inl (inr b)))
  | JInt z => GenLeaf (inl (inr z))
  | JFloat t => GenNode 0 [GenLeaf (inr t)]
  | JString s => GenLeaf (inr s)
  | JArray l => GenNode 1 (map json_tree l)
  | JObject m => GenNode 2 (map_fold (fun k v l => GenNode 3 [GenLeaf (inr k); json_tree v] :: l)
                              [] m)
  end.

Definition collect {A B} (f : A -> option B) : list A -> option (list B) :=
  fix go l := match l with
              | [] => Some []
              | a :: l => b ← f a; bs ← go l; Some (b :: bs)
              end.
Definition collect_fields (f : tree -> option json) : list tree -> option (gmap string json) :=
  fix go l := match l with
              | [] => Some ∅
              | GenNode 3 [GenLeaf (inr k); t] :: l =>
                  j ← f t; m ← go l; Some (<[k := j]> m)
              | _ => None
              end.

Fixpoint tree_json (t : tree) : option json :=
  match t with
  | GenLeaf (inl (inl (inl tt))) => Some JNull
  | GenLeaf (inl (inl (inr b))) => Some (JBool b)
  | GenLeaf (inl (inr z)) => Some (JInt z)
  | GenLeaf (inr s) => Some (JString s)
  | GenNode 0 [GenLeaf (inr t)] => Some (JFloat t)
  | GenNode 1 l => JArray <$> collect tree_json l
  | GenNode 2 l => JObject <$> collect_fields tree_json l
  | _ => None
  end.

Lemma tree_json_tree j : tree_json (json_tree j) = Some j.
Proof.
  induction j as [|b|z|t|s|l IH|m IH] using json_induction; try done; cbn.
  - enough (collect tree_json (map json_tree l) = Some l) as -> by done.
    induction IH as [|v l Hv _ IHl]; [done|]. cbn. by rewrite Hv, IHl.
  - enough (collect_fields tree_json
              (map_fold (fun k v l => GenNode 3 [GenLeaf (inr k); json_tree v] :: l) [] m)
            = Some m) as -> by done.
    rewrite map_fold_foldr. rewrite <- (list_to_map_to_list m) at 2.
    assert (Hl : Forall (fun p => tree_json (json_tree p.2) = Some p.2) (map_to_list m)).
    { apply Forall_forall. intros [k v] Hk%list_elem_of_In%elem_of_map_to_list. by apply (IH k v). }
    induction Hl as [|[k v] l Hv _ IHl]; [done|]. cbn in Hv |- *. by rewrite Hv, IHl.
Qed.

#[export] Instance json_eq_dec : EqDecision json.
Proof.
  intros a b. destruct (decide (json_tree a = json_tree b)) as [E|E].
  - left. apply (f_equal tree_json) in E. rewrite !tree_json_tree in E. by injection E.
  - right. by intros ->.
Defined.
#[export] Instance json_countable : Countable json :=
  inj_countable json_tree tree_json tree_json_tree.

(** A value printed as the binary digits of its code, and read back. *)
Fixpoint digits (p : positive) : string :=
  match p with
  | xH => EmptyString
  | xO p => String "0" (digits p)
  | xI p => String "1" (digits p)
  end.
Fixpoint undigits (s : string) : positive :=
  match s with
  | String c s => if Ascii.eqb c "0" then xO (undigits s)
                  else if Ascii.eqb c "1" then xI (undigits s) else xH
  | EmptyString => xH
  end.
Definition print_json (j : json) : string := digits (encode j).
Definition read_json_text (s : string) : option json := decode (undigits s).

Lemma undigits_digits p c rest :
  Ascii.eqb c "0" = false -> Ascii.eqb c "1" = false ->
  undigits (digits p +:+ String c rest) = p /\ undigits (digits p) = p.
Proof.
  intros Hc0 Hc1. induction p as [p [H1 H2]|p [H1 H2]|]; [| |].
  - split; [exact (f_equal xI H1)|exact (f_equal xI H2)].
  - split; [exact (f_equal xO H1)|exact (f_equal xO H2)].
  - split; [|done]. change (undigits (String c rest) = xH).
    unfold undigits; fold undigits. by rewrite Hc0, Hc1.
Qed.

Lemma read_print_json j c rest :
  Ascii.eqb c "0" = false -> Ascii.eqb c "1" = false ->
  read_json_text (print_json j +:+ String c rest) = Some j.
Proof.
  intros Hc0 Hc1. unfold read_json_text, print_json.
  destruct (undigits_digits (encode j) c rest) as [-> _]; [done|done|].
  apply decode_encode.
Qed.

Lemma print_json_one_line j : char_in "010" (chars (print_json j)) = false.
Proof.
  unfold print_json. generalize (encode j). induction p as [p IH|p IH|]; [| |done]; exact IH.
Qed.

(** * The laws of printing and parsing *)

(** What [dump], [dump(2)] and [parse] promise: what is printed reads back, white
    space after it aside, and [dump] stays on one line. *)
Class JsonTextLaws `{JsonLib} : Prop := {
  parse_dump : forall j text, json_dump j = inr text -> json_parse text = Some j;
  dump_one_line : forall j text, json_dump j = inr text ->
    text <> EmptyString /\ char_in "010" (chars text) = false;
  parse_dump_indented : forall j text, json_dump_indented j = inr text ->
    json_parse (text +:+ String "010" EmptyString) = Some j;
}.

(** The concrete format. *)
Definition text_json_lib : JsonLib :=
  {| json_parse := read_json_text; json_dump := fun j => inr (print_json j +:+ "2");
     json_dump_indented := fun j => inr (print_json j);
     library_what := fun _ => "error"%string; float_to_Z := fun _ => 0;
     numbers_equal := fun a b => bool_decide (a = b) |}.
Lemma text_json_laws : @JsonTextLaws text_json_lib.
Proof.
  split.
  - intros j text [= <-]. by apply read_print_json.
  - intros j text [= <-]. split; [by destruct (print_json j)|].
    rewrite chars_app. unfold char_in. rewrite existsb_app. cbn [existsb]. rewrite orb_false_r.
    apply print_json_one_line.
  - intros j text [= <-]. by apply read_print_json.
Qed.
