(* ===== verification/StateRecords.v ===== *)
(** The records of the platform state and their JSON payloads
    ([PlatformStorage/PlatformPersistence/StateRecords.hpp], [.cpp]). *)
From stdpp Require Import base list gmap strings.
From Stdlib Require Import ZArith Ascii String.
From S2P Require Import Prelude Json.

Record ArtifactRecord := mkArtifact {
  artifact_id : string;
  artifact_object_key : string;
  artifact_kind : string;
}.

Record PlatformJobRecord := mkJob {
  job_id : string;
  job_tenant_id : string;
  job_user_id : string;
  job_workspace_id : string;
  job_action : string;
  job_status : string;
  job_region : string;
  job_worker_pool_key : string;
  job_created_at : string;
  job_worker_id : string;
  job_finished_at : string;
  job_request : json;
  job_artifacts : list ArtifactRecord;
}.

Definition default_created_at : string := "2026-04-24T00:00:00Z".

Record CompileContainerRecord := mkContainer {
  container_id : string;
  container_worker_id : string;
  container_tenant_id : string;
  container_user_id : string;
  current_workspace_id : string;
  container_region : string;
  container_worker_pool_key : string;
  container_status : string;
  container_capacity : Z;
  workspace_generation : Z;
  container_created_at : string;
  last_switched_at : string;
  last_switch_reason : string;
}.

Record JobEventRecord := mkEvent {
  event_id : string;
  event_job_id : string;
  event_status : string;
  event_message : string;
  event_created_at : string;
}.

Record MirrorCursorRecord := mkMirror {
  mirror_id : string;
  mirror_region : string;
  mirror_origin : string;
  mirror_freshness : string;
  replay_cursor : string;
  mirror_publication_id : string;
  mirror_repository_version_id : string;
  synced_at : string;
  mirror_tree_size : Z;
}.

Record RegistryPackageRecord := mkPackage {
  pkg_package_id : string;
  pkg_namespace : string;
  pkg_name : string;
  pkg_created_at : string;
  pkg_created_by : string;
  pkg_visibility : string;
}.

Record RegistryPackageReleaseRecord := mkRelease {
  rel_package_id : string;
  rel_version : string;
  rel_edition : string;
  rel_manifest_sha256 : string;
  rel_source_artifact_sha256 : string;
  rel_dependencies : json;
  rel_publisher_id : string;
  rel_published_at : string;
  rel_yanked : bool;
  rel_yanked_reason : string;
}.

Record RegistryPackageOwnerRecord := mkOwner {
  own_package_id : string;
  own_owner_id : string;
  own_owner_kind : string;
  own_role : string;
  own_added_by : string;
  own_added_at : string;
}.

Record RegistryPublishTokenRecord := mkToken {
  tok_token_id : string;
  tok_token_hash : string;
  tok_owner_id : string;
  tok_scopes : list string;
  tok_package_patterns : list string;
  tok_expires_at : string;
  tok_revoked_at : string;
  tok_created_at : string;
}.

Record RegistryRepositoryRecord := mkRepository {
  repo_repository_id : string;
  repo_name : string;
  repo_tenant_id : string;
  repo_policy : json;
  repo_created_at : string;
}.

Record RegistryRepositoryVersionRecord := mkRepositoryVersion {
  ver_repository_version_id : string;
  ver_repository_id : string;
  ver_sequence : Z;
  ver_change_kind : string;
  ver_change_ref : string;
  ver_created_at : string;
}.

Record RegistryPublicationRecord := mkPublication {
  pub_publication_id : string;
  pub_repository_version_id : string;
  pub_layout_version : Z;
  pub_root_path : string;
  pub_manifest_sha256 : string;
  pub_tree_size : Z;
  pub_created_at : string;
  pub_verified : bool;
}.

Record RegistryDistributionRecord := mkDistribution {
  dist_distribution_id : string;
  dist_repository_id : string;
  dist_name : string;
  dist_base_url : string;
  dist_current_publication_id : string;
  dist_previous_publication_id : string;
  dist_updated_at : string;
}.

Record RegistryAuditEventRecord := mkAuditEvent {
  aud_event_id : string;
  aud_actor_id : string;
  aud_operation : string;
  aud_target : json;
  aud_request_id : string;
  aud_result : string;
  aud_created_at : string;
}.

Definition SerializeArtifact (artifact : ArtifactRecord) : json :=
  obj [("artifact_id", JString (artifact_id artifact));
       ("object_key", JString (artifact_object_key artifact));
       ("kind", JString (artifact_kind artifact))].

Definition SerializeJobRecord (job : PlatformJobRecord) : json :=
  let payload :=
    obj [("job_id", JString (job_id job));
         ("tenant_id", JString (job_tenant_id job));
         ("user_id", JString (job_user_id job));
         ("workspace_id", JString (job_workspace_id job));
         ("action", JString (job_action job));
         ("status", JString (job_status job));
         ("region", JString (job_region job));
         ("worker_pool_key", JString (job_worker_pool_key job));
         ("created_at", JString (job_created_at job))] in
  let payload := j_set_if (negb (is_empty (job_worker_id job)))
                   "worker_id" (JString (job_worker_id job)) payload in
  let payload := j_set_if (negb (is_empty (job_finished_at job)))
                   "finished_at" (JString (job_finished_at job)) payload in
  let payload := j_set_if (negb (j_empty (job_request job)))
                   "job_request" (job_request job) payload in
  j_set_if (match job_artifacts job with [] => false | _ => true end)
    "artifacts" (JArray (map SerializeArtifact (job_artifacts job))) payload.

Definition SerializeJobEvent (event : JobEventRecord) : json :=
  obj [("event_id", JString (event_id event));
       ("job_id", JString (event_job_id event));
       ("status", JString (event_status event));
       ("message", JString (event_message event));
       ("created_at", JString (event_created_at event))].

Definition SerializeCompileContainerRecord (container : CompileContainerRecord) : json :=
  let payload :=
    obj [("container_id", JString (container_id container));
         ("worker_id", JString (container_worker_id container));
         ("tenant_id", JString (container_tenant_id container));
         ("user_id", JString (container_user_id container));
         ("current_workspace_id", JString (current_workspace_id container));
         ("region", JString (container_region container));
         ("worker_pool_key", JString (container_worker_pool_key container));
         ("status", JString (container_status container));
         ("capacity", JInt (container_capacity container));
         ("workspace_generation", JInt (workspace_generation container));
         ("created_at", JString (container_created_at container))] in
  let payload := j_set_if (negb (is_empty (last_switched_at container)))
                   "last_switched_at" (JString (last_switched_at container)) payload in
  j_set_if (negb (is_empty (last_switch_reason container)))
    "last_switch_reason" (JString (last_switch_reason container)) payload.

Definition SerializeMirrorCursorRecord (mirror : MirrorCursorRecord) : json :=
  let payload :=
    obj [("mirror_id", JString (mirror_id mirror));
         ("region", JString (mirror_region mirror));
         ("origin", JString (mirror_origin mirror));
         ("freshness", JString (mirror_freshness mirror));
         ("replay_cursor", JString (replay_cursor mirror))] in
  let payload := j_set_if (negb (is_empty (mirror_publication_id mirror)))
                   "publication_id" (JString (mirror_publication_id mirror)) payload in
  let payload := j_set_if (negb (is_empty (mirror_repository_version_id mirror)))
                   "repository_version_id" (JString (mirror_repository_version_id mirror)) payload in
  let payload := j_set_if (negb (is_empty (synced_at mirror)))
                   "synced_at" (JString (synced_at mirror)) payload in
  j_set_if (0 <? mirror_tree_size mirror) "tree_size" (JInt (mirror_tree_size mirror)) payload.

Definition SerializeRegistryPackageRecord (record : RegistryPackageRecord) : json :=
  obj [("package_id", JString (pkg_package_id record));
       ("namespace", JString (pkg_namespace record));
       ("name", JString (pkg_name record));
       ("created_at", JString (pkg_created_at record));
       ("created_by", JString (pkg_created_by record));
       ("visibility", JString (pkg_visibility record))].

Definition SerializeRegistryPackageReleaseRecord (record : RegistryPackageReleaseRecord) : json :=
  obj [("package_id", JString (rel_package_id record));
       ("version", JString (rel_version record));
       ("edition", JString (rel_edition record));
       ("manifest_sha256", JString (rel_manifest_sha256 record));
       ("source_artifact_sha256", JString (rel_source_artifact_sha256 record));
       ("dependencies", rel_dependencies record);
       ("publisher_id", JString (rel_publisher_id record));
       ("published_at", JString (rel_published_at record));
       ("yanked", JBool (rel_yanked record));
       ("yanked_reason", JString (rel_yanked_reason record))].

Definition SerializeRegistryPackageOwnerRecord (record : RegistryPackageOwnerRecord) : json :=
  obj [("package_id", JString (own_package_id record));
       ("owner_id", JString (own_owner_id record));
       ("owner_kind", JString (own_owner_kind record));
       ("role", JString (own_role record));
       ("added_by", JString (own_added_by record));
       ("added_at", JString (own_added_at record))].

Definition SerializeRegistryPublishTokenRecord
    (record : RegistryPublishTokenRecord) (include_hash : bool) : json :=
  let payload :=
    obj [("token_id", JString (tok_token_id record));
         ("owner_id", JString (tok_owner_id record));
         ("scopes", strings (tok_scopes record));
         ("package_patterns", strings (tok_package_patterns record));
         ("expires_at", JString (tok_expires_at record));
         ("revoked_at", JString (tok_revoked_at record));
         ("created_at", JString (tok_created_at record))] in
  j_set_if include_hash "token_hash" (JString (tok_token_hash record)) payload.

Definition SerializeRegistryRepositoryRecord (record : RegistryRepositoryRecord) : json :=
  obj [("repository_id", JString (repo_repository_id record));
       ("name", JString (repo_name record));
       ("tenant_id", JString (repo_tenant_id record));
       ("policy", repo_policy record);
       ("created_at", JString (repo_created_at record))].

Definition SerializeRegistryRepositoryVersionRecord
    (record : RegistryRepositoryVersionRecord) : json :=
  obj [("repository_version_id", JString (ver_repository_version_id record));
       ("repository_id", JString (ver_repository_id record));
       ("sequence", JInt (ver_sequence record));
       ("change_kind", JString (ver_change_kind record));
       ("change_ref", JString (ver_change_ref record));
       ("created_at", JString (ver_created_at record))].

Definition SerializeRegistryPublicationRecord (record : RegistryPublicationRecord) : json :=
  obj [("publication_id", JString (pub_publication_id record));
       ("repository_version_id", JString (pub_repository_version_id record));
       ("layout_version", JInt (pub_layout_version record));
       ("root_path", JString (pub_root_path record));
       ("manifest_sha256", JString (pub_manifest_sha256 record));
       ("tree_size", JInt (pub_tree_size record));
       ("created_at", JString (pub_created_at record));
       ("verified", JBool (pub_verified record))].

Definition SerializeRegistryDistributionRecord (record : RegistryDistributionRecord) : json :=
  obj [("distribution_id", JString (dist_distribution_id record));
       ("repository_id", JString (dist_repository_id record));
       ("name", JString (dist_name record));
       ("base_url", JString (dist_base_url record));
       ("current_publication_id", JString (dist_current_publication_id record));
       ("previous_publication_id", JString (dist_previous_publication_id record));
       ("updated_at", JString (dist_updated_at record))].

Definition SerializeRegistryAuditEventRecord (record : RegistryAuditEventRecord) : json :=
  obj [("event_id", JString (aud_event_id record));
       ("actor_id", JString (aud_actor_id record));
       ("operation", JString (aud_operation record));
       ("target", aud_target record);
       ("request_id", JString (aud_request_id record));
       ("result", JString (aud_result record));
       ("created_at", JString (aud_created_at record))].

(** [CompileContainerRecordFactory::CreateFromRegistration]; the members it does
    not name keep their default initializers. *)
Definition CreateFromRegistration `{JsonLib} (body : json) : exn + CompileContainerRecord :=
  container_id <-? field_string body "container_id" ;;
  worker_id <-? field_string body "worker_id" ;;
  tenant_id <-? field_string body "tenant_id" ;;
  user_id <-? field_string body "user_id" ;;
  workspace_id <-? field_string body "workspace_id" ;;
  region <-? field_string body "region" ;;
  worker_pool_key <-? field_string body "worker_pool_key" ;;
  status <-? value_string body "status" "active" ;;
  capacity <-? value_int body "capacity" 1 ;;
  inr {| container_id := container_id;
         container_worker_id := worker_id;
         container_tenant_id := tenant_id;
         container_user_id := user_id;
         current_workspace_id := workspace_id;
         container_region := region;
         container_worker_pool_key := worker_pool_key;
         container_status := status;
         container_capacity := capacity;
         workspace_generation := 1;
         container_created_at := default_created_at;
         last_switched_at := EmptyString;
         last_switch_reason := EmptyString |}.
