(* ===== verification/MemoryStateStore.v ===== *)
(** The in-memory platform state
    ([PlatformStorage/PlatformPersistence/MemoryStateStore.hpp], [.cpp]): the
    record of the class's members, one definition per method, and the job state
    machine's invariants over every sequence of calls. *)
From stdpp Require Import base list gmap strings pretty.
From Stdlib Require Import ZArith Lia Ascii String.
From S2P Require Import Prelude Json StateRecords.

Record MemoryStateStore := mkStore {
  jobs_ : gmap string PlatformJobRecord;
  events_ : gmap string (list JobEventRecord);
  workers_ : gmap string json;
  compile_containers_ : gmap string CompileContainerRecord;
  workgroups_ : gmap string (gmap string json);
  mirrors_ : gmap string MirrorCursorRecord;
  published_releases_ : gmap string json;
  registry_packages_ : gmap string RegistryPackageRecord;
  registry_releases_ : gmap string RegistryPackageReleaseRecord;
  registry_owners_ : gmap string RegistryPackageOwnerRecord;
  registry_tokens_ : gmap string RegistryPublishTokenRecord;
  registry_repositories_ : gmap string RegistryRepositoryRecord;
  registry_repository_versions_ : gmap string RegistryRepositoryVersionRecord;
  registry_publications_ : gmap string RegistryPublicationRecord;
  registry_distributions_ : gmap string RegistryDistributionRecord;
  registry_audit_events_ : list RegistryAuditEventRecord;
  next_job_sequence_ : Z;
  next_registry_token_sequence_ : Z;
  next_registry_audit_sequence_ : Z;
}.

Definition initial_store : MemoryStateStore :=
  mkStore ∅ ∅ ∅ ∅ ∅ ∅ ∅ ∅ ∅ ∅ ∅ ∅ ∅ ∅ ∅ [] 1 1 1.

Definition set_jobs_ (x : gmap string PlatformJobRecord) (s : MemoryStateStore) : MemoryStateStore :=
    mkStore x (events_ s) (workers_ s) (compile_containers_ s) (workgroups_ s) (mirrors_ s)
    (published_releases_ s) (registry_packages_ s) (registry_releases_ s) (registry_owners_ s)
    (registry_tokens_ s) (registry_repositories_ s) (registry_repository_versions_ s)
    (registry_publications_ s) (registry_distributions_ s) (registry_audit_events_ s)
    (next_job_sequence_ s) (next_registry_token_sequence_ s) (next_registry_audit_sequence_ s).
Definition set_events_ (x : gmap string (list JobEventRecord)) (s : MemoryStateStore) : MemoryStateStore :=
    mkStore (jobs_ s) x (workers_ s) (compile_containers_ s) (workgroups_ s) (mirrors_ s)
    (published_releases_ s) (registry_packages_ s) (registry_releases_ s) (registry_owners_ s)
    (registry_tokens_ s) (registry_repositories_ s) (registry_repository_versions_ s)
    (registry_publications_ s) (registry_distributions_ s) (registry_audit_events_ s)
    (next_job_sequence_ s) (next_registry_token_sequence_ s) (next_registry_audit_sequence_ s).
Definition set_workers_ (x : gmap string json) (s : MemoryStateStore) : MemoryStateStore :=
    mkStore (jobs_ s) (events_ s) x (compile_containers_ s) (workgroups_ s) (mirrors_ s)
    (published_releases_ s) (registry_packages_ s) (registry_releases_ s) (registry_owners_ s)
    (registry_tokens_ s) (registry_repositories_ s) (registry_repository_versions_ s)
    (registry_publications_ s) (registry_distributions_ s) (registry_audit_events_ s)
    (next_job_sequence_ s) (next_registry_token_sequence_ s) (next_registry_audit_sequence_ s).
Definition set_compile_containers_ (x : gmap string CompileContainerRecord) (s : MemoryStateStore) : MemoryStateStore :=
    mkStore (jobs_ s) (events_ s) (workers_ s) x (workgroups_ s) (mirrors_ s)
    (published_releases_ s) (registry_packages_ s) (registry_releases_ s) (registry_owners_ s)
    (registry_tokens_ s) (registry_repositories_ s) (registry_repository_versions_ s)
    (registry_publications_ s) (registry_distributions_ s) (registry_audit_events_ s)
    (next_job_sequence_ s) (next_registry_token_sequence_ s) (next_registry_audit_sequence_ s).
Definition set_workgroups_ (x : gmap string (gmap string json)) (s : MemoryStateStore) : MemoryStateStore :=
    mkStore (jobs_ s) (events_ s) (workers_ s) (compile_containers_ s) x (mirrors_ s)
    (published_releases_ s) (registry_packages_ s) (registry_releases_ s) (registry_owners_ s)
    (registry_tokens_ s) (registry_repositories_ s) (registry_repository_versions_ s)
    (registry_publications_ s) (registry_distributions_ s) (registry_audit_events_ s)
    (next_job_sequence_ s) (next_registry_token_sequence_ s) (next_registry_audit_sequence_ s).
Definition set_mirrors_ (x : gmap string MirrorCursorRecord) (s : MemoryStateStore) : MemoryStateStore :=
    mkStore (jobs_ s) (events_ s) (workers_ s) (compile_containers_ s) (workgroups_ s) x
    (published_releases_ s) (registry_packages_ s) (registry_releases_ s) (registry_owners_ s)
    (registry_tokens_ s) (registry_repositories_ s) (registry_repository_versions_ s)
    (registry_publications_ s) (registry_distributions_ s) (registry_audit_events_ s)
    (next_job_sequence_ s) (next_registry_token_sequence_ s) (next_registry_audit_sequence_ s).
Definition set_published_releases_ (x : gmap string json) (s : MemoryStateStore) : MemoryStateStore :=
    mkStore (jobs_ s) (events_ s) (workers_ s) (compile_containers_ s) (workgroups_ s)
    (mirrors_ s) x (registry_packages_ s) (registry_releases_ s) (registry_owners_ s)
    (registry_tokens_ s) (registry_repositories_ s) (registry_repository_versions_ s)
    (registry_publications_ s) (registry_distributions_ s) (registry_audit_events_ s)
    (next_job_sequence_ s) (next_registry_token_sequence_ s) (next_registry_audit_sequence_ s).
Definition set_registry_packages_ (x : gmap string RegistryPackageRecord) (s : MemoryStateStore) : MemoryStateStore :=
    mkStore (jobs_ s) (events_ s) (workers_ s) (compile_containers_ s) (workgroups_ s)
    (mirrors_ s) (published_releases_ s) x (registry_releases_ s) (registry_owners_ s)
    (registry_tokens_ s) (registry_repositories_ s) (registry_repository_versions_ s)
    (registry_publications_ s) (registry_distributions_ s) (registry_audit_events_ s)
    (next_job_sequence_ s) (next_registry_token_sequence_ s) (next_registry_audit_sequence_ s).
Definition set_registry_releases_ (x : gmap string RegistryPackageReleaseRecord) (s : MemoryStateStore) : MemoryStateStore :=
    mkStore (jobs_ s) (events_ s) (workers_ s) (compile_containers_ s) (workgroups_ s)
    (mirrors_ s) (published_releases_ s) (registry_packages_ s) x (registry_owners_ s)
    (registry_tokens_ s) (registry_repositories_ s) (registry_repository_versions_ s)
    (registry_publications_ s) (registry_distributions_ s) (registry_audit_events_ s)
    (next_job_sequence_ s) (next_registry_token_sequence_ s) (next_registry_audit_sequence_ s).
Definition set_registry_owners_ (x : gmap string RegistryPackageOwnerRecord) (s : MemoryStateStore) : MemoryStateStore :=
    mkStore (jobs_ s) (events_ s) (workers_ s) (compile_containers_ s) (workgroups_ s)
    (mirrors_ s) (published_releases_ s) (registry_packages_ s) (registry_releases_ s) x
    (registry_tokens_ s) (registry_repositories_ s) (registry_repository_versions_ s)
    (registry_publications_ s) (registry_distributions_ s) (registry_audit_events_ s)
    (next_job_sequence_ s) (next_registry_token_sequence_ s) (next_registry_audit_sequence_ s).
Definition set_registry_tokens_ (x : gmap string RegistryPublishTokenRecord) (s : MemoryStateStore) : MemoryStateStore :=
    mkStore (jobs_ s) (events_ s) (workers_ s) (compile_containers_ s) (workgroups_ s)
    (mirrors_ s) (published_releases_ s) (registry_packages_ s) (registry_releases_ s)
    (registry_owners_ s) x (registry_repositories_ s) (registry_repository_versions_ s)
    (registry_publications_ s) (registry_distributions_ s) (registry_audit_events_ s)
    (next_job_sequence_ s) (next_registry_token_sequence_ s) (next_registry_audit_sequence_ s).
Definition set_registry_repositories_ (x : gmap string RegistryRepositoryRecord) (s : MemoryStateStore) : MemoryStateStore :=
    mkStore (jobs_ s) (events_ s) (workers_ s) (compile_containers_ s) (workgroups_ s)
    (mirrors_ s) (published_releases_ s) (registry_packages_ s) (registry_releases_ s)
    (registry_owners_ s) (registry_tokens_ s) x (registry_repository_versions_ s)
    (registry_publications_ s) (registry_distributions_ s) (registry_audit_events_ s)
    (next_job_sequence_ s) (next_registry_token_sequence_ s) (next_registry_audit_sequence_ s).
Definition set_registry_repository_versions_ (x : gmap string RegistryRepositoryVersionRecord) (s : MemoryStateStore) : MemoryStateStore :=
    mkStore (jobs_ s) (events_ s) (workers_ s) (compile_containers_ s) (workgroups_ s)
    (mirrors_ s) (published_releases_ s) (registry_packages_ s) (registry_releases_ s)
    (registry_owners_ s) (registry_tokens_ s) (registry_repositories_ s) x
    (registry_publications_ s) (registry_distributions_ s) (registry_audit_events_ s)
    (next_job_sequence_ s) (next_registry_token_sequence_ s) (next_registry_audit_sequence_ s).
Definition set_registry_publications_ (x : gmap string RegistryPublicationRecord) (s : MemoryStateStore) : MemoryStateStore :=
    mkStore (jobs_ s) (events_ s) (workers_ s) (compile_containers_ s) (workgroups_ s)
    (mirrors_ s) (published_releases_ s) (registry_packages_ s) (registry_releases_ s)
    (registry_owners_ s) (registry_tokens_ s) (registry_repositories_ s)
    (registry_repository_versions_ s) x (registry_distributions_ s) (registry_audit_events_ s)
    (next_job_sequence_ s) (next_registry_token_sequence_ s) (next_registry_audit_sequence_ s).
Definition set_registry_distributions_ (x : gmap string RegistryDistributionRecord) (s : MemoryStateStore) : MemoryStateStore :=
    mkStore (jobs_ s) (events_ s) (workers_ s) (compile_containers_ s) (workgroups_ s)
    (mirrors_ s) (published_releases_ s) (registry_packages_ s) (registry_releases_ s)
    (registry_owners_ s) (registry_tokens_ s) (registry_repositories_ s)
    (registry_repository_versions_ s) (registry_publications_ s) x (registry_audit_events_ s)
    (next_job_sequence_ s) (next_registry_token_sequence_ s) (next_registry_audit_sequence_ s).
Definition set_registry_audit_events_ (x : list RegistryAuditEventRecord) (s : MemoryStateStore) : MemoryStateStore :=
    mkStore (jobs_ s) (events_ s) (workers_ s) (compile_containers_ s) (workgroups_ s)
    (mirrors_ s) (published_releases_ s) (registry_packages_ s) (registry_releases_ s)
    (registry_owners_ s) (registry_tokens_ s) (registry_repositories_ s)
    (registry_repository_versions_ s) (registry_publications_ s) (registry_distributions_ s) x
    (next_job_sequence_ s) (next_registry_token_sequence_ s) (next_registry_audit_sequence_ s).
Definition set_next_job_sequence_ (x : Z) (s : MemoryStateStore) : MemoryStateStore :=
    mkStore (jobs_ s) (events_ s) (workers_ s) (compile_containers_ s) (workgroups_ s)
    (mirrors_ s) (published_releases_ s) (registry_packages_ s) (registry_releases_ s)
    (registry_owners_ s) (registry_tokens_ s) (registry_repositories_ s)
    (registry_repository_versions_ s) (registry_publications_ s) (registry_distributions_ s)
    (registry_audit_events_ s) x (next_registry_token_sequence_ s)
    (next_registry_audit_sequence_ s).
Definition set_next_registry_token_sequence_ (x : Z) (s : MemoryStateStore) : MemoryStateStore :=
    mkStore (jobs_ s) (events_ s) (workers_ s) (compile_containers_ s) (workgroups_ s)
    (mirrors_ s) (published_releases_ s) (registry_packages_ s) (registry_releases_ s)
    (registry_owners_ s) (registry_tokens_ s) (registry_repositories_ s)
    (registry_repository_versions_ s) (registry_publications_ s) (registry_distributions_ s)
    (registry_audit_events_ s) (next_job_sequence_ s) x (next_registry_audit_sequence_ s).
Definition set_next_registry_audit_sequence_ (x : Z) (s : MemoryStateStore) : MemoryStateStore :=
    mkStore (jobs_ s) (events_ s) (workers_ s) (compile_containers_ s) (workgroups_ s)
    (mirrors_ s) (published_releases_ s) (registry_packages_ s) (registry_releases_ s)
    (registry_owners_ s) (registry_tokens_ s) (registry_repositories_ s)
    (registry_repository_versions_ s) (registry_publications_ s) (registry_distributions_ s)
    (registry_audit_events_ s) (next_job_sequence_ s) (next_registry_token_sequence_ s) x.

(** Operations of the class: stateful computations that may throw. *)
Abbreviation StoreM := (M exn MemoryStateStore).

Definition PaddedNumber (value : Z) (width : nat) : string := pad_left "0" width (decimal value).

(** [events_[job_id].push_back(event)] *)
Definition push_event (id : string) (event : JobEventRecord) (s : MemoryStateStore)
  : MemoryStateStore :=
  set_events_ (<[id := default [] (events_ s !! id) ++ [event]]> (events_ s)) s.

Definition put_job (key : string) (job : PlatformJobRecord) (s : MemoryStateStore)
  : MemoryStateStore := set_jobs_ (<[key := job]> (jobs_ s)) s.

(** Assignments to members of a job record. *)
Definition with_status (st : string) (j : PlatformJobRecord) : PlatformJobRecord :=
  mkJob (job_id j) (job_tenant_id j) (job_user_id j) (job_workspace_id j) (job_action j) st
    (job_region j) (job_worker_pool_key j) (job_created_at j) (job_worker_id j)
    (job_finished_at j) (job_request j) (job_artifacts j).
Definition with_worker (w : string) (j : PlatformJobRecord) : PlatformJobRecord :=
  mkJob (job_id j) (job_tenant_id j) (job_user_id j) (job_workspace_id j) (job_action j)
    (job_status j) (job_region j) (job_worker_pool_key j) (job_created_at j) w
    (job_finished_at j) (job_request j) (job_artifacts j).
Definition with_finished (t : string) (j : PlatformJobRecord) : PlatformJobRecord :=
  mkJob (job_id j) (job_tenant_id j) (job_user_id j) (job_workspace_id j) (job_action j)
    (job_status j) (job_region j) (job_worker_pool_key j) (job_created_at j) (job_worker_id j)
    t (job_request j) (job_artifacts j).
Definition with_artifacts (l : list ArtifactRecord) (j : PlatformJobRecord) : PlatformJobRecord :=
  mkJob (job_id j) (job_tenant_id j) (job_user_id j) (job_workspace_id j) (job_action j)
    (job_status j) (job_region j) (job_worker_pool_key j) (job_created_at j) (job_worker_id j)
    (job_finished_at j) (job_request j) l.

(** The assignments that move a container to another workspace. *)
Definition switch_workspace (workspace_id reason : string) (c : CompileContainerRecord)
  : CompileContainerRecord :=
  mkContainer (container_id c) (container_worker_id c) (container_tenant_id c)
    (container_user_id c) workspace_id (container_region c) (container_worker_pool_key c)
    (container_status c) (container_capacity c) (i32 (workspace_generation c + 1))
    (container_created_at c) "2026-04-24T00:01:00Z" reason.

Definition NextJobId : StoreM string :=
  n <- gets next_job_sequence_ ;;
  modify (set_next_job_sequence_ (u64 (n + 1))) ;;;
  m_ret ("job-" +:+ PaddedNumber n 12).

Definition SubmitJob (job : PlatformJobRecord) : StoreM unit :=
  modify (put_job (job_id job) job) ;;;
  modify (push_event (job_id job)
            (mkEvent "event-queued" (job_id job) "queued" "job queued" default_created_at)).

Definition GetJob (id : string) (s : MemoryStateStore) : option PlatformJobRecord := jobs_ s !! id.

Definition GetJobEvents (id : string) (s : MemoryStateStore) : list JobEventRecord :=
  match events_ s !! id with Some events => events | None => [] end.

Definition CancelJob (id reason : string) : StoreM (option PlatformJobRecord) :=
  found <- gets (fun s => jobs_ s !! id) ;;
  match found with
  | None => m_ret None
  | Some job =>
      let job := with_finished "2026-04-24T00:01:00Z" (with_status "cancelled" job) in
      modify (put_job id job) ;;;
      modify (push_event (job_id job)
                (mkEvent "event-cancelled" (job_id job) "cancelled" reason (job_finished_at job))) ;;;
      m_ret (Some job)
  end.

Definition RegisterWorker (worker : json) : StoreM json :=
  worker_id <- lift (field_string worker "worker_id") ;;
  modify (fun s => set_workers_ (<[worker_id := worker]> (workers_ s)) s) ;;;
  m_ret worker.

Definition RequireWorker (worker_id : string) : StoreM unit :=
  known <- gets (fun s => map_has (workers_ s) worker_id) ;;
  if negb known then throw (MemoryStateStoreError "worker is not registered") else m_ret tt.

Definition RegisterCompileContainer (container : CompileContainerRecord)
  : StoreM CompileContainerRecord :=
  worker <- gets (fun s => workers_ s !! container_worker_id container) ;;
  match worker with
  | None => throw (MemoryStateStoreError "worker is not registered")
  | Some worker =>
      region <- lift (value_string worker "region" "") ;;
      mismatch <- (if region <>s container_region container then m_ret true
                   else pool <- lift (value_string worker "worker_pool_key" "") ;;
                        m_ret (pool <>s container_worker_pool_key container)) ;;
      if (mismatch : bool)
      then throw (MemoryStateStoreError "worker region or pool does not match container")
      else
        existing <- gets (fun s => compile_containers_ s !! container_id container) ;;
        if match existing with
           | Some e => (container_tenant_id e <>s container_tenant_id container)
                       || (container_user_id e <>s container_user_id container)
           | None => false
           end
        then throw (MemoryStateStoreError "compile container user binding mismatch")
        else if match existing with
                | Some e => container_worker_id e <>s container_worker_id container
                | None => false
                end
        then throw (MemoryStateStoreError "compile container worker owner mismatch")
        else
          modify (fun s => set_compile_containers_
                    (<[container_id container := container]> (compile_containers_ s)) s) ;;;
          m_ret container
  end.

Definition GetCompileContainer (id : string) (s : MemoryStateStore)
  : option CompileContainerRecord := compile_containers_ s !! id.

Definition SwitchCompileContainerWorkspace (id worker_id workspace_id reason : string)
  : StoreM (option CompileContainerRecord) :=
  found <- gets (fun s => compile_containers_ s !! id) ;;
  match found with
  | None => m_ret None
  | Some container =>
      if container_worker_id container <>s worker_id
      then throw (MemoryStateStoreError "worker does not own compile container")
      else if container_status container <>s "active" then m_ret None
      else if current_workspace_id container <>s workspace_id
      then
        let container := switch_workspace workspace_id reason container in
        modify (fun s => set_compile_containers_
                  (<[id := container]> (compile_containers_ s)) s) ;;;
        m_ret (Some container)
      else m_ret (Some container)
  end.

(** The guard of the two claim loops. *)
Definition job_queued_for (region pool : string) (job : PlatformJobRecord) : bool :=
  (job_status job =s "queued") && (job_region job =s region)
  && (job_worker_pool_key job =s pool).

Definition claim_record (worker_id : string) (job : PlatformJobRecord) : PlatformJobRecord :=
  with_worker worker_id (with_status "running" job).

Definition ClaimJob (worker_id region worker_pool_key : string)
  : StoreM (option PlatformJobRecord) :=
  RequireWorker worker_id ;;;
  found <- gets (fun s => List.find (fun '(_, job) => job_queued_for region worker_pool_key job)
                            (items (jobs_ s))) ;;
  match found with
  | None => m_ret None
  | Some (key, job) =>
      let job := claim_record worker_id job in
      modify (put_job key job) ;;;
      modify (push_event key
                (mkEvent "event-running" key "running" "job claimed by worker"
                   default_created_at)) ;;;
      m_ret (Some job)
  end.

Definition ClaimJobForCompileContainer (worker_id region worker_pool_key id : string)
  : StoreM (option PlatformJobRecord) :=
  RequireWorker worker_id ;;;
  container_found <- gets (fun s => compile_containers_ s !! id) ;;
  match container_found with
  | None => throw (MemoryStateStoreError "compile container is not registered")
  | Some container =>
      if (container_worker_id container <>s worker_id)
         || (container_region container <>s region)
         || (container_worker_pool_key container <>s worker_pool_key)
         || (container_status container <>s "active")
      then throw (MemoryStateStoreError "compile container is not available for this worker")
      else
        found <- gets (fun s =>
                   List.find (fun '(_, job) =>
                       job_queued_for region worker_pool_key job
                       && (job_tenant_id job =s container_tenant_id container)
                       && (job_user_id job =s container_user_id container))
                     (items (jobs_ s))) ;;
        match found with
        | None => m_ret None
        | Some (key, job) =>
            let job := claim_record worker_id job in
            modify (put_job key job) ;;;
            when (current_workspace_id container <>s job_workspace_id job)
              (modify (fun s => set_compile_containers_
                        (<[id := switch_workspace (job_workspace_id job) "claimJob" container]>
                           (compile_containers_ s)) s) ;;;
               modify (push_event key
                         (mkEvent "event-workspace-switched" key "running"
                            "compile container switched workspace" default_created_at))) ;;;
            modify (push_event key
                      (mkEvent "event-running" key "running" "job claimed by compile container"
                         default_created_at)) ;;;
            m_ret (Some job)
        end
  end.

Definition HeartbeatJob (id worker_id message : string) : StoreM (option PlatformJobRecord) :=
  found <- gets (fun s => jobs_ s !! id) ;;
  match found with
  | None => m_ret None
  | Some job =>
      if job_worker_id job <>s worker_id then m_ret None
      else
        modify (push_event (job_id job)
                  (mkEvent "event-heartbeat" (job_id job) (job_status job) message
                     default_created_at)) ;;;
        m_ret (Some job)
  end.

Definition CompleteJob (id worker_id status message : string) (artifacts : list ArtifactRecord)
    (result : json) : StoreM (option PlatformJobRecord) :=
  found <- gets (fun s => jobs_ s !! id) ;;
  match found with
  | None => m_ret None
  | Some job =>
      if job_worker_id job <>s worker_id then m_ret None
      else
        let job := with_finished "2026-04-24T00:02:00Z" (with_status status job) in
        let job := with_artifacts (job_artifacts job ++ artifacts) job in
        modify (put_job id job) ;;;
        modify (push_event (job_id job)
                  (mkEvent "event-completed" (job_id job) (job_status job) message
                     (job_finished_at job))) ;;;
        m_ret (Some job)
  end.

Definition RegisterWorkgroupCluster (workgroup_id : string) (cluster : json) : StoreM json :=
  cluster_id <- lift (field_string cluster "cluster_id") ;;
  modify (fun s => set_workgroups_
            (<[workgroup_id := <[cluster_id := cluster]> (default ∅ (workgroups_ s !! workgroup_id))]>
               (workgroups_ s)) s) ;;;
  m_ret cluster.

Definition ListWorkgroupClusters (workgroup_id : string) (s : MemoryStateStore) : json :=
  JArray match workgroups_ s !! workgroup_id with
         | Some workgroup => (items workgroup).*2
         | None => []
         end.

Definition RecordMirrorState (id region origin freshness cursor publication_id
    repository_version_id synced : string) (tree_size : Z) : StoreM unit :=
  modify (fun s => set_mirrors_
    (<[id := mkMirror id region origin freshness cursor publication_id repository_version_id
               synced tree_size]> (mirrors_ s)) s).

Definition GetMirrorState (id : string) (s : MemoryStateStore) : option MirrorCursorRecord :=
  mirrors_ s !! id.

Definition HasPublishedRelease (release_key : string) (s : MemoryStateStore) : bool :=
  map_has (published_releases_ s) release_key.

Definition RecordPublishedRelease (release_key : string) (release : json) : StoreM unit :=
  modify (fun s => set_published_releases_ (<[release_key := release]> (published_releases_ s)) s).

Definition ListPublishedReleasePayloads (s : MemoryStateStore) : json :=
  JArray (items (published_releases_ s)).*2.

Definition UpsertRegistryPackage (record : RegistryPackageRecord) : StoreM unit :=
  modify (fun s => set_registry_packages_
            (<[pkg_package_id record := record]> (registry_packages_ s)) s).

Definition GetRegistryPackage (id : string) (s : MemoryStateStore)
  : option RegistryPackageRecord := registry_packages_ s !! id.

Definition ListRegistryPackages (s : MemoryStateStore) : json :=
  JArray (map SerializeRegistryPackageRecord (items (registry_packages_ s)).*2).

Definition release_store_key (package_id version : string) : string :=
  package_id +:+ "@" +:+ version.

Definition UpsertRegistryPackageRelease (record : RegistryPackageReleaseRecord) : StoreM unit :=
  modify (fun s => set_registry_releases_
    (<[release_store_key (rel_package_id record) (rel_version record) := record]>
       (registry_releases_ s)) s).

Definition GetRegistryPackageRelease (package_id version : string) (s : MemoryStateStore)
  : option RegistryPackageReleaseRecord :=
  registry_releases_ s !! release_store_key package_id version.

Definition ListRegistryPackageReleases (package_id : string) (s : MemoryStateStore) : json :=
  JArray (map SerializeRegistryPackageReleaseRecord
            (List.filter (fun record => rel_package_id record =s package_id)
               (items (registry_releases_ s)).*2)).

Definition set_yanked (yanked : bool) (reason : string) (r : RegistryPackageReleaseRecord)
  : RegistryPackageReleaseRecord :=
  mkRelease (rel_package_id r) (rel_version r) (rel_edition r) (rel_manifest_sha256 r)
    (rel_source_artifact_sha256 r) (rel_dependencies r) (rel_publisher_id r)
    (rel_published_at r) yanked reason.

Definition SetRegistryPackageReleaseYanked (package_id version : string) (yanked : bool)
    (reason : string) : StoreM bool :=
  found <- gets (GetRegistryPackageRelease package_id version) ;;
  match found with
  | None => m_ret false
  | Some record =>
      modify (fun s => set_registry_releases_
        (<[release_store_key package_id version := set_yanked yanked reason record]>
           (registry_releases_ s)) s) ;;;
      m_ret true
  end.

Definition owner_store_key (package_id owner_id : string) : string :=
  package_id +:+ "/" +:+ owner_id.

Definition AddRegistryPackageOwner (record : RegistryPackageOwnerRecord) : StoreM unit :=
  modify (fun s => set_registry_owners_
    (<[owner_store_key (own_package_id record) (own_owner_id record) := record]>
       (registry_owners_ s)) s).

Definition HasRegistryPackageOwner (package_id owner_id : string) (s : MemoryStateStore) : bool :=
  map_has (registry_owners_ s) (owner_store_key package_id owner_id).

Definition RemoveRegistryPackageOwner (package_id owner_id : string) : StoreM bool :=
  present <- gets (HasRegistryPackageOwner package_id owner_id) ;;
  modify (fun s => set_registry_owners_
    (delete (owner_store_key package_id owner_id) (registry_owners_ s)) s) ;;;
  m_ret present.

Definition ListRegistryPackageOwners (package_id : string) (s : MemoryStateStore) : json :=
  JArray (map SerializeRegistryPackageOwnerRecord
            (List.filter (fun record => own_package_id record =s package_id)
               (items (registry_owners_ s)).*2)).

Definition NextRegistryTokenId : StoreM string :=
  n <- gets next_registry_token_sequence_ ;;
  modify (set_next_registry_token_sequence_ (u64 (n + 1))) ;;;
  m_ret ("tok-" +:+ PaddedNumber n 12).

Definition UpsertRegistryPublishToken (record : RegistryPublishTokenRecord) : StoreM unit :=
  modify (fun s => set_registry_tokens_
            (<[tok_token_id record := record]> (registry_tokens_ s)) s).

Definition GetRegistryPublishToken (id : string) (s : MemoryStateStore)
  : option RegistryPublishTokenRecord := registry_tokens_ s !! id.

Definition FindRegistryPublishTokenByHash (token_hash : string) (s : MemoryStateStore)
  : option RegistryPublishTokenRecord :=
  snd <$> List.find (fun '(_, record) => tok_token_hash record =s token_hash)
            (items (registry_tokens_ s)).

Definition ListRegistryPublishTokens (owner_id : string) (s : MemoryStateStore) : json :=
  JArray (map (fun record => SerializeRegistryPublishTokenRecord record false)
            (List.filter (fun record => is_empty owner_id || (tok_owner_id record =s owner_id))
               (items (registry_tokens_ s)).*2)).

Definition set_revoked (revoked_at : string) (t : RegistryPublishTokenRecord)
  : RegistryPublishTokenRecord :=
  mkToken (tok_token_id t) (tok_token_hash t) (tok_owner_id t) (tok_scopes t)
    (tok_package_patterns t) (tok_expires_at t) revoked_at (tok_created_at t).

Definition RevokeRegistryPublishToken (id revoked_at : string) : StoreM bool :=
  found <- gets (GetRegistryPublishToken id) ;;
  match found with
  | None => m_ret false
  | Some record =>
      modify (fun s => set_registry_tokens_
                (<[id := set_revoked revoked_at record]> (registry_tokens_ s)) s) ;;;
      m_ret true
  end.

(** The loop over [registry_repository_versions_] that keeps the maximum. *)
Definition max_sequence (repository_id : string)
    (versions : list (string * RegistryRepositoryVersionRecord)) : Z :=
  fold_left (fun best '(_, record) =>
    if (ver_repository_id record =s repository_id) && (best <? ver_sequence record)
    then ver_sequence record else best) versions 0.

Definition NextRepositoryVersionSequence (repository_id : string) (s : MemoryStateStore) : Z :=
  i32 (max_sequence repository_id (items (registry_repository_versions_ s)) + 1).

Definition UpsertRegistryRepository (record : RegistryRepositoryRecord) : StoreM unit :=
  modify (fun s => set_registry_repositories_
            (<[repo_repository_id record := record]> (registry_repositories_ s)) s).

Definition ListRegistryRepositories (s : MemoryStateStore) : json :=
  JArray (map SerializeRegistryRepositoryRecord (items (registry_repositories_ s)).*2).

Definition RecordRegistryRepositoryVersion (record : RegistryRepositoryVersionRecord)
  : StoreM unit :=
  modify (fun s => set_registry_repository_versions_
            (<[ver_repository_version_id record := record]> (registry_repository_versions_ s)) s).

Definition ListRegistryRepositoryVersions (repository_id : string) (s : MemoryStateStore) : json :=
  JArray (map SerializeRegistryRepositoryVersionRecord
            (List.filter (fun record => ver_repository_id record =s repository_id)
               (items (registry_repository_versions_ s)).*2)).

Definition RecordRegistryPublication (record : RegistryPublicationRecord) : StoreM unit :=
  modify (fun s => set_registry_publications_
            (<[pub_publication_id record := record]> (registry_publications_ s)) s).

Definition GetRegistryPublication (id : string) (s : MemoryStateStore)
  : option RegistryPublicationRecord := registry_publications_ s !! id.

Definition ListRegistryPublications (s : MemoryStateStore) : json :=
  JArray (map SerializeRegistryPublicationRecord (items (registry_publications_ s)).*2).

Definition UpsertRegistryDistribution (record : RegistryDistributionRecord) : StoreM unit :=
  modify (fun s => set_registry_distributions_
            (<[dist_distribution_id record := record]> (registry_distributions_ s)) s).

Definition GetRegistryDistribution (id : string) (s : MemoryStateStore)
  : option RegistryDistributionRecord := registry_distributions_ s !! id.

Definition ListRegistryDistributions (s : MemoryStateStore) : json :=
  JArray (map SerializeRegistryDistributionRecord (items (registry_distributions_ s)).*2).

Definition NextRegistryAuditEventId : StoreM string :=
  n <- gets next_registry_audit_sequence_ ;;
  modify (set_next_registry_audit_sequence_ (u64 (n + 1))) ;;;
  m_ret ("audit-" +:+ PaddedNumber n 12).

Definition RecordRegistryAuditEvent (record : RegistryAuditEventRecord) : StoreM unit :=
  modify (fun s => set_registry_audit_events_ (registry_audit_events_ s ++ [record]) s).

Definition ListRegistryAuditEvents (s : MemoryStateStore) : json :=
  JArray (map SerializeRegistryAuditEventRecord (registry_audit_events_ s)).

(** * Calls, and the job state machine they implement *)

(** The calls that change the state. *)
Inductive store_call : Type :=
| CallNextJobId
| CallSubmitJob (job : PlatformJobRecord)
| CallCancelJob (id reason : string)
| CallRegisterWorker (worker : json)
| CallRegisterCompileContainer (container : CompileContainerRecord)
| CallSwitchWorkspace (id worker_id workspace_id reason : string)
| CallClaimJob (worker_id region pool : string)
| CallClaimJobForCompileContainer (worker_id region pool id : string)
| CallHeartbeatJob (id worker_id message : string)
| CallCompleteJob (id worker_id status message : string) (artifacts : list ArtifactRecord)
    (result : json)
| CallRegisterWorkgroupCluster (workgroup_id : string) (cluster : json)
| CallRecordMirrorState (id region origin freshness cursor pub ver synced : string) (size : Z)
| CallRecordPublishedRelease (key : string) (release : json)
| CallUpsertPackage (record : RegistryPackageRecord)
| CallUpsertRelease (record : RegistryPackageReleaseRecord)
| CallSetYanked (package_id version : string) (yanked : bool) (reason : string)
| CallAddOwner (record : RegistryPackageOwnerRecord)
| CallRemoveOwner (package_id owner_id : string)
| CallNextTokenId
| CallUpsertToken (record : RegistryPublishTokenRecord)
| CallRevokeToken (id revoked_at : string)
| CallUpsertRepository (record : RegistryRepositoryRecord)
| CallRecordVersion (record : RegistryRepositoryVersionRecord)
| CallRecordPublication (record : RegistryPublicationRecord)
| CallUpsertDistribution (record : RegistryDistributionRecord)
| CallNextAuditId
| CallRecordAudit (record : RegistryAuditEventRecord).

Definition ignore {A} (m : StoreM A) : StoreM unit := m ;;; m_ret tt.

Definition run_call (c : store_call) : StoreM unit :=
  match c with
  | CallNextJobId => ignore NextJobId
  | CallSubmitJob job => SubmitJob job
  | CallCancelJob id reason => ignore (CancelJob id reason)
  | CallRegisterWorker worker => ignore (RegisterWorker worker)
  | CallRegisterCompileContainer container => ignore (RegisterCompileContainer container)
  | CallSwitchWorkspace id w ws r => ignore (SwitchCompileContainerWorkspace id w ws r)
  | CallClaimJob w region pool => ignore (ClaimJob w region pool)
  | CallClaimJobForCompileContainer w region pool id =>
      ignore (ClaimJobForCompileContainer w region pool id)
  | CallHeartbeatJob id w message => ignore (HeartbeatJob id w message)
  | CallCompleteJob id w st message arts result =>
      ignore (CompleteJob id w st message arts result)
  | CallRegisterWorkgroupCluster id cluster => ignore (RegisterWorkgroupCluster id cluster)
  | CallRecordMirrorState id r o f cu p v sy size => RecordMirrorState id r o f cu p v sy size
  | CallRecordPublishedRelease key release => RecordPublishedRelease key release
  | CallUpsertPackage record => UpsertRegistryPackage record
  | CallUpsertRelease record => UpsertRegistryPackageRelease record
  | CallSetYanked p v y r => ignore (SetRegistryPackageReleaseYanked p v y r)
  | CallAddOwner record => AddRegistryPackageOwner record
  | CallRemoveOwner p o => ignore (RemoveRegistryPackageOwner p o)
  | CallNextTokenId => ignore NextRegistryTokenId
  | CallUpsertToken record => UpsertRegistryPublishToken record
  | CallRevokeToken id t => ignore (RevokeRegistryPublishToken id t)
  | CallUpsertRepository record => UpsertRegistryRepository record
  | CallRecordVersion record => RecordRegistryRepositoryVersion record
  | CallRecordPublication record => RecordRegistryPublication record
  | CallUpsertDistribution record => UpsertRegistryDistribution record
  | CallNextAuditId => ignore NextRegistryAuditEventId
  | CallRecordAudit record => RecordRegistryAuditEvent record
  end.

(** The state after a call, whether it returned or threw. *)
Definition store_step (s : MemoryStateStore) (c : store_call) : MemoryStateStore :=
  (run_call c s).2.

(** What the queue front end ([JobQueue.cpp]) passes to [SubmitJob]. *)
Definition fresh_job (job : PlatformJobRecord) : bool :=
  (job_status job =s "queued") && is_empty (job_worker_id job).
Definition client_ok (c : store_call) : bool :=
  match c with CallSubmitJob job => fresh_job job | _ => true end.

Definition run_calls (s : MemoryStateStore) (cs : list store_call) : MemoryStateStore :=
  fold_left store_step cs s.

Inductive reachable : MemoryStateStore -> Prop :=
| reachable_initial : reachable initial_store
| reachable_step s c : reachable s -> client_ok c = true -> reachable (store_step s c).

(** The abstract machine: what can happen to one job. *)
Inductive job_label : Type :=
| LIdle
| LQueue (key : string)
| LCancel (key : string)
| LClaim (key worker : string)
| LHeartbeat (key : string)
| LComplete (key status : string).

Definition log (s : MemoryStateStore) (key : string) : list JobEventRecord := GetJobEvents key s.

(** [s'] is [s] with job [key] replaced and [new] appended to its log. *)
Definition moves (s s' : MemoryStateStore) (key : string) (job : PlatformJobRecord)
    (new : list JobEventRecord) : Prop :=
  jobs_ s' = <[key := job]> (jobs_ s)
  /\ events_ s' = <[key := log s key ++ new]> (events_ s)
  /\ new <> []
  /\ Forall (fun e => event_status e = job_status job /\ event_job_id e = key) new.

Inductive job_step (s s' : MemoryStateStore) : job_label -> Prop :=
| step_idle : jobs_ s' = jobs_ s -> events_ s' = events_ s -> job_step s s' LIdle
| step_queue job new :
    fresh_job job = true -> moves s s' (job_id job) job new ->
    job_step s s' (LQueue (job_id job))
| step_cancel key job t new :
    jobs_ s !! key = Some job ->
    moves s s' key (with_finished t (with_status "cancelled" job)) new ->
    job_step s s' (LCancel key)
| step_claim key job worker new :
    jobs_ s !! key = Some job -> job_status job = "queued"%string ->
    is_Some (workers_ s !! worker) ->
    moves s s' key (claim_record worker job) new ->
    job_step s s' (LClaim key worker)
| step_heartbeat key job new :
    jobs_ s !! key = Some job -> moves s s' key job new ->
    job_step s s' (LHeartbeat key)
| step_complete key job status t artifacts new :
    jobs_ s !! key = Some job ->
    moves s s' key
      (with_artifacts (job_artifacts job ++ artifacts) (with_finished t (with_status status job)))
      new ->
    job_step s s' (LComplete key status).

(** Which call may make which move. *)
Definition label_of (c : store_call) (l : job_label) : Prop :=
  match l, c with
  | LIdle, _ => True
  | LQueue k, CallSubmitJob job => job_id job = k
  | LCancel k, CallCancelJob id _ => id = k
  | LClaim _ w, CallClaimJob worker _ _ => worker = w
  | LClaim _ w, CallClaimJobForCompileContainer worker _ _ _ => worker = w
  | LHeartbeat k, CallHeartbeatJob id _ _ => id = k
  | LComplete k st, CallCompleteJob id _ status _ _ _ => id = k /\ status = st
  | _, _ => False
  end.

(** A job that left the queue comes back only by a resubmission under its id or
    by a completion that reports the status [queued]. *)
Definition requeues (k : string) (c : store_call) : bool :=
  match c with
  | CallSubmitJob job => job_id job =s k
  | CallCompleteJob id _ st _ _ _ => (id =s k) && (st =s "queued")
  | _ => false
  end.

Definition not_queued (s : MemoryStateStore) (k : string) : Prop :=
  exists job, jobs_ s !! k = Some job /\ job_status job <> "queued"%string.

(** The job a claim call hands out in state [s]. *)
Definition claimed (s : MemoryStateStore) (c : store_call) : option PlatformJobRecord :=
  match c with
  | CallClaimJob w region pool =>
      match (ClaimJob w region pool s).1 with inr job => job | inl _ => None end
  | CallClaimJobForCompileContainer w region pool id =>
      match (ClaimJobForCompileContainer w region pool id s).1 with
      | inr job => job | inl _ => None end
  | _ => None
  end.

Definition keys_ok (s : MemoryStateStore) : Prop :=
  forall key job, jobs_ s !! key = Some job -> job_id job = key.

(** The queue's invariant: records sit under their own id, every stored job has
    a log whose last entry carries the job's status and whose entries all name
    the job, and a job names no worker that is not registered. *)
Record queue_inv (s : MemoryStateStore) : Prop := {
  inv_keys : keys_ok s;
  inv_log : forall key job, jobs_ s !! key = Some job ->
    exists e, last (log s key) = Some e /\ event_status e = job_status job;
  inv_names : forall key, Forall (fun e => event_job_id e = key) (log s key);
  inv_worker : forall key job, jobs_ s !! key = Some job ->
    job_worker_id job = EmptyString \/ is_Some (workers_ s !! job_worker_id job);
}.

(** * Lemmas *)

Lemma log_push s key e : events_ (push_event key e s) = <[key := log s key ++ [e]]> (events_ s).
Proof. unfold push_event, log, GetJobEvents. cbn. by destruct (events_ s !! key). Qed.

Lemma jobs_insert_same s key job :
  jobs_ s !! key = Some job -> <[key := job]> (jobs_ s) = jobs_ s.
Proof. apply insert_id. Qed.

Ltac store_unfold :=
  unfold store_step, run_call, ignore, m_bind, gets, modify, m_ret, throw, lift, when.

Lemma moves_single s s' key job e :
  jobs_ s' = <[key := job]> (jobs_ s) -> events_ s' = <[key := log s key ++ [e]]> (events_ s) ->
  event_status e = job_status job -> event_job_id e = key -> moves s s' key job [e].
Proof. intros. split_and!; try done. by repeat constructor. Qed.

(** Two pushes in a row, the first after [jobs_] was written. *)
Lemma moves_pair s s' key job e1 e2 s1 :
  jobs_ s' = <[key := job]> (jobs_ s) ->
  events_ s1 = <[key := log s key ++ [e1]]> (events_ s) ->
  events_ s' = <[key := log s1 key ++ [e2]]> (events_ s1) ->
  event_status e1 = job_status job -> event_job_id e1 = key ->
  event_status e2 = job_status job -> event_job_id e2 = key ->
  moves s s' key job [e1; e2].
Proof.
  intros Hj H1 H2 ????. split_and!; [done| |done|by repeat constructor].
  rewrite H2, H1. rewrite insert_insert_eq. f_equal. unfold log at 1, GetJobEvents.
  rewrite H1, lookup_insert_eq. by rewrite <- (assoc_L (++)).
Qed.

Lemma find_queued s (p : string * PlatformJobRecord -> bool) key job region pool :
  List.find p (items (jobs_ s)) = Some (key, job) ->
  (forall k j, p (k, j) = true -> job_queued_for region pool j = true) ->
  jobs_ s !! key = Some job /\ job_status job = "queued"%string.
Proof.
  intros (Hk & Hp & _)%find_items_Some Hq. split; [done|].
  apply Hq in Hp. unfold job_queued_for in Hp.
  apply andb_true_iff in Hp as [[?%str_eqb_iff ?]%andb_true_iff ?]. done.
Qed.

Lemma submit_step job s :
  fresh_job job = true ->
  job_step s (store_step s (CallSubmitJob job)) (LQueue (job_id job)).
Proof.
  intros Hf. eapply step_queue; [done|]. apply moves_single; try done.
  cbn. unfold fresh_job in Hf. by apply andb_true_iff in Hf as [->%str_eqb_iff _].
Qed.

Lemma cancel_step id reason s :
  keys_ok s -> exists l, job_step s (store_step s (CallCancelJob id reason)) l
    /\ label_of (CallCancelJob id reason) l.
Proof.
  intros Hk. store_unfold. unfold CancelJob. store_unfold.
  destruct (jobs_ s !! id) as [job|] eqn:E; [|by exists LIdle; split; [constructor|]].
  exists (LCancel id). cbn. split; [|done]. pose proof (Hk _ _ E) as Hid.
  eapply step_cancel; [done|]. cbn. rewrite Hid. by apply moves_single.
Qed.

(** [RequireWorker] either throws, or the worker is known and nothing changes. *)
Lemma RequireWorker_cases w s :
  (map_has (workers_ s) w = false
   /\ RequireWorker w s = (inl (MemoryStateStoreError "worker is not registered"), s))
  \/ (is_Some (workers_ s !! w) /\ RequireWorker w s = (inr tt, s)).
Proof.
  unfold RequireWorker. store_unfold. destruct (map_has (workers_ s) w) eqn:E; cbn; [right|by left].
  by apply map_has_true in E.
Qed.

Lemma claim_step w region pool s :
  let c := CallClaimJob w region pool in
  exists l, job_step s (store_step s c) l /\ label_of c l
    /\ (forall job, claimed s c = Some job -> exists key, l = LClaim key w
          /\ jobs_ (store_step s c) !! key = Some job).
Proof.
  cbn. store_unfold. unfold ClaimJob, m_bind. destruct (RequireWorker_cases w s) as [[_ ->]|[Hw ->]].
  { exists LIdle. split; [by constructor|]. done. }
  store_unfold. destruct (List.find _ _) as [[key job]|] eqn:E; cbn.
  2:{ exists LIdle. split; [by constructor|]. done. }
  eapply find_queued in E as [Hkey Hq]; [|by intros ???].
  exists (LClaim key w). split_and!; [|done|].
  - eapply step_claim; [done..|]. by apply moves_single.
  - intros ? [= <-]. exists key. split; [done|]. apply lookup_insert_eq.
Qed.

Lemma container_claim_step w region pool id s :
  let c := CallClaimJobForCompileContainer w region pool id in
  exists l, job_step s (store_step s c) l /\ label_of c l
    /\ (forall job, claimed s c = Some job -> exists key, l = LClaim key w
          /\ jobs_ (store_step s c) !! key = Some job).
Proof.
  cbn. store_unfold. unfold ClaimJobForCompileContainer, m_bind.
  destruct (RequireWorker_cases w s) as [[_ ->]|[Hw ->]].
  { exists LIdle. split; [by constructor|]. done. }
  store_unfold. destruct (compile_containers_ s !! id) as [c|]; cbn.
  2:{ exists LIdle. split; [by constructor|]. done. }
  destruct (_ || _); cbn.
  { exists LIdle. split; [by constructor|]. done. }
  destruct (List.find _ _) as [[key job]|] eqn:E; cbn.
  2:{ exists LIdle. split; [by constructor|]. done. }
  eapply find_queued in E as [Hkey Hq].
  2:{ intros ?? [[? _]%andb_true_iff _]%andb_true_iff. done. }
  exists (LClaim key w).
  destruct (current_workspace_id c <>s job_workspace_id job); cbn; (split_and!;
    [eapply step_claim; [done..|] |done| intros ? [= <-]; exists key; cbn; split; [done|];
     apply lookup_insert_eq]).
  - by eapply (moves_pair s _ key _ _ _ (push_event key _ (put_job key job s))).
  - by apply moves_single.
Qed.

Lemma heartbeat_step id w message s :
  keys_ok s -> exists l, job_step s (store_step s (CallHeartbeatJob id w message)) l
    /\ label_of (CallHeartbeatJob id w message) l.
Proof.
  intros Hk. store_unfold. unfold HeartbeatJob. store_unfold.
  destruct (jobs_ s !! id) as [job|] eqn:E; [|by exists LIdle; split; [constructor|]].
  pose proof (Hk _ _ E) as Hid. cbn.
  destruct (job_worker_id job <>s w); [by exists LIdle; split; [constructor|]|].
  exists (LHeartbeat id). split; [|done]. eapply step_heartbeat; [done|]. cbn. rewrite Hid.
  apply moves_single; try done. cbn. by rewrite insert_id.
Qed.

Lemma complete_step id w st message arts result s :
  keys_ok s -> exists l, job_step s (store_step s (CallCompleteJob id w st message arts result)) l
    /\ label_of (CallCompleteJob id w st message arts result) l.
Proof.
  intros Hk. store_unfold. unfold CompleteJob. store_unfold.
  destruct (jobs_ s !! id) as [job|] eqn:E; [|by exists LIdle; split; [constructor|]].
  pose proof (Hk _ _ E) as Hid. cbn.
  destruct (job_worker_id job <>s w); [by exists LIdle; split; [constructor|]|].
  exists (LComplete id st). split; [|done]. eapply step_complete; [done|]. cbn. rewrite Hid.
  by apply moves_single.
Qed.

(** The calls that never touch the queue. *)
Definition touches_queue (c : store_call) : bool :=
  match c with
  | CallSubmitJob _ | CallCancelJob _ _ | CallClaimJob _ _ _
  | CallClaimJobForCompileContainer _ _ _ _ | CallHeartbeatJob _ _ _
  | CallCompleteJob _ _ _ _ _ _ => true
  | _ => false
  end.

Ltac store_split :=
  repeat (match goal with
          | |- context [match ?x with _ => _ end] =>
              lazymatch x with
              | context [match ?y with _ => _ end] => fail
              | _ => destruct x eqn:?
              end
          end; cbn).

Lemma idle_step s c :
  touches_queue c = false ->
  jobs_ (store_step s c) = jobs_ s /\ events_ (store_step s c) = events_ s.
Proof.
  destruct c; try done; intros _; store_unfold;
    unfold NextJobId, RegisterWorker, RegisterCompileContainer, SwitchCompileContainerWorkspace,
      RegisterWorkgroupCluster, SetRegistryPackageReleaseYanked, RemoveRegistryPackageOwner,
      NextRegistryTokenId, RevokeRegistryPublishToken, NextRegistryAuditEventId;
    store_unfold; cbn; try done; store_split; done.
Qed.

Lemma refines_job_machine s c :
  keys_ok s -> client_ok c = true -> exists l, job_step s (store_step s c) l /\ label_of c l
    /\ (forall job, claimed s c = Some job -> exists key w, l = LClaim key w
          /\ jobs_ (store_step s c) !! key = Some job).
Proof.
  intros Hk Hc. destruct (touches_queue c) eqn:Ht.
  2:{ exists LIdle. split; [by apply step_idle; apply idle_step|]. split; [done|].
      by destruct c. }
  destruct c; try done.
  - eexists. split; [by apply submit_step|]. done.
  - destruct (cancel_step id reason s Hk) as (l & ? & ?). by exists l.
  - destruct (claim_step worker_id region pool s) as (l & ? & ? & ?). exists l. naive_solver.
  - destruct (container_claim_step worker_id region pool id s) as (l & ? & ? & ?).
    exists l. naive_solver.
  - destruct (heartbeat_step id worker_id message s Hk) as (l & ? & ?). by exists l.
  - destruct (complete_step id worker_id status message artifacts result s Hk) as (l & ? & ?).
    by exists l.
Qed.

(** Registered workers stay registered. *)
Lemma workers_mono s c w :
  is_Some (workers_ s !! w) -> is_Some (workers_ (store_step s c) !! w).
Proof.
  intros Hw. destruct c; store_unfold;
    unfold NextJobId, SubmitJob, CancelJob, RegisterWorker, RegisterCompileContainer,
      SwitchCompileContainerWorkspace, HeartbeatJob, CompleteJob, ClaimJob,
      ClaimJobForCompileContainer, RequireWorker,
      RegisterWorkgroupCluster, SetRegistryPackageReleaseYanked, RemoveRegistryPackageOwner,
      NextRegistryTokenId, RevokeRegistryPublishToken, NextRegistryAuditEventId;
    store_unfold; cbn; try done; store_split; try done.
  rewrite lookup_insert_is_Some'. by right.
Qed.

(** ** Rule induction on the abstract machine *)

Lemma moves_lookup s s' key job new k :
  moves s s' key job new ->
  jobs_ s' !! k = if key =s k then Some job else jobs_ s !! k.
Proof. intros (-> & _). apply gmap_lookup_insert_case. Qed.

Lemma moves_log s s' key job new k :
  moves s s' key job new -> log s' k = if key =s k then log s k ++ new else log s k.
Proof.
  intros (_ & He & _). unfold log at 1, GetJobEvents. rewrite He, gmap_lookup_insert_case.
  destruct (key =s k) eqn:E; [|done]. by apply str_eqb_iff in E as ->.
Qed.

Lemma moves_keeps_inv s s' key job new :
  queue_inv s -> moves s s' key job new -> job_id job = key ->
  (forall w, is_Some (workers_ s !! w) -> is_Some (workers_ s' !! w)) ->
  job_worker_id job = EmptyString \/ is_Some (workers_ s !! job_worker_id job) ->
  queue_inv s'.
Proof.
  intros [Hk Hl Hn Hw] Hm Hid Hmono Hjw.
  assert (Hlk := fun k => moves_lookup _ _ _ _ _ k Hm).
  assert (Hlog := fun k => moves_log _ _ _ _ _ k Hm).
  destruct Hm as (_ & _ & Hne & Hall). split.
  - intros k j. rewrite Hlk. destruct (key =s k) eqn:E; [|apply Hk].
    apply str_eqb_iff in E. intros [= <-]. congruence.
  - intros k j. rewrite Hlk, Hlog. destruct (key =s k) eqn:E; [|apply Hl].
    intros [= <-]. destruct new as [|e new _] using rev_ind; [done|].
    exists e. rewrite (assoc_L (++)), last_snoc. split; [done|].
    apply Forall_app in Hall as [_ [[? _] _]%Forall_cons]. done.
  - intros k. rewrite Hlog. destruct (key =s k) eqn:E; [|apply Hn].
    apply str_eqb_iff in E as <-. apply Forall_app_2; [apply Hn|].
    eapply Forall_impl; [exact Hall|]. by intros ? [_ ?].
  - intros k j. rewrite Hlk. destruct (key =s k) eqn:E.
    + intros [= <-]. destruct Hjw; auto.
    + intros Hj. destruct (Hw _ _ Hj); auto.
Qed.

Lemma job_step_keeps_inv s s' l :
  queue_inv s -> job_step s s' l ->
  (forall w, is_Some (workers_ s !! w) -> is_Some (workers_ s' !! w)) -> queue_inv s'.
Proof.
  intros Hinv Hst Hmono. destruct Hst as
    [Hj He|job new Hf Hm|key job t new Hk Hm|key job w new Hk Hq Hw Hm|key job new Hk Hm
    |key job st t arts new Hk Hm].
  - destruct Hinv as [H1 H2 H3 H4]. unfold log, GetJobEvents in *.
    split; unfold keys_ok, log, GetJobEvents; rewrite ?Hj, ?He; try done.
    intros k j Hkj. destruct (H4 _ _ Hkj); auto.
  - eapply moves_keeps_inv; [done..|]. left. unfold fresh_job in Hf.
    by apply andb_true_iff in Hf as [_ ?%is_empty_true].
  - eapply moves_keeps_inv; [done..| | |]; [|done|]; cbn;
      [by eapply inv_keys|by eapply inv_worker].
  - eapply moves_keeps_inv; [done..| | |]; [|done|]; cbn; [by eapply inv_keys|by right].
  - eapply moves_keeps_inv; [done..| | |]; [|done|]; cbn;
      [by eapply inv_keys|by eapply inv_worker].
  - eapply moves_keeps_inv; [done..| | |]; [|done|]; cbn;
      [by eapply inv_keys|by eapply inv_worker].
Qed.

Lemma reachable_inv s : reachable s -> queue_inv s.
Proof.
  induction 1 as [|s c Hr IH Hc].
  - split; unfold keys_ok, log, GetJobEvents; cbn; intros *; by rewrite lookup_empty.
  - destruct (refines_job_machine s c (inv_keys _ IH) Hc) as (l & Hl & _).
    eapply job_step_keeps_inv; [done..|]. intros w. apply workers_mono.
Qed.

Lemma job_step_log_prefix s s' l k : job_step s s' l -> log s k `prefix_of` log s' k.
Proof.
  assert (Hm : forall key job new, moves s s' key job new -> log s k `prefix_of` log s' k).
  { intros key job new Hm. rewrite (moves_log _ _ _ _ _ _ Hm).
    destruct (key =s k); [by eexists|done]. }
  destruct 1; eauto. unfold log, GetJobEvents. by rewrite H0.
Qed.

Lemma label_requeues c l k :
  label_of c l -> requeues k c = false -> client_ok c = true ->
  l <> LQueue k /\ l <> LComplete k "queued".
Proof.
  destruct l, c; cbn -[String.eqb]; try done; intros Hl Hr _; (split; [try done|try done]);
    intros [=]; simplify_eq; destruct_and?; simplify_eq; by rewrite ?str_eqb_refl in Hr.
Qed.

Lemma job_step_not_queued s s' l k :
  keys_ok s -> job_step s s' l -> l <> LQueue k -> l <> LComplete k "queued" ->
  not_queued s k -> not_queued s' k.
Proof.
  intros Hk Hst Hl1 Hl2 (job0 & Hj0 & Hq0). unfold not_queued.
  destruct Hst as [Hj He|job new Hf Hm|key job t new Hkey Hm|key job w new Hkey Hq Hw Hm
    |key job new Hkey Hm|key job st t arts new Hkey Hm];
    [rewrite Hj; by exists job0|..]; rewrite (moves_lookup _ _ _ _ _ k Hm);
    (match goal with |- context [if ?b then _ else _] => destruct b eqn:E end;
     [apply str_eqb_iff in E|by exists job0]).
  - by subst.
  - by eexists.
  - by eexists.
  - subst. simplify_eq. by eexists.
  - eexists. split; [done|]. cbn. intros ->. by subst.
Qed.

Lemma not_queued_stable s cs k :
  queue_inv s -> not_queued s k ->
  Forall (fun c => client_ok c = true /\ requeues k c = false) cs ->
  queue_inv (run_calls s cs) /\ not_queued (run_calls s cs) k.
Proof.
  intros Hinv Hnq Hall. revert s Hinv Hnq.
  induction Hall as [|c cs [Hc Hr] _ IH]; [done|]; intros s Hinv Hnq. cbn.
  destruct (refines_job_machine s c (inv_keys _ Hinv) Hc) as (l & Hl & Hlab & _).
  destruct (label_requeues _ _ _ Hlab Hr Hc).
  apply IH; [|eapply job_step_not_queued; eauto; apply Hinv].
  eapply job_step_keeps_inv; [done..|]. intros w. apply workers_mono.
Qed.

Lemma claimed_was_queued s c job :
  queue_inv s -> claimed s c = Some job ->
  exists old, jobs_ s !! job_id job = Some old /\ job_status old = "queued"%string
    /\ not_queued (store_step s c) (job_id job).
Proof.
  intros Hinv Hc. assert (Hok : client_ok c = true) by (by destruct c).
  destruct (refines_job_machine s c (inv_keys _ Hinv) Hok) as (l & Hl & _ & Hcl).
  destruct (Hcl _ Hc) as (key & w & -> & Hkey).
  inversion Hl as [| | |? old ? new Hold Hq Hw Hm| |]; subst.
  rewrite (moves_lookup _ _ _ _ _ key Hm), str_eqb_refl in Hkey. simplify_eq. cbn.
  rewrite (inv_keys _ Hinv _ _ Hold). exists old. split_and!; try done.
  exists (claim_record w old). split; [|done].
  by rewrite (moves_lookup _ _ _ _ _ key Hm), str_eqb_refl.
Qed.

(** ** Identifiers and the registry maps *)

Lemma PaddedNumber_inj a b w :
  0 <= a -> 0 <= b -> PaddedNumber a w = PaddedNumber b w -> a = b.
Proof. apply padded_decimal_inj. Qed.

Definition is_next_id (c : store_call) : bool :=
  match c with CallNextJobId => true | _ => false end.
Definition count_ids (cs : list store_call) : Z := Z.of_nat (List.length (List.filter is_next_id cs)).

Lemma counter_frame s c :
  is_next_id c = false -> next_job_sequence_ (store_step s c) = next_job_sequence_ s.
Proof.
  destruct c; try done; intros _; store_unfold;
    unfold SubmitJob, CancelJob, RegisterWorker, RegisterCompileContainer,
      SwitchCompileContainerWorkspace, HeartbeatJob, CompleteJob, ClaimJob,
      ClaimJobForCompileContainer, RequireWorker,
      RegisterWorkgroupCluster, SetRegistryPackageReleaseYanked, RemoveRegistryPackageOwner,
      NextRegistryTokenId, RevokeRegistryPublishToken, NextRegistryAuditEventId;
    store_unfold; cbn; try done; store_split; done.
Qed.

Lemma counter_after s cs :
  0 <= next_job_sequence_ s -> next_job_sequence_ s + count_ids cs < 2 ^ 64 ->
  next_job_sequence_ (run_calls s cs) = next_job_sequence_ s + count_ids cs.
Proof.
  unfold count_ids. revert s. induction cs as [|c cs IH]; intros s H0 Hlt; [cbn in *; lia|].
  change (run_calls s (c :: cs)) with (run_calls (store_step s c) cs).
  cbn -[run_calls store_step] in *.
  destruct (is_next_id c) eqn:Hc; cbn -[run_calls store_step] in *.
  - destruct c; try done. assert (Hs : next_job_sequence_ (store_step s CallNextJobId)
      = next_job_sequence_ s + 1).
    { cbn. unfold u64. rewrite Z.mod_small; lia. }
    rewrite IH; rewrite Hs; lia.
  - by rewrite IH; rewrite counter_frame.
Qed.

Lemma fold_max_ge id l best :
  let f := fun (b : Z) (p : string * RegistryRepositoryVersionRecord) =>
    let '(_, r) := p in
    if (ver_repository_id r =s id) && (b <? ver_sequence r) then ver_sequence r else b in
  best <= fold_left f l best
  /\ (forall k r, In (k, r) l -> ver_repository_id r = id -> ver_sequence r <= fold_left f l best)
  /\ (fold_left f l best = best
      \/ exists k r, In (k, r) l /\ ver_repository_id r = id /\ fold_left f l best = ver_sequence r).
Proof.
  intros f. revert best. induction l as [|[k r] l IH]; intros best; cbn; [naive_solver lia|].
  destruct (IH (f best (k, r))) as (IH1 & IH2 & IH3). clear IH.
  assert (Hstep : best <= f best (k, r)
    /\ (ver_repository_id r = id -> ver_sequence r <= f best (k, r))
    /\ (f best (k, r) = best \/ (ver_repository_id r = id /\ f best (k, r) = ver_sequence r))).
  { cbn. destruct (ver_repository_id r =s id) eqn:E; cbn.
    - apply str_eqb_iff in E. destruct (Z.ltb_spec best (ver_sequence r));
        (split_and!; [lia|intros; lia|]); [by right|by left].
    - apply str_eqb_false in E. split_and!; [lia|done|by left]. }
  destruct Hstep as (S1 & S2 & S3). split_and!.
  - cbn in *. lia.
  - intros k' r' [[= <- <-]|Hin] Hid; [specialize (S2 Hid); cbn in *; lia|]. eauto.
  - destruct IH3 as [IH3|(k' & r' & ? & ? & ?)]; [|right; by exists k', r'; auto].
    destruct S3 as [S3|[Hid S3]]; [left; cbn in *; congruence|].
    right. exists k, r. split_and!; [by left|done|cbn in *; congruence].
Qed.

Lemma max_sequence_spec id l :
  0 <= max_sequence id l
  /\ (forall k r, In (k, r) l -> ver_repository_id r = id -> ver_sequence r <= max_sequence id l)
  /\ (max_sequence id l = 0
      \/ exists k r, In (k, r) l /\ ver_repository_id r = id /\ max_sequence id l = ver_sequence r).
Proof. apply (fold_max_ge id l 0). Qed.

Lemma switch_generation w r c :
  - 2 ^ 31 <= workspace_generation c < 2 ^ 31 - 1 ->
  workspace_generation (switch_workspace w r c) = workspace_generation c + 1.
Proof. intros H. cbn. unfold i32. rewrite Z.mod_small; lia. Qed.

(** What a container is bound to. *)
Definition binding (c : CompileContainerRecord) : string * string * string :=
  (container_tenant_id c, container_user_id c, container_worker_id c).

Lemma binding_step s c id k :
  compile_containers_ s !! id = Some k ->
  exists k', compile_containers_ (store_step s c) !! id = Some k' /\ binding k' = binding k.
Proof.
  intros Hid. destruct c; store_unfold;
    unfold NextJobId, SubmitJob, CancelJob, RegisterWorker, RegisterCompileContainer,
      SwitchCompileContainerWorkspace, HeartbeatJob, CompleteJob, ClaimJob,
      ClaimJobForCompileContainer, RequireWorker,
      RegisterWorkgroupCluster, SetRegistryPackageReleaseYanked, RemoveRegistryPackageOwner,
      NextRegistryTokenId, RevokeRegistryPublishToken, NextRegistryAuditEventId;
    store_unfold; cbn; try (by exists k); store_split; try (by exists k);
    rewrite gmap_lookup_insert_case;
    (match goal with |- context [if ?b then _ else _] => destruct b eqn:E end; [|by exists k]);
    apply str_eqb_iff in E; simplify_eq; eexists; (split; [done|]); try done.
  unfold binding. apply orb_false_iff in Heqb1 as [].
  by repeat match goal with H : (_ <>s _) = false |- _ =>
       apply negb_false_iff, str_eqb_iff in H; rewrite ?H; clear H end.
Qed.

Lemma binding_run s cs id k :
  compile_containers_ s !! id = Some k ->
  exists k', compile_containers_ (run_calls s cs) !! id = Some k' /\ binding k' = binding k.
Proof.
  revert s k. induction cs as [|c cs IH]; intros s k Hk; [by exists k|].
  destruct (binding_step s c id k Hk) as (k1 & H1 & <-). exact (IH (store_step s c) k1 H1).
Qed.

Lemma job_step_workers_log s cs k :
  queue_inv s -> forallb client_ok cs = true -> log s k `prefix_of` log (run_calls s cs) k.
Proof.
  revert s. induction cs as [|c cs IH]; intros s Hinv; [done|].
  intros [Hc Hcs]%andb_true_iff.
  destruct (refines_job_machine s c (inv_keys _ Hinv) Hc) as (l & Hl & _).
  etrans; [by eapply job_step_log_prefix|]. apply IH; [|done].
  eapply job_step_keeps_inv; [done..|]. intros w. apply workers_mono.
Qed.

(** * Properties *)

(** A concrete run used by the witnesses: one worker, one container of the user,
    two queued jobs of which the second belongs to another user. *)
Definition demo_worker : json :=
  obj [("worker_id", JString "w1"); ("region", JString "eu"); ("worker_pool_key", JString "p")].
Definition demo_job (id user workspace : string) : PlatformJobRecord :=
  mkJob id "t1" user workspace "build" "queued" "eu" "p" default_created_at "" "" (obj []) [].
Definition demo_container : CompileContainerRecord :=
  mkContainer "c1" "w1" "t1" "u2" "ws0" "eu" "p" "active" 1 1 default_created_at "" "".
Definition demo_calls : list store_call :=
  [CallRegisterWorker demo_worker; CallRegisterCompileContainer demo_container;
   CallSubmitJob (demo_job "job-1" "u1" "ws1"); CallSubmitJob (demo_job "job-2" "u2" "ws2")].
Definition demo_store : MemoryStateStore := run_calls initial_store demo_calls.

Lemma demo_reachable : reachable demo_store.
Proof. repeat (apply (reachable_step _ _); [|reflexivity]). apply reachable_initial. Qed.

(** C2. Whatever call the platform makes on the store, what happens to the job
    queue is a move of the abstract job machine [job_step] that the call is
    entitled to make: nothing, queue, cancel, claim of a queued job by a
    registered worker, heartbeat, or completion, each with its event appended
    to that job's log, and a claim hands out exactly the job that moved. *)
Theorem store_call_refines_job_machine s c :
  reachable s -> client_ok c = true ->
  exists l, job_step s (store_step s c) l /\ label_of c l
    /\ (forall job, claimed s c = Some job -> exists key w, l = LClaim key w
          /\ jobs_ (store_step s c) !! key = Some job).
Proof. intros Hr. apply refines_job_machine, reachable_inv, Hr. Qed.

Lemma store_call_refines_job_machine_witness :
  exists l, job_step demo_store (store_step demo_store (CallClaimJob "w1" "eu" "p")) l
    /\ label_of (CallClaimJob "w1" "eu" "p") l
    /\ (forall job, claimed demo_store (CallClaimJob "w1" "eu" "p") = Some job ->
          exists key w, l = LClaim key w
          /\ jobs_ (store_step demo_store (CallClaimJob "w1" "eu" "p")) !! key = Some job).
Proof. apply store_call_refines_job_machine; [exact demo_reachable|reflexivity]. Defined.

(** C28. In every state the platform can reach, each job record sits under its
    own id, its log ends in an event with the job's current status, every event
    of a log names that job, and the worker a job names is registered. *)
Theorem reachable_queue_consistent s : reachable s -> queue_inv s.
Proof. apply reachable_inv. Qed.

Lemma reachable_queue_consistent_witness :
  queue_inv demo_store /\ jobs_ demo_store !! "job-2" = Some (demo_job "job-2" "u2" "ws2").
Proof. split; [apply reachable_queue_consistent, demo_reachable|reflexivity]. Defined.

(** C3. No job is handed to two claims: after [ClaimJob] or
    [ClaimJobForCompileContainer] returned a job, however the platform goes on,
    no claim returns it again unless the job is submitted anew under its id or
    reported complete with the status "queued". *)
Theorem claims_are_exclusive s c job cs c' job' :
  reachable s -> claimed s c = Some job ->
  Forall (fun c => client_ok c = true /\ requeues (job_id job) c = false) cs ->
  claimed (run_calls (store_step s c) cs) c' = Some job' ->
  job_id job' <> job_id job.
Proof.
  intros Hr Hc Hcs Hc' Heq. pose proof (reachable_inv _ Hr) as Hinv.
  destruct (claimed_was_queued _ _ _ Hinv Hc) as (_ & _ & _ & Hnq).
  assert (Hok : client_ok c = true) by (by destruct c).
  destruct (not_queued_stable (store_step s c) cs (job_id job)) as [Hinv' (j & Hj & Hq)];
    [by apply reachable_inv, reachable_step|done|done|].
  destruct (claimed_was_queued _ _ _ Hinv' Hc') as (old & Hold & Hq' & _).
  rewrite Heq in Hold. simplify_eq.
Qed.

Lemma claims_are_exclusive_witness :
  job_id (claim_record "w1" (demo_job "job-2" "u2" "ws2"))
  <> job_id (claim_record "w1" (demo_job "job-1" "u1" "ws1")).
Proof.
  apply (claims_are_exclusive demo_store (CallClaimJob "w1" "eu" "p")
    (claim_record "w1" (demo_job "job-1" "u1" "ws1"))
    [CallHeartbeatJob "job-1" "w1" "alive"] (CallClaimJob "w1" "eu" "p")).
  - exact demo_reachable.
  - vm_compute. reflexivity.
  - repeat constructor.
  - vm_compute. reflexivity.
Defined.

(** C29. [ClaimJob] on every branch: an unknown worker makes it throw with the
    store untouched; it returns nothing exactly when no queued job matches the
    region and pool; otherwise it takes the matching queued job with the least
    id, marks it running under the worker, appends the running event to its log
    and changes no other job or log. *)
Theorem ClaimJob_takes_least_queued w region pool s :
  match ClaimJob w region pool s with
  | (inl e, s') =>
      workers_ s !! w = None /\ s' = s /\ e = MemoryStateStoreError "worker is not registered"
  | (inr None, s') =>
      s' = s /\ forall k j, jobs_ s !! k = Some j -> job_queued_for region pool j = false
  | (inr (Some job), s') =>
      exists k old, jobs_ s !! k = Some old /\ job_queued_for region pool old = true
        /\ (forall k' j', jobs_ s !! k' = Some j' -> job_queued_for region pool j' = true ->
              String.leb k k' = true)
        /\ job = with_worker w (with_status "running" old)
        /\ jobs_ s' = <[k := job]> (jobs_ s)
        /\ log s' k = log s k
             ++ [mkEvent "event-running" k "running" "job claimed by worker" default_created_at]
        /\ (forall k', k' <> k -> log s' k' = log s k')
        /\ compile_containers_ s' = compile_containers_ s
  end.
Proof.
  unfold ClaimJob, m_bind. destruct (RequireWorker_cases w s) as [[Hw ->]|[Hw ->]].
  { split_and!; try done. unfold map_has in Hw. by destruct (workers_ s !! w). }
  store_unfold. destruct (List.find _ _) as [[k old]|] eqn:E; cbn.
  - apply find_items_Some in E as (Hk & Hp & Hleast). exists k, old. split_and!; try done.
    + unfold log, GetJobEvents. cbn. rewrite lookup_insert_eq. by destruct (events_ s !! k).
    + intros k' Hne. unfold log, GetJobEvents. cbn. by rewrite lookup_insert_ne.
  - split; [done|]. exact (proj1 (find_items_None _ _) E).
Qed.

(** C30. A compile container only ever runs its own user's jobs: when
    [ClaimJobForCompileContainer] returns a job, the container was registered,
    active and owned by the claiming worker, the job carries the container's
    tenant and user and the requested region and pool, and afterwards the
    container sits in the job's workspace, with its generation advanced exactly
    when the workspace changed, and no other container is touched. *)
Theorem container_claim_isolates_users w region pool id s :
  match ClaimJobForCompileContainer w region pool id s with
  | (inr (Some job), s') =>
      exists c c', compile_containers_ s !! id = Some c
        /\ compile_containers_ s' = <[id := c']> (compile_containers_ s)
        /\ container_worker_id c = w /\ container_status c = "active"%string
        /\ job_tenant_id job = container_tenant_id c /\ job_user_id job = container_user_id c
        /\ job_region job = region /\ job_worker_pool_key job = pool
        /\ job_worker_id job = w /\ job_status job = "running"%string
        /\ current_workspace_id c' = job_workspace_id job
        /\ binding c' = binding c
        /\ workspace_generation c'
           = (if current_workspace_id c =s job_workspace_id job then workspace_generation c
              else i32 (workspace_generation c + 1))
  | (_, s') => s' = s
  end.
Proof.
  unfold ClaimJobForCompileContainer, m_bind.
  destruct (RequireWorker_cases w s) as [[_ ->]|[_ ->]]; [done|].
  store_unfold. destruct (compile_containers_ s !! id) as [c|] eqn:Ec; [|done]; cbn.
  destruct (_ || _) eqn:Eg; [done|]; cbn.
  rewrite !orb_false_iff, !negb_false_iff, !str_eqb_iff in Eg. destruct Eg as [[[Hw Hr] Hp] Ha].
  destruct (List.find _ _) as [[k old]|] eqn:E; [|done]; cbn.
  apply find_items_Some in E as (Hk & Hq & _). unfold job_queued_for in Hq.
  rewrite !andb_true_iff, !str_eqb_iff in Hq. destruct Hq as [[[[? ?] ?] ?] ?].
  destruct (current_workspace_id c =s job_workspace_id old) eqn:Ews; cbn.
  - apply str_eqb_iff in Ews. exists c, c. rewrite insert_id by done.
    by rewrite <- Ews, str_eqb_refl.
  - exists c, (switch_workspace (job_workspace_id old) "claimJob" c). by rewrite Ews.
Qed.

(** Once a compile container is registered its tenant, user and worker never
    change, whatever calls follow: a re-registration that names another user or
    worker is refused, and no call removes a container. *)
Theorem container_binding_is_permanent s cs id c :
  compile_containers_ s !! id = Some c ->
  exists c', compile_containers_ (run_calls s cs) !! id = Some c'
    /\ container_tenant_id c' = container_tenant_id c
    /\ container_user_id c' = container_user_id c
    /\ container_worker_id c' = container_worker_id c.
Proof.
  intros Hc. destruct (binding_run s cs id c Hc) as (c' & ? & Hb). unfold binding in Hb.
  exists c'. by simplify_eq.
Qed.

Lemma container_binding_is_permanent_witness :
  let intruder := mkContainer "c1" "w1" "t9" "u9" "ws9" "eu" "p" "active" 1 1 "" "" "" in
  exists c', compile_containers_
      (run_calls demo_store [CallRegisterCompileContainer intruder;
                             CallClaimJobForCompileContainer "w1" "eu" "p" "c1"]) !! "c1" = Some c'
    /\ container_tenant_id c' = container_tenant_id demo_container
    /\ container_user_id c' = container_user_id demo_container
    /\ container_worker_id c' = container_worker_id demo_container.
Proof. apply container_binding_is_permanent. vm_compute. reflexivity. Defined.

(** Event logs are append-only: from any reachable state, whatever calls
    follow, the log of every job keeps the events it had, in order. *)
Theorem event_logs_only_grow s cs k :
  reachable s -> forallb client_ok cs = true ->
  exists new, GetJobEvents k (run_calls s cs) = GetJobEvents k s ++ new.
Proof. intros Hr Hcs. exact (job_step_workers_log s cs k (reachable_inv s Hr) Hcs). Qed.

Lemma event_logs_only_grow_witness :
  exists new, GetJobEvents "job-1" (run_calls demo_store
      [CallClaimJob "w1" "eu" "p"; CallCancelJob "job-1" "stop"; CallNextJobId])
    = GetJobEvents "job-1" demo_store ++ new.
Proof. apply event_logs_only_grow; [exact demo_reachable|reflexivity]. Defined.

(** Job ids are never handed out twice: as long as the 64-bit sequence does
    not wrap, the id [NextJobId] returns differs from the one it returns after
    any further calls. *)
Theorem job_ids_are_distinct s cs :
  0 <= next_job_sequence_ s -> next_job_sequence_ s + count_ids cs + 1 < 2 ^ 64 ->
  (NextJobId s).1 <> (NextJobId (run_calls (store_step s CallNextJobId) cs)).1.
Proof.
  intros H0 Hlt. assert (Hc : 0 <= count_ids cs) by (unfold count_ids; lia).
  assert (Hn : next_job_sequence_ (store_step s CallNextJobId) = next_job_sequence_ s + 1).
  { cbn. unfold u64. rewrite Z.mod_small; lia. }
  pose proof (counter_after (store_step s CallNextJobId) cs) as Hrun.
  rewrite Hn in Hrun. unfold NextJobId, m_bind, gets, modify, m_ret. cbn -[run_calls store_step].
  rewrite Hrun by lia. intros [= Heq]. apply PaddedNumber_inj in Heq; lia.
Qed.

Lemma job_ids_are_distinct_witness :
  (NextJobId initial_store).1
  <> (NextJobId (run_calls (store_step initial_store CallNextJobId) (CallNextJobId :: demo_calls))).1.
Proof. apply job_ids_are_distinct; vm_compute; congruence. Defined.

(** A published release is found again under its package and version, and
    publishing it changes no other release: provided package ids hold no "@",
    the character the store joins its keys with. *)
Theorem release_lookup_after_upsert record p v s :
  str_contains_char (rel_package_id record) "@" = false -> str_contains_char p "@" = false ->
  GetRegistryPackageRelease p v (UpsertRegistryPackageRelease record s).2
  = if (rel_package_id record =s p) && (rel_version record =s v) then Some record
    else GetRegistryPackageRelease p v s.
Proof.
  intros Hr Hp. unfold GetRegistryPackageRelease. cbn. rewrite gmap_lookup_insert_case.
  unfold release_store_key. destruct (_ =s p +:+ "@" +:+ v) eqn:E.
  - apply str_eqb_iff in E. apply (join_char_inj "@") in E as [-> ->]; [|done..].
    by rewrite !str_eqb_refl.
  - destruct (rel_package_id record =s p) eqn:Ep; [|done].
    destruct (rel_version record =s v) eqn:Ev; [|done].
    apply str_eqb_iff in Ep, Ev. subst. by rewrite str_eqb_refl in E.
Qed.

Lemma release_lookup_after_upsert_witness :
  let r := mkRelease "acme/tool" "1.0.0" "2026" "m" "a" (JArray []) "u1" "t" false "" in
  GetRegistryPackageRelease "acme/tool" "1.0.0" (UpsertRegistryPackageRelease r initial_store).2
  = if (rel_package_id r =s "acme/tool") && (rel_version r =s "1.0.0") then Some r
    else GetRegistryPackageRelease "acme/tool" "1.0.0" initial_store.
Proof. apply release_lookup_after_upsert; vm_compute; reflexivity. Defined.

(** The next sequence number of a repository is larger than that of every
    version recorded for it and is one more than one of them (or one, when
    there is none), so recorded sequences never repeat: as long as the largest
    is below the largest [int]. *)
Theorem next_sequence_is_fresh id s :
  (forall k r, registry_repository_versions_ s !! k = Some r -> ver_sequence r < 2 ^ 31 - 1) ->
  let n := NextRepositoryVersionSequence id s in
  (forall k r, registry_repository_versions_ s !! k = Some r -> ver_repository_id r = id ->
     ver_sequence r < n)
  /\ (n = 1 \/ exists k r, registry_repository_versions_ s !! k = Some r
        /\ ver_repository_id r = id /\ n = ver_sequence r + 1).
Proof.
  intros Hb n. destruct (max_sequence_spec id (items (registry_repository_versions_ s)))
    as (H1 & H2 & H3). set (m := max_sequence id _) in *.
  assert (Hn : n = m + 1).
  { unfold n, NextRepositoryVersionSequence, i32. fold m. rewrite Z.mod_small; [lia|].
    destruct H3 as [H3|(k & r & Hin & _ & H3)]; [lia|].
    apply list_elem_of_In, elem_of_items, Hb in Hin. split; [|lia].
    lia. }
  split.
  - intros k r Hk Hid. apply elem_of_items, list_elem_of_In in Hk.
    specialize (H2 _ _ Hk Hid). lia.
  - destruct H3 as [H3|(k & r & Hin & Hid & H3)]; [left; lia|].
    right. exists k, r. apply list_elem_of_In, elem_of_items in Hin.
    split_and!; [done..|]. lia.
Qed.

Definition demo_versions : MemoryStateStore :=
  run_calls initial_store
    [CallRecordVersion (mkRepositoryVersion "v1" "repo" 1 "" "" "");
     CallRecordVersion (mkRepositoryVersion "v2" "repo" 7 "" "" "")].

Lemma next_sequence_is_fresh_witness :
  NextRepositoryVersionSequence "repo" demo_versions = 8 /\
  let n := NextRepositoryVersionSequence "repo" demo_versions in
  (forall k r, registry_repository_versions_ demo_versions !! k = Some r ->
     ver_repository_id r = "repo"%string -> ver_sequence r < n)
  /\ (n = 1 \/ exists k r, registry_repository_versions_ demo_versions !! k = Some r
        /\ ver_repository_id r = "repo"%string /\ n = ver_sequence r + 1).
Proof.
  split; [vm_compute; reflexivity|]. apply next_sequence_is_fresh.
  intros k r. cbn. rewrite !gmap_lookup_insert_case.
  destruct ("v2" =s k); [intros [= <-]; cbn; lia|].
  destruct ("v1" =s k); [intros [= <-]; cbn; lia|]. by rewrite lookup_empty.
Defined.
