(* ===== verification/QueueLiveness.v ===== *)
(** Progress of the job queue: how many claims a queued job waits for. *)
From stdpp Require Import base list gmap sets strings fin_map_dom.
From Stdlib Require Import ZArith Lia Ascii String.
From S2P Require Import Prelude Json StateRecords MemoryStateStore.

Section Waiting.
Context (region pool k : string).
Implicit Types s : MemoryStateStore.

(** The jobs for the region and pool that are served up to job [k]. *)
Definition is_ahead (entry : string * PlatformJobRecord) : bool :=
  String.leb entry.1 k && job_queued_for region pool entry.2.
Definition waiting s : gset string := dom (filter (fun entry => is_ahead entry = true) (jobs_ s)).

(** The calls that put a job ahead of [k]: a submission under a smaller id for the
    region and pool, and a completion that reports the status [queued]. *)
Definition overtakes (c : store_call) : bool :=
  match c with
  | CallSubmitJob job => String.leb (job_id job) k && job_queued_for region pool job
  | CallCompleteJob id _ status _ _ _ => String.leb id k && (status =s "queued")
  | _ => false
  end.

(** A claim for the region and pool by a worker that [s] knows. *)
Definition serves s (c : store_call) : bool :=
  match c with
  | CallClaimJob w r p => map_has (workers_ s) w && (r =s region) && (p =s pool)
  | _ => false
  end.
Definition services s (cs : list store_call) : nat := List.length (List.filter (serves s) cs).

Lemma elem_of_waiting s key :
  key ∈ waiting s <-> exists job, jobs_ s !! key = Some job /\ is_ahead (key, job) = true.
Proof.
  unfold waiting. rewrite elem_of_dom. split.
  - intros [job [Hj Ha]%map_lookup_filter_Some]. by exists job.
  - intros (job & Hj & Ha). exists job. by apply map_lookup_filter_Some.
Qed.

(** A move that leaves no queued job of this kind under its key puts none ahead. *)
Lemma moves_waiting s s' key job new :
  moves s s' key job new ->
  (is_ahead (key, job) = true -> exists old, jobs_ s !! key = Some old /\ is_ahead (key, old) = true) ->
  waiting s' ⊆ waiting s.
Proof.
  intros Hm Ha key' (j & Hj & Haj)%elem_of_waiting. apply elem_of_waiting.
  rewrite (moves_lookup _ _ _ _ _ key' Hm) in Hj. destruct (key =s key') eqn:E; [|by exists j].
  apply str_eqb_iff in E as <-. injection Hj as <-. by apply Ha.
Qed.

Lemma not_queued_behind key job : job_status job <> "queued"%string -> is_ahead (key, job) = false.
Proof.
  intros Hs. unfold is_ahead, job_queued_for. cbn.
  apply str_eqb_false in Hs. rewrite Hs. apply andb_false_r.
Qed.

Lemma submit_waiting s job : overtakes (CallSubmitJob job) = false ->
  waiting (store_step s (CallSubmitJob job)) ⊆ waiting s.
Proof.
  intros Ho key (j & Hj & Ha)%elem_of_waiting. apply elem_of_waiting. cbn in Hj, Ho.
  rewrite gmap_lookup_insert_case in Hj. destruct (job_id job =s key) eqn:E; [|by exists j].
  apply str_eqb_iff in E as <-. injection Hj as <-. unfold is_ahead in Ha. cbn in Ha. congruence.
Qed.

Lemma step_waiting s c : keys_ok s -> client_ok c = true -> overtakes c = false ->
  waiting (store_step s c) ⊆ waiting s.
Proof.
  intros Hk Hc Ho. destruct (refines_job_machine s c Hk Hc) as (l & Hl & Hlab & _).
  destruct Hl as [Hj He|job new Hf Hm|key job t new Hkey Hm|key job w new Hkey Hq Hw Hm
    |key job new Hkey Hm|key job status t arts new Hkey Hm].
  - unfold waiting. by rewrite Hj.
  - destruct c; try done. by apply submit_waiting.
  - apply (moves_waiting _ _ _ _ _ Hm). by rewrite not_queued_behind.
  - apply (moves_waiting _ _ _ _ _ Hm). by rewrite not_queued_behind.
  - apply (moves_waiting _ _ _ _ _ Hm). intros Ha. by exists job.
  - apply (moves_waiting _ _ _ _ _ Hm). destruct c; try done. destruct Hlab as [-> ->].
    cbn in Ho. unfold is_ahead, job_queued_for. cbn.
    intros [Hl [[Hs _]%andb_true_iff _]%andb_true_iff]%andb_true_iff. by rewrite Hl, Hs in Ho.
Qed.

(** A claim takes one of the jobs ahead while there are any. *)
Lemma serve_waiting s c : keys_ok s -> serves s c = true ->
  waiting (store_step s c) = ∅ \/ (size (waiting (store_step s c)) < size (waiting s))%nat.
Proof.
  intros Hk Hs. pose proof (step_waiting s c Hk) as Hsub.
  destruct c; try done. specialize (Hsub eq_refl eq_refl). cbn in Hs.
  apply andb_true_iff in Hs as [[Hw ->%str_eqb_iff]%andb_true_iff ->%str_eqb_iff].
  destruct (decide (waiting (store_step s (CallClaimJob worker_id region pool)) = ∅)) as [|Hne]; [by left|].
  right. apply subset_size. apply set_choose_L in Hne as [key Hkey].
  apply Hsub in Hkey as Hkey'. apply elem_of_waiting in Hkey' as (j & Hj & Ha).
  unfold is_ahead in Ha. cbn in Ha. apply andb_true_iff in Ha as [Hle Hq].
  revert Hsub Hkey. cbn. store_unfold. unfold ClaimJob, m_bind.
  destruct (RequireWorker_cases worker_id s) as [[Hno _]|[_ ->]]; [congruence|].
  store_unfold. destruct (List.find _ _) as [[first job]|] eqn:E; cbn.
  2: { intros _ _. rewrite find_items_None in E. specialize (E _ _ Hj). cbn in E. congruence. }
  intros Hsub Hkey. apply find_items_Some in E as (Hf & Hqf & Hleast). split; [exact Hsub|].
  intros Hback. assert (Hin : first ∈ waiting s).
  { apply elem_of_waiting. exists job. split; [done|]. unfold is_ahead. cbn. rewrite Hqf, andb_true_r.
    apply (str_leb_trans first key k); [|done]. by apply (Hleast _ _ Hj). }
  apply Hback, elem_of_waiting in Hin as (j' & Hj' & Ha').
  change (<[first := claim_record worker_id job]> (jobs_ s) !! first = Some j') in Hj'.
  rewrite lookup_insert_eq in Hj'. injection Hj' as <-. by rewrite not_queued_behind in Ha'.
Qed.

Lemma serves_stays s c c' : serves s c' = true -> serves (store_step s c) c' = true.
Proof.
  destruct c'; try done. cbn. rewrite !andb_true_iff. intros [[Hw ?] ?]. split_and!; try done.
  apply map_has_true. apply workers_mono. by apply map_has_true.
Qed.

Lemma services_stay s c cs : (services s cs <= services (store_step s c) cs)%nat.
Proof.
  unfold services. induction cs as [|c' cs IH]; [done|]. cbn.
  destruct (serves s c') eqn:E; [rewrite (serves_stays _ c _ E); cbn; lia|].
  destruct (serves (store_step s c) c'); cbn; lia.
Qed.

Lemma store_step_keys s c : queue_inv s -> client_ok c = true -> queue_inv (store_step s c).
Proof.
  intros Hinv Hc. destruct (refines_job_machine s c (inv_keys _ Hinv) Hc) as (l & Hl & _).
  eapply job_step_keeps_inv; [done..|]. intros w. apply workers_mono.
Qed.

Lemma waiting_shrinks s cs :
  queue_inv s -> Forall (fun c => client_ok c = true /\ overtakes c = false) cs ->
  (size (waiting (run_calls s cs)) <= size (waiting s) - services s cs)%nat.
Proof.
  intros Hinv Hall. revert s Hinv. induction Hall as [|c cs [Hc Ho] _ IH]; intros s Hinv.
  { cbn. lia. }
  cbn [run_calls fold_left]. etransitivity; [apply IH; by apply store_step_keys|].
  pose proof (subseteq_size _ _ (step_waiting s c (inv_keys _ Hinv) Hc Ho)) as Hle.
  pose proof (services_stay s c cs) as Hstay.
  assert (Hcons : services s (c :: cs) = if serves s c then S (services s cs) else services s cs).
  { unfold services. cbn. by destruct (serves s c). }
  rewrite Hcons. destruct (serves s c) eqn:Hs; [|lia].
  destruct (serve_waiting s c (inv_keys _ Hinv) Hs) as [->|Hlt]; [rewrite size_empty; lia|lia].
Qed.
End Waiting.

(** C15. A queued job is served.  Take a reachable store with job [k] queued, and let
    [n] jobs for the same region and pool be queued up to [k] in the order of ids, [k]
    itself included.  However the platform goes on, with calls of other workers,
    containers and clients in between, as long as no call puts a job ahead of [k] (a
    submission under a smaller id, or a completion that reports "queued"), then after
    [n] claims for the region and pool by registered workers job [k] is not queued any
    more, and neither is any job ahead of it. *)
Theorem queued_jobs_are_served s region pool k cs :
  reachable s ->
  Forall (fun c => client_ok c = true /\ overtakes region pool k c = false) cs ->
  (size (waiting region pool k s) <= services region pool s cs)%nat ->
  forall key job, String.leb key k = true -> jobs_ (run_calls s cs) !! key = Some job ->
    job_queued_for region pool job = false.
Proof.
  intros Hr Hall Hn key job Hle Hj. pose proof (reachable_inv _ Hr) as Hinv.
  pose proof (waiting_shrinks region pool k s cs Hinv Hall) as Hs.
  assert (Hempty : waiting region pool k (run_calls s cs) = ∅).
  { apply leibniz_equiv, size_empty_iff. lia. }
  apply not_true_iff_false. intros Hq.
  assert (Hin : key ∈ waiting region pool k (run_calls s cs)); [|by rewrite Hempty in Hin].
  apply elem_of_waiting. exists job. split; [done|]. unfold is_ahead. cbn. by rewrite Hle.
Qed.

Lemma queued_jobs_are_served_witness :
  job_queued_for "eu" "p" (demo_job "job-2" "u2" "ws2") = true
  /\ forall job,
       jobs_ (run_calls demo_store [CallClaimJob "w1" "eu" "p"; CallSubmitJob (demo_job "job-3" "u1" "ws1");
                                    CallHeartbeatJob "job-1" "w1" "alive"; CallClaimJob "w1" "eu" "p"])
         !! "job-2" = Some job ->
       job_queued_for "eu" "p" job = false.
Proof.
  split; [reflexivity|]. intros job.
  apply (queued_jobs_are_served demo_store "eu" "p" "job-2").
  - exact demo_reachable.
  - repeat constructor.
  - vm_compute. lia.
  - reflexivity.
Defined.
