(* ===== verification/Identity.v ===== *)
(** Client identities and what each service role may do
    ([PlatformSecurity/PlatformClientAuth/Identity.cpp], [Authorization.cpp]). *)
From stdpp Require Import base list gmap strings.
From Stdlib Require Import ZArith Ascii String.
From S2P Require Import Prelude Json.

Record MtlsIdentity := mkIdentity {
  role : string;
  identity_tenant_id : string;
  node_id : string;
}.

(** The non-empty pieces of a path, as [std::getline] with '/' yields them. *)
Definition SplitPath (input : string) : list string :=
  List.filter (fun item => negb (is_empty item)) (getline_all "/" input).

Fixpoint ValueAfter (parts : list string) (key : string) : string :=
  match parts with
  | p :: ((q :: _) as rest) => if p =s key then q else ValueAfter rest key
  | _ => EmptyString
  end.

Definition kRoles : list string :=
  ["control-plane"; "worker"; "registry-writer"; "mirror"; "operator"; "cluster-registrar";
   "package-owner"].


Definition IsPlatformServiceRole (r : string) : bool := string_in r kRoles.

Definition spiffe_prefix : string := "spiffe://styio-platform/".

Definition ParseMtlsUriSan (value : string) : option MtlsIdentity :=
  if negb (str_starts_with value spiffe_prefix) then None
  else
    let parts := SplitPath (str_drop (str_length spiffe_prefix) value) in
    let identity := mkIdentity (ValueAfter parts "role") (ValueAfter parts "tenant")
                      (ValueAfter parts "node") in
    if negb (IsPlatformServiceRole (role identity)) || is_empty (node_id identity) then None
    else Some identity.

Definition SerializeMtlsIdentity (identity : MtlsIdentity) : json :=
  obj [("role", JString (role identity)); ("tenant_id", JString (identity_tenant_id identity));
       ("node_id", JString (node_id identity))].

Definition RoleIn (identity : MtlsIdentity) (allowed : list string) : bool :=
  string_in (role identity) allowed.

Definition IsInternalRole (identity : MtlsIdentity) : bool :=
  (role identity =s "control-plane") || (role identity =s "worker") || (role identity =s "mirror")
  || (role identity =s "registry-writer") || (role identity =s "operator")
  || (role identity =s "cluster-registrar") || (role identity =s "package-owner").

Definition IsAuthorizedForOperation (operation_id : string) (identity : MtlsIdentity) : bool :=
  if operation_id =s "registryStatus" then
    RoleIn identity ["control-plane"; "registry-writer"; "mirror"; "operator"]
  else if operation_id =s "registryDescriptor" then
    RoleIn identity ["control-plane"; "registry-writer"; "mirror"; "operator"]
  else if operation_id =s "publishRelease" then
    RoleIn identity ["registry-writer"; "operator"; "package-owner"]
  else if operation_id =s "verifyRegistry" then
    RoleIn identity ["registry-writer"; "mirror"; "operator"]
  else if string_in operation_id
      ["getPackage"; "listPackageReleases"; "getPackageRelease"; "listPackageOwners";
       "listRepositories"; "listRepositoryVersions"; "getPublication"; "listDistributions"] then
    RoleIn identity ["control-plane"; "registry-writer"; "mirror"; "operator"; "package-owner"]
  else if string_in operation_id
      ["yankPackageRelease"; "unyankPackageRelease"; "addPackageOwner"; "removePackageOwner"] then
    RoleIn identity ["operator"; "package-owner"; "registry-writer"]
  else if string_in operation_id
      ["createPublishToken"; "listPublishTokens"; "revokePublishToken"] then
    RoleIn identity ["operator"; "package-owner"; "registry-writer"]
  else if string_in operation_id ["promoteDistribution"; "rollbackDistribution"] then
    RoleIn identity ["operator"]
  else if operation_id =s "listReleaseChannels" then
    RoleIn identity ["operator"; "registry-writer"; "mirror"]
  else if operation_id =s "rolloutReleaseChannel" then
    RoleIn identity ["operator"]
  else if string_in operation_id
      ["createRecoverySnapshot"; "restoreRecoverySnapshot"; "listAuditEvents"; "platformMetrics";
       "storageStatus"] then
    RoleIn identity ["operator"; "control-plane"]
  else if operation_id =s "listRecoverySnapshots" then
    RoleIn identity ["operator"; "control-plane"; "mirror"]
  else if operation_id =s "verifyPublication" then
    RoleIn identity ["operator"; "mirror"; "registry-writer"]
  else if operation_id =s "mirrorStatus" then
    RoleIn identity ["control-plane"; "registry-writer"; "mirror"; "operator"]
  else if string_in operation_id ["listDocumentationGovernance"; "planDocumentationChange"] then
    RoleIn identity ["control-plane"; "operator"]
  else if string_in operation_id ["listEcosystemRepositories"; "planEcosystemRelease"] then
    RoleIn identity ["control-plane"; "operator"]
  else if operation_id =s "registerWorkgroupCluster" then
    RoleIn identity ["control-plane"; "operator"; "cluster-registrar"]
  else if operation_id =s "listWorkgroupClusters" then
    IsInternalRole identity
  else true.

(** * Lemmas *)

(** The two role predicates agree although they list the roles separately. *)
Lemma internal_role_is_service_role i : IsInternalRole i = IsPlatformServiceRole (role i).
Proof.
  unfold IsInternalRole, IsPlatformServiceRole, string_in, kRoles. cbn -[String.eqb].
  destruct (role i =s "control-plane"), (role i =s "worker"), (role i =s "mirror"),
    (role i =s "registry-writer"), (role i =s "operator"), (role i =s "cluster-registrar"),
    (role i =s "package-owner"); reflexivity.
Qed.

Lemma ParseMtlsUriSan_role value i :
  ParseMtlsUriSan value = Some i -> IsInternalRole i = true /\ node_id i <> EmptyString.
Proof.
  unfold ParseMtlsUriSan. destruct (str_starts_with _ _); [|done].
  cbn -[IsPlatformServiceRole]. destruct (IsPlatformServiceRole _) eqn:Hr; [|done].
  destruct (is_empty _) eqn:Hn; [done|]. intros [= <-].
  rewrite internal_role_is_service_role. split; [done|]. by apply is_empty_false in Hn.
Qed.
