(* ===== verification/Http.v ===== *)
(** HTTP messages, the route tables and route matching ([PlatformService/Http.cpp],
    [RouteCatalog.cpp], [PlatformCloud/PackageRegistry/ControlPlane/RegistryRoutes.cpp]). *)
From stdpp Require Import base list gmap strings.
From Stdlib Require Import ZArith Lia Ascii String.
From S2P Require Import Prelude Json Identity.

Inductive HttpMethod := Get | Post | Delete.

#[export] Instance HttpMethod_eq_dec : EqDecision HttpMethod.
Proof. solve_decision. Defined.

Record HttpRequest := mkRequest {
  req_method : HttpMethod;
  req_path : string;
  req_headers : gmap string string;
  req_body : json;
  req_identity : option MtlsIdentity;
}.

Record HttpResponse := mkResponse {
  status_code : Z;
  resp_body : json;
}.

Record RouteSpec := mkRoute {
  operation_id : string;
  route_method : HttpMethod;
  route_path : string;
  internal : bool;
}.

Record RouteMatch := mkMatch {
  route : RouteSpec;
  parameters : gmap string string;
}.

Definition SplitRoute (path : string) : list string :=
  List.filter (fun item => negb (is_empty item)) (getline_all "/" path).

Definition front_is (c : ascii) (s : string) : bool :=
  match chars s with d :: _ => Ascii.eqb d c | [] => false end.
Definition back_is (c : ascii) (s : string) : bool :=
  match last (chars s) with Some d => Ascii.eqb d c | None => false end.

Definition IsParameter (segment : string) : bool :=
  (2 <? str_length segment)%nat && front_is "{" segment && back_is "}" segment.

Definition ParameterName (segment : string) : string :=
  str_take (str_length segment - 2) (str_drop 1 segment).

Definition ToString (method : HttpMethod) : string :=
  match method with Get => "GET" | Post => "POST" | Delete => "DELETE" end.

Definition ParseHttpMethod (method : string) : option HttpMethod :=
  if method =s "GET" then Some Get
  else if method =s "POST" then Some Post
  else if method =s "DELETE" then Some Delete
  else None.

(** The loop over the segments of one route; the two lists have one length. *)
Fixpoint match_segments (route_parts actual_parts : list string) (parameters : gmap string string)
  : option (gmap string string) :=
  match route_parts, actual_parts with
  | r :: rs, a :: acts =>
      if IsParameter r then match_segments rs acts (<[ParameterName r := a]> parameters)
      else if r <>s a then None
      else match_segments rs acts parameters
  | _, _ => Some parameters
  end.

Fixpoint MatchRoute_parts (routes : list RouteSpec) (method : HttpMethod)
    (actual_parts : list string) : option RouteMatch :=
  match routes with
  | [] => None
  | route :: rest =>
      if negb (bool_decide (route_method route = method)) then
        MatchRoute_parts rest method actual_parts
      else
        let route_parts := SplitRoute (route_path route) in
        if negb (Nat.eqb (List.length route_parts) (List.length actual_parts)) then
          MatchRoute_parts rest method actual_parts
        else
          match match_segments route_parts actual_parts ∅ with
          | Some parameters => Some (mkMatch route parameters)
          | None => MatchRoute_parts rest method actual_parts
          end
  end.

Definition MatchRoute (routes : list RouteSpec) (method : HttpMethod) (path : string)
  : option RouteMatch := MatchRoute_parts routes method (SplitRoute path).

Definition SuccessEnvelope (message : string) (payload : json) : json :=
  obj [("returncode", JInt 0); ("message", JString message); ("stdout", JString "");
       ("stderr", JString ""); ("payload", payload)].

Definition FailureEnvelope (message detail category operation : string) (returncode : Z) : json :=
  obj [("returncode", JInt returncode); ("message", JString message); ("stdout", JString "");
       ("stderr", JString detail);
       ("error_payload", obj [("category", JString category); ("detail", JString detail);
                              ("operation_id", JString operation)])].

Definition kRegistryOperations : list string :=
  ["registryStatus"; "registryDescriptor"; "publishRelease"; "verifyRegistry"; "getPackage";
   "listPackageReleases"; "getPackageRelease"; "yankPackageRelease"; "unyankPackageRelease";
   "listPackageOwners"; "addPackageOwner"; "removePackageOwner"; "createPublishToken";
   "listPublishTokens"; "revokePublishToken"; "listRepositories"; "listRepositoryVersions";
   "getPublication"; "verifyPublication"; "listDistributions"; "promoteDistribution";
   "rollbackDistribution"; "listReleaseChannels"; "rolloutReleaseChannel"; "mirrorStatus"].

Definition IsRegistryOperation (operation : string) : bool := string_in operation kRegistryOperations.

Definition IsRegistryTokenCapableOperation (operation : string) : bool :=
  (operation =s "publishRelease") || (operation =s "yankPackageRelease")
  || (operation =s "unyankPackageRelease") || (operation =s "addPackageOwner")
  || (operation =s "removePackageOwner") || (operation =s "promoteDistribution")
  || (operation =s "rollbackDistribution").

Definition BuildPlatformControlPlaneRoutes : list RouteSpec :=
  [
   mkRoute "health" Get "/health" false;
   mkRoute "nodeSelf" Get "/nodes/self" false;
   mkRoute "submitJob" Post "/jobs" false;
   mkRoute "getJob" Get "/jobs/{job_id}" false;
   mkRoute "getJobEvents" Get "/jobs/{job_id}/events" false;
   mkRoute "cancelJob" Post "/jobs/{job_id}/cancel" false;
   mkRoute "registerWorker" Post "/workers/register" true;
   mkRoute "registerCompileContainer" Post "/compile-containers/register" true;
   mkRoute "getCompileContainer" Get "/compile-containers/{container_id}" true;
   mkRoute "switchCompileContainerWorkspace" Post "/compile-containers/{container_id}/switch-workspace" true;
   mkRoute "claimJob" Post "/jobs/claim" true;
   mkRoute "heartbeatJob" Post "/jobs/{job_id}/heartbeat" true;
   mkRoute "completeJob" Post "/jobs/{job_id}/complete" true;
   mkRoute "registerWorkgroupCluster" Post "/workgroups/{workgroup_id}/clusters/register" true;
   mkRoute "listWorkgroupClusters" Get "/workgroups/{workgroup_id}/clusters" true;
   mkRoute "mirrorStatus" Get "/mirrors/{mirror_id}/status" false;
   mkRoute "listDocumentationGovernance" Get "/docs/governance" true;
   mkRoute "planDocumentationChange" Post "/docs/change-plan" true;
   mkRoute "listEcosystemRepositories" Get "/ecosystem/repositories" true;
   mkRoute "planEcosystemRelease" Post "/ecosystem/releases/plan" true;
   mkRoute "createRecoverySnapshot" Post "/ops/recovery/snapshots" true;
   mkRoute "listRecoverySnapshots" Get "/ops/recovery/snapshots" true;
   mkRoute "restoreRecoverySnapshot" Post "/ops/recovery/snapshots/{snapshot_id}/restore" true;
   mkRoute "listAuditEvents" Get "/ops/audit-events" true;
   mkRoute "platformMetrics" Get "/ops/metrics" true;
   mkRoute "storageStatus" Get "/storage/status" true;
   mkRoute "exchangeExternalIdentity" Post "/identity/external/exchange" false].

Definition BuildRegistryControlPlaneRoutes : list RouteSpec :=
  [
   mkRoute "registryStatus" Get "/api/spio-registry-control/v1/status" true;
   mkRoute "registryDescriptor" Get "/api/spio-registry-control/v1/descriptor" true;
   mkRoute "publishRelease" Post "/api/spio-registry-control/v1/publish" true;
   mkRoute "verifyRegistry" Post "/api/spio-registry-control/v1/verify" true;
   mkRoute "getPackage" Get "/api/spio-registry-control/v1/packages/{namespace}/{name}" true;
   mkRoute "listPackageReleases" Get "/api/spio-registry-control/v1/packages/{namespace}/{name}/releases" true;
   mkRoute "getPackageRelease" Get "/api/spio-registry-control/v1/packages/{namespace}/{name}/releases/{version}" true;
   mkRoute "yankPackageRelease" Post "/api/spio-registry-control/v1/packages/{namespace}/{name}/releases/{version}/yank" true;
   mkRoute "unyankPackageRelease" Post "/api/spio-registry-control/v1/packages/{namespace}/{name}/releases/{version}/unyank" true;
   mkRoute "listPackageOwners" Get "/api/spio-registry-control/v1/packages/{namespace}/{name}/owners" true;
   mkRoute "addPackageOwner" Post "/api/spio-registry-control/v1/packages/{namespace}/{name}/owners" true;
   mkRoute "removePackageOwner" Delete "/api/spio-registry-control/v1/packages/{namespace}/{name}/owners/{owner_id}" true;
   mkRoute "createPublishToken" Post "/api/spio-registry-control/v1/tokens" true;
   mkRoute "listPublishTokens" Get "/api/spio-registry-control/v1/tokens" true;
   mkRoute "revokePublishToken" Delete "/api/spio-registry-control/v1/tokens/{token_id}" true;
   mkRoute "listRepositories" Get "/api/spio-registry-control/v1/repositories" true;
   mkRoute "listRepositoryVersions" Get "/api/spio-registry-control/v1/repositories/{repository_id}/versions" true;
   mkRoute "getPublication" Get "/api/spio-registry-control/v1/publications/{publication_id}" true;
   mkRoute "verifyPublication" Post "/api/spio-registry-control/v1/publications/{publication_id}/verify" true;
   mkRoute "listDistributions" Get "/api/spio-registry-control/v1/distributions" true;
   mkRoute "promoteDistribution" Post "/api/spio-registry-control/v1/distributions/{distribution_id}/promote" true;
   mkRoute "rollbackDistribution" Post "/api/spio-registry-control/v1/distributions/{distribution_id}/rollback" true;
   mkRoute "listReleaseChannels" Get "/api/spio-registry-control/v1/release-channels" true;
   mkRoute "rolloutReleaseChannel" Post "/api/spio-registry-control/v1/release-channels/{channel}/rollout" true].

(** The table the router is constructed with ([PlatformRouter::PlatformRouter]). *)
Definition PlatformRoutes : list RouteSpec :=
  BuildPlatformControlPlaneRoutes ++ BuildRegistryControlPlaneRoutes.

(** * What matching means *)

(** A path's parts fit a template's parts. *)
Definition segment_fits (r a : string) : bool := IsParameter r || (r =s a).
Fixpoint fits (route_parts actual_parts : list string) : bool :=
  match route_parts, actual_parts with
  | [], [] => true
  | r :: rs, a :: acts => segment_fits r a && fits rs acts
  | _, _ => false
  end.
Definition route_fits (method : HttpMethod) (path : string) (r : RouteSpec) : bool :=
  bool_decide (route_method r = method) && fits (SplitRoute (route_path r)) (SplitRoute path).

(** The names a template binds. *)
Definition parameter_names (r : RouteSpec) : list string :=
  map ParameterName (List.filter IsParameter (SplitRoute (route_path r))).

(** Two routes no path can fit both: another method, another number of parts, or
    two different literal parts in the same place. *)
Fixpoint parts_disjoint (p q : list string) : bool :=
  match p, q with
  | [], [] => false
  | a :: p, b :: q =>
      (negb (IsParameter a) && negb (IsParameter b) && (a <>s b)) || parts_disjoint p q
  | _, _ => true
  end.
Definition routes_disjoint (r1 r2 : RouteSpec) : bool :=
  negb (bool_decide (route_method r1 = route_method r2))
  || parts_disjoint (SplitRoute (route_path r1)) (SplitRoute (route_path r2)).
Fixpoint pairwise_disjoint (l : list RouteSpec) : bool :=
  match l with
  | [] => true
  | r :: l => forallb (routes_disjoint r) l && pairwise_disjoint l
  end.

(** * Lemmas *)

Lemma match_segments_fits rs acts m :
  List.length rs = List.length acts ->
  (fits rs acts = true <-> is_Some (match_segments rs acts m)).
Proof.
  revert acts m. induction rs as [|r rs IH]; intros [|a acts] m; cbn; try done.
  intros [= Hlen]. unfold segment_fits. destruct (IsParameter r); cbn; [by apply IH|].
  destruct (r =s a); cbn; [by apply IH|]. split; [done|by intros []].
Qed.

Lemma fits_length rs acts : fits rs acts = true -> List.length rs = List.length acts.
Proof.
  revert acts. induction rs as [|r rs IH]; intros [|a acts]; cbn; try done.
  intros [_ H]%andb_true_iff. f_equal. by apply IH.
Qed.

Lemma match_segments_dom rs acts m p :
  List.length rs = List.length acts -> match_segments rs acts m = Some p ->
  forall k, is_Some (p !! k) <-> is_Some (m !! k) \/ k ∈ map ParameterName (List.filter IsParameter rs).
Proof.
  revert acts m. induction rs as [|r rs IH]; intros [|a acts] m; cbn; try done.
  - intros _ [= ->] k. set_solver.
  - intros [= Hlen]. destruct (IsParameter r); cbn.
    + intros H k. rewrite (IH _ _ Hlen H), lookup_insert_is_Some'. set_solver.
    + destruct (r =s a); cbn; [|done]. intros H k. by rewrite (IH _ _ Hlen H).
Qed.

Lemma MatchRoute_parts_spec routes method path :
  match MatchRoute_parts routes method (SplitRoute path) with
  | Some m => exists before after, routes = before ++ route m :: after
      /\ forallb (fun r => negb (route_fits method path r)) before = true
      /\ route_fits method path (route m) = true
      /\ match_segments (SplitRoute (route_path (route m))) (SplitRoute path) ∅
         = Some (parameters m)
  | None => forallb (fun r => negb (route_fits method path r)) routes = true
  end.
Proof.
  induction routes as [|r routes IH]; cbn -[SplitRoute]; [done|].
  assert (Hskip : route_fits method path r = false ->
    match MatchRoute_parts routes method (SplitRoute path) with
    | Some m => exists before after, r :: routes = before ++ route m :: after
        /\ forallb (fun r => negb (route_fits method path r)) before = true
        /\ route_fits method path (route m) = true
        /\ match_segments (SplitRoute (route_path (route m))) (SplitRoute path) ∅
           = Some (parameters m)
    | None => negb (route_fits method path r)
              && forallb (fun r => negb (route_fits method path r)) routes = true
    end).
  { intros Hr. destruct (MatchRoute_parts _ _ _) as [m|]; [|by rewrite Hr].
    destruct IH as (b & a & -> & Hb & Hm). exists (r :: b), a.
    split; [done|]. cbn -[route_fits]. by rewrite Hr. }
  unfold route_fits in Hskip at 1.
  destruct (bool_decide (route_method r = method)) eqn:Hmeth; cbn -[SplitRoute] in *;
    [|by apply Hskip].
  destruct (Nat.eqb _ _) eqn:Hlen; cbn -[SplitRoute].
  - apply Nat.eqb_eq in Hlen.
    pose proof (match_segments_fits _ _ ∅ Hlen) as Hfit.
    destruct (match_segments _ _ ∅) as [p|] eqn:Hp; cbn -[SplitRoute].
    + exists [], routes. split_and!; try done. unfold route_fits. rewrite Hmeth. by apply Hfit.
    + apply Hskip. destruct (fits _ _); [|done]. by destruct (proj1 Hfit eq_refl).
  - apply Hskip. destruct (fits _ _) eqn:Hf; [|done].
    apply fits_length in Hf. by apply Nat.eqb_neq in Hlen.
Qed.

Lemma parts_disjoint_sound p q acts :
  parts_disjoint p q = true -> fits p acts = true -> fits q acts = true -> False.
Proof.
  revert q acts. induction p as [|a p IH]; intros [|b q] [|c acts]; cbn; try done.
  unfold segment_fits. intros [Hd|Hd]%orb_true_iff [Ha Hp]%andb_true_iff [Hb Hq]%andb_true_iff;
    [|by eapply IH].
  apply andb_true_iff in Hd as [[Hna Hnb]%andb_true_iff Hne].
  apply negb_true_iff in Hna, Hnb, Hne. rewrite Hna in Ha. rewrite Hnb in Hb. cbn in *.
  apply str_eqb_iff in Ha, Hb. apply str_eqb_false in Hne. congruence.
Qed.

Lemma routes_disjoint_sound r1 r2 method path :
  routes_disjoint r1 r2 = true -> route_fits method path r1 = true ->
  route_fits method path r2 = true -> False.
Proof.
  unfold routes_disjoint, route_fits.
  intros Hd [Hm1%bool_decide_eq_true H1]%andb_true_iff [Hm2%bool_decide_eq_true H2]%andb_true_iff.
  apply orb_true_iff in Hd as [Hd|Hd]; [|by eapply parts_disjoint_sound].
  apply negb_true_iff, bool_decide_eq_false in Hd. congruence.
Qed.

Lemma pairwise_disjoint_unique l method path r1 r2 :
  pairwise_disjoint l = true -> r1 ∈ l -> r2 ∈ l ->
  route_fits method path r1 = true -> route_fits method path r2 = true -> r1 = r2.
Proof.
  induction l as [|r l IH]; cbn; [by intros _ ?%elem_of_nil|].
  intros [Hr Hl]%andb_true_iff. rewrite forallb_forall in Hr.
  intros [->|H1]%elem_of_cons [->|H2]%elem_of_cons; auto; intros Hf1 Hf2; exfalso.
  - by eapply (routes_disjoint_sound r r2); [apply Hr, list_elem_of_In|..].
  - by eapply (routes_disjoint_sound r r1); [apply Hr, list_elem_of_In|..].
Qed.

Lemma catalog_disjoint : pairwise_disjoint PlatformRoutes = true.
Proof. vm_compute. reflexivity. Qed.

(** * Properties *)

(** The route table is unambiguous and matching finds the only candidate:
    a request matches a route exactly when its method and path fit the template
    of one, that route is the only one of the table it fits, whatever the order
    of the table, and the parameters bound are exactly the names between braces
    in the template, so that looking one up cannot fail. *)
Theorem route_matching_is_unambiguous method path :
  match MatchRoute PlatformRoutes method path with
  | Some m =>
      route m ∈ PlatformRoutes /\ route_fits method path (route m) = true
      /\ (forall r, r ∈ PlatformRoutes -> route_fits method path r = true -> r = route m)
      /\ (forall k, is_Some (parameters m !! k) <-> k ∈ parameter_names (route m))
  | None => forall r, r ∈ PlatformRoutes -> route_fits method path r = false
  end.
Proof.
  unfold MatchRoute. pose proof (MatchRoute_parts_spec PlatformRoutes method path) as H.
  destruct (MatchRoute_parts _ _ _) as [m|].
  - destruct H as (b & a & Hl & _ & Hfit & Hp).
    assert (Hin : route m ∈ PlatformRoutes) by (rewrite Hl; set_solver).
    split_and!; [done|done| |].
    + intros r Hr Hf. by eapply pairwise_disjoint_unique; [apply catalog_disjoint|..].
    + intros k. unfold route_fits in Hfit. apply andb_true_iff in Hfit as [_ Hfit].
      rewrite (match_segments_dom _ _ _ _ (fits_length _ _ Hfit) Hp), lookup_empty.
      unfold parameter_names. split; [by intros [[]|]|by right].
  - intros r Hr. rewrite forallb_forall in H. apply list_elem_of_In, H in Hr.
    by apply negb_true_iff.
Qed.
