(* ===== verification/SourceFetch.v ===== *)
(** Git source policy and cache names ([PlatformCore/SourceFetch/SourceFetch.cpp]);
    the fetcher of that file, which runs git, is [GitFetcher.v]. *)
From stdpp Require Import base list gmap strings.
From Stdlib Require Import ZArith Lia Ascii String.
From S2P Require Import Prelude.

Record GitSourcePolicy := mkGitPolicy {
  allow_https : bool;
  allow_http : bool;
  allow_ssh : bool;
  allow_file_url : bool;
  allow_git_protocol : bool;
  allow_local_path : bool;
}.

Definition StartsWith (value prefix : string) : bool := str_starts_with value prefix.

Definition Fnv1a64 (value : string) : Z :=
  fold_left (fun hash ch => u64 (Z.lxor hash (char_code ch) * 1099511628211))
    (chars value) 1469598103934665603.

(** [std::hex << value]: no leading zeros. *)
Definition hex_text (value : Z) : string :=
  match drop_while (Ascii.eqb "0") (chars (hex_fixed 16 value)) with
  | [] => "0"
  | l => of_chars l
  end.

Definition Hex64 (value : Z) (padded : bool) : string :=
  if padded then pad_left "0" 16 (hex_text value) else hex_text value.

Definition HasControlCharacter (value : string) : bool :=
  existsb (fun ch => (char_code ch <? 32) || (char_code ch =? 127)) (chars value).

Definition PublicGitSourcePolicy : GitSourcePolicy :=
  {| allow_https := true; allow_http := true; allow_ssh := true; allow_file_url := true;
     allow_git_protocol := true; allow_local_path := true |}.

Definition TrustedGitSourcePolicy : GitSourcePolicy :=
  {| allow_https := true; allow_http := true; allow_ssh := true; allow_file_url := true;
     allow_git_protocol := true; allow_local_path := true |}.

(** The default member initializers of the struct. *)
Definition default_git_policy : GitSourcePolicy := mkGitPolicy true false false false false false.

Definition LooksLikeRemoteGitSource (source : string) : bool :=
  str_contains source "://" || StartsWith source "git@".

Definition GitSourcePolicyViolation (source : string) (policy : GitSourcePolicy) : option string :=
  if is_empty source then Some "git source origin is required"
  else if HasControlCharacter source then Some "git source origin contains control characters"
  else if StartsWith source "https://" then
    if allow_https policy then None else Some "https git sources are not allowed"
  else if StartsWith source "http://" then
    if allow_http policy then None else Some "http git sources are not allowed"
  else if StartsWith source "ssh://" || StartsWith source "git@" then
    if allow_ssh policy then None else Some "ssh git sources are not allowed"
  else if StartsWith source "file://" then
    if allow_file_url policy then None else Some "file git sources are not allowed"
  else if StartsWith source "git://" then
    if allow_git_protocol policy then None else Some "git protocol sources are not allowed"
  else if str_contains source "://" then Some "unsupported git source protocol"
  else if allow_local_path policy then None else Some "local git source paths are not allowed".

Definition SourceFetchIdentityHash (value : string) : string := Hex64 (Fnv1a64 value) false.

Definition slug_char (ch : ascii) : bool :=
  is_lower ch || is_upper ch || is_digit ch || Ascii.eqb ch "." || Ascii.eqb ch "_"
  || Ascii.eqb ch "-".

Definition SourceFetchSlug (value : string) : string :=
  str_map (fun ch => if slug_char ch then ch else "_"%char) value
  +:+ "-" +:+ Hex64 (Fnv1a64 value) true.

(** * What a policy admits *)

Inductive transport := Https | Http | Ssh | FileUrl | GitProtocol | LocalPath.

#[export] Instance transport_eq_dec : EqDecision transport.
Proof. solve_decision. Defined.

Definition allowed (p : GitSourcePolicy) (t : transport) : bool :=
  match t with
  | Https => allow_https p | Http => allow_http p | Ssh => allow_ssh p
  | FileUrl => allow_file_url p | GitProtocol => allow_git_protocol p
  | LocalPath => allow_local_path p
  end.

(** The shape of the sources of a transport. *)
Definition has_form (t : transport) (s : string) : Prop :=
  match t with
  | Https => StartsWith s "https://" = true
  | Http => StartsWith s "http://" = true
  | Ssh => StartsWith s "ssh://" = true \/ StartsWith s "git@" = true
  | FileUrl => StartsWith s "file://" = true
  | GitProtocol => StartsWith s "git://" = true
  | LocalPath => LooksLikeRemoteGitSource s = false
  end.

(** The guard chain of the policy check, as the transport it settles on. *)
Definition classify (s : string) : option transport :=
  if StartsWith s "https://" then Some Https
  else if StartsWith s "http://" then Some Http
  else if StartsWith s "ssh://" || StartsWith s "git@" then Some Ssh
  else if StartsWith s "file://" then Some FileUrl
  else if StartsWith s "git://" then Some GitProtocol
  else if str_contains s "://" then None
  else Some LocalPath.

(** * Lemmas *)

Lemma prefix_cons_inv c p s :
  StartsWith s (String c p) = true -> exists s', s = String c s' /\ StartsWith s' p = true.
Proof.
  unfold StartsWith, str_starts_with. destruct s as [|d s]; cbn; [done|].
  destruct (Ascii.ascii_dec c d) as [->|]; [|done]. by exists s.
Qed.

Lemma contains_cons c s sub : str_contains s sub = true -> str_contains (String c s) sub = true.
Proof.
  unfold str_contains, str_find. cbn.
  destruct sub as [|d sub]; [done|]. destruct (String.index 0 _ s); [|done].
  by destruct (if Ascii.ascii_dec d c then _ else _).
Qed.

Lemma contains_prefix s sub : StartsWith s sub = true -> str_contains s sub = true.
Proof.
  unfold StartsWith, str_starts_with, str_contains, str_find.
  destruct s as [|c s], sub as [|d sub]; cbn; try done.
  destruct (Ascii.ascii_dec d c); [|done]. by intros ->.
Qed.

(** Strip a literal prefix character by character. *)
Ltac strip_prefix H :=
  repeat (let s' := fresh "s" in let E := fresh "E" in
          apply prefix_cons_inv in H as (s' & E & H); subst).

Lemma remote_forms s t :
  has_form t s -> t <> LocalPath -> LooksLikeRemoteGitSource s = true.
Proof.
  unfold LooksLikeRemoteGitSource. intros H Hne. apply orb_true_iff.
  destruct t; try done; cbn -[StartsWith str_contains] in H;
    [..|destruct H as [H|H]; [|by right]| |]; left; strip_prefix H;
    repeat first [by apply contains_prefix | apply contains_cons].
Qed.

Lemma local_not_remote s t : has_form LocalPath s -> has_form t s -> t = LocalPath.
Proof.
  intros Hl Ht. destruct (decide (t = LocalPath)) as [|Hne]; [done|].
  apply (remote_forms _ _ Ht) in Hne. cbn in Hl. congruence.
Qed.

Lemma policy_classify s p :
  GitSourcePolicyViolation s p = None <->
  s <> EmptyString /\ HasControlCharacter s = false
  /\ exists t, classify s = Some t /\ allowed p t = true.
Proof.
  unfold GitSourcePolicyViolation, classify.
  destruct (is_empty s) eqn:He; [apply is_empty_true in He; naive_solver|].
  apply is_empty_false in He.
  destruct (HasControlCharacter s); [naive_solver|].
  assert (Hcase : forall t (b : bool) (msg : string), b = allowed p t ->
    ((if b then None else Some msg) = None <->
     s <> EmptyString /\ false = false /\ exists t', Some t = Some t' /\ allowed p t' = true)).
  { intros t b msg ->. destruct (allowed p t) eqn:Ha; (split; [intros|]); try done.
    - by repeat (split || exists t).
    - intros (_ & _ & t' & [= <-] & ?). congruence. }
  repeat match goal with
         | |- context [if ?b then _ else _] =>
             match b with context [StartsWith] => destruct b | context [str_contains] => destruct b end
         end; first [by apply Hcase | by split; [|intros (_ & _ & ? & ? & _)]].
Qed.

Lemma classify_iff s t : classify s = Some t <-> has_form t s.
Proof.
  split.
  - unfold classify. intros H.
    repeat match type of H with (if ?b then _ else _) = _ => destruct b eqn:? end;
      simplify_eq; cbn -[StartsWith str_contains]; try done; [by apply orb_true_iff|].
    unfold LooksLikeRemoteGitSource. rewrite orb_false_iff in *. naive_solver.
  - intros H. destruct (decide (t = LocalPath)) as [->|Hne].
    + pose proof (local_not_remote s) as Hl. unfold classify.
      destruct (StartsWith s "https://") eqn:E1; [by specialize (Hl Https H E1)|].
      destruct (StartsWith s "http://") eqn:E2; [by specialize (Hl Http H E2)|].
      destruct (StartsWith s "ssh://" || StartsWith s "git@") eqn:E3;
        [by apply orb_true_iff in E3; specialize (Hl Ssh H E3)|].
      destruct (StartsWith s "file://") eqn:E4; [by specialize (Hl FileUrl H E4)|].
      destruct (StartsWith s "git://") eqn:E5; [by specialize (Hl GitProtocol H E5)|].
      cbn -[StartsWith str_contains] in H. unfold LooksLikeRemoteGitSource in H.
      apply orb_false_iff in H as [-> _]. done.
    + destruct t; try done; cbn -[StartsWith] in H; [..|destruct H as [H|H]| |];
        strip_prefix H; match type of H with StartsWith ?x _ = _ => by destruct x end.
Qed.

Lemma slug_of_slug_char ch : slug_char (if slug_char ch then ch else "_"%char) = true.
Proof. by destruct (slug_char ch) eqn:E. Qed.

Lemma hex_digit_slug z : slug_char (hex_digit z) = true.
Proof.
  unfold hex_digit. destruct (chars "0123456789abcdef" !! Z.to_nat z) as [c|] eqn:E; [|done].
  cbn -[slug_char] in *. apply list_elem_of_lookup_2 in E.
  repeat (apply elem_of_cons in E as [->|E]; [reflexivity|]). by apply elem_of_nil in E.
Qed.

Lemma hex_fixed_chars n z :
  List.length (chars (hex_fixed n z)) = n
  /\ Forall (fun c => slug_char c = true) (chars (hex_fixed n z)).
Proof.
  revert z. induction n as [|n IH]; intros z; [done|]. cbn [hex_fixed]. rewrite chars_app.
  destruct (IH (z / 16)) as [Hl Hf]. split.
  - rewrite List.length_app, Hl. cbn. lia.
  - apply Forall_app_2; [done|]. repeat constructor. apply hex_digit_slug.
Qed.

Lemma drop_while_suffix {A} (p : A -> bool) l : exists k, drop_while p l = drop k l.
Proof.
  induction l as [|a l [k IH]]; cbn; [by exists 0%nat|].
  destruct (p a); [exists (S k); exact IH|by exists 0%nat].
Qed.

Lemma hex_text_chars z :
  (1 <= List.length (chars (hex_text z)) <= 16)%nat
  /\ Forall (fun c => slug_char c = true) (chars (hex_text z)).
Proof.
  unfold hex_text. destruct (hex_fixed_chars 16 z) as [Hl Hf].
  destruct (drop_while_suffix (Ascii.eqb "0") (chars (hex_fixed 16 z))) as [k Hk].
  destruct (drop_while _ _) as [|c l] eqn:E; [split; [cbn; lia|by repeat constructor]|].
  rewrite chars_of_chars. split.
  - rewrite Hk, length_drop, Hl. apply (f_equal List.length) in Hk.
    rewrite length_drop, Hl in Hk. cbn in Hk. lia.
  - rewrite Hk. by apply Forall_drop.
Qed.

Lemma pad_left_chars c w t :
  chars (pad_left c w t) = replicate (w - str_length t) c ++ chars t.
Proof.
  unfold pad_left. rewrite chars_app. f_equal.
  induction (w - str_length t)%nat as [|n IH]; cbn; [done|]. f_equal. exact IH.
Qed.

(** * Properties *)

(** The policy check admits a source exactly when it is non-empty, holds no
    control character and has the form of a transport the policy allows: the
    order of the guards hides nothing, and a source with a scheme separator is
    never taken for a local path. *)
Theorem git_policy_admits_exactly s p :
  GitSourcePolicyViolation s p = None <->
  s <> EmptyString /\ HasControlCharacter s = false
  /\ exists t, has_form t s /\ allowed p t = true.
Proof. rewrite policy_classify. by setoid_rewrite classify_iff. Qed.

(** A cache slug is one safe path component: 17 characters longer than its
    value, made only of letters, digits, ".", "_" and "-", so it holds no
    separator and is neither "." nor "..". *)
Theorem slug_is_path_component value :
  str_forall slug_char (SourceFetchSlug value) = true
  /\ str_length (SourceFetchSlug value) = (str_length value + 17)%nat.
Proof.
  unfold SourceFetchSlug, Hex64. destruct (hex_text_chars (Fnv1a64 value)) as [Hl Hf].
  split.
  - unfold str_forall. rewrite !chars_app, pad_left_chars, !forallb_app. unfold str_map.
    rewrite chars_of_chars. rewrite !andb_true_iff. split_and!.
    + rewrite forallb_forall. intros c (d & <- & _)%in_map_iff. apply slug_of_slug_char.
    + done.
    + rewrite forallb_forall. intros c Hc%list_elem_of_In%elem_of_replicate_inv.
      by subst.
    + rewrite forallb_forall. rewrite Forall_forall in Hf. intros c Hc%list_elem_of_In. auto.
  - rewrite !str_length_chars, !chars_app, !List.length_app, pad_left_chars, List.length_app.
    rewrite length_replicate, str_length_chars. unfold str_map.
    rewrite chars_of_chars, List.length_map. cbn [chars list_ascii_of_string List.length]. lia.
Qed.
