(* ===== verification/Config.v ===== *)
(** The platform configuration ([PlatformCore/Config.hpp], [Config.cpp]): its
    record, how it is read from the environment, and the public view of it. *)
From stdpp Require Import base list gmap strings.
From Stdlib Require Import ZArith Lia Ascii String.
From S2P Require Import Prelude Json.

Record MtlsConfig := mkMtls {
  tls_enabled : bool;
  mtls_required : bool;
  trust_proxy_identity_headers : bool;
  auto_provision : bool;
  ca_root : string;
  ca_path : string;
  cert_path : string;
  key_path : string;
}.

Record ObjectStoreConfig := mkObjectStore {
  provider : string;
  bucket : string;
  endpoint : string;
  store_region : string;
  access_key_id : string;
  secret_access_key : string;
  session_token : string;
  prefix : string;
  path_style : bool;
}.

Record RegistryControlConfig := mkRegistryConfig {
  registry_root : string;
  key_dir : string;
  registry_name : string;
  read_root_url : string;
  control_plane_base_url : string;
  config_mirror_id : string;
  mirror_origin : string;
  mirror_source_root : string;
}.

Record WorkgroupConfig := mkWorkgroup {
  workgroup_enabled : bool;
  workgroup_id : string;
  trust_domain : string;
  registration_policy : string;
  registration_tenant : string;
  registration_token : string;
}.

Record PlatformConfig := mkConfig {
  bind_host : string;
  bind_port : Z;
  config_region : string;
  config_node_id : string;
  roles : list string;
  state_backend : string;
  postgres_dsn : string;
  object_store : ObjectStoreConfig;
  registry : RegistryControlConfig;
  workgroup : WorkgroupConfig;
  mtls : MtlsConfig;
}.

(** The default member initializers. *)
Definition default_config : PlatformConfig :=
  mkConfig "127.0.0.1" 8787 "local-dev" "node-local"
    ["control-plane"; "worker"; "registry-writer"; "mirror"; "package-owner"] "memory" ""
    (mkObjectStore "s3" "" "" "local-dev" "" "" "" "" true)
    (mkRegistryConfig ".styio-platform/registry-v2" ".styio-platform/registry-v2-keys"
       "spio-registry-v2" "" "" "mirror-local" "registry-primary" "")
    (mkWorkgroup true "styio-local-workgroup" "styio-platform-local" "local-dev-default"
       "platform" "")
    (mkMtls false true true false ".styio-platform/mtls" "" "" "").

(** [std::stoi]: white space, a sign, then decimal digits; the rest is ignored.
    [None] where it throws (no digit, or a value outside [int]). *)
Fixpoint take_digits (acc : Z) (l : list ascii) : Z :=
  match l with
  | c :: r => if is_digit c then take_digits (acc * 10 + (char_code c - 48)) r else acc
  | [] => acc
  end.
Definition stoi (s : string) : option Z :=
  let l := drop_while is_space (chars s) in
  let '(sign, l) := match l with
                    | c :: r => if Ascii.eqb c "-" then (-1, r)
                                else if Ascii.eqb c "+" then (1, r) else (1, l)
                    | [] => (1, l)
                    end in
  match l with
  | c :: _ => if is_digit c
              then let z := sign * take_digits 0 l in
                   if (- 2 ^ 31 <=? z) && (z <? 2 ^ 31) then Some z else None
              else None
  | [] => None
  end.

(** The process environment, as the operating-system adapter returns it. *)
Definition environment : Type := string -> option string.

Definition EnvString (env : environment) (name fallback : string) : string :=
  match env name with
  | Some value => if is_empty value then fallback else value
  | None => fallback
  end.

Definition EnvInt (env : environment) (name : string) (fallback : Z) : Z :=
  match env name with
  | Some value => if is_empty value then fallback else default fallback (stoi value)
  | None => fallback
  end.

Definition EnvBool (env : environment) (name : string) (fallback : bool) : bool :=
  let value := EnvString env name (if fallback then "1" else "0") in
  (value =s "1") || (value =s "true") || (value =s "yes") || (value =s "on").

Definition csv_space (c : ascii) : bool :=
  Ascii.eqb c " " || Ascii.eqb c "009" || Ascii.eqb c "010" || Ascii.eqb c "013".

(** [item.substr(begin, end - begin + 1)] of a piece, [None] for a blank one. *)
Definition csv_entry (item : string) : option string :=
  match drop_while_end csv_space (drop_while csv_space (chars item)) with
  | [] => None
  | l => Some (of_chars l)
  end.

Definition SplitCsv (value : string) : list string := omap csv_entry (getline_all "," value).

Definition LoadPlatformConfigFromEnvironment (env : environment) : PlatformConfig :=
  let c := default_config in
  let region := EnvString env "STYIO_PLATFORM_REGION" (config_region c) in
  let env_roles := SplitCsv (EnvString env "STYIO_PLATFORM_NODE_ROLES" "") in
  let tls := EnvBool env "STYIO_PLATFORM_TLS_ENABLED" (tls_enabled (mtls c)) in
  {| bind_host := EnvString env "STYIO_PLATFORM_BIND_HOST" (bind_host c);
     bind_port := EnvInt env "STYIO_PLATFORM_BIND_PORT" (bind_port c);
     config_region := region;
     config_node_id := EnvString env "STYIO_PLATFORM_NODE_ID" (config_node_id c);
     roles := match env_roles with [] => roles c | l => l end;
     state_backend := EnvString env "STYIO_PLATFORM_STATE_BACKEND" (state_backend c);
     postgres_dsn := EnvString env "STYIO_PLATFORM_POSTGRES_DSN" "";
     object_store :=
       {| provider := EnvString env "STYIO_PLATFORM_OBJECT_STORE_PROVIDER"
                        (provider (object_store c));
          bucket := EnvString env "STYIO_PLATFORM_OBJECT_STORE_BUCKET" "";
          endpoint := EnvString env "STYIO_PLATFORM_OBJECT_STORE_ENDPOINT" "";
          store_region := EnvString env "STYIO_PLATFORM_OBJECT_STORE_REGION" region;
          access_key_id := EnvString env "STYIO_PLATFORM_OBJECT_STORE_ACCESS_KEY_ID" "";
          secret_access_key := EnvString env "STYIO_PLATFORM_OBJECT_STORE_SECRET_ACCESS_KEY" "";
          session_token := EnvString env "STYIO_PLATFORM_OBJECT_STORE_SESSION_TOKEN" "";
          prefix := EnvString env "STYIO_PLATFORM_OBJECT_STORE_PREFIX" "";
          path_style := EnvBool env "STYIO_PLATFORM_OBJECT_STORE_PATH_STYLE"
                          (path_style (object_store c)) |};
     registry :=
       {| registry_root := EnvString env "STYIO_PLATFORM_REGISTRY_ROOT" (registry_root (registry c));
          key_dir := EnvString env "STYIO_PLATFORM_REGISTRY_KEY_DIR" (key_dir (registry c));
          registry_name := EnvString env "STYIO_PLATFORM_REGISTRY_NAME"
                             (registry_name (registry c));
          read_root_url := EnvString env "STYIO_PLATFORM_REGISTRY_READ_ROOT_URL"
                             (read_root_url (registry c));
          control_plane_base_url := EnvString env "STYIO_PLATFORM_REGISTRY_CONTROL_PLANE_BASE_URL"
                                      (control_plane_base_url (registry c));
          config_mirror_id := EnvString env "STYIO_PLATFORM_REGISTRY_MIRROR_ID"
                                (config_mirror_id (registry c));
          mirror_origin := EnvString env "STYIO_PLATFORM_REGISTRY_MIRROR_ORIGIN"
                             (mirror_origin (registry c));
          mirror_source_root := EnvString env "STYIO_PLATFORM_REGISTRY_MIRROR_SOURCE_ROOT"
                                  (mirror_source_root (registry c)) |};
     workgroup :=
       {| workgroup_enabled := EnvBool env "STYIO_PLATFORM_WORKGROUP_ENABLED"
                                 (workgroup_enabled (workgroup c));
          workgroup_id := EnvString env "STYIO_PLATFORM_WORKGROUP_ID" (workgroup_id (workgroup c));
          trust_domain := EnvString env "STYIO_PLATFORM_WORKGROUP_TRUST_DOMAIN"
                            (trust_domain (workgroup c));
          registration_policy := EnvString env "STYIO_PLATFORM_WORKGROUP_REGISTRATION_POLICY"
                                   (registration_policy (workgroup c));
          registration_tenant := EnvString env "STYIO_PLATFORM_WORKGROUP_REGISTRATION_TENANT"
                                   (registration_tenant (workgroup c));
          registration_token := EnvString env "STYIO_PLATFORM_WORKGROUP_REGISTRATION_TOKEN" "" |};
     mtls :=
       {| tls_enabled := tls;
          mtls_required := EnvBool env "STYIO_PLATFORM_MTLS_REQUIRED" (mtls_required (mtls c));
          trust_proxy_identity_headers :=
            EnvBool env "STYIO_PLATFORM_TRUST_PROXY_IDENTITY_HEADERS" (negb tls);
          auto_provision := EnvBool env "STYIO_PLATFORM_MTLS_AUTO_PROVISION"
                              (auto_provision (mtls c));
          ca_root := EnvString env "STYIO_PLATFORM_MTLS_CA_ROOT" (ca_root (mtls c));
          ca_path := EnvString env "STYIO_PLATFORM_MTLS_CA" "";
          cert_path := EnvString env "STYIO_PLATFORM_MTLS_CERT" "";
          key_path := EnvString env "STYIO_PLATFORM_MTLS_KEY" "" |} |}.

Definition configured (value : string) : json := JBool (negb (is_empty value)).

Definition SerializePublicConfig (config : PlatformConfig) : json :=
  obj [("bind_host", JString (bind_host config));
       ("bind_port", JInt (bind_port config));
       ("region", JString (config_region config));
       ("node_id", JString (config_node_id config));
       ("roles", strings (roles config));
       ("state_backend", JString (state_backend config));
       ("postgres_configured", configured (postgres_dsn config));
       ("object_store_provider", JString (provider (object_store config)));
       ("object_store_bucket_configured", configured (bucket (object_store config)));
       ("object_store_endpoint_configured", configured (endpoint (object_store config)));
       ("object_store_access_key_configured", configured (access_key_id (object_store config)));
       ("object_store_secret_configured", configured (secret_access_key (object_store config)));
       ("object_store_prefix_configured", configured (prefix (object_store config)));
       ("object_store_path_style", JBool (path_style (object_store config)));
       ("registry_root_configured", configured (registry_root (registry config)));
       ("registry_key_dir_configured", configured (key_dir (registry config)));
       ("registry_name", JString (registry_name (registry config)));
       ("registry_read_root_url_configured", configured (read_root_url (registry config)));
       ("registry_control_plane_base_url_configured",
        configured (control_plane_base_url (registry config)));
       ("registry_mirror_id", JString (config_mirror_id (registry config)));
       ("registry_mirror_origin", JString (mirror_origin (registry config)));
       ("registry_mirror_source_root_configured", configured (mirror_source_root (registry config)));
       ("workgroup_enabled", JBool (workgroup_enabled (workgroup config)));
       ("workgroup_id", JString (workgroup_id (workgroup config)));
       ("workgroup_trust_domain", JString (trust_domain (workgroup config)));
       ("workgroup_registration_policy", JString (registration_policy (workgroup config)));
       ("workgroup_registration_tenant", JString (registration_tenant (workgroup config)));
       ("workgroup_registration_token_configured", configured (registration_token (workgroup config)));
       ("tls_enabled", JBool (tls_enabled (mtls config)));
       ("mtls_required", JBool (mtls_required (mtls config)));
       ("trust_proxy_identity_headers", JBool (trust_proxy_identity_headers (mtls config)));
       ("mtls_auto_provision", JBool (auto_provision (mtls config)));
       ("mtls_ca_root_configured", configured (ca_root (mtls config)));
       ("mtls_ca_configured", configured (ca_path (mtls config)));
       ("mtls_cert_configured", configured (cert_path (mtls config)));
       ("mtls_key_configured", configured (key_path (mtls config)))].

(** ** The secrets of a configuration *)

(** Replace every credential and private location by given texts. *)
Definition replace_secrets (dsn access secret session token key keydir : string)
    (c : PlatformConfig) : PlatformConfig :=
  let o := object_store c in let r := registry c in let w := workgroup c in let m := mtls c in
  mkConfig (bind_host c) (bind_port c) (config_region c) (config_node_id c) (roles c)
    (state_backend c) dsn
    (mkObjectStore (provider o) (bucket o) (endpoint o) (store_region o) access secret session
       (prefix o) (path_style o))
    (mkRegistryConfig (registry_root r) keydir (registry_name r) (read_root_url r)
       (control_plane_base_url r) (config_mirror_id r) (mirror_origin r) (mirror_source_root r))
    (mkWorkgroup (workgroup_enabled w) (workgroup_id w) (trust_domain w) (registration_policy w)
       (registration_tenant w) token)
    (mkMtls (tls_enabled m) (mtls_required m) (trust_proxy_identity_headers m) (auto_provision m)
       (ca_root m) (ca_path m) (cert_path m) key).

(** Two texts that are both empty or both not. *)
Definition same_presence (a b : string) : Prop := is_empty a = is_empty b.

(** * Lemmas *)

Lemma configured_presence a b : same_presence a b -> configured a = configured b.
Proof. unfold same_presence, configured. by intros ->. Qed.

(** * Properties *)

(** The public configuration does not leak credentials: changing the
    Postgres DSN, the object-store keys and session token, the registration
    token and the private-key locations changes nothing in it, as long as each
    stays set or stays unset (the session token not even that). *)
Theorem public_config_hides_secrets c dsn access secret session token key keydir :
  same_presence dsn (postgres_dsn c) ->
  same_presence access (access_key_id (object_store c)) ->
  same_presence secret (secret_access_key (object_store c)) ->
  same_presence token (registration_token (workgroup c)) ->
  same_presence key (key_path (mtls c)) ->
  same_presence keydir (key_dir (registry c)) ->
  SerializePublicConfig (replace_secrets dsn access secret session token key keydir c)
  = SerializePublicConfig c.
Proof.
  intros H1%configured_presence H2%configured_presence H3%configured_presence
    H4%configured_presence H5%configured_presence H6%configured_presence.
  unfold SerializePublicConfig. cbn -[configured obj]. by rewrite H1, H2, H3, H4, H5, H6.
Qed.

Lemma public_config_hides_secrets_witness :
  let c := replace_secrets "dsn1" "a1" "s1" "" "t1" "k1" "kd1" default_config in
  SerializePublicConfig (replace_secrets "dsn2" "a2" "s2" "sess" "t2" "k2" "kd2" c)
  = SerializePublicConfig c.
Proof. apply public_config_hides_secrets; reflexivity. Defined.
