(* ===== verification/Sha256.v ===== *)
(** The platform's own SHA-256 ([PlatformCore/Core/Sha256.cpp]): the streaming
    class, its compression function on 32-bit words, and the digest of a file. *)
From stdpp Require Import base list.
From Stdlib Require Import ZArith Lia String.
From S2P Require Import Prelude.

(** Bytes and words are [Z], kept in range by [u32] and masks as the code keeps
    them by its types. *)
(** The table, one list per line of the source. *)
Definition kConstants : list Z :=
  [0x428a2f98; 0x71374491; 0xb5c0fbcf; 0xe9b5dba5; 0x3956c25b; 0x59f111f1; 0x923f82a4; 0xab1c5ed5] ++
  [0xd807aa98; 0x12835b01; 0x243185be; 0x550c7dc3; 0x72be5d74; 0x80deb1fe; 0x9bdc06a7; 0xc19bf174] ++
  [0xe49b69c1; 0xefbe4786; 0x0fc19dc6; 0x240ca1cc; 0x2de92c6f; 0x4a7484aa; 0x5cb0a9dc; 0x76f988da] ++
  [0x983e5152; 0xa831c66d; 0xb00327c8; 0xbf597fc7; 0xc6e00bf3; 0xd5a79147; 0x06ca6351; 0x14292967] ++
  [0x27b70a85; 0x2e1b2138; 0x4d2c6dfc; 0x53380d13; 0x650a7354; 0x766a0abb; 0x81c2c92e; 0x92722c85] ++
  [0xa2bfe8a1; 0xa81a664b; 0xc24b8b70; 0xc76c51a3; 0xd192e819; 0xd6990624; 0xf40e3585; 0x106aa070] ++
  [0x19a4c116; 0x1e376c08; 0x2748774c; 0x34b0bcb5; 0x391c0cb3; 0x4ed8aa4a; 0x5b9cca4f; 0x682e6ff3] ++
  [0x748f82ee; 0x78a5636f; 0x84c87814; 0x8cc70208; 0x90befffa; 0xa4506ceb; 0xbef9a3f7; 0xc67178f2].

Definition RotateRight (value bits : Z) : Z :=
  Z.lor (Z.shiftr value bits) (u32 (Z.shiftl value (32 - bits))).
Definition Ch (x y z : Z) : Z := Z.lxor (Z.land x y) (Z.land (u32 (Z.lnot x)) z).
Definition Maj (x y z : Z) : Z := Z.lxor (Z.lxor (Z.land x y) (Z.land x z)) (Z.land y z).
Definition BigSigma0 (value : Z) : Z :=
  Z.lxor (Z.lxor (RotateRight value 2) (RotateRight value 13)) (RotateRight value 22).
Definition BigSigma1 (value : Z) : Z :=
  Z.lxor (Z.lxor (RotateRight value 6) (RotateRight value 11)) (RotateRight value 25).
Definition SmallSigma0 (value : Z) : Z :=
  Z.lxor (Z.lxor (RotateRight value 7) (RotateRight value 18)) (Z.shiftr value 3).
Definition SmallSigma1 (value : Z) : Z :=
  Z.lxor (Z.lxor (RotateRight value 17) (RotateRight value 19)) (Z.shiftr value 10).

(** [array[index]]. *)
Definition at_ (l : list Z) (index : nat) : Z := nth index l 0.

(** The first sixteen words of the schedule, and the loop that fills the rest. *)
Definition schedule_word (chunk : list Z) (index : nat) : Z :=
  let base := (index * 4)%nat in
  Z.lor (Z.lor (Z.lor (Z.shiftl (at_ chunk base) 24) (Z.shiftl (at_ chunk (base + 1)) 16))
           (Z.shiftl (at_ chunk (base + 2)) 8))
    (at_ chunk (base + 3)).
Definition extend_schedule (schedule : list Z) (index : nat) : list Z :=
  <[index := u32 (SmallSigma1 (at_ schedule (index - 2)) + at_ schedule (index - 7)
                  + SmallSigma0 (at_ schedule (index - 15)) + at_ schedule (index - 16))]> schedule.
Definition message_schedule (chunk : list Z) : list Z :=
  let schedule := fold_left (fun s index => <[index := schedule_word chunk index]> s)
                    (seq 0 16) (replicate 64 0) in
  fold_left extend_schedule (seq 16 48) schedule.

(** The eight working variables and one round. *)
Record vars := mkVars { va : Z; vb : Z; vc : Z; vd : Z; ve : Z; vf : Z; vg : Z; vh : Z }.
Definition round (schedule : list Z) (v : vars) (index : nat) : vars :=
  let t1 := u32 (vh v + BigSigma1 (ve v) + Ch (ve v) (vf v) (vg v) + at_ kConstants index
                 + at_ schedule index) in
  let t2 := u32 (BigSigma0 (va v) + Maj (va v) (vb v) (vc v)) in
  mkVars (u32 (t1 + t2)) (va v) (vb v) (vc v) (u32 (vd v + t1)) (ve v) (vf v) (vg v).

(** [Transform], on [state_]. *)
Definition Transform (state_ : vars) (chunk : list Z) : vars :=
  let v := fold_left (round (message_schedule chunk)) (seq 0 64) state_ in
  mkVars (u32 (va state_ + va v)) (u32 (vb state_ + vb v)) (u32 (vc state_ + vc v))
         (u32 (vd state_ + vd v)) (u32 (ve state_ + ve v)) (u32 (vf state_ + vf v))
         (u32 (vg state_ + vg v)) (u32 (vh state_ + vh v)).

(** The members of the class. *)
Record Sha256 := mkSha256 {
  state_ : vars;
  buffer_ : list Z;
  buffer_size_ : nat;
  total_size_ : Z;
}.
Definition initial_state : vars :=
  mkVars 0x6a09e667 0xbb67ae85 0x3c6ef372 0xa54ff53a 0x510e527f 0x9b05688c 0x1f83d9ab 0x5be0cd19.
Definition initial_sha256 : Sha256 := mkSha256 initial_state (replicate 64 0) 0 0.

(** [std::copy_n(source, n, buffer.begin() + offset)] and [std::fill]. *)
Definition overwrite (offset : nat) (source buffer : list Z) : list Z :=
  take offset buffer ++ source ++ drop (offset + List.length source) buffer.
Definition fill (first last : nat) (buffer : list Z) : list Z :=
  overwrite first (replicate (last - first) 0) buffer.

(** One turn of the loop of [Update], on [chunk] bytes of the input. *)
Definition absorb (s : Sha256) (bytes : list Z) : Sha256 :=
  let buffer := overwrite (buffer_size_ s) bytes (buffer_ s) in
  let size := (buffer_size_ s + List.length bytes)%nat in
  if Nat.eqb size 64
  then mkSha256 (Transform (state_ s) buffer) buffer 0 (total_size_ s)
  else mkSha256 (state_ s) buffer size (total_size_ s).

(** The loop; [None] when the fuel is used up with input left. *)
Fixpoint update_loop (fuel : nat) (data : list Z) (s : Sha256) : option Sha256 :=
  match data with
  | [] => Some s
  | _ =>
      match fuel with
      | O => None
      | S fuel =>
          let chunk := Nat.min (if (buffer_size_ s <? 64)%nat then 64 - buffer_size_ s else 0)
                         (List.length data) in
          update_loop fuel (drop chunk data) (absorb s (take chunk data))
      end
  end.

Definition Update (data : list Z) (s : Sha256) : option Sha256 :=
  update_loop (List.length data) data
    (mkSha256 (state_ s) (buffer_ s) (buffer_size_ s)
       (u64 (total_size_ s + Z.of_nat (List.length data)))).

(** The length, written from the last byte backwards. *)
Definition write_length (total_bits : Z) (final_block : list Z) : list Z :=
  fold_left (fun block index =>
      <[(63 - index)%nat := Z.land (Z.shiftr total_bits (Z.of_nat index * 8)) 0xff]> block)
    (seq 0 8) final_block.

Definition words (v : vars) : list Z := [va v; vb v; vc v; vd v; ve v; vf v; vg v; vh v].

(** The state [FinalHex] leaves and the text it returns. *)
Definition final_state (s : Sha256) : vars :=
  let final_block := <[buffer_size_ s := 0x80]> (buffer_ s) in
  let final_size := S (buffer_size_ s) in
  let '(state, final_block, final_size) :=
    if (56 <? final_size)%nat
    then (Transform (state_ s) (fill final_size 64 final_block), replicate 64 0, 0%nat)
    else (state_ s, final_block, final_size) in
  let final_block := fill final_size 56 final_block in
  Transform state (write_length (u64 (total_size_ s * 8)) final_block).
Definition FinalHex (s : Sha256) : string :=
  String.concat "" (map (hex_fixed 8) (words (final_state s))).

(** [Sha256File] on the bytes of a readable file: blocks of at most 8192 bytes
    until end of file. *)
Fixpoint read_blocks (fuel : nat) (bytes : list Z) (s : Sha256) : option Sha256 :=
  match bytes with
  | [] => Some s
  | _ =>
      match fuel with
      | O => None
      | S fuel =>
          match Update (take (Z.to_nat 8192) bytes) s with
          | Some s => read_blocks fuel (drop (Z.to_nat 8192) bytes) s
          | None => None
          end
      end
  end.
Definition Sha256Contents (bytes : list Z) : option string :=
  FinalHex <$> read_blocks (List.length bytes) bytes initial_sha256.

(** A sequence of [Update] calls. *)
Fixpoint updates (chunks : list (list Z)) (s : Sha256) : option Sha256 :=
  match chunks with
  | [] => Some s
  | data :: chunks => match Update data s with Some s => updates chunks s | None => None end
  end.

(** ** The standard's hash *)

(** FIPS 180-4 padding: a one bit, zeros, and the bit length in 64 bits. *)
Definition be64 (z : Z) : list Z :=
  map (fun index => Z.shiftr z (8 * (7 - Z.of_nat index)) mod 256) (seq 0 8).
Definition pad (message : list Z) : list Z :=
  let n := List.length message in
  message ++ [0x80] ++ replicate ((119 - n mod 64) mod 64) 0 ++ be64 (u64 (8 * Z.of_nat n)).

(** The hash of the first [n] blocks of 64 bytes. *)
Fixpoint digest_blocks (n : nat) (message : list Z) (h : vars) : vars :=
  match n with
  | O => h
  | S n => digest_blocks n (drop 64 message) (Transform h (take 64 message))
  end.
Definition sha256_reference (message : list Z) : string :=
  let padded := pad message in
  String.concat "" (map (hex_fixed 8)
    (words (digest_blocks (List.length padded / 64) padded initial_state))).

Definition bytes_of (s : string) : list Z := map char_code (chars s).

Example sha256_empty : Sha256Contents [] =
  Some "e3b0c44298fc1c149afbf4c8996fb92427ae41e4649b934ca495991b7852b855"%string.
Proof. vm_compute. reflexivity. Qed.
Example sha256_abc : Sha256Contents (bytes_of "abc") =
  Some "ba7816bf8f01cfea414140de5dae2223b00361a396177a9cb410ff61f20015ad"%string.
Proof. vm_compute. reflexivity. Qed.
Example sha256_two_blocks :
  Sha256Contents (bytes_of "abcdbcdecdefdefgefghfghighijhijkijkljklmklmnlmnomnopnopq") =
  Some "248d6a61d20638b8e5c026930c3e6039a33ce45964ff2167f6ecedd419db06c1"%string.
Proof. vm_compute. reflexivity. Qed.

(** * Lemmas *)

Lemma digest_app n a b h :
  (64 * n <= List.length a)%nat -> digest_blocks n (a ++ b) h = digest_blocks n a h.
Proof.
  revert a h. induction n as [|n IH]; intros a h Hn; [done|]. cbn [digest_blocks].
  rewrite take_app_le, drop_app_le by lia. apply IH. rewrite length_drop. lia.
Qed.

Lemma digest_plus n k l h :
  digest_blocks (n + k) l h = digest_blocks k (drop (64 * n) l) (digest_blocks n l h).
Proof.
  revert l h. induction n as [|n IH]; intros l h.
  - replace (64 * 0)%nat with 0%nat by lia. done.
  - cbn [digest_blocks Nat.add]. rewrite IH, drop_drop. do 2 f_equal; lia.
Qed.

Lemma length_overwrite offset source buffer :
  (offset + List.length source <= List.length buffer)%nat ->
  List.length (overwrite offset source buffer) = List.length buffer.
Proof. intros H. unfold overwrite. rewrite !length_app, length_take, length_drop. lia. Qed.

Lemma take_overwrite offset source buffer :
  (offset <= List.length buffer)%nat ->
  take (offset + List.length source) (overwrite offset source buffer)
  = take offset buffer ++ source.
Proof.
  intros H. unfold overwrite. rewrite (assoc_L (++)), take_app_length'; [done|].
  rewrite length_app, length_take. lia.
Qed.

(** What the streaming state knows of the message [m] fed so far. *)
Definition streamed (m : list Z) (s : Sha256) : Prop :=
  state_ s = digest_blocks (List.length m / 64) m initial_state
  /\ List.length (buffer_ s) = 64%nat
  /\ buffer_size_ s = (List.length m mod 64)%nat
  /\ take (buffer_size_ s) (buffer_ s) = drop (64 * (List.length m / 64)) m.

Lemma streamed_initial : streamed [] initial_sha256.
Proof. done. Qed.

Lemma absorb_streamed m s bytes :
  streamed m s -> bytes <> [] -> (buffer_size_ s + List.length bytes <= 64)%nat ->
  streamed (m ++ bytes) (absorb s bytes) /\ total_size_ (absorb s bytes) = total_size_ s.
Proof.
  intros (Hst & Hlen & Hsize & Hbuf) Hne Hfit. unfold absorb.
  assert (Hb : (0 < List.length bytes)%nat) by (destruct bytes; [done|cbn; lia]).
  pose proof (Nat.div_mod_eq (List.length m) 64) as Hdm.
  pose proof (Nat.mod_upper_bound (List.length m) 64 ltac:(lia)) as Hub.
  set (n := (List.length m / 64)%nat) in *. set (k := (List.length m mod 64)%nat) in *.
  assert (Hdrop : drop (64 * n) (m ++ bytes) = drop (64 * n) m ++ bytes)
    by (rewrite drop_app_le; [done|lia]).
  pose proof (take_overwrite (buffer_size_ s) bytes (buffer_ s) ltac:(lia)) as Hov.
  rewrite Hbuf in Hov.
  destruct (Nat.eqb_spec (buffer_size_ s + List.length bytes) 64) as [H64|H64];
    (split; [|done]); unfold streamed; cbn [state_ buffer_ buffer_size_];
    rewrite length_overwrite by lia; rewrite length_app.
  - assert (Hq : ((List.length m + List.length bytes) / 64 = n + 1)%nat)
      by (symmetry; apply (Nat.div_unique _ 64 (n + 1) 0); lia).
    assert (Hr : ((List.length m + List.length bytes) mod 64 = 0)%nat)
      by (symmetry; apply (Nat.mod_unique _ 64 (n + 1) 0); lia).
    rewrite Hq, Hr. split_and!; [|done|done|].
    + rewrite digest_plus, digest_app, <- Hst by lia. cbn [digest_blocks].
      rewrite Hdrop, <- Hov, H64. rewrite !take_ge; [done|..];
        rewrite ?length_take, length_overwrite; lia.
    + rewrite take_0. symmetry. apply drop_ge. rewrite length_app. lia.
  - assert (Hq : ((List.length m + List.length bytes) / 64 = n)%nat)
      by (symmetry; apply (Nat.div_unique _ 64 n (k + List.length bytes)); lia).
    assert (Hr : ((List.length m + List.length bytes) mod 64 = k + List.length bytes)%nat)
      by (symmetry; apply (Nat.mod_unique _ 64 n (k + List.length bytes)); lia).
    rewrite Hq, Hr. split_and!; [|done|lia|by rewrite Hov, Hdrop].
    by rewrite digest_app by lia.
Qed.

Lemma update_loop_streamed fuel data m s :
  streamed m s -> (List.length data <= fuel)%nat ->
  exists s', update_loop fuel data s = Some s' /\ streamed (m ++ data) s'
    /\ total_size_ s' = total_size_ s.
Proof.
  revert data m s. induction fuel as [|fuel IH]; intros data m s Hs Hf.
  - destruct data; [|cbn in Hf; lia]. exists s. by rewrite app_nil_r.
  - destruct data as [|byte data]; [exists s; by rewrite app_nil_r|].
    assert (Hsize : (buffer_size_ s < 64)%nat).
    { destruct Hs as (_ & _ & -> & _). by apply Nat.mod_upper_bound. }
    cbn [update_loop]. apply Nat.ltb_lt in Hsize as Hlt. rewrite Hlt.
    set (chunk := Nat.min _ _). set (input := byte :: data) in *.
    assert (Hc : (0 < chunk)%nat) by (unfold chunk, input; cbn [List.length]; lia).
    assert (Hin : (chunk <= List.length input)%nat) by (unfold chunk; lia).
    destruct (absorb_streamed m s (take chunk input) Hs) as [Hs' Ht].
    + unfold input. destruct chunk; [lia|]. done.
    + rewrite length_take. unfold chunk. lia.
    + destruct (IH (drop chunk input) _ _ Hs') as (s' & Hl & Hs'' & Ht').
      { rewrite length_drop. lia. }
      exists s'. rewrite Hl, Ht', Ht. split_and!; [done| |done].
      by rewrite <- (assoc_L (++)), take_drop in Hs''.
Qed.

(** [Update] never runs out of fuel, and extends the message. *)
Lemma Update_streamed data m s :
  streamed m s -> total_size_ s = u64 (Z.of_nat (List.length m)) ->
  exists s', Update data s = Some s' /\ streamed (m ++ data) s'
    /\ total_size_ s' = u64 (Z.of_nat (List.length (m ++ data))).
Proof.
  intros Hs Ht. unfold Update.
  destruct (update_loop_streamed (List.length data) data m
    (mkSha256 (state_ s) (buffer_ s) (buffer_size_ s)
       (u64 (total_size_ s + Z.of_nat (List.length data)))) Hs ltac:(lia))
    as (s' & Hl & Hs' & Ht').
  exists s'. split_and!; [done|done|]. rewrite Ht'. cbn [total_size_]. rewrite Ht, length_app.
  unfold u64. rewrite Zplus_mod_idemp_l. f_equal. lia.
Qed.

(** ** The final blocks *)

Lemma be64_write_length total_bits l :
  List.length l = 64%nat -> 0 <= total_bits ->
  write_length total_bits l = take 56 l ++ be64 total_bits.
Proof.
  intros Hl Hpos.
  assert (Hand : forall i, Z.land (Z.shiftr total_bits i) 255 = Z.shiftr total_bits i mod 256)
    by (intros i; exact (Z.land_ones (Z.shiftr total_bits i) 8 ltac:(lia))).
  rewrite <- (take_drop 56 l) at 1. set (p := take 56 l).
  assert (Hp : List.length p = 56%nat) by (unfold p; rewrite length_take; lia).
  assert (Hq : List.length (drop 56 l) = 8%nat) by (rewrite length_drop; lia).
  destruct (drop 56 l) as [|x0 [|x1 [|x2 [|x3 [|x4 [|x5 [|x6 [|x7 [|]]]]]]]]] eqn:E;
    try discriminate Hq.
  unfold write_length, be64. cbn [seq fold_left map].
  rewrite !insert_app_r_alt by (rewrite ?length_app, ?length_insert; lia).
  rewrite Hp. cbn. by rewrite !Hand.
Qed.

Lemma length_fill first last l :
  (first <= last <= List.length l)%nat -> List.length (fill first last l) = List.length l.
Proof. intros H. apply length_overwrite. rewrite length_replicate. lia. Qed.

Lemma take_fill first last l :
  (first <= last <= List.length l)%nat ->
  take last (fill first last l) = take first l ++ replicate (last - first) 0.
Proof.
  intros H. unfold fill.
  rewrite <- (take_overwrite first (replicate (last - first) 0) l) by lia.
  rewrite length_replicate. f_equal. lia.
Qed.

Lemma take_mark k (b : Z) l :
  (k < List.length l)%nat -> take (S k) (<[k := b]> l) = take k l ++ [b].
Proof.
  intros Hk. rewrite <- (take_drop k l) at 1.
  destruct (drop k l) as [|x r] eqn:E.
  { apply (f_equal List.length) in E. rewrite length_drop in E. cbn in E. lia. }
  rewrite insert_app_r_alt by (rewrite length_take; lia).
  rewrite length_take, Nat.min_l, Nat.sub_diag by lia. cbn.
  replace (S k) with (List.length (take k l) + 1)%nat by (rewrite length_take; lia).
  by rewrite take_app_add.
Qed.

Lemma length_be64 z : List.length (be64 z) = 8%nat.
Proof. reflexivity. Qed.

(** The blocks that remain of a padded message. *)
Lemma drop_pad m :
  let n := (List.length m / 64)%nat in
  drop (64 * n) (pad m)
  = (drop (64 * n) m ++ [0x80]) ++ replicate ((119 - List.length m mod 64) mod 64) 0
    ++ be64 (u64 (8 * Z.of_nat (List.length m))).
Proof.
  cbv zeta. unfold pad. rewrite drop_app_le, <- (assoc_L (++)); [done|].
  pose proof (Nat.div_mod_eq (List.length m) 64). lia.
Qed.

Lemma pad_short (m : list Z) :
  (List.length m mod 64 <= 55)%nat ->
  ((119 - List.length m mod 64) mod 64 = 55 - List.length m mod 64)%nat.
Proof. intros H. symmetry. apply (Nat.mod_unique _ 64 1). all: lia. Qed.

Lemma pad_long (m : list Z) :
  (56 <= List.length m mod 64)%nat ->
  ((119 - List.length m mod 64) mod 64 = 119 - List.length m mod 64)%nat.
Proof. intros H. apply Nat.mod_small. lia. Qed.

Lemma pad_blocks m extra :
  ((119 - List.length m mod 64) mod 64 + 9 + List.length m mod 64 = 64 * extra)%nat ->
  (List.length (pad m) / 64 = List.length m / 64 + extra)%nat.
Proof.
  intros H. pose proof (Nat.div_mod_eq (List.length m) 64) as Hd.
  symmetry. apply (Nat.div_unique _ 64 _ 0); [lia|].
  unfold pad. rewrite !length_app, length_replicate, length_be64. cbn [List.length]. lia.
Qed.

Lemma digest_pad m extra :
  digest_blocks (List.length m / 64 + extra) (pad m) initial_state
  = digest_blocks extra (drop (64 * (List.length m / 64)) (pad m))
      (digest_blocks (List.length m / 64) m initial_state).
Proof.
  rewrite digest_plus. f_equal. unfold pad. apply digest_app.
  pose proof (Nat.div_mod_eq (List.length m) 64). lia.
Qed.

(** The two shapes of the end of a message. *)
Lemma final_streamed m s :
  streamed m s -> total_size_ s = u64 (Z.of_nat (List.length m)) ->
  final_state s = digest_blocks (List.length (pad m) / 64) (pad m) initial_state.
Proof.
  intros (Hst & Hlen & Hsize & Hbuf) Ht.
  pose proof (Nat.mod_upper_bound (List.length m) 64 ltac:(lia)) as Hub.
  assert (Hbits : u64 (total_size_ s * 8) = u64 (8 * Z.of_nat (List.length m))).
  { rewrite Ht. unfold u64. rewrite Zmult_mod_idemp_l. f_equal. lia. }
  assert (Hu : 0 <= u64 (8 * Z.of_nat (List.length m))) by (apply Z.mod_pos_bound; lia).
  pose proof (take_mark (buffer_size_ s) 0x80 (buffer_ s) ltac:(lia)) as Hmark.
  rewrite Hbuf in Hmark. unfold final_state. rewrite Hbits, Hsize in *.
  set (k := (List.length m mod 64)%nat) in *.
  destruct (56 <? S k)%nat eqn:E; [apply Nat.ltb_lt in E|apply Nat.ltb_ge in E].
  - rewrite (pad_blocks m 2) by (rewrite pad_long; fold k; lia).
    rewrite digest_pad, drop_pad, pad_long, <- Hst by (fold k; lia). fold k. cbn [digest_blocks].
    rewrite be64_write_length by (try apply length_fill; rewrite ?length_replicate; lia).
    rewrite take_fill by (rewrite length_replicate; lia). rewrite take_0, Nat.sub_0_r. cbn [app].
    assert (Hf : fill (S k) 64 (<[k:=128]> (buffer_ s))
                 = (drop (64 * (List.length m / 64)) m ++ [0x80]) ++ replicate (63 - k) 0).
    { rewrite <- Hmark. rewrite <- (take_ge (fill _ _ _) 64);
        [|rewrite length_fill; rewrite length_insert; lia].
      rewrite take_fill by (rewrite length_insert; lia). done. }
    replace (119 - k)%nat with ((63 - k) + 56)%nat by lia.
    match goal with |- context [?r ++ replicate (63 - k + 56) 0 ++ ?b] =>
      replace (r ++ replicate (63 - k + 56) 0 ++ b)
        with (fill (S k) 64 (<[k:=128]> (buffer_ s)) ++ replicate 56 0 ++ b)
        by (rewrite Hf, replicate_add, <- !(assoc_L (++)); done) end.
    assert (Hl : List.length (fill (S k) 64 (<[k:=128]> (buffer_ s))) = 64%nat)
      by (rewrite length_fill; rewrite length_insert; lia).
    rewrite take_app_length', drop_app_length' by done. by rewrite take_ge by done.
  - rewrite (pad_blocks m 1) by (rewrite pad_short; fold k; lia).
    rewrite digest_pad, drop_pad, pad_short, <- Hst by (fold k; lia). fold k. cbn [digest_blocks].
    assert (Hl : List.length (fill (S k) 56 (<[k:=128]> (buffer_ s))) = 64%nat)
      by (rewrite length_fill; rewrite length_insert; lia).
    rewrite be64_write_length by done.
    rewrite take_fill by (rewrite length_insert; lia). rewrite Hmark.
    replace (56 - S k)%nat with (55 - k)%nat by lia. rewrite (assoc_L (++)).
    rewrite take_ge; [done|]. rewrite !length_app, length_drop, length_replicate, length_be64.
    cbn [List.length]. pose proof (Nat.div_mod_eq (List.length m) 64). lia.
Qed.

Lemma updates_streamed chunks m s :
  streamed m s -> total_size_ s = u64 (Z.of_nat (List.length m)) ->
  exists s', updates chunks s = Some s' /\ streamed (m ++ List.concat chunks) s'
    /\ total_size_ s' = u64 (Z.of_nat (List.length (m ++ List.concat chunks))).
Proof.
  revert m s. induction chunks as [|data chunks IH]; intros m s Hs Ht; cbn [updates List.concat].
  - exists s. by rewrite app_nil_r.
  - destruct (Update_streamed data m s Hs Ht) as (s1 & Hu & Hs1 & Ht1). rewrite Hu.
    destruct (IH _ _ Hs1 Ht1) as (s2 & Hr & Hs2 & Ht2). exists s2.
    by rewrite (assoc_L (++)).
Qed.

Lemma read_blocks_updates fuel bytes s :
  (List.length bytes <= fuel)%nat ->
  exists chunks, List.concat chunks = bytes /\ read_blocks fuel bytes s = updates chunks s.
Proof.
  revert bytes s. induction fuel as [|fuel IH]; intros bytes s Hf.
  - destruct bytes; [|cbn in Hf; lia]. by exists [].
  - destruct bytes as [|byte bytes]; [by exists []|]. cbn [read_blocks].
    set (input := byte :: bytes) in *. set (block := Z.to_nat 8192).
    assert (Hb : (0 < block)%nat) by (unfold block; lia).
    destruct (Update (take block input) s) as [s'|] eqn:E.
    + destruct (IH (drop block input) s') as (chunks & Hc & Hr).
      { rewrite length_drop. cbn [List.length] in *. lia. }
      exists (take block input :: chunks). cbn [List.concat updates]. rewrite Hc, E, Hr.
      by rewrite take_drop.
    + exists [take block input; drop block input]. cbn [List.concat updates].
      by rewrite app_nil_r, take_drop, E.
Qed.

(** ** Bits of words *)

Lemma testbit_u32 x i : 0 <= i -> Z.testbit (u32 x) i = (i <? 32) && Z.testbit x i.
Proof.
  intros Hi. unfold u32. destruct (Z.ltb_spec i 32).
  - by rewrite Z.mod_pow2_bits_low by lia.
  - by rewrite Z.mod_pow2_bits_high by lia.
Qed.

Lemma testbit_word x i : 0 <= x < 2 ^ 32 -> 32 <= i -> Z.testbit x i = false.
Proof.
  intros Hx Hi. rewrite <- (Z.mod_small x (2 ^ 32)) by lia. apply Z.mod_pow2_bits_high. lia.
Qed.

Lemma testbit_RotateRight x n i :
  0 <= x < 2 ^ 32 -> 0 < n < 32 -> 0 <= i < 32 ->
  Z.testbit (RotateRight x n) i = Z.testbit x ((i + n) mod 32).
Proof.
  intros Hx Hn Hi. unfold RotateRight.
  rewrite Z.lor_spec, Z.shiftr_spec, testbit_u32, Z.shiftl_spec by lia.
  assert ((i <? 32) = true) as -> by (apply Z.ltb_lt; lia). cbn [andb].
  destruct (Z.lt_ge_cases (i + n) 32).
  - rewrite Z.mod_small by lia. rewrite (Z.testbit_neg_r x (i - _)) by lia. apply orb_false_r.
  - rewrite testbit_word by lia. cbn [orb]. f_equal.
    apply (Z.mod_unique _ _ 1); lia.
Qed.

Lemma testbit_Ch x y z i :
  0 <= i < 32 ->
  Z.testbit (Ch x y z) i = if Z.testbit x i then Z.testbit y i else Z.testbit z i.
Proof.
  intros Hi. unfold Ch. rewrite Z.lxor_spec, !Z.land_spec, testbit_u32, Z.lnot_spec by lia.
  assert ((i <? 32) = true) as -> by (apply Z.ltb_lt; lia).
  by destruct (Z.testbit x i), (Z.testbit y i), (Z.testbit z i).
Qed.

Lemma testbit_Maj x y z i :
  Z.testbit (Maj x y z) i
  = (Z.b2z (Z.testbit x i) + Z.b2z (Z.testbit y i) + Z.b2z (Z.testbit z i) >=? 2).
Proof.
  unfold Maj. rewrite !Z.lxor_spec, !Z.land_spec.
  by destruct (Z.testbit x i), (Z.testbit y i), (Z.testbit z i).
Qed.

(** * Properties *)

(** C12. The streaming class computes SHA-256: however a message is cut into
    [Update] calls, every call returns, and [FinalHex] is the hash of the whole
    message padded as the standard says and compressed block by block; the
    file digest, which feeds blocks of 8192 bytes, is the hash of the file's
    contents. *)
Theorem streaming_computes_sha256 (chunks : list (list Z)) :
  (exists s, updates chunks initial_sha256 = Some s
     /\ FinalHex s = sha256_reference (List.concat chunks))
  /\ Sha256Contents (List.concat chunks) = Some (sha256_reference (List.concat chunks)).
Proof.
  assert (Hall : forall chunks, exists s, updates chunks initial_sha256 = Some s
            /\ FinalHex s = sha256_reference (List.concat chunks)).
  { intros l. destruct (updates_streamed l [] initial_sha256 streamed_initial eq_refl)
      as (s & Hu & Hs & Ht). exists s. split; [done|].
    unfold FinalHex, sha256_reference. by rewrite (final_streamed _ _ Hs Ht). }
  split; [apply Hall|]. unfold Sha256Contents.
  destruct (read_blocks_updates (List.length (List.concat chunks)) (List.concat chunks) initial_sha256
              ltac:(lia)) as (l & Hl & Hr).
  rewrite Hr. destruct (Hall l) as (s & Hs & Hf). rewrite Hs.
  unfold fmap, option_fmap, option_map. by rewrite Hf, Hl.
Qed.

(** The word operations are the standard's, bit by bit: [RotateRight] is the
    circular shift, [Ch] the choice and [Maj] the majority, and the four sigma
    functions the exclusive or of their three rotations or shifts. *)
Theorem word_operations_are_bitwise x y z n i :
  0 <= x < 2 ^ 32 -> 0 < n < 32 -> 0 <= i < 32 ->
  let rotated k := Z.testbit x ((i + k) mod 32) in
  let shifted k := (i + k <? 32) && Z.testbit x (i + k) in
  Z.testbit (RotateRight x n) i = rotated n
  /\ Z.testbit (Ch x y z) i = (if Z.testbit x i then Z.testbit y i else Z.testbit z i)
  /\ Z.testbit (Maj x y z) i
     = (Z.b2z (Z.testbit x i) + Z.b2z (Z.testbit y i) + Z.b2z (Z.testbit z i) >=? 2)
  /\ Z.testbit (BigSigma0 x) i = xorb (xorb (rotated 2) (rotated 13)) (rotated 22)
  /\ Z.testbit (BigSigma1 x) i = xorb (xorb (rotated 6) (rotated 11)) (rotated 25)
  /\ Z.testbit (SmallSigma0 x) i = xorb (xorb (rotated 7) (rotated 18)) (shifted 3)
  /\ Z.testbit (SmallSigma1 x) i = xorb (xorb (rotated 17) (rotated 19)) (shifted 10).
Proof.
  intros Hx Hn Hi rotated shifted.
  assert (Hs : forall k, 0 <= k -> Z.testbit (Z.shiftr x k) i = shifted k).
  { intros k Hk. rewrite Z.shiftr_spec by lia. unfold shifted.
    destruct (Z.ltb_spec (i + k) 32); [done|]. by rewrite testbit_word. }
  unfold BigSigma0, BigSigma1, SmallSigma0, SmallSigma1. rewrite !Z.lxor_spec.
  rewrite !testbit_RotateRight by lia. rewrite !Hs by lia.
  split_and!; [done|by apply testbit_Ch|apply testbit_Maj|done|done|done|done].
Qed.

Lemma word_operations_are_bitwise_witness :
  Z.testbit (RotateRight 1 7) 25 = true.
Proof.
  destruct (word_operations_are_bitwise 1 0 0 7 25) as [H _]; [lia|lia|lia|].
  rewrite H. reflexivity.
Defined.
