(* ===== verification/Paths.v ===== *)
(** The [std::filesystem::path] operations the program uses, on the generic text
    of POSIX paths, and read-only views of a file tree. *)
From stdpp Require Import base list strings sorting.
From Stdlib Require Import ZArith Lia Ascii String.
From S2P Require Import Prelude.

Definition is_absolute (p : string) : bool := str_starts_with p "/".

(** [lhs / rhs]: an absolute right operand replaces the left one; otherwise a
    separator is added after a file name. *)
Definition path_join (lhs rhs : string) : string :=
  if is_absolute rhs then rhs
  else if is_empty lhs || str_ends_with lhs "/" then lhs +:+ rhs
  else lhs +:+ "/" +:+ rhs.

(** The stack of names left by the components of a path: "." and empty pieces
    are dropped, ".." drops the name before it (at the root there is none). *)
Fixpoint normal_names (stack parts : list string) : list string :=
  match parts with
  | [] => rev stack
  | part :: parts =>
      if is_empty part || (part =s ".") then normal_names stack parts
      else if part =s ".." then normal_names (tail stack) parts
      else normal_names (part :: stack) parts
  end.

(** A path that ends in a separator, "." or ".." denotes a directory, and its
    normal form keeps a final separator. *)
Definition directory_form (parts : list string) : bool :=
  match last parts with
  | Some part => is_empty part || (part =s ".") || (part =s "..")
  | None => false
  end.

Definition absolute_text (names : list string) (final_separator : bool) : string :=
  match names with
  | [] => "/"
  | _ => String.concat "" (map (fun name => "/" +:+ name) names)
         +:+ (if final_separator then "/" else "")
  end.

(** [path.lexically_normal()] of an absolute path. *)
Definition lexically_normal (p : string) : string :=
  let parts := tail (components p) in
  absolute_text (normal_names [] parts) (directory_form parts).

(** The same of a relative path: a ".." with no name before it stays. *)
Fixpoint relative_names (stack parts : list string) : list string :=
  match parts with
  | [] => rev stack
  | part :: parts =>
      if is_empty part || (part =s ".") then relative_names stack parts
      else if part =s ".." then
        match stack with
        | name :: rest => if name =s ".." then relative_names (part :: stack) parts
                          else relative_names rest parts
        | [] => relative_names [part] parts
        end
      else relative_names (part :: stack) parts
  end.
Definition relative_normal (p : string) : string :=
  match relative_names [] (components p) with
  | [] => if is_empty p then EmptyString else "."
  | names => String.concat "/" names
             +:+ (if directory_form (components p)
                     && negb (default EmptyString (last names) =s "..") then "/" else EmptyString)
  end.
Definition normal_form (p : string) : string :=
  if is_absolute p then lexically_normal p else relative_normal p.

(** The components of an absolute normal path: the root, its names, and an empty
    one after a final separator. *)
Definition absolute_components (p : string) : list string :=
  "/"%string :: match tail (components p) with [last_part] => if is_empty last_part then [] else [last_part]
                                              | parts => parts end.

(** [p.lexically_relative(base)] of two absolute normal paths, as components
    appended to the empty path. *)
Fixpoint mismatch (a b : list string) : list string * list string :=
  match a, b with
  | x :: a', y :: b' => if x =s y then mismatch a' b' else (a, b)
  | _, _ => (a, b)
  end.
Fixpoint net_names (parts : list string) : Z :=
  match parts with
  | [] => 0
  | part :: parts =>
      (if part =s ".." then -1 else if is_empty part || (part =s ".") then 0 else 1) + net_names parts
  end%Z.
Definition lexically_relative (p base : string) : string :=
  let '(a, b) := mismatch (absolute_components p) (absolute_components base) in
  let n := net_names b in
  match a, b with
  | [], [] => "."
  | _, _ =>
      if (n =? 0)%Z && is_empty (default EmptyString (head a)) then "."
      else if (n <? 0)%Z then EmptyString
      else fold_left path_join (replicate (Z.to_nat n) ".."%string ++ a) EmptyString
  end.

(** [path.parent_path()]. *)
Definition parent_path (p : string) : string :=
  match rfind_char "/" (chars p) with
  | None => EmptyString
  | Some O => "/"
  | Some n => str_take n p
  end.

(** [operator<] on paths compares them component by component, an absolute path
    above a relative one. *)
Definition path_key (p : string) : bool * list string :=
  if is_absolute p then (true, tail (components p)) else (false, components p).
Fixpoint names_compare (a b : list string) : comparison :=
  match a, b with
  | [], [] => Eq
  | [], _ => Lt
  | _, [] => Gt
  | x :: a, y :: b => match String.compare x y with Eq => names_compare a b | c => c end
  end.
Definition path_leb (a b : string) : bool :=
  match path_key a, path_key b with
  | (false, _), (true, _) => true
  | (true, _), (false, _) => false
  | (_, a), (_, b) => match names_compare a b with Gt => false | _ => true end
  end.
Definition path_eqb (a b : string) : bool := path_leb a b && path_leb b a.

Definition path_le (a b : string) : Prop := path_leb a b = true.
#[export] Instance path_le_dec a b : Decision (path_le a b) := bool_eq_dec _ _.
(** [std::sort] on paths. *)
Definition sort_paths (l : list string) : list string := merge_sort path_le l.

(** [std::unique] on equal neighbours: the first of each run stays. *)
Fixpoint unique_paths (l : list string) : list string :=
  match l with
  | a :: ((b :: _) as r) => match unique_paths r with
                            | c :: u => if path_eqb a c then a :: u else a :: c :: u
                            | [] => [a]
                            end
  | _ => l
  end.

(** What [fs::exists], [fs::is_regular_file] and an input stream can see. *)
Inductive file_node := RegularFile (contents : string) | OtherFile.
Record FileView := mkView {
  current_path : string;
  file_at : string -> option file_node;
}.
Definition view_exists (v : FileView) (p : string) : bool :=
  match file_at v p with Some _ => true | None => false end.
Definition view_is_regular (v : FileView) (p : string) : bool :=
  match file_at v p with Some (RegularFile _) => true | _ => false end.

(** [fs::absolute(path)]; [None] where it throws, on the empty path. *)
Definition absolute (v : FileView) (p : string) : option string :=
  if is_empty p then None
  else Some (if is_absolute p then p else path_join (current_path v) p).

Example normal_dots : lexically_normal "/a/./b//../c" = "/a/c"%string.
Proof. reflexivity. Qed.
Example normal_directory : lexically_normal "/a/b/.." = "/a/"%string.
Proof. reflexivity. Qed.
Example relative_dots : map relative_normal ["a/../../b"; "a/b/.."; "./"; "../"; "a//b"; ".."]
                        = ["../b"; "a/"; "."; ".."; "a/b"; ".."]%string.
Proof. reflexivity. Qed.
Example relative_paths_of : map (fun p => lexically_relative p "/a/b") ["/a/b"; "/a/b/c"; "/a"; "/a/c/"; "/a/b/"]
                            = ["."; "c"; ".."; "../c/"; "."]%string.
Proof. reflexivity. Qed.
Example normal_root : lexically_normal "/.." = "/"%string.
Proof. reflexivity. Qed.
