(* ===== verification/FileSystem.v ===== *)
(** The file tree the platform works on and the [std::filesystem] and stream
    calls it makes on it.

    A tree maps the absolute name of an entry, the list of its components, to a
    directory or a regular file; the root is always a directory.  There are no
    links and no permissions, and a disk never fails or fills up; a call that
    throws here throws because of the shape of the tree.  The working directory
    and the order in which the entries of a directory are visited, which the
    standard leaves open, belong to the host. *)
From stdpp Require Import base list gmap strings sorting.
From Stdlib Require Import ZArith Lia Ascii String.
From S2P Require Import Prelude Json Sha256 Paths.

Inductive file := Directory | Regular (contents : string).
Abbreviation FileTree := (gmap (list string) file).

(** A file name. *)
Definition plain (name : string) : Prop :=
  name <> EmptyString /\ name <> "."%string /\ name <> ".."%string
  /\ char_in "/" (chars name) = false.

Class FileHost := {
  working_directory : list string;
  working_directory_plain : Forall plain working_directory;
  visit_order : list (list string) -> list (list string);
  visit_order_perm : forall l, visit_order l ≡ₚ l;
}.

Definition node_at (t : FileTree) (names : list string) : option file :=
  match names with [] => Some Directory | _ => t !! names end.
Definition is_dir_at (t : FileTree) (names : list string) : bool :=
  match node_at t names with Some Directory => true | _ => false end.

(** The entry a path denotes, which may be absent: every component is looked up
    in a directory. *)
Fixpoint walk (t : FileTree) (cur parts : list string) : option (list string) :=
  match parts with
  | [] => Some cur
  | part :: parts =>
      if negb (is_dir_at t cur) then None
      else if is_empty part || (part =s ".") then walk t cur parts
      else if part =s ".." then walk t (removelast cur) parts
      else walk t (cur ++ [part]) parts
  end.

(** [create_directories] makes the missing components of a path on the way. *)
Fixpoint make_directories (t : FileTree) (cur parts : list string) : option FileTree :=
  match parts with
  | [] => if is_dir_at t cur then Some t else None
  | part :: parts =>
      if negb (is_dir_at t cur) then None
      else if is_empty part || (part =s ".") then make_directories t cur parts
      else if part =s ".." then make_directories t (removelast cur) parts
      else
        let name := cur ++ [part] in
        match node_at t name with
        | None => make_directories (<[name := Directory]> t) name parts
        | Some _ => make_directories t name parts
        end
  end.

Definition is_child (dir name : list string) : bool :=
  bool_decide (removelast name = dir) && negb (bool_decide (name = [])).
Definition is_below (dir name : list string) : bool :=
  bool_decide (take (List.length dir) name = dir)
  && (List.length dir <? List.length name)%nat.

(** A tree without an entry and what is below it. *)
Definition remove_at (names : list string) (t : FileTree) : FileTree :=
  filter (fun p => negb (bool_decide (p.1 = names) || is_below names p.1)) t.

(** The entries of [from] and below, moved to [to]. *)
Definition move_at (from to : list string) (t : FileTree) : FileTree :=
  list_to_map (map (fun p => (to ++ drop (List.length from) p.1, p.2))
                 (List.filter (fun p => bool_decide (p.1 = from) || is_below from p.1)
                    (map_to_list t)))
  ∪ remove_at from t.

(** [path.filename()] and [path.extension()]. *)
Definition filename (p : string) : string :=
  match rfind_char "/" (chars p) with Some n => str_drop (S n) p | None => p end.
Definition extension (p : string) : string :=
  let name := filename p in
  if name =s ".." then EmptyString
  else match rfind_char "." (chars name) with
       | None | Some O => EmptyString
       | Some n => str_drop n name
       end.

Section FileSystem.
Context `{FileHost}.

(** Where a path starts. *)
Definition start (p : string) : list string := if is_absolute p then [] else working_directory.

Definition resolve (t : FileTree) (p : string) : option (list string) :=
  if is_empty p then None else walk t (start p) (components p).

Definition status (t : FileTree) (p : string) : option file :=
  names ← resolve t p; node_at t names.

Definition exists_ (t : FileTree) (p : string) : bool :=
  match status t p with Some _ => true | None => false end.
Definition is_directory (t : FileTree) (p : string) : bool :=
  match status t p with Some Directory => true | _ => false end.
Definition is_regular_file (t : FileTree) (p : string) : bool :=
  match status t p with Some (Regular _) => true | _ => false end.

(** [std::ifstream in(p)]: what the stream reads, [None] if it does not open. A
    directory opens and reads nothing. *)
Definition open_in (t : FileTree) (p : string) : option string :=
  match status t p with
  | Some (Regular contents) => Some contents
  | Some Directory => Some EmptyString
  | None => None
  end.

(** [std::ofstream out(p, trunc); out << payload;], and with [app].  A stream
    that does not open swallows what is written to it. *)
Definition write_with (f : option string -> string) (p : string) (t : FileTree) : FileTree :=
  match resolve t p with
  | None => t
  | Some names =>
      match node_at t names with
      | Some Directory => t
      | Some (Regular old) => <[names := Regular (f (Some old))]> t
      | None => <[names := Regular (f None)]> t
      end
  end.
Definition write_stream (p payload : string) : FileTree -> FileTree :=
  write_with (fun _ => payload) p.
Definition append_stream (p payload : string) : FileTree -> FileTree :=
  write_with (fun old => default EmptyString old +:+ payload) p.

(** Whether [std::ofstream out(p)] opens. *)
Definition can_open (p : string) (t : FileTree) : bool :=
  match resolve t p with Some names => negb (is_dir_at t names) | None => false end.

Abbreviation FileM := (M exn FileTree).

(** [fs::create_directories(p)]. *)
Definition create_directories (p : string) : FileM unit :=
  fun t => match (if is_empty p then None else make_directories t (start p) (components p)) with
           | Some t' => (inr tt, t')
           | None => (inl (FilesystemError "cannot create directories" p), t)
           end.

(** [fs::remove_all(p, ec)] and [fs::remove(p, ec)], the error ignored. *)
Definition remove_all (p : string) (t : FileTree) : FileTree :=
  match resolve t p with Some names => remove_at names t | None => t end.
Definition remove (p : string) (t : FileTree) : FileTree :=
  match resolve t p with
  | Some names =>
      if is_dir_at t names && existsb (is_below names) (map_to_list t).*1 then t
      else delete names t
  | None => t
  end.

(** [fs::remove(p)], which throws on a directory that is not empty. *)
Definition remove_file (p : string) : FileM unit :=
  fun t => match resolve t p with
           | Some names =>
               if is_dir_at t names && existsb (is_below names) (map_to_list t).*1
               then (inl (FilesystemError "cannot remove" p), t) else (inr tt, delete names t)
           | None => (inr tt, t)
           end.

(** [fs::file_size(p)]. *)
Definition file_size (t : FileTree) (p : string) : exn + Z :=
  match status t p with
  | Some (Regular contents) => inr (Z.of_nat (str_length contents))
  | _ => inl (FilesystemError "cannot get file size" p)
  end.

(** [fs::rename(from, to, ec)]; [None] for an error. *)
Definition rename (from to : string) (t : FileTree) : option FileTree :=
  source ← resolve t from; dest ← resolve t to;
  match node_at t source, node_at t dest with
  | Some (Regular _), (None | Some (Regular _)) => Some (move_at source dest t)
  | Some Directory, None =>
      if is_below source dest then None else Some (move_at source dest t)
  | Some Directory, Some Directory =>
      if existsb (is_below dest) (map_to_list t).*1 then None else Some (move_at source dest t)
  | _, _ => None
  end.

(** Copying one file; [overwrite] is [copy_options::overwrite_existing]. *)
Definition copy_file_at (overwrite : bool) (source dest : list string) (t : FileTree)
  : option FileTree :=
  match node_at t source, node_at t dest with
  | Some (Regular contents), None => Some (<[dest := Regular contents]> t)
  | Some (Regular contents), Some (Regular _) =>
      if overwrite && negb (bool_decide (source = dest))
      then Some (<[dest := Regular contents]> t) else None
  | _, _ => None
  end.
Definition copy_file (overwrite : bool) (from to : string) (t : FileTree) : option FileTree :=
  source ← resolve t from; dest ← resolve t to; copy_file_at overwrite source dest t.

(** The entries of a directory, in the order they are visited. *)
Definition children (t : FileTree) (dir : list string) : list (list string) :=
  visit_order (List.filter (is_child dir) (map_to_list t).*1).

(** [fs::copy(from, to, recursive | overwrite_existing, ec)]: the tree reached,
    and whether an error stopped the copy. *)
Fixpoint copy_tree (fuel : nat) (source dest : list string) (t : FileTree) : bool * FileTree :=
  match fuel with
  | O => (false, t)
  | S fuel =>
      match node_at t source with
      | None => (false, t)
      | Some (Regular _) =>
          let dest := if is_dir_at t dest then dest ++ [default EmptyString (last source)]
                      else dest in
          match copy_file_at true source dest t with
          | Some t' => (true, t')
          | None => (false, t)
          end
      | Some Directory =>
          match node_at t dest with
          | Some (Regular _) => (false, t)
          | found =>
              let t' := match found with None => (<[dest := Directory]> t : FileTree) | _ => t end in
              fold_left (fun (acc : bool * FileTree) name =>
                if acc.1 then copy_tree fuel name (dest ++ [default EmptyString (last name)]) acc.2
                else acc) (children t source) (true, t')
          end
      end
  end.
(** A directory is at most as deep as the tree has entries. *)
Definition copy_recursive (from to : string) (t : FileTree) : bool * FileTree :=
  match resolve t from, resolve t to with
  | Some source, Some dest => copy_tree (S (S (size t))) source dest t
  | _, _ => (false, t)
  end.

(** [fs::relative(p, base)]. *)
Fixpoint common_prefix (a b : list string) : nat :=
  match a, b with
  | x :: a, y :: b => if x =s y then S (common_prefix a b) else 0
  | _, _ => 0
  end.
Definition relative (t : FileTree) (p base : string) : string :=
  match resolve t p, resolve t base with
  | Some names, Some root =>
      let n := common_prefix names root in
      match (replicate (List.length root - n) ".."%string ++ drop n names)%list with
      | [] => "."
      | parts => String.concat "/" parts
      end
  | _, _ => EmptyString
  end.

(** The paths of the entries of a directory, and of all entries below it; none
    where the iterator cannot be built. *)
Definition entries_under (select : list string -> list string -> bool) (t : FileTree) (p : string)
  : list string :=
  match resolve t p with
  | None => []
  | Some dir =>
      if is_dir_at t dir
      then map (fun name => path_join p (String.concat "/" (drop (List.length dir) name)))
             (visit_order (List.filter (select dir) (map_to_list t).*1))
      else []
  end.
Definition directory_iterator : FileTree -> string -> list string := entries_under is_child.
Definition recursive_directory_iterator : FileTree -> string -> list string :=
  entries_under is_below.

(** The read-only view of a tree. *)
Definition file_view (t : FileTree) : FileView :=
  mkView (absolute_text working_directory false)
    (fun p => match status t p with
              | Some (Regular contents) => Some (RegularFile contents)
              | Some Directory => Some OtherFile
              | None => None
              end).

(** [spio::Sha256File]: it throws if the file does not open, or, on a directory,
    at the first read. *)
Definition Sha256File (t : FileTree) (p : string) : exn + string :=
  match status t p with
  | None => inl (RuntimeError ("failed to open file for sha256: " +:+ p))
  | Some Directory => inl (RuntimeError ("failed while reading file for sha256: " +:+ p))
  | Some (Regular contents) =>
      match Sha256Contents (map char_code (chars contents)) with
      | Some digest => inr digest
      | None => inl UndefinedBehaviour
      end
  end.
End FileSystem.
