(* ===== verification/FileSystemFacts.v ===== *)
(** Facts about file trees: well-formedness, what a path denotes, what each
    operation changes, and recursive copies. *)
From stdpp Require Import base list gmap strings sorting.
From Stdlib Require Import ZArith Lia Ascii String.
From S2P Require Import Prelude Json Paths FileSystem.

(** Every entry has a plain name and a directory around it; the root is not an
    entry. *)
Definition wf_tree (t : FileTree) : Prop :=
  t !! [] = None
  /\ forall names f, t !! names = Some f ->
     Forall plain names /\ is_dir_at t (removelast names) = true.

(** The contents of the regular files: what a tree is for its readers. *)
Definition contents_at (t : FileTree) (names : list string) : option string :=
  match node_at t names with Some (Regular contents) => Some contents | _ => None end.

(** A path as the names it denotes whatever the tree. *)
Fixpoint lexical (cur parts : list string) : list string :=
  match parts with
  | [] => cur
  | part :: parts =>
      if is_empty part || (part =s ".") then lexical cur parts
      else if part =s ".." then lexical (removelast cur) parts
      else lexical (cur ++ [part]) parts
  end.

(** * Paths *)

Lemma walk_lexical t cur parts names : walk t cur parts = Some names -> names = lexical cur parts.
Proof.
  revert cur. induction parts as [|part parts IH]; intros cur; cbn; [congruence|].
  destruct (is_dir_at t cur); cbn [negb]; [|done].
  destruct (is_empty part || (part =s ".")); [apply IH|]. destruct (part =s ".."); apply IH.
Qed.

Lemma walk_app t cur a b : walk t cur (a ++ b) = names ← walk t cur a; walk t names b.
Proof.
  revert cur. induction a as [|part a IH]; intros cur; cbn; [done|].
  destruct (is_dir_at t cur); cbn [negb]; [|done].
  destruct (is_empty part || (part =s ".")); [apply IH|]. destruct (part =s ".."); apply IH.
Qed.

Lemma lexical_app cur a b : lexical cur (a ++ b) = lexical (lexical cur a) b.
Proof.
  revert cur. induction a as [|part a IH]; intros cur; cbn; [done|].
  destruct (is_empty part || (part =s ".")); [apply IH|]. destruct (part =s ".."); apply IH.
Qed.

Lemma plain_tests name : plain name ->
  is_empty name = false /\ (name =s ".") = false /\ (name =s "..") = false.
Proof.
  intros (H1 & H2 & H3 & _). split_and!.
  - by apply is_empty_false.
  - by apply str_eqb_false.
  - by apply str_eqb_false.
Qed.

Lemma lexical_plain cur parts : Forall plain parts -> lexical cur parts = cur ++ parts.
Proof.
  revert cur. induction parts as [|part parts IH]; intros cur H; cbn; [by rewrite app_nil_r|].
  apply Forall_cons in H as [Hp H]. destruct (plain_tests _ Hp) as (-> & -> & ->). cbn [orb].
  rewrite IH by done. by rewrite <- app_assoc.
Qed.

(** The pieces of a path hold no separator. *)
Lemma split_all_no_sep sep acc l :
  char_in sep acc = false ->
  Forall (fun part => char_in sep (chars part) = false) (split_all sep acc l).
Proof.
  assert (Hrev : forall a, char_in sep (rev a) = char_in sep a).
  { intros a. unfold char_in. destruct (existsb _ a) eqn:E.
    - apply existsb_exists in E as (x & Hx & Hs). apply existsb_exists. exists x.
      by rewrite <- in_rev.
    - apply not_true_iff_false. intros (x & Hx & Hs)%existsb_exists. rewrite <- in_rev in Hx.
      rewrite existsb_forallb in E. apply negb_false_iff in E. rewrite forallb_forall in E.
      specialize (E x Hx). by rewrite Hs in E. }
  revert acc. induction l as [|c l IH]; intros acc Hacc; cbn.
  - constructor; [|done]. by rewrite chars_of_chars, Hrev.
  - destruct (Ascii.eqb c sep) eqn:E.
    + constructor; [|by apply IH]. by rewrite chars_of_chars, Hrev.
    + apply IH. unfold char_in in *. cbn. by rewrite Ascii.eqb_sym, E.
Qed.

Lemma components_no_slash p :
  Forall (fun part => char_in "/" (chars part) = false) (components p).
Proof. by apply split_all_no_sep. Qed.

Lemma lexical_is_plain cur parts :
  Forall plain cur -> Forall (fun part => char_in "/" (chars part) = false) parts ->
  Forall plain (lexical cur parts).
Proof.
  revert cur. induction parts as [|part parts IH]; intros cur Hcur Hp; cbn; [done|].
  apply Forall_cons in Hp as [Hs Hp].
  destruct (is_empty part || (part =s ".")) eqn:E; [by apply IH|].
  apply orb_false_iff in E as [E1%is_empty_false E2%str_eqb_false].
  destruct (part =s "..") eqn:E3.
  - apply IH; [|done]. rewrite removelast_firstn_len. by apply Forall_take.
  - apply IH; [|done]. apply Forall_app. split; [done|]. apply str_eqb_false in E3.
    by repeat constructor.
Qed.

Lemma split_all_app sep acc a b :
  split_all sep acc (a ++ sep :: b) = split_all sep acc a ++ split_all sep [] b.
Proof.
  revert acc. induction a as [|c a IH]; intros acc; cbn; [by rewrite Ascii.eqb_refl|].
  destruct (Ascii.eqb c sep); [|apply IH]. cbn. by rewrite IH.
Qed.

Lemma components_slash a b : components (a +:+ "/" +:+ b) = components a ++ components b.
Proof. unfold components. rewrite !chars_app. apply split_all_app. Qed.

Lemma split_all_nonempty sep acc l : split_all sep acc l <> [].
Proof. revert acc. induction l as [|c l IH]; intros acc; cbn; [done|]. by destruct (Ascii.eqb c sep). Qed.
Lemma components_nonempty p : components p <> [].
Proof. apply split_all_nonempty. Qed.

Lemma components_plain name : plain name -> components name = [name].
Proof.
  intros (_ & _ & _ & Hs). unfold components. rewrite <- (of_chars_chars name) at 2.
  assert (Hgo : forall l acc, char_in "/" l = false -> split_all "/" acc l = [of_chars (rev acc ++ l)]).
  { induction l as [|c l IH]; intros acc Hl; cbn [split_all]; [by rewrite app_nil_r|].
    unfold char_in in Hl. cbn [existsb] in Hl. apply orb_false_iff in Hl as [Hc Hl].
    rewrite Ascii.eqb_sym, Hc, IH by done. cbn [rev]. by rewrite <- app_assoc. }
  by rewrite Hgo.
Qed.

(** A directory component that repeats the separator changes nothing. *)
Lemma walk_dir_first t names parts :
  parts <> [] -> walk t names (EmptyString :: parts) = walk t names parts.
Proof. destruct parts as [|part parts]; [done|]. cbn. by destruct (is_dir_at t names). Qed.

Lemma is_absolute_chars p :
  is_absolute p = match chars p with c :: _ => Ascii.eqb "/" c | [] => false end.
Proof.
  unfold is_absolute. apply Bool.eq_iff_eq_true. rewrite str_starts_with_iff. split.
  - intros [q ->]. by rewrite chars_app.
  - destruct p as [|c p]; [done|]. cbn [chars String.list_ascii_of_string].
    intros ->%Ascii.eqb_eq. by exists p.
Qed.

Section FileFacts.
Context `{FileHost}.

(** The names a path denotes. *)
Definition target (p : string) : list string := lexical (start p) (components p).

Lemma start_plain p : Forall plain (start p).
Proof. unfold start. destruct (is_absolute p); [done|]. apply working_directory_plain. Qed.

Lemma resolve_target t p names : resolve t p = Some names -> names = target p.
Proof. unfold resolve, target. destruct (is_empty p); [done|]. apply walk_lexical. Qed.

Lemma target_plain p : Forall plain (target p).
Proof. apply lexical_is_plain; [apply start_plain|apply components_no_slash]. Qed.

Lemma start_join p rel : p <> EmptyString -> is_absolute rel = false ->
  start (path_join p rel) = start p.
Proof.
  intros Hp Hrel. unfold start, path_join. rewrite Hrel.
  apply is_empty_false in Hp as Hp'. rewrite Hp'. cbn [orb].
  assert (Habs : forall q, is_absolute (p +:+ q) = is_absolute p).
  { intros q. by rewrite !is_absolute_chars, chars_app; destruct p. }
  destruct (str_ends_with p "/"); [by rewrite Habs|]. by rewrite Habs.
Qed.

(** The components of a joined path, up to an empty one in the middle. *)
Lemma components_join p rel : p <> EmptyString -> is_absolute rel = false ->
  components (path_join p rel) = components p ++ components rel
  \/ exists q, components p = q ++ [EmptyString]
        /\ components (path_join p rel) = q ++ components rel.
Proof.
  intros Hp Hrel. unfold path_join. rewrite Hrel. apply is_empty_false in Hp. rewrite Hp. cbn [orb].
  destruct (str_ends_with p "/") eqn:E.
  - right. apply str_ends_with_iff in E as [q ->]. exists (components q).
    rewrite str_app_assoc, components_slash. split; [|done].
    replace (q +:+ "/") with (q +:+ "/" +:+ EmptyString)
      by by (f_equal; apply chars_inj; rewrite chars_app; cbn).
    by rewrite components_slash.
  - left. apply components_slash.
Qed.

Lemma path_join_nonempty p rel : p <> EmptyString -> path_join p rel <> EmptyString.
Proof.
  intros Hp. unfold path_join. destruct (is_absolute rel) eqn:E; [by intros ->|].
  assert (Hq : forall q, p +:+ q <> EmptyString) by by destruct p.
  destruct (is_empty p || _); apply Hq.
Qed.

Lemma resolve_join t p rel : p <> EmptyString -> is_absolute rel = false ->
  resolve t (path_join p rel) = names ← resolve t p; walk t names (components rel).
Proof.
  intros Hp Hrel. unfold resolve.
  pose proof (path_join_nonempty p rel Hp) as Hne. apply is_empty_false in Hne as ->.
  apply is_empty_false in Hp as Hp'. rewrite Hp', start_join by done.
  destruct (components_join p rel Hp Hrel) as [->|(q & -> & ->)]; rewrite !walk_app; [done|].
  destruct (walk t (start p) q) as [names|]; [|done]. cbn.
  pose proof (components_nonempty rel) as Hr. destruct (components rel) as [|r rs]; [done|]. cbn.
  destruct (is_dir_at t names) eqn:E; cbn; [|done]. by rewrite E.
Qed.

Lemma target_join p rel : p <> EmptyString -> is_absolute rel = false ->
  target (path_join p rel) = lexical (target p) (components rel).
Proof.
  intros Hp Hrel. unfold target. rewrite start_join by done.
  destruct (components_join p rel Hp Hrel) as [->|(q & -> & ->)]; by rewrite !lexical_app.
Qed.

Lemma plain_relative name : plain name -> is_absolute name = false.
Proof.
  intros (Hne & _ & _ & Hs). rewrite is_absolute_chars. destruct name as [|c name]; [done|].
  unfold char_in in Hs. cbn [chars String.list_ascii_of_string existsb] in *.
  by apply orb_false_iff in Hs as [Hs _].
Qed.

Lemma target_join_plain p name : p <> EmptyString -> plain name ->
  target (path_join p name) = target p ++ [name].
Proof.
  intros Hp Hn. rewrite target_join by (done || by apply plain_relative).
  rewrite components_plain by done. apply lexical_plain. by constructor.
Qed.

Lemma resolve_join_plain t p name names : p <> EmptyString -> plain name ->
  resolve t p = Some names -> is_dir_at t names = true ->
  resolve t (path_join p name) = Some (names ++ [name]).
Proof.
  intros Hp Hn Hr Hd. rewrite resolve_join by (done || by apply plain_relative). rewrite Hr. cbn.
  rewrite components_plain by done. cbn. rewrite Hd. cbn.
  by destruct (plain_tests _ Hn) as (-> & -> & ->).
Qed.
End FileFacts.

(** * Well-formedness *)

Lemma node_at_lookup t names f : names <> [] -> node_at t names = Some f <-> t !! names = Some f.
Proof. by destruct names. Qed.

Lemma node_at_insert t names f n :
  names <> [] -> node_at (<[names := f]> t) n = if bool_decide (n = names) then Some f
                                                else node_at t n.
Proof.
  intros Hne. case_bool_decide as E; [subst n|].
  - destruct names; [done|]. cbn. apply lookup_insert_eq.
  - destruct n; [done|]. cbn. by apply lookup_insert_ne.
Qed.

Lemma is_dir_node t n : is_dir_at t n = true <-> node_at t n = Some Directory.
Proof. unfold is_dir_at. destruct (node_at t n) as [[|]|]; split; congruence. Qed.

Lemma wf_parent t n f : wf_tree t -> node_at t n = Some f -> is_dir_at t (removelast n) = true.
Proof. intros [_ Hwf] Hn. destruct n as [|a n]; [done|]. by eapply Hwf. Qed.

Lemma wf_plain t n f : wf_tree t -> node_at t n = Some f -> Forall plain n.
Proof. intros [_ Hwf] Hn. destruct n as [|a n]; [done|]. by eapply Hwf. Qed.

(** Everything above an entry is a directory. *)
Lemma wf_above t a b f : wf_tree t -> node_at t (a ++ b) = Some f -> b <> [] ->
  is_dir_at t a = true.
Proof.
  intros Hwf. revert f. induction b as [|x b IH] using rev_ind; intros f Hn Hb; [done|].
  apply wf_parent in Hn; [|done]. rewrite app_assoc, removelast_last in Hn.
  destruct b as [|y b]; [by rewrite app_nil_r in Hn|].
  apply is_dir_node in Hn. by eapply IH.
Qed.

Lemma wf_empty : wf_tree ∅.
Proof. split; [apply lookup_empty|]. intros n f Hn. by rewrite lookup_empty in Hn. Qed.

(** Adding an entry in a directory, or replacing one file by another. *)
Lemma wf_insert t names f :
  wf_tree t -> Forall plain names -> names <> [] -> is_dir_at t (removelast names) = true ->
  (is_dir_at t names = false \/ f = Directory) -> wf_tree (<[names := f]> t).
Proof.
  intros Hwf Hp Hne Hdir Hrep. split; [by rewrite lookup_insert_ne; [apply Hwf|]|].
  assert (Hkeep : forall n, is_dir_at t n = true -> is_dir_at (<[names := f]> t) n = true).
  { intros n Hn. apply is_dir_node. rewrite node_at_insert by done. case_bool_decide as E.
    - subst n. destruct Hrep as [Hrep| ->]; [congruence|done].
    - by apply is_dir_node. }
  intros n g Hn. destruct (decide (n = names)) as [->|Hnn].
  - split; [done|]. by apply Hkeep.
  - rewrite lookup_insert_ne in Hn by done. destruct (proj2 Hwf _ _ Hn) as [Hpn Hd].
    split; [done|]. by apply Hkeep.
Qed.

Lemma walk_parent t cur parts names :
  wf_tree t -> is_dir_at t (removelast cur) = true -> walk t cur parts = Some names ->
  is_dir_at t (removelast names) = true.
Proof.
  intros Hwf. revert cur. induction parts as [|part parts IH]; intros cur Hcur; cbn.
  - congruence.
  - destruct (is_dir_at t cur) eqn:Ed; cbn [negb]; [|done].
    destruct (is_empty part || (part =s ".")); [by apply IH|].
    destruct (part =s ".."); apply IH.
    + by eapply wf_parent; [|apply is_dir_node].
    + by rewrite removelast_last.
Qed.

(** The entries at and below a name: [below a n] when [n] extends [a]. *)
Lemma is_below_spec a n : is_below a n = true <-> exists s, s <> [] /\ n = a ++ s.
Proof.
  unfold is_below. rewrite andb_true_iff, Nat.ltb_lt, bool_decide_eq_true. split.
  - intros [Ht Hl]. exists (drop (List.length a) n). split.
    + intros E. apply (f_equal List.length) in E. rewrite length_drop in E. cbn in E. lia.
    + rewrite <- Ht at 1. by rewrite take_drop.
  - intros (s & Hs & ->). rewrite take_app_length, length_app. split; [done|].
    destruct s; [done|]. cbn. lia.
Qed.

Lemma is_child_spec a n : is_child a n = true <-> exists x, n = a ++ [x].
Proof.
  unfold is_child. rewrite andb_true_iff, negb_true_iff, bool_decide_eq_true, bool_decide_eq_false.
  split.
  - intros [Hr Hn]. exists (List.last n EmptyString). rewrite <- Hr.
    by apply app_removelast_last.
  - intros (x & ->). rewrite removelast_last. split; [done|]. by destruct a.
Qed.

Lemma at_or_below a n :
  bool_decide (n = a) || is_below a n = true <-> exists s, n = a ++ s.
Proof.
  rewrite orb_true_iff, bool_decide_eq_true, is_below_spec. split.
  - intros [->|(s & _ & ->)]; [exists []; by rewrite app_nil_r|by exists s].
  - intros ([|x s] & ->); [left; by rewrite app_nil_r|right; by exists (x :: s)].
Qed.

Lemma lookup_remove_at names t n :
  remove_at names t !! n = if bool_decide (n = names) || is_below names n then None else t !! n.
Proof.
  unfold remove_at. rewrite map_lookup_filter. cbn.
  by destruct (bool_decide (n = names) || is_below names n), (t !! n).
Qed.

Lemma wf_remove_at names t : wf_tree t -> wf_tree (remove_at names t).
Proof.
  intros Hwf. split.
  - rewrite lookup_remove_at. rewrite (proj1 Hwf). by destruct (_ || _).
  - intros n f. rewrite lookup_remove_at. destruct (_ || _) eqn:E; [done|]. intros Hn.
    destruct (proj2 Hwf _ _ Hn) as [Hp Hd]. split; [done|]. apply is_dir_node.
    apply is_dir_node in Hd. destruct (removelast n) as [|a l] eqn:Er; [done|].
    cbn in Hd |- *. rewrite lookup_remove_at, <- Er in *.
    destruct (bool_decide (removelast n = names) || _) eqn:E2; [|done]. exfalso.
    apply at_or_below in E2 as (s & Hs). apply not_true_iff_false in E. apply E, at_or_below.
    exists (s ++ [List.last n EmptyString]). rewrite app_assoc, <- Hs.
    apply app_removelast_last. by intros ->.
Qed.

(** * What the operations change *)

(** [t'] has at least the entries of [t], and the same regular files. *)
Definition more_directories (t t' : FileTree) : Prop :=
  (forall n f, node_at t n = Some f -> node_at t' n = Some f)
  /\ (forall n, contents_at t' n = contents_at t n)
  /\ (wf_tree t -> wf_tree t').

Lemma more_directories_refl t : more_directories t t.
Proof. by unfold more_directories. Qed.
Lemma more_directories_trans t1 t2 t3 :
  more_directories t1 t2 -> more_directories t2 t3 -> more_directories t1 t3.
Proof.
  intros (A1 & B1 & C1) (A2 & B2 & C2). split_and!; [by auto| |by auto].
  intros n. by rewrite B2.
Qed.

Lemma contents_insert t names f n : names <> [] ->
  contents_at (<[names := f]> t) n
  = if bool_decide (n = names) then match f with Regular c => Some c | Directory => None end
    else contents_at t n.
Proof.
  intros Hne. unfold contents_at. rewrite node_at_insert by done.
  case_bool_decide; [by destruct f|done].
Qed.

Lemma is_dir_more t t' n : more_directories t t' -> is_dir_at t n = true -> is_dir_at t' n = true.
Proof. intros (H & _) Hn. apply is_dir_node, H, is_dir_node, Hn. Qed.

Lemma insert_directory t names part :
  is_dir_at t names = true -> node_at t (names ++ [part]) = None -> plain part ->
  Forall plain names -> more_directories t (<[names ++ [part] := Directory]> t).
Proof.
  intros Hd Hn Hp Hpl. assert (Hne : names ++ [part] <> []) by by destruct names.
  split_and!.
  - intros n f Hf. rewrite node_at_insert by done. case_bool_decide as E; [|done]. congruence.
  - intros n. rewrite contents_insert by done. case_bool_decide as E; [|done]. subst n.
    unfold contents_at. by rewrite Hn.
  - intros Hwf. apply wf_insert; try done.
    + apply Forall_app. split; [done|]. by constructor.
    + by rewrite removelast_last.
    + by right.
Qed.

Lemma part_plain part : (is_empty part || (part =s ".")) = false -> (part =s "..") = false ->
  char_in "/" (chars part) = false -> plain part.
Proof.
  intros [H1%is_empty_false H2%str_eqb_false]%orb_false_iff H3%str_eqb_false H4. done.
Qed.

Lemma make_directories_spec t cur parts t' :
  Forall plain cur -> Forall (fun part => char_in "/" (chars part) = false) parts ->
  make_directories t cur parts = Some t' ->
  more_directories t t' /\ walk t' cur parts = Some (lexical cur parts)
  /\ is_dir_at t' (lexical cur parts) = true.
Proof.
  revert t cur. induction parts as [|part parts IH]; intros t cur Hcur Hs; cbn.
  { destruct (is_dir_at t cur) eqn:E; [|done]. intros [= <-].
    split_and!; [apply more_directories_refl|done|done]. }
  apply Forall_cons in Hs as [Hpart Hs].
  destruct (is_dir_at t cur) eqn:Ed; cbn [negb]; [|done].
  assert (Hstep : forall t1 cur1, Forall plain cur1 -> more_directories t t1 ->
            make_directories t1 cur1 parts = Some t' ->
            more_directories t t' /\ is_dir_at t' cur = true
            /\ walk t' cur1 parts = Some (lexical cur1 parts)
            /\ is_dir_at t' (lexical cur1 parts) = true).
  { intros t1 cur1 Hc1 Hm Hmk. destruct (IH _ _ Hc1 Hs Hmk) as (Hm' & Hw & Hd).
    assert (Hm2 := more_directories_trans _ _ _ Hm Hm'). split_and!; try done.
    by eapply is_dir_more. }
  destruct (is_empty part || (part =s ".")) eqn:E1.
  { intros Hmk. destruct (Hstep t cur) as (? & -> & ? & ?); auto using more_directories_refl. }
  destruct (part =s "..") eqn:E2.
  { intros Hmk. destruct (Hstep t (removelast cur)) as (? & -> & ? & ?);
      auto using more_directories_refl. rewrite removelast_firstn_len. by apply Forall_take. }
  assert (Hp := part_plain _ E1 E2 Hpart).
  assert (Hc1 : Forall plain (cur ++ [part])) by (apply Forall_app; split; [done|by constructor]).
  destruct (node_at t (cur ++ [part])) as [f|] eqn:En; intros Hmk.
  - destruct (Hstep t (cur ++ [part])) as (? & -> & ? & ?); auto using more_directories_refl.
  - destruct (Hstep (<[cur ++ [part] := Directory]> t) (cur ++ [part])) as (? & -> & ? & ?);
      auto using insert_directory.
Qed.

Section FileOps.
Context `{FileHost}.

Lemma create_directories_spec p t t' :
  create_directories p t = (inr tt, t') ->
  more_directories t t' /\ resolve t' p = Some (target p) /\ is_dir_at t' (target p) = true.
Proof.
  unfold create_directories, resolve, target. destruct (is_empty p); [done|].
  destruct (make_directories _ _ _) as [t1|] eqn:E; [|done]. intros [= <-].
  apply make_directories_spec in E; [done|apply start_plain|apply components_no_slash].
Qed.

Lemma create_directories_error p t e t' : create_directories p t = (inl e, t') -> t' = t.
Proof. unfold create_directories. case_match; congruence. Qed.

Lemma resolve_parent t p names :
  wf_tree t -> resolve t p = Some names -> is_dir_at t (removelast names) = true.
Proof.
  intros Hwf. unfold resolve. destruct (is_empty p) eqn:Hp; [done|].
  pose proof (components_nonempty p) as Hc. destruct (components p) as [|part parts]; [done|].
  cbn. destruct (is_dir_at t (start p)) eqn:Ed; cbn [negb]; [|done].
  assert (Hup : is_dir_at t (removelast (start p)) = true)
    by by eapply wf_parent, is_dir_node.
  destruct (is_empty part || _); [by eapply walk_parent|].
  destruct (part =s ".."); eapply walk_parent; try done.
  - by eapply wf_parent; [|apply is_dir_node].
  - by rewrite removelast_last.
Qed.

(** A write replaces or creates one file, or does nothing. *)
Lemma write_with_spec f p t :
  write_with f p t = t
  \/ resolve t p = Some (target p) /\ target p <> [] /\ is_dir_at t (target p) = false
     /\ write_with f p t = <[target p := Regular (f (contents_at t (target p)))]> t.
Proof.
  unfold write_with. destruct (resolve t p) as [names|] eqn:E; [|by left].
  pose proof (resolve_target _ _ _ E) as ->.
  unfold contents_at, is_dir_at. destruct (node_at t (target p)) as [[|old]|] eqn:En; [by left| |];
    right; (split_and!; [done| |done|done]); intros Ht; by rewrite Ht in En.
Qed.

Lemma write_with_contents f p t n : n <> target p ->
  contents_at (write_with f p t) n = contents_at t n.
Proof.
  intros Hn. destruct (write_with_spec f p t) as [->|(_ & Hne & _ & ->)]; [done|].
  rewrite contents_insert by done. by rewrite bool_decide_eq_false_2.
Qed.

Lemma write_with_dirs f p t n : is_dir_at (write_with f p t) n = is_dir_at t n.
Proof.
  destruct (write_with_spec f p t) as [->|(_ & Hne & Hd & ->)]; [done|].
  unfold is_dir_at in *. rewrite node_at_insert by done. case_bool_decide; [|done]. by subst.
Qed.

Lemma opened_text path text t : can_open path t = true ->
  contents_at (write_stream path text t) (target path) = Some text.
Proof.
  unfold can_open, write_stream, write_with. destruct (resolve t path) as [names|] eqn:E; [|done].
  intros Hd. pose proof (resolve_target _ _ _ E) as ->. unfold is_dir_at in Hd. unfold contents_at.
  assert (Hne : target path <> []) by (intros E'; by rewrite E' in Hd).
  destruct (node_at t (target path)) as [[|old]|]; [done|..];
    rewrite node_at_insert by done; by rewrite bool_decide_eq_true_2.
Qed.

(** The directories of a tree decide what a path denotes. *)
Lemma walk_same_dirs t t' cur parts :
  (forall n, is_dir_at t' n = is_dir_at t n) -> walk t' cur parts = walk t cur parts.
Proof.
  intros Hd. revert cur. induction parts as [|part parts IH]; intros cur; cbn; [done|].
  rewrite Hd. destruct (is_dir_at t cur); cbn [negb]; [|done].
  destruct (is_empty part || (part =s ".")); [apply IH|]. destruct (part =s ".."); apply IH.
Qed.
Lemma resolve_write_with f p t q : resolve (write_with f p t) q = resolve t q.
Proof.
  unfold resolve. destruct (is_empty q); [done|]. apply walk_same_dirs. intros n. apply write_with_dirs.
Qed.

(** What was written to a stream that opened reads back. *)
Lemma written_reads path text t : can_open path t = true ->
  open_in (write_stream path text t) path = Some text
  /\ exists_ (write_stream path text t) path = true.
Proof.
  intros Ho. pose proof (opened_text path text t Ho) as Ht. unfold contents_at in Ht.
  unfold open_in, exists_, status, write_stream in *. rewrite resolve_write_with.
  unfold can_open in Ho. destruct (resolve t path) as [names|] eqn:E; [|done].
  rewrite (resolve_target _ _ _ E). cbn. destruct (node_at _ (target path)) as [[|c]|]; [done| |done].
  by injection Ht as ->.
Qed.

Lemma wf_write_with f p t : wf_tree t -> wf_tree (write_with f p t).
Proof.
  intros Hwf. destruct (write_with_spec f p t) as [->|(Hr & Hne & Hd & ->)]; [done|].
  apply wf_insert; try done; [apply target_plain|by eapply resolve_parent|by left].
Qed.

Lemma remove_all_lookup p t n :
  remove_all p t !! n
  = if bool_decide (resolve t p = Some (target p))
       && (bool_decide (n = target p) || is_below (target p) n)
    then None else t !! n.
Proof.
  unfold remove_all. destruct (resolve t p) as [names|] eqn:E.
  - pose proof (resolve_target _ _ _ E) as ->. rewrite lookup_remove_at.
    by rewrite (bool_decide_eq_true_2 (Some _ = Some _)).
  - by rewrite (bool_decide_eq_false_2 (None = Some _)).
Qed.

Lemma wf_remove_all p t : wf_tree t -> wf_tree (remove_all p t).
Proof. unfold remove_all. case_match; [apply wf_remove_at|done]. Qed.
End FileOps.

(** * Recursive copies *)

Definition under (a n : list string) : Prop := exists s, n = a ++ s.
(** Neither name is above the other. *)
Definition apart (a b : list string) : Prop := forall s s', a ++ s <> b ++ s'.
(** There is nothing below [dest]. *)
Definition fresh_below (t : FileTree) (dest : list string) : Prop :=
  forall s, s <> [] -> node_at t (dest ++ s) = None.

(** [t'] is [t] with what is at and below [source] also at [dest]. *)
Definition copied (t t' : FileTree) (source dest : list string) : Prop :=
  (forall s, node_at t' (dest ++ s) = node_at t (source ++ s))
  /\ (forall n, ~ under dest n -> node_at t' n = node_at t n).

Lemma wf_absent t a x s : wf_tree t -> node_at t (a ++ [x]) = None -> node_at t (a ++ x :: s) = None.
Proof.
  intros Hwf Hn. destruct (node_at t (a ++ x :: s)) as [f|] eqn:E; [|done]. exfalso.
  destruct s as [|y s]; [by rewrite E in Hn|].
  assert (Hd : is_dir_at t (a ++ [x]) = true).
  { eapply (wf_above t (a ++ [x]) (y :: s) f); [done| |done]. by rewrite <- app_assoc. }
  apply is_dir_node in Hd. congruence.
Qed.

Lemma apart_child source dest x : apart source dest -> apart (source ++ [x]) (dest ++ [x]).
Proof. intros H s s'. rewrite <- !app_assoc. apply H. Qed.

Section Copy.
Context `{FileHost}.

Definition copies (fuel : nat) : Prop := forall t source dest,
  wf_tree t -> Forall plain dest -> dest <> [] -> is_dir_at t (removelast dest) = true ->
  (forall s, node_at t (source ++ s) <> None -> (List.length s < fuel)%nat) ->
  node_at t source <> None ->
  (node_at t dest = None \/ node_at t dest = Some Directory /\ node_at t source = Some Directory) ->
  fresh_below t dest -> apart source dest ->
  exists t', copy_tree fuel source dest t = (true, t') /\ wf_tree t' /\ copied t t' source dest.

(** The children copied so far. *)
Definition copying (t ta : FileTree) (source dest D : list string) : Prop :=
  wf_tree ta /\ is_dir_at ta dest = true
  /\ (forall x s, node_at ta (dest ++ x :: s)
                  = if decide (x ∈ D) then node_at t (source ++ x :: s) else None)
  /\ (forall n, ~ under dest n -> node_at ta n = node_at t n).

Lemma copying_source t ta source dest D : apart source dest -> copying t ta source dest D ->
  forall s, node_at ta (source ++ s) = node_at t (source ++ s).
Proof. intros Ha (_ & _ & _ & Hout) s. apply Hout. intros (s' & E). by eapply Ha. Qed.

Lemma copy_child fuel t ta source dest D x :
  copies fuel -> apart source dest -> Forall plain dest -> plain x -> dest <> [] ->
  (forall s, node_at t (source ++ s) <> None -> (List.length s < S fuel)%nat) ->
  node_at t (source ++ [x]) <> None -> x ∉ D -> copying t ta source dest D ->
  exists tb, copy_tree fuel (source ++ [x]) (dest ++ [x]) ta = (true, tb)
             /\ copying t tb source dest (x :: D).
Proof.
  intros IH Ha Hpl Hx Hne Hfuel Hnode HD Hc. pose proof (copying_source _ _ _ _ _ Ha Hc) as Hsrc.
  destruct Hc as (Hwf & Hdir & Hin & Hout).
  assert (Hnew : forall s, node_at ta (dest ++ x :: s) = None)
    by (intros s; rewrite Hin; by rewrite decide_False).
  destruct (IH ta (source ++ [x]) (dest ++ [x])) as (tb & Hrun & Hwfb & Hcop & Houtb).
  - done.
  - apply Forall_app. split; [done|by constructor].
  - by destruct dest.
  - by rewrite removelast_last.
  - intros s. rewrite <- app_assoc. cbn. rewrite Hsrc. intros Hs. apply Hfuel in Hs. cbn in Hs. lia.
  - by rewrite Hsrc.
  - left. apply (Hnew []).
  - intros s Hs. rewrite <- app_assoc. apply Hnew.
  - by apply apart_child.
  - exists tb. split; [done|].
    assert (Hsame : forall n, ~ under (dest ++ [x]) n -> node_at tb n = node_at ta n) by done.
    split_and!; [done| | |].
    + apply is_dir_node. rewrite Hsame; [by apply is_dir_node|].
      intros (s & E). apply (f_equal List.length) in E. rewrite !length_app in E. cbn in E. lia.
    + intros y s. destruct (decide (y = x)) as [->|Hyx].
      * rewrite decide_True by constructor. specialize (Hcop s). rewrite <- !app_assoc in Hcop.
        cbn in Hcop. by rewrite Hcop, Hsrc.
      * rewrite Hsame, Hin.
        -- destruct (decide (y ∈ D)); [by rewrite decide_True by by constructor|].
           by rewrite decide_False by by rewrite elem_of_cons; intros [|].
        -- intros (s' & E). rewrite <- app_assoc in E. apply app_inv_head in E. cbn in E. congruence.
    + intros n Hn. rewrite Hsame; [by apply Hout|].
      intros (s & ->). apply Hn. exists ([x] ++ s). by rewrite app_assoc.
Qed.

Lemma copy_children fuel t source dest xs D ta :
  copies fuel -> apart source dest -> Forall plain dest -> dest <> [] ->
  (forall s, node_at t (source ++ s) <> None -> (List.length s < S fuel)%nat) ->
  Forall (fun x => plain x /\ node_at t (source ++ [x]) <> None) xs -> NoDup xs ->
  (forall x, x ∈ xs -> x ∉ D) -> copying t ta source dest D ->
  exists tb,
    fold_left (fun (acc : bool * FileTree) name =>
        if acc.1 then copy_tree fuel name (dest ++ [default EmptyString (last name)]) acc.2
        else acc) (map (fun x => source ++ [x]) xs) (true, ta) = (true, tb)
    /\ copying t tb source dest (rev xs ++ D).
Proof.
  intros IH Ha Hpl Hne Hfuel. revert D ta.
  induction xs as [|x xs IHxs]; intros D ta Hxs Hnd HD Hc; [by exists ta|].
  apply Forall_cons in Hxs as [[Hx Hn] Hxs]. apply NoDup_cons in Hnd as [Hx1 Hnd].
  destruct (copy_child fuel t ta source dest D x) as (tb & Hrun & Hb); try done.
  { apply HD. constructor. }
  cbn [map fold_left fst snd]. rewrite last_snoc. cbn [from_option id]. rewrite Hrun.
  destruct (IHxs (x :: D) tb) as (tc & Hrun' & Hc'); try done.
  { intros y Hy. rewrite elem_of_cons. intros [->|HyD]; [done|]. by eapply HD; [constructor|]. }
  exists tc. split; [done|]. cbn. by rewrite <- app_assoc.
Qed.

(** The names of the entries of a directory. *)
Lemma children_names t dir :
  exists xs, children t dir = map (fun x => dir ++ [x]) xs /\ NoDup xs
    /\ forall x, x ∈ xs <-> t !! (dir ++ [x]) <> None.
Proof.
  set (l := children t dir).
  assert (Hl : l ≡ₚ List.filter (is_child dir) (map_to_list t).*1) by apply visit_order_perm.
  assert (Hnd : NoDup l).
  { rewrite Hl. apply NoDup_ListNoDup. apply List.NoDup_filter, NoDup_ListNoDup,
      NoDup_fst_map_to_list. }
  assert (Hin : forall n, n ∈ l <-> is_child dir n = true /\ t !! n <> None).
  { intros n. rewrite Hl, list_elem_of_In, filter_In, <- list_elem_of_In, list_elem_of_fmap.
    split.
    - intros [((n' & f) & -> & Hf) Hc]. split; [done|]. apply elem_of_map_to_list in Hf. cbn.
      by rewrite Hf.
    - intros [Hc Hf]. destruct (t !! n) as [f|] eqn:E; [|done]. split; [|done].
      exists (n, f). split; [done|]. by apply elem_of_map_to_list. }
  exists (map (fun n => List.last n EmptyString) l).
  assert (Hmap : l = map (fun x => dir ++ [x]) (map (fun n => List.last n EmptyString) l)).
  { rewrite map_map. rewrite <- (map_id l) at 1. apply map_ext_in. intros n Hn.
    apply list_elem_of_In, Hin in Hn as [(x & ->)%is_child_spec _]. by rewrite last_last. }
  split_and!; [done| |].
  - rewrite Hmap in Hnd. by apply NoDup_fmap_1 in Hnd.
  - intros x. rewrite list_elem_of_fmap. split.
    + intros (n & -> & [(y & ->)%is_child_spec Hn]%Hin). by rewrite last_last.
    + intros Hx. exists (dir ++ [x]). rewrite last_last. split; [done|]. apply Hin.
      split; [|done]. apply is_child_spec. by exists x.
Qed.

Lemma copying_nothing t ta source dest :
  wf_tree ta -> is_dir_at ta dest = true -> fresh_below ta dest ->
  (forall n, ~ under dest n -> node_at ta n = node_at t n) -> copying t ta source dest [].
Proof.
  intros Hwf Hd Hf Hout. split_and!; try done. intros x s. rewrite decide_False by by inversion 1.
  by apply Hf.
Qed.

(** What a recursive copy onto a free place does. *)
Lemma copy_tree_copies fuel : copies fuel.
Proof.
  induction fuel as [|fuel IH]; intros t source dest Hwf Hpl Hne Hup Hfuel Hnode Hdest Hfresh Ha.
  { specialize (Hfuel []). rewrite app_nil_r in Hfuel. specialize (Hfuel Hnode). cbn in Hfuel. lia. }
  assert (Hund : ~ under dest source).
  { intros (s & ->). apply (Ha [] s). by rewrite app_nil_r. }
  cbn [copy_tree]. destruct (node_at t source) as [[|contents]|] eqn:Es; [| |done].
  - assert (Hplace : exists ta, match node_at t dest with
                                | None => (<[dest := Directory]> t : FileTree)
                                | _ => t
                                end = ta /\ copying t ta source dest []).
    { destruct Hdest as [En|[En _]]; rewrite En; eexists; (split; [reflexivity|]);
        apply copying_nothing; try done.
      - apply wf_insert; try done. by right.
      - apply is_dir_node. rewrite node_at_insert by done. by rewrite bool_decide_eq_true_2.
      - intros s Hs. rewrite node_at_insert by done. rewrite bool_decide_eq_false_2; [by apply Hfresh|].
        rewrite <- (app_nil_r dest) at 2. by intros ?%app_inv_head.
      - intros n Hn. rewrite node_at_insert by done. rewrite bool_decide_eq_false_2; [done|].
        intros ->. apply Hn. exists []. by rewrite app_nil_r.
      - by apply is_dir_node. }
    destruct Hplace as (ta & Hta & Hc).
    destruct (children_names t source) as (xs & Hxs & Hnd & Hin).
    assert (Hchild : forall x, node_at t (source ++ [x]) = t !! (source ++ [x]))
      by by intros x; destruct source.
    destruct (copy_children fuel t source dest xs [] ta) as (tb & Hrun & Hwfb & Hdb & Hinb & Houtb);
      try done.
    { apply Forall_forall. intros x Hx%Hin. rewrite Hchild. split; [|done].
      destruct (t !! (source ++ [x])) eqn:E; [|done]. apply (proj2 Hwf) in E as [E _].
      apply Forall_app in E as [_ E]. by apply Forall_cons in E as [? _]. }
    { intros x _. by inversion 1. }
    assert (Hgoal : copied t tb source dest).
    { split; [|done]. intros [|x s].
      - rewrite !app_nil_r, Es. by apply is_dir_node.
      - rewrite Hinb. case_decide as Hx; [done|]. symmetry. apply wf_absent; [done|].
        rewrite Hchild. apply dec_stable. intros Hn. apply Hx. rewrite app_nil_r.
        by apply list_elem_of_In, in_rev; rewrite rev_involutive; apply list_elem_of_In, Hin. }
    exists tb. rewrite Hxs. split_and!; [|done|done].
    destruct (node_at t dest) as [[|]|]; subst ta; try exact Hrun.
    by destruct Hdest as [|[? _]].
  - destruct Hdest as [En|[_ ?]]; [|done]. unfold is_dir_at. rewrite En.
    unfold copy_file_at. rewrite Es, En. eexists. split; [reflexivity|]. split.
    { apply wf_insert; try done. left. unfold is_dir_at. by rewrite En. }
    split.
    + intros s. rewrite node_at_insert by done. case_bool_decide as E.
      * rewrite <- (app_nil_r dest) in E at 2. apply app_inv_head in E as ->. by rewrite app_nil_r.
      * destruct s as [|x s]; [by rewrite app_nil_r in E|]. rewrite Hfresh by done. symmetry.
        destruct (node_at t (source ++ x :: s)) as [f|] eqn:Ef; [|done].
        assert (Hd : is_dir_at t source = true) by by eapply wf_above.
        apply is_dir_node in Hd. congruence.
    + intros n Hn. rewrite node_at_insert by done. rewrite bool_decide_eq_false_2; [done|].
      intros ->. apply Hn. exists []. by rewrite app_nil_r.
Qed.
End Copy.

(** A name is no longer than the tree is large. *)
Lemma depth_bound t n f : wf_tree t -> node_at t n = Some f -> (List.length n <= size t)%nat.
Proof.
  intros Hwf Hn. rewrite <- (length_map_to_list t), <- (length_fmap fst).
  assert (Hlen : List.length (map (fun i => take (S i) n) (seq 0 (List.length n)))
                 = List.length n) by by rewrite length_map, length_seq.
  rewrite <- Hlen at 1. apply NoDup_incl_length.
  - apply NoDup_ListNoDup, NoDup_fmap_2_strong; [|apply NoDup_seq].
    intros i j Hi%elem_of_seq Hj%elem_of_seq E. apply (f_equal List.length) in E.
    rewrite !length_take in E. lia.
  - intros k (i & <- & Hi%list_elem_of_In%elem_of_seq)%in_map_iff.
    apply list_elem_of_In, list_elem_of_fmap.
    assert (Hk : exists g, t !! take (S i) n = Some g).
    { destruct (decide (S i = List.length n)) as [E|E].
      - rewrite E, firstn_all. exists f. apply node_at_lookup; [|done]. intros ->. cbn in Hi. lia.
      - exists Directory. apply node_at_lookup; [by destruct n; cbn in Hi; [lia|]|]. apply is_dir_node.
        apply (wf_above t _ (drop (S i) n) f); [done|by rewrite take_drop|].
        intros Hd. apply (f_equal List.length) in Hd. rewrite length_drop in Hd. cbn in Hd. lia. }
    destruct Hk as [g Hg]. exists (take (S i) n, g). split; [done|]. by apply elem_of_map_to_list.
Qed.

Section CopyPaths.
Context `{FileHost}.

Lemma copy_recursive_copies from to t source dest :
  wf_tree t -> resolve t from = Some source -> resolve t to = Some dest ->
  node_at t source <> None ->
  (node_at t dest = None \/ node_at t dest = Some Directory /\ node_at t source = Some Directory) ->
  fresh_below t dest -> apart source dest ->
  exists t', copy_recursive from to t = (true, t') /\ wf_tree t' /\ copied t t' source dest.
Proof.
  intros Hwf Hs Hd Hnode Hdest Hfresh Ha. unfold copy_recursive. rewrite Hs, Hd.
  apply copy_tree_copies; try done.
  - rewrite (resolve_target _ _ _ Hd). apply target_plain.
  - intros ->. apply (Ha [] source). by rewrite app_nil_r.
  - by eapply resolve_parent.
  - intros s Hn. destruct (node_at t (source ++ s)) as [f|] eqn:E; [|done].
    apply depth_bound in E; [|done]. rewrite length_app in E. lia.
Qed.
End CopyPaths.

(** * Simple paths *)

(** A path of plain names, absolute or relative. *)
Definition simple_path (p : string) : Prop :=
  p <> EmptyString /\ exists names, names <> [] /\ Forall plain names
  /\ (components p = names \/ components p = EmptyString :: names).

Lemma walk_plain_names t cur names : wf_tree t -> Forall plain names -> names <> [] ->
  walk t cur names = if is_dir_at t (cur ++ removelast names) then Some (cur ++ names) else None.
Proof.
  intros Hwf. revert cur. induction names as [|x names IH]; intros cur Hp Hne; [done|].
  apply Forall_cons in Hp as [Hx Hp]. destruct (plain_tests _ Hx) as (E1 & E2 & E3).
  cbn [walk]. rewrite E1, E2, E3. cbn [orb].
  destruct names as [|y names].
  - cbn. rewrite app_nil_r. by destruct (is_dir_at t cur).
  - rewrite IH by done. rewrite <- !app_assoc.
    change (removelast (x :: y :: names)) with (x :: removelast (y :: names)). cbn [app].
    destruct (is_dir_at t (cur ++ x :: removelast (y :: names))) eqn:E; [|by destruct (is_dir_at t cur)].
    apply is_dir_node in E. by rewrite (wf_above t cur _ _ Hwf E).
Qed.

Lemma removelast_app_ne {A} (a b : list A) : b <> [] -> removelast (a ++ b) = a ++ removelast b.
Proof. intros H. by apply removelast_app. Qed.

Section SimplePaths.
Context `{FileHost}.

Lemma simple_target p : simple_path p ->
  exists names, names <> [] /\ Forall plain names /\ target p = start p ++ names
    /\ forall t, resolve t p = walk t (start p) names.
Proof.
  intros (Hp & names & Hne & Hpl & Hc). exists names. split_and!; [done|done| |].
  - unfold target. destruct Hc as [-> | ->]; cbn; by apply lexical_plain.
  - intros t. unfold resolve. apply is_empty_false in Hp as ->.
    destruct Hc as [-> | ->]; [done|]. by apply walk_dir_first.
Qed.

Lemma simple_target_ne p : simple_path p -> target p <> [].
Proof.
  intros (names & Hne & _ & -> & _)%simple_target. by destruct (start p), names.
Qed.

Lemma simple_resolve t p : wf_tree t -> simple_path p ->
  resolve t p = if is_dir_at t (removelast (target p)) then Some (target p) else None.
Proof.
  intros Hwf (names & Hne & Hpl & Ht & Hr)%simple_target.
  rewrite Hr, Ht, walk_plain_names by done. by rewrite removelast_app_ne.
Qed.

Lemma simple_status t p : wf_tree t -> simple_path p -> status t p = node_at t (target p).
Proof.
  intros Hwf Hp. unfold status. rewrite simple_resolve by done.
  destruct (is_dir_at t (removelast (target p))) eqn:E; [done|]. cbn.
  destruct (node_at t (target p)) as [f|] eqn:En; [|done].
  apply wf_parent in En; [congruence|done].
Qed.

Lemma simple_join p name : simple_path p -> plain name ->
  simple_path (path_join p name) /\ target (path_join p name) = target p ++ [name]
  /\ path_join p name = p +:+ "/" +:+ name /\ parent_path (path_join p name) = p.
Proof.
  intros Hp Hn. pose proof Hp as (Hne & names & Hnn & Hpl & Hc).
  assert (Hj : path_join p name = p +:+ "/" +:+ name).
  { unfold path_join. rewrite (plain_relative _ Hn). apply is_empty_false in Hne as Hne'.
    rewrite Hne'. cbn [orb]. destruct (str_ends_with p "/") eqn:E; [|done]. exfalso.
    apply str_ends_with_iff in E as [q ->].
    replace (q +:+ "/") with (q +:+ "/" +:+ EmptyString) in Hc
      by by (f_equal; apply chars_inj; rewrite chars_app; cbn).
    rewrite components_slash in Hc. change (components "") with [EmptyString] in Hc.
    destruct (exists_last Hnn) as (l & x & ->). apply Forall_app in Hpl as [_ Hx].
    apply Forall_cons in Hx as [(Hx & _) _].
    destruct Hc as [Hc|Hc]; [|rewrite app_comm_cons in Hc];
      by apply app_inj_tail in Hc as [_ <-]. }
  split_and!; [|by apply target_join_plain|done|].
  - split; [rewrite Hj; by destruct p|]. exists (names ++ [name]).
    rewrite Hj, components_slash, (components_plain name) by done. split_and!.
    + by destruct names.
    + apply Forall_app. split; [done|by constructor].
    + destruct Hc as [-> | ->]; [by left|by right].
  - rewrite Hj. unfold parent_path. rewrite !chars_app. change (chars "/") with (["/"%char]).
    destruct Hn as (_ & _ & _ & Hs).
    cbn [app]. rewrite rfind_char_at by by apply char_in_forallb.
    destruct (chars p) as [|c l] eqn:E.
    { by destruct p. }
    cbn [List.length]. unfold str_take. rewrite !chars_app, E.
    rewrite <- (of_chars_chars p), E. f_equal. change (S (List.length l)) with (List.length (c :: l)).
    by rewrite take_app_length.
Qed.

(** Directories made for a simple path lie on it. *)
Lemma make_directories_on t cur names t' : Forall plain names ->
  make_directories t cur names = Some t' ->
  forall n, node_at t' n = node_at t n
            \/ node_at t n = None /\ node_at t' n = Some Directory /\ exists s, cur ++ names = n ++ s.
Proof.
  revert t cur. induction names as [|x names IH]; intros t cur Hp; cbn [make_directories].
  - case_match; [|done]. intros [= <-] n. by left.
  - apply Forall_cons in Hp as [Hx Hp]. destruct (plain_tests _ Hx) as (-> & -> & ->). cbn [orb].
    case_match; [done|]. assert (Hne : cur ++ [x] <> []) by by destruct cur.
    destruct (node_at t (cur ++ [x])) as [f|] eqn:En; intros Hmk n.
    + apply IH with (n := n) in Hmk; [|done]. by rewrite <- app_assoc in Hmk.
    + apply IH with (n := n) in Hmk; [|done]. rewrite node_at_insert in Hmk by done.
      rewrite <- app_assoc in Hmk. cbn in Hmk. case_bool_decide as E; [|done]. subst n.
      destruct Hmk as [Hmk|(? & _)]; [|done]. right. split_and!; [done|done|].
      exists names. by rewrite <- app_assoc.
Qed.

Lemma simple_create_directories t p t' : wf_tree t -> simple_path p ->
  create_directories p t = (inr tt, t') ->
  more_directories t t' /\ is_dir_at t' (target p) = true
  /\ forall n, node_at t' n = node_at t n
               \/ node_at t n = None /\ node_at t' n = Some Directory /\ exists s, target p = n ++ s.
Proof.
  intros Hwf Hp Hc. pose proof (create_directories_spec _ _ _ Hc) as (Hm & _ & Hd).
  split_and!; [done|done|]. destruct Hp as (Hne & names & Hnn & Hpl & Hcs).
  unfold create_directories in Hc. apply is_empty_false in Hne. rewrite Hne in Hc.
  assert (Hmk : make_directories t (start p) names = Some t' /\ target p = start p ++ names).
  { unfold target. destruct Hcs as [Hcs|Hcs]; rewrite Hcs in *; cbn in Hc |- *.
    - rewrite lexical_plain by done. case_match; [|done]. injection Hc as <-. done.
    - rewrite lexical_plain by done. destruct (is_dir_at t (start p)); [|done].
      case_match; [|done]. injection Hc as <-. done. }
  destruct Hmk as [Hmk ->]. by apply make_directories_on.
Qed.

(** A directory is made when the one above it is there and its name is not a file's. *)
Lemma make_directories_last t cur names : wf_tree t -> Forall plain names ->
  match names with [] => is_dir_at t cur = true | _ => is_dir_at t (cur ++ removelast names) = true end ->
  (forall contents, node_at t (cur ++ names) <> Some (Regular contents)) ->
  exists t', make_directories t cur names = Some t'.
Proof.
  revert cur. induction names as [|x names IH]; intros cur Hwf Hp Hd Hn; cbn [make_directories].
  { rewrite Hd. eauto. }
  apply Forall_cons in Hp as [Hx Hp]. destruct (plain_tests _ Hx) as (-> & -> & ->). cbn [orb].
  destruct names as [|y names].
  - cbn in Hd. rewrite app_nil_r in Hd. rewrite Hd. cbn [negb].
    destruct (node_at t (cur ++ [x])) as [[|contents]|] eqn:E; cbn [make_directories].
    + apply is_dir_node in E. rewrite E. eauto.
    + by destruct (Hn contents).
    + assert (Hi : is_dir_at (<[cur ++ [x]:=Directory]> t) (cur ++ [x]) = true).
      { apply is_dir_node. rewrite node_at_insert by by destruct cur. by rewrite bool_decide_eq_true_2. }
      rewrite Hi. eauto.
  - change (removelast (x :: y :: names)) with (x :: removelast (y :: names)) in Hd.
    pose proof (proj1 (is_dir_node _ _) Hd) as Hdn.
    rewrite (wf_above t cur (x :: removelast (y :: names)) _ Hwf Hdn) by done. cbn [negb].
    assert (Hcx : is_dir_at t (cur ++ [x]) = true).
    { destruct (removelast (y :: names)) as [|z l] eqn:El; [done|].
      apply (wf_above t (cur ++ [x]) (z :: l) Directory Hwf); [by rewrite <- app_assoc|done]. }
    apply is_dir_node in Hcx as ->. apply IH; [done..| |].
    + by rewrite <- app_assoc.
    + intros contents. rewrite <- app_assoc. apply Hn.
Qed.

Lemma simple_create_succeeds t p : wf_tree t -> simple_path p ->
  is_dir_at t (removelast (target p)) = true ->
  (forall contents, node_at t (target p) <> Some (Regular contents)) ->
  exists t', create_directories p t = (inr tt, t').
Proof.
  intros Hwf (Hne & names & Hnn & Hpl & Hc) Hd Hn. unfold create_directories.
  apply is_empty_false in Hne as ->.
  assert (Ht : target p = start p ++ names) by (unfold target; destruct Hc as [-> | ->]; cbn; by apply lexical_plain).
  rewrite Ht in Hd, Hn. rewrite removelast_app_ne in Hd by done.
  destruct (make_directories_last t (start p) names) as [t' Hmk]; [done|done|by destruct names|done|].
  exists t'. destruct Hc as [-> | ->]; [by rewrite Hmk|]. cbn [make_directories].
  assert (Hs : is_dir_at t (start p) = true).
  { destruct (removelast names) as [|x l] eqn:El; [by rewrite app_nil_r in Hd|].
    apply is_dir_node in Hd. by apply (wf_above t (start p) (x :: l) Directory Hwf). }
  rewrite Hs. cbn [negb is_empty orb]. by rewrite Hmk.
Qed.

Lemma simple_remove_all t p n : wf_tree t -> simple_path p ->
  node_at (remove_all p t) n = if bool_decide (n = target p) || is_below (target p) n then None
                               else node_at t n.
Proof.
  intros Hwf Hp. pose proof (simple_target_ne p Hp) as Hne.
  destruct n as [|x n].
  { rewrite bool_decide_eq_false_2 by done. cbn [orb]. destruct (is_below (target p) []) eqn:E; [|done].
    apply is_below_spec in E as (s & Hs & E). symmetry in E. apply app_eq_nil in E as [? ?]. done. }
  cbn [node_at]. rewrite remove_all_lookup, simple_resolve by done.
  destruct (is_dir_at t (removelast (target p))) eqn:E.
  - by rewrite (bool_decide_eq_true_2 (Some _ = Some _)).
  - rewrite (bool_decide_eq_false_2 (None = Some _)) by done. cbn [andb].
    destruct (bool_decide (x :: n = target p) || _) eqn:E2; [|done].
    apply at_or_below in E2 as (s & E2). rewrite E2.
    destruct (t !! (target p ++ s)) as [f|] eqn:Ef; [|done]. exfalso.
    apply not_true_iff_false in E. apply E.
    assert (Hl : target p = removelast (target p) ++ [List.last (target p) EmptyString])
      by by apply app_removelast_last.
    eapply (wf_above t _ ([List.last (target p) EmptyString] ++ s) f); [done| |done].
    rewrite app_assoc, <- Hl. apply node_at_lookup; [|done]. by destruct (target p).
Qed.

Lemma simple_resolve_node t p : wf_tree t -> simple_path p -> node_at t (target p) <> None ->
  resolve t p = Some (target p).
Proof.
  intros Hwf Hp Hn. rewrite simple_resolve by done.
  destruct (node_at t (target p)) as [f|] eqn:E; [|done].
  apply wf_parent in E; [by rewrite E|done].
Qed.

(** A write to a free place or over a file, in a directory that is there. *)
Lemma simple_write f t p n : wf_tree t -> simple_path p ->
  is_dir_at t (removelast (target p)) = true -> node_at t (target p) <> Some Directory ->
  node_at (write_with f p t) n
  = if bool_decide (n = target p) then Some (Regular (f (contents_at t (target p))))
    else node_at t n.
Proof.
  intros Hwf Hp Hd Hn. pose proof (simple_target_ne p Hp) as Hne.
  unfold write_with. rewrite simple_resolve, Hd by done. unfold contents_at.
  destruct (node_at t (target p)) as [[|old]|]; [done|..]; by rewrite node_at_insert.
Qed.

Lemma simple_open t p : wf_tree t -> simple_path p ->
  open_in t p = match node_at t (target p) with
                | Some (Regular contents) => Some contents
                | Some Directory => Some EmptyString
                | None => None
                end.
Proof. intros. unfold open_in. by rewrite simple_status. Qed.
End SimplePaths.

(** * Renaming *)

Lemma under_below a n : bool_decide (n = a) || is_below a n = true <-> under a n.
Proof. apply at_or_below. Qed.

(** The entries a rename moves. *)
Definition moved (from to : list string) (t : FileTree) : FileTree :=
  list_to_map (map (fun p => (to ++ drop (List.length from) p.1, p.2))
                 (List.filter (fun p => bool_decide (p.1 = from) || is_below from p.1)
                    (map_to_list t))).

Lemma moved_lookup from to t n f :
  moved from to t !! n = Some f <-> exists s, n = to ++ s /\ t !! (from ++ s) = Some f.
Proof.
  unfold moved. set (l := map _ _).
  assert (Hl : forall k g, (k, g) ∈ l <-> exists s, k = to ++ s /\ t !! (from ++ s) = Some g).
  { intros k g. unfold l. rewrite list_elem_of_fmap. split.
    - intros ([k' g'] & E & Hk). injection E as -> ->. rewrite list_elem_of_In, filter_In in Hk.
      destruct Hk as [Hk Hu%under_below]. apply list_elem_of_In, elem_of_map_to_list in Hk.
      destruct Hu as [s Hs]. cbn in Hs. subst k'. exists s. cbn. by rewrite drop_app_length.
    - intros (s & -> & Hs). exists (from ++ s, g). cbn. rewrite drop_app_length. split; [done|].
      rewrite list_elem_of_In, filter_In. split; [by apply list_elem_of_In, elem_of_map_to_list|].
      apply under_below. by exists s. }
  assert (Hnd : NoDup l.*1).
  { unfold l. rewrite <- list_fmap_compose. apply NoDup_fmap_2_strong.
    - intros [k g] [k' g'] Hk Hk'. rewrite list_elem_of_In, filter_In in Hk, Hk'.
      destruct Hk as [Hk [s Hs]%under_below], Hk' as [Hk' [s' Hs']%under_below].
      cbn in Hs, Hs' |- *. subst k k'. rewrite !drop_app_length. intros <-%app_inv_head.
      apply list_elem_of_In, elem_of_map_to_list in Hk, Hk'. congruence.
    - apply NoDup_ListNoDup, List.NoDup_filter, NoDup_ListNoDup, NoDup_map_to_list. }
  rewrite <- Hl. symmetry. by apply elem_of_list_to_map.
Qed.

(** What a rename onto a free place does. *)
Lemma move_at_lookup from to t n :
  fresh_below t to -> ~ under from to -> to <> [] -> t !! from <> None ->
  move_at from to t !! n
  = if decide (under to n) then t !! (from ++ drop (List.length to) n)
    else if bool_decide (n = from) || is_below from n then None else t !! n.
Proof.
  intros Hfresh Hu Hne Hfrom. unfold move_at. fold (moved from to t).
  rewrite lookup_union. destruct (decide (under to n)) as [[s ->]|Hn].
  - rewrite drop_app_length. destruct (t !! (from ++ s)) as [f|] eqn:E.
    + rewrite (proj2 (moved_lookup from to t (to ++ s) f)) by by exists s. by destruct (remove_at from t !! (to ++ s)).
    + destruct (moved from to t !! (to ++ s)) as [f|] eqn:Em.
      { apply moved_lookup in Em as (s' & E1%app_inv_head & E2). subst. congruence. }
      destruct s as [|x s]; [by rewrite app_nil_r in E|].
      assert (Hno : t !! (to ++ x :: s) = None).
      { pose proof (Hfresh (x :: s) ltac:(done)) as Hf. unfold node_at in Hf. by destruct to. }
      rewrite lookup_remove_at, Hno. by destruct (_ || _).
  - destruct (moved from to t !! n) as [f|] eqn:Em.
    { apply moved_lookup in Em as (s & -> & _). exfalso. apply Hn. by exists s. }
    rewrite lookup_remove_at. by destruct (_ || _), (t !! n).
Qed.

Lemma wf_above_under t a n f : wf_tree t -> under a n -> n <> a -> t !! n = Some f ->
  is_dir_at t a = true.
Proof.
  intros Hwf [s ->] Hne Hn. apply (wf_above t a s f Hwf).
  - apply node_at_lookup; [|done]. intros E. by rewrite E, (proj1 Hwf) in Hn.
  - intros ->. by rewrite app_nil_r in Hne.
Qed.

Lemma wf_move_at from to t :
  wf_tree t -> fresh_below t to -> ~ under from to -> to <> [] -> t !! from <> None ->
  Forall plain to -> is_dir_at t (removelast to) = true -> wf_tree (move_at from to t).
Proof.
  intros Hwf Hfresh Hu Hne Hfrom Hpl Hd.
  assert (Hfn : from <> []) by (intros ->; by rewrite (proj1 Hwf) in Hfrom).
  assert (Hlook := fun n => move_at_lookup from to t n Hfresh Hu Hne Hfrom).
  assert (Hnil : move_at from to t !! [] = None).
  { rewrite Hlook. destruct (decide (under to [])) as [[s E]|_].
    - symmetry in E. by apply app_eq_nil in E as [-> _].
    - destruct (_ || _); [done|]. apply (proj1 Hwf). }
  split; [done|]. intros n f. rewrite Hlook. destruct (decide (under to n)) as [[s ->]|Hn].
  - rewrite drop_app_length. intros Hf. destruct (proj2 Hwf _ _ Hf) as [Hp Hdf].
    apply Forall_app in Hp as [_ Hp]. split; [by apply Forall_app|].
    destruct s as [|x s] using rev_ind; [rewrite app_nil_r|clear IHs].
    + destruct (removelast to) as [|y l] eqn:El; [done|]. apply is_dir_node in Hd; apply is_dir_node.
      unfold node_at. rewrite Hlook, decide_False.
      * destruct (bool_decide _ || _) eqn:E; [|done]. apply under_below in E as [u E].
        exfalso. apply Hu. exists (u ++ [List.last to EmptyString]).
        rewrite app_assoc, <- E, <- El. by apply app_removelast_last.
      * intros [u E]. rewrite <- El in E. apply (f_equal (@List.length _)) in E.
        rewrite length_app, removelast_firstn_len, length_take in E.
        destruct to; [done|]. cbn in E. lia.
    + rewrite app_assoc in Hf, Hdf |- *. rewrite removelast_last in Hdf |- *.
      apply is_dir_node in Hdf; apply is_dir_node. unfold node_at in Hdf |- *.
      destruct (from ++ s) eqn:Ef; [by apply app_eq_nil in Ef as [? _]|].
      destruct (to ++ s) eqn:Et; [by apply app_eq_nil in Et as [? _]|].
      rewrite <- Et, Hlook, decide_True by by exists s. by rewrite drop_app_length, Ef.
  - destruct (bool_decide (n = from) || _) eqn:En; [done|]. intros Hf.
    destruct (proj2 Hwf _ _ Hf) as [Hp Hdn]. split; [done|].
    apply is_dir_node in Hdn; apply is_dir_node. destruct (removelast n) as [|y l] eqn:El; [done|].
    unfold node_at in Hdn |- *. rewrite <- El in *. rewrite Hlook.
    assert (Hnn : n <> []) by by intros ->.
    assert (Hlast : n = removelast n ++ [List.last n EmptyString]) by by apply app_removelast_last.
    rewrite decide_False.
    + destruct (bool_decide (removelast n = from) || _) eqn:E; [|done].
      apply under_below in E as [u E]. apply not_true_iff_false in En. exfalso.
      apply En, under_below. exists (u ++ [List.last n EmptyString]). by rewrite app_assoc, <- E.
    + intros [u E]. apply Hn. exists (u ++ [List.last n EmptyString]). by rewrite app_assoc, <- E.
Qed.

Section Rename.
Context `{FileHost}.

(** Renaming a directory onto a free place. *)
Lemma rename_directory from to t t' :
  wf_tree t -> simple_path from -> simple_path to -> is_dir_at t (target from) = true ->
  ~ under (target from) (target to) -> rename from to t = Some t' ->
  wf_tree t' /\ forall n, node_at t' n
    = if decide (under (target to) n) then node_at t (target from ++ drop (List.length (target to)) n)
      else if bool_decide (n = target from) || is_below (target from) n then None else node_at t n.
Proof.
  intros Hwf Hf Ht Hd Hu Hr.
  pose proof (simple_target_ne _ Hf) as Hfn. pose proof (simple_target_ne _ Ht) as Htn.
  apply is_dir_node in Hd. unfold rename in Hr.
  rewrite (simple_resolve_node t from) in Hr by (done || by rewrite Hd). cbn in Hr.
  rewrite simple_resolve in Hr by done.
  destruct (is_dir_at t (removelast (target to))) eqn:Hp; [|done]. cbn in Hr. rewrite Hd in Hr.
  assert (Hmove : fresh_below t (target to) /\ t' = move_at (target from) (target to) t).
  { destruct (node_at t (target to)) as [[|]|] eqn:En; [| done|].
    - destruct (existsb _ _) eqn:Ex; [done|]. injection Hr as <-. split; [|done].
      intros x Hx. destruct (node_at t (target to ++ x)) as [f|] eqn:Ef; [|done].
      apply not_true_iff_false in Ex. exfalso. apply Ex, existsb_exists.
      apply node_at_lookup in Ef; [|by destruct (target to)].
      exists (target to ++ x). split; [|apply is_below_spec; by exists x].
      apply list_elem_of_In, list_elem_of_fmap. exists (target to ++ x, f). split; [done|].
      by apply elem_of_map_to_list.
    - destruct (is_below _ _); [done|]. injection Hr as <-. split; [|done].
      intros [|x s] Hx; [done|].
      assert (Hl : target to = removelast (target to) ++ [List.last (target to) EmptyString])
        by by apply app_removelast_last.
      rewrite Hl in En |- *. rewrite <- app_assoc. cbn.
      destruct (node_at t (removelast (target to) ++ List.last (target to) EmptyString :: x :: s)) as [f|] eqn:Ef;
        [|done].
      pose proof (wf_absent t _ _ (x :: s) Hwf En). congruence. }
  destruct Hmove as [Hfresh ->].
  assert (Hfrom : t !! target from <> None) by (apply node_at_lookup in Hd; [by rewrite Hd|done]).
  split; [by apply wf_move_at; try done; apply target_plain|].
  intros n. destruct n as [|x n].
  - rewrite decide_False by by intros [s E]; symmetry in E; apply app_eq_nil in E as [? _].
    rewrite bool_decide_eq_false_2 by done. cbn [orb].
    destruct (is_below (target from) []) eqn:E; [|done].
    apply is_below_spec in E as (s & _ & E). symmetry in E. by apply app_eq_nil in E as [? _].
  - cbn [node_at]. rewrite move_at_lookup by done. destruct (decide _); [|done].
    unfold node_at. by destruct (target from).
Qed.
End Rename.

Lemma apart_under a b u : apart a b -> apart a (b ++ u).
Proof. intros H s s'. rewrite <- app_assoc. apply H. Qed.
Lemma under_app a b : under a (a ++ b).
Proof. by exists b. Qed.
Lemma under_trans a b c : under a b -> under b c -> under a c.
Proof. intros [x ->] [y ->]. exists (x ++ y). by rewrite app_assoc. Qed.
Lemma not_under_apart a b s : apart a b -> ~ under b (a ++ s).
Proof. intros Ha [u E]. by eapply Ha. Qed.
Lemma apart_sym a b : apart a b -> apart b a.
Proof. intros H s s' E. by apply (H s' s). Qed.
