(* ===== verification/PathFacts.v ===== *)
(** The normal forms of absolute paths: what [lexically_normal] gives is made of plain
    names and is its own normal form. *)
From stdpp Require Import base list gmap strings sorting.
From Stdlib Require Import ZArith Lia Ascii String.
From S2P Require Import Prelude Json Paths FileSystem FileSystemFacts.

Lemma normal_names_lexical cur parts : normal_names (rev cur) parts = lexical cur parts.
Proof.
  revert cur. induction parts as [|part parts IH]; intros cur; cbn; [apply rev_involutive|].
  destruct (is_empty part || (part =s ".")); [apply IH|]. destruct (part =s "..").
  - rewrite <- IH. f_equal. destruct cur as [|x cur _] using rev_ind; [done|].
    by rewrite removelast_last, rev_unit.
  - rewrite <- IH. f_equal. by rewrite rev_unit.
Qed.

Lemma components_text a names (final : bool) :
  a = EmptyString \/ plain a -> Forall plain names ->
  components (a +:+ (String.concat "" (map (fun name => "/" +:+ name) names)
                     +:+ (if final then "/" else "")))%string
  = a :: names ++ (if final then [EmptyString] else []).
Proof.
  assert (Hsingle : forall a, a = EmptyString \/ plain a -> components a = [a]).
  { intros b [->|Hb]; [done|by apply components_plain]. }
  intros Ha Hn. revert a Ha. induction Hn as [|n names Hp Hn IH]; intros a Ha.
  - destruct final; cbn.
    + change (components (a +:+ "/" +:+ EmptyString) = [a; EmptyString]).
      by rewrite components_slash, Hsingle.
    + replace (a +:+ "" +:+ "")%string with a by (apply chars_inj; by rewrite !chars_app, app_nil_r).
      by apply Hsingle.
  - assert (Hc : String.concat "" (map (fun name => "/" +:+ name)%string (n :: names))
                 = ("/" +:+ n +:+ String.concat "" (map (fun name => "/" +:+ name) names))%string).
    { destruct names as [|m names]; [|done]. cbn. apply chars_inj. rewrite !chars_app. cbn.
      by rewrite app_nil_r. }
    rewrite Hc, !str_app_assoc, components_slash, Hsingle, IH by auto. done.
Qed.

Lemma directory_form_plain parts : parts <> [] -> Forall plain parts -> directory_form parts = false.
Proof.
  intros Hne Hp. destruct parts as [|x parts _] using rev_ind; [done|].
  apply Forall_app in Hp as [_ [Hx _]%Forall_cons]. destruct (plain_tests _ Hx) as (E1 & E2 & E3).
  unfold directory_form. by rewrite last_snoc, E1, E2, E3.
Qed.

(** A normal absolute path is its own normal form. *)
Lemma absolute_text_normal names final : Forall plain names ->
  lexically_normal (absolute_text names final) = absolute_text names final.
Proof.
  intros Hp. destruct names as [|n names]; [done|].
  unfold lexically_normal.
  assert (Hc : tail (components (absolute_text (n :: names) final))
               = (n :: names) ++ (if final then [EmptyString] else [])).
  { change (tail (components (EmptyString +:+ absolute_text (n :: names) final))
            = (n :: names) ++ (if final then [EmptyString] else [])).
    unfold absolute_text. rewrite components_text; [reflexivity|by left|exact Hp]. }
  rewrite Hc. change (@nil string) with (rev (@nil string)) at 1.
  rewrite normal_names_lexical, lexical_app, (lexical_plain [] (n :: names)) by done. cbn [app].
  assert (Hd : directory_form ((n :: names) ++ (if final then [EmptyString] else [])) = final).
  { destruct final; [by unfold directory_form; rewrite last_snoc|].
    rewrite app_nil_r. by apply directory_form_plain. }
  cbn [app] in Hd. rewrite Hd. f_equal. destruct final; done.
Qed.

Lemma lexically_normal_shape p :
  exists names final, Forall plain names /\ lexically_normal p = absolute_text names final.
Proof.
  exists (normal_names [] (tail (components p))), (directory_form (tail (components p))).
  split; [|done]. change (@nil string) with (rev (@nil string)) at 1. rewrite normal_names_lexical.
  apply lexical_is_plain; [done|].
  pose proof (components_no_slash p) as Hs. destruct (components p); [done|].
  by apply Forall_cons in Hs as [_ Hs].
Qed.

Lemma absolute_text_absolute names final : is_absolute (absolute_text names final) = true.
Proof.
  rewrite is_absolute_chars. destruct names as [|n names]; [done|].
  unfold absolute_text. rewrite chars_app. by destruct names.
Qed.

Lemma lexically_normal_idempotent p :
  lexically_normal (lexically_normal p) = lexically_normal p
  /\ is_absolute (lexically_normal p) = true.
Proof.
  destruct (lexically_normal_shape p) as (names & final & Hp & ->).
  by rewrite absolute_text_normal, absolute_text_absolute.
Qed.
