(* ===== verification/DirectoryFacts.v ===== *)
(** The order of paths, and the sorted regular files below a directory: two
    directories with equal contents list the same relative names, sizes and
    digests, whatever order the host visits them in. *)
From stdpp Require Import base list gmap strings sorting.
From Stdlib Require Import ZArith Lia Ascii String.
From S2P Require Import Prelude Json Paths FileSystem FileSystemFacts.

(** * The order of names *)

Lemma names_compare_refl a : names_compare a a = Eq.
Proof. induction a as [|x a IH]; [done|]. cbn. by rewrite str_compare_refl. Qed.

Lemma names_compare_eq a b : names_compare a b = Eq -> a = b.
Proof.
  revert b. induction a as [|x a IH]; intros [|y b]; try done. cbn.
  destruct (String.compare x y) eqn:E; try done. apply String.compare_eq_iff in E as ->.
  intros H%IH. by subst.
Qed.

Lemma names_compare_antisym a b : names_compare b a = CompOpp (names_compare a b).
Proof.
  revert b. induction a as [|x a IH]; intros [|y b]; try done. cbn.
  rewrite (String.compare_antisym y x). destruct (String.compare x y); cbn; auto.
Qed.

Lemma names_lt_trans a b c :
  names_compare a b = Lt -> names_compare b c = Lt -> names_compare a c = Lt.
Proof.
  revert b c. induction a as [|x a IH]; intros [|y b] [|z c]; try done. cbn.
  destruct (String.compare x y) eqn:Exy; try done; destruct (String.compare y z) eqn:Eyz; try done.
  - apply String.compare_eq_iff in Exy as ->, Eyz as ->.
    rewrite str_compare_refl. apply IH.
  - apply String.compare_eq_iff in Exy as ->. by rewrite Eyz.
  - apply String.compare_eq_iff in Eyz as ->. by rewrite Exy.
  - by rewrite (str_lt_trans _ _ _ Exy Eyz).
Qed.

Lemma names_compare_prefix k a b : names_compare (k ++ a) (k ++ b) = names_compare a b.
Proof. induction k as [|x k IH]; [done|]. cbn. by rewrite str_compare_refl. Qed.

Definition names_le (a b : list string) : Prop := names_compare a b <> Gt.
#[export] Instance names_le_dec a b : Decision (names_le a b).
Proof. unfold names_le. destruct (names_compare a b); [left|left|right]; congruence. Defined.

#[export] Instance names_le_trans : Transitive names_le.
Proof.
  intros a b c. unfold names_le.
  destruct (names_compare a b) eqn:E1; destruct (names_compare b c) eqn:E2; try done; intros _ _.
  - apply names_compare_eq in E1 as ->. congruence.
  - apply names_compare_eq in E1 as ->. congruence.
  - apply names_compare_eq in E2 as ->. congruence.
  - by rewrite (names_lt_trans _ _ _ E1 E2).
Qed.
#[export] Instance names_le_total : Total names_le.
Proof.
  intros a b. unfold names_le. rewrite (names_compare_antisym a b).
  destruct (names_compare a b); cbn; auto.
Qed.
#[export] Instance names_le_antisym : AntiSymm (=) names_le.
Proof.
  intros a b. unfold names_le. rewrite (names_compare_antisym a b).
  destruct (names_compare a b) eqn:E; cbn; try done. intros _ _. by apply names_compare_eq.
Qed.

#[export] Instance path_le_trans : Transitive path_le.
Proof.
  intros a b c. unfold path_le, path_leb. destruct (path_key a) as [[] a'], (path_key b) as [[] b'],
    (path_key c) as [[] c']; try done.
  all: pose proof (names_le_trans a' b' c') as Ht; unfold names_le in Ht.
  all: destruct (names_compare a' b'), (names_compare b' c'), (names_compare a' c'); try done.
  all: intros _ _; exfalso; by apply Ht.
Qed.
#[export] Instance path_le_total : Total path_le.
Proof.
  intros a b. unfold path_le, path_leb. destruct (path_key a) as [[] a'], (path_key b) as [[] b'].
  all: rewrite ?(names_compare_antisym a' b'); destruct (names_compare a' b'); cbn; auto.
Qed.

(** Sorting forgets the order of a list. *)
Lemma sort_names_permutation l l' : l ≡ₚ l' -> merge_sort names_le l = merge_sort names_le l'.
Proof.
  intros Hp. apply (StronglySorted_unique names_le).
  - apply (StronglySorted_merge_sort _).
  - apply (StronglySorted_merge_sort _).
  - etransitivity; [apply merge_sort_Permutation|]. etransitivity; [exact Hp|].
    symmetry. apply merge_sort_Permutation.
Qed.

(** * Relative paths below a directory *)

Definition rel_text (s : list string) : string := String.concat "/" s.
(** The path of the entry [s] below the directory [p]. *)
Definition below (p : string) (s : list string) : string := path_join p (rel_text s).

Lemma rel_text_cons x y s : rel_text (x :: y :: s) = x +:+ "/" +:+ rel_text (y :: s).
Proof. done. Qed.

Lemma rel_text_relative s : Forall plain s -> s <> [] -> is_absolute (rel_text s) = false.
Proof.
  intros Hp Hne. destruct s as [|x s]; [done|]. apply Forall_cons in Hp as [Hx _].
  pose proof (plain_relative x Hx) as Hr. destruct s as [|y s]; [done|].
  rewrite rel_text_cons. rewrite is_absolute_chars in Hr |- *.
  rewrite chars_app. destruct Hx as (Hx & _). by destruct x.
Qed.

Section Below.
Context `{FileHost}.

Lemma below_one p x : below p [x] = path_join p x.
Proof. done. Qed.

Lemma below_simple p s : simple_path p -> Forall plain s -> s <> [] ->
  simple_path (below p s) /\ target (below p s) = target p ++ s
  /\ components (below p s) = components p ++ s
  /\ below p s = p +:+ "/" +:+ rel_text s /\ is_absolute (below p s) = is_absolute p.
Proof.
  revert p. induction s as [|x s IH]; intros p Hp Hpl Hne; [done|].
  apply Forall_cons in Hpl as [Hx Hpl]. destruct (simple_join p x Hp Hx) as (Hsp & Ht & Hj & _).
  assert (Hp' : p <> EmptyString) by apply Hp.
  assert (Habs : forall q, is_absolute (p +:+ q) = is_absolute p).
  { intros q. rewrite !is_absolute_chars, chars_app. by destruct p. }
  assert (Hc : components (path_join p x) = components p ++ [x]).
  { rewrite Hj, components_slash. by rewrite (components_plain x). }
  destruct s as [|y s].
  { rewrite below_one. split_and!; [done|done|done|done|]. by rewrite Hj, Habs. }
  destruct (IH (path_join p x) Hsp Hpl ltac:(done)) as (H1 & H2 & H3 & H4 & H5).
  assert (E : below p (x :: y :: s) = below (path_join p x) (y :: s)).
  { rewrite H4, Hj, !str_app_assoc. unfold below, path_join.
    rewrite rel_text_relative by (done || by constructor).
    unfold path_join in Hj. rewrite (plain_relative _ Hx) in Hj.
    destruct (is_empty p || str_ends_with p "/"); [|done].
    rewrite rel_text_cons, <- (str_app_assoc p x), Hj. by rewrite !str_app_assoc. }
  rewrite E. split_and!; [done| | | |].
  - by rewrite H2, Ht, <- app_assoc.
  - by rewrite H3, Hc, <- app_assoc.
  - by rewrite H4, Hj, !str_app_assoc.
  - by rewrite H5, Hj, Habs.
Qed.

(** Paths below one directory are in the order of their names. *)
Lemma below_order p a b : simple_path p -> Forall plain a -> Forall plain b -> a <> [] -> b <> [] ->
  path_le (below p a) (below p b) <-> names_le a b.
Proof.
  intros Hp Ha Hb Hna Hnb.
  destruct (below_simple p a Hp Ha Hna) as (_ & _ & Ca & _ & Aa).
  destruct (below_simple p b Hp Hb Hnb) as (_ & _ & Cb & _ & Ab).
  unfold path_le, path_leb, path_key, names_le. rewrite Aa, Ab, Ca, Cb.
  assert (Hk : forall s, tail (components p ++ s) = tail (components p) ++ s).
  { intros s. pose proof (components_nonempty p). by destruct (components p). }
  destruct (is_absolute p); rewrite ?Hk, names_compare_prefix;
    destruct (names_compare a b); split; congruence.
Qed.

Lemma below_inj p a b : simple_path p -> Forall plain a -> Forall plain b -> a <> [] -> b <> [] ->
  below p a = below p b -> a = b.
Proof.
  intros Hp Ha Hb Hna Hnb E.
  destruct (below_simple p a Hp Ha Hna) as (_ & _ & Ca & _).
  destruct (below_simple p b Hp Hb Hnb) as (_ & _ & Cb & _).
  rewrite E in Ca. rewrite Ca in Cb. by apply app_inv_head in Cb.
Qed.

Lemma sort_below p l : simple_path p -> Forall (fun s => Forall plain s /\ s <> []) l ->
  sort_paths (map (below p) l) = map (below p) (merge_sort names_le l).
Proof.
  intros Hp Hl.
  assert (Hl' : Forall (fun s => Forall plain s /\ s <> []) (merge_sort names_le l)).
  { by rewrite merge_sort_Permutation. }
  assert (Hperm : sort_paths (map (below p) l) ≡ₚ map (below p) (merge_sort names_le l)).
  { unfold sort_paths. by rewrite !merge_sort_Permutation. }
  apply (StronglySorted_unique_strong path_le).
  - intros u v Hu Hv. rewrite Hperm in Hu.
    apply list_elem_of_fmap in Hu as (a & -> & Ha). apply list_elem_of_fmap in Hv as (b & -> & Hb).
    rewrite Forall_forall in Hl'. apply Hl' in Ha as [Pa Na].
    apply Hl' in Hb as [Pb Nb].
    rewrite !below_order by done. intros H1 H2. f_equal. by apply (anti_symm names_le).
  - apply (StronglySorted_merge_sort _).
  - assert (Hs : StronglySorted names_le (merge_sort names_le l))
      by apply (StronglySorted_merge_sort _).
    clear Hperm. induction Hs as [|a k _ IH Hk]; cbn; [constructor|].
    apply Forall_cons in Hl' as [[Pa Na] Hl']. constructor; [by apply IH|].
    apply Forall_map. clear IH. induction Hk as [|b k Hab _ IHk]; [constructor|].
    apply Forall_cons in Hl' as [[Pb Nb] Hl']. constructor; [by apply below_order|by auto].
  - done.
Qed.
End Below.

(** * The regular files below a directory *)

(** [t'] has at and below [d'] what [t] has at and below [d]. *)
Definition same_subtree (t : FileTree) (d : list string) (t' : FileTree) (d' : list string) : Prop :=
  forall s, node_at t' (d' ++ s) = node_at t (d ++ s).

Section Listing.
Context `{FileHost}.

(** The names below a directory, relative to it, in the order of a visit. *)
Definition rel_names (t : FileTree) (d : list string) : list (list string) :=
  map (drop (List.length d)) (visit_order (List.filter (is_below d) (map_to_list t).*1)).

Definition is_regular_at (t : FileTree) (n : list string) : bool :=
  match node_at t n with Some (Regular _) => true | _ => false end.

(** The names of the regular files, sorted. *)
Definition regular_names (t : FileTree) (d : list string) : list (list string) :=
  merge_sort names_le (List.filter (fun s => is_regular_at t (d ++ s)) (rel_names t d)).

Lemma elem_of_rel_names t d s : s ∈ rel_names t d <-> s <> [] /\ t !! (d ++ s) <> None.
Proof.
  unfold rel_names. rewrite list_elem_of_fmap. split.
  - intros (n & -> & Hn). rewrite visit_order_perm, list_elem_of_In, filter_In in Hn.
    destruct Hn as [Hn Hb]. apply list_elem_of_In, list_elem_of_fmap in Hn as ((n' & f) & -> & Hf).
    apply elem_of_map_to_list in Hf. cbn in *. apply is_below_spec in Hb as (s & Hs & ->).
    rewrite drop_app_length. by rewrite Hf.
  - intros [Hs Hn]. exists (d ++ s). rewrite drop_app_length. split; [done|].
    rewrite visit_order_perm, list_elem_of_In, filter_In. split.
    + destruct (t !! (d ++ s)) as [f|] eqn:E; [|done].
      apply list_elem_of_In, list_elem_of_fmap. exists (d ++ s, f). split; [done|].
      by apply elem_of_map_to_list.
    + apply is_below_spec. by exists s.
Qed.

Lemma rel_names_NoDup t d : NoDup (rel_names t d).
Proof.
  apply NoDup_fmap_2_strong.
  - intros a b Ha Hb. rewrite visit_order_perm, list_elem_of_In, filter_In in Ha, Hb.
    destruct Ha as [_ (u & _ & ->)%is_below_spec], Hb as [_ (v & _ & ->)%is_below_spec].
    rewrite !drop_app_length. by intros ->.
  - rewrite visit_order_perm. apply NoDup_ListNoDup, List.NoDup_filter, NoDup_ListNoDup,
      NoDup_fst_map_to_list.
Qed.

Lemma rel_names_plain t d s : wf_tree t -> s ∈ rel_names t d -> Forall plain s /\ s <> [].
Proof.
  intros Hwf [Hs Hn]%elem_of_rel_names. split; [|done].
  destruct (t !! (d ++ s)) as [f|] eqn:E; [|done]. apply (proj2 Hwf) in E as [E _].
  by apply Forall_app in E as [_ E].
Qed.

Lemma regular_names_plain t d : wf_tree t ->
  Forall (fun s => Forall plain s /\ s <> []) (regular_names t d).
Proof.
  intros Hwf. unfold regular_names. rewrite merge_sort_Permutation. apply Forall_forall.
  intros s Hs. apply list_elem_of_In, filter_In in Hs as [Hs _].
  by eapply rel_names_plain, list_elem_of_In.
Qed.

(** The sorted list depends on the subtree only. *)
Lemma regular_names_same t d t' d' : same_subtree t d t' d' ->
  regular_names t' d' = regular_names t d.
Proof.
  intros Hsame. apply sort_names_permutation, NoDup_Permutation.
  1, 2: apply NoDup_ListNoDup, List.NoDup_filter, NoDup_ListNoDup, rel_names_NoDup.
  intros s. rewrite !list_elem_of_In, !filter_In, <- !list_elem_of_In, !elem_of_rel_names.
  unfold is_regular_at. rewrite (Hsame s).
  enough (s <> [] -> t' !! (d' ++ s) = t !! (d ++ s)) as He.
  { split; intros ((Hs & Hn) & Hr); (split; [split; [done|]|done]);
      [by rewrite <- He|by rewrite He]. }
  intros Hs. specialize (Hsame s). unfold node_at in Hsame.
  destruct (d ++ s) eqn:E1; [by apply app_eq_nil in E1 as [_ ?]|].
  by destruct (d' ++ s) eqn:E2; [apply app_eq_nil in E2 as [_ ?]|].
Qed.

Context (t : FileTree) (p : string).
Context (Hwf : wf_tree t) (Hp : simple_path p).

Lemma below_status s : Forall plain s -> s <> [] ->
  status t (below p s) = node_at t (target p ++ s).
Proof.
  intros Hs Hne. destruct (below_simple p s Hp Hs Hne) as (H1 & H2 & _).
  by rewrite simple_status, H2.
Qed.

(** What the program sorts is the list of the paths of these names. *)
Lemma sorted_files_below : is_dir_at t (target p) = true ->
  sort_paths (List.filter (is_regular_file t) (recursive_directory_iterator t p))
  = map (below p) (regular_names t (target p)).
Proof.
  intros Hd. unfold recursive_directory_iterator, entries_under.
  assert (Hr : resolve t p = Some (target p)).
  { apply simple_resolve_node; [done..|]. apply is_dir_node in Hd. by rewrite Hd. }
  rewrite Hr, Hd.
  change (sort_paths (List.filter (is_regular_file t)
            (map (fun name => below p (drop (List.length (target p)) name))
               (visit_order (List.filter (is_below (target p)) (map_to_list t).*1))))
          = map (below p) (regular_names t (target p))).
  rewrite <- (map_map (drop (List.length (target p))) (below p)). fold (rel_names t (target p)).
  assert (Hf : List.filter (is_regular_file t) (map (below p) (rel_names t (target p)))
               = map (below p) (List.filter (fun s => is_regular_at t (target p ++ s))
                                  (rel_names t (target p)))).
  { assert (Hall : Forall (fun s => Forall plain s /\ s <> []) (rel_names t (target p))).
    { apply Forall_forall. intros s Hs. by eapply rel_names_plain. }
    induction Hall as [|s l [Hs Hne] _ IH]; [done|]. cbn.
    unfold is_regular_file at 1, is_regular_at at 1. rewrite below_status by done.
    destruct (node_at t (target p ++ s)) as [[]|]; cbn; by rewrite ?IH. }
  rewrite Hf. apply sort_below; [done|]. apply Forall_forall. intros s Hs.
  apply list_elem_of_In, filter_In in Hs as [Hs _]. by eapply rel_names_plain, list_elem_of_In.
Qed.

Lemma common_prefix_app a b : common_prefix (a ++ b) a = List.length a.
Proof. induction a as [|x a IH]; cbn; [by destruct b|]. rewrite String.eqb_refl. by f_equal. Qed.

(** The name a listing reports. *)
Lemma relative_below s : Forall plain s -> s <> [] -> node_at t (target p ++ s) <> None ->
  relative t (below p s) p = rel_text s.
Proof.
  intros Hs Hne Hn. destruct (below_simple p s Hp Hs Hne) as (H1 & H2 & _).
  destruct (node_at t (target p ++ s)) as [f|] eqn:Ef; [|done].
  assert (Hd : is_dir_at t (target p) = true) by by eapply wf_above.
  assert (Hr : resolve t p = Some (target p)).
  { apply simple_resolve_node; [done..|]. apply is_dir_node in Hd. by rewrite Hd. }
  assert (Hr' : resolve t (below p s) = Some (target p ++ s)).
  { rewrite <- H2 in Ef |- *. apply simple_resolve_node; [done..|]. by rewrite Ef. }
  unfold relative. rewrite Hr', Hr, common_prefix_app, Nat.sub_diag. cbn [replicate app].
  rewrite drop_app_length. by destruct s.
Qed.

(** Reading the sorted files is a function of their names and contents. *)
Lemma traverse_below {E B} (f : string -> E + B) (g : list string -> option file -> E + B) :
  (forall s, Forall plain s -> s <> [] -> is_regular_at t (target p ++ s) = true ->
     f (below p s) = g s (node_at t (target p ++ s))) ->
  traverse f (map (below p) (regular_names t (target p)))
  = traverse (fun s => g s (node_at t (target p ++ s))) (regular_names t (target p)).
Proof.
  intros Hfg. assert (Hall : Forall (fun s => (Forall plain s /\ s <> [])
                       /\ is_regular_at t (target p ++ s) = true) (regular_names t (target p))).
  { unfold regular_names. rewrite merge_sort_Permutation. apply Forall_forall.
    intros s Hs. apply list_elem_of_In, filter_In in Hs as [Hs Hr].
    split; [by eapply rel_names_plain, list_elem_of_In|done]. }
  induction Hall as [|s l [[Hs Hne] Hr] _ IH]; [done|]. cbn [map traverse].
  by rewrite Hfg, IH.
Qed.
End Listing.

Lemma traverse_ext {E A B} (f g : A -> E + B) l : (forall a, f a = g a) -> traverse f l = traverse g l.
Proof. intros Hfg. induction l as [|a l IH]; cbn; [done|]. by rewrite Hfg, IH. Qed.
