(* ===== verification/Toml.v ===== *)
(** TOML documents as the platform reads them through toml++: tables are ordered
    maps, iterated in the order of their keys.  Parsing text, and the conversions
    between numbers and booleans [value<T>()] allows, are the library's. *)
From stdpp Require Import base list gmap strings.
From Stdlib Require Import ZArith Lia Ascii String.
From S2P Require Import Prelude Json.

Inductive toml : Type :=
| TString (s : string)
| TInteger (z : Z)
| TBoolean (b : bool)
| TOther (literal : string)
| TArray (l : list toml)
| TTable (m : gmap string toml).
Abbreviation toml_table := (gmap string toml).

(** [toml_parse] is the document of a text or the description of the error;
    [toml_open_error] describes a file that does not open. *)
Class TomlLib := {
  toml_parse : string -> string + toml_table;
  toml_open_error : string;
  toml_to_int : toml -> option Z;
  toml_to_bool : toml -> option bool;
}.

(** [node.value<T>()] for the types the platform asks for. *)
Definition toml_string (node : toml) : option string :=
  match node with TString s => Some s | _ => None end.
Definition toml_int `{TomlLib} (node : toml) : option Z :=
  match node with TInteger z => Some z | TString _ | TArray _ | TTable _ => None | _ => toml_to_int node end.
Definition toml_bool `{TomlLib} (node : toml) : option bool :=
  match node with TBoolean b => Some b | TString _ | TArray _ | TTable _ => None | _ => toml_to_bool node end.

(** [table[key].as_table()], [table[key].as_array()], [table.contains(key)]. *)
Definition as_table (node : toml) : option toml_table :=
  match node with TTable m => Some m | _ => None end.
Definition table_at (table : toml_table) (key : string) : option toml_table :=
  table !! key ≫= as_table.
Definition array_at (table : toml_table) (key : string) : option (list toml) :=
  table !! key ≫= (fun node => match node with TArray l => Some l | _ => None end).
Definition has_key (table : toml_table) (key : string) : bool :=
  match table !! key with Some _ => true | None => false end.

(** A value that must be there. *)
Definition require {A} (found : option A) (message : string) : exn + A :=
  match found with Some a => inr a | None => inl (ValidationError message) end.

(** A condition that must hold. *)
Definition ensure (b : bool) (message : string) : exn + unit :=
  if b then inr tt else inl (ValidationError message).

Definition RequireString (table : toml_table) (key context : string) : exn + string :=
  require (table !! key ≫= toml_string)
    ("missing or invalid '" +:+ key +:+ "' in " +:+ context).
Definition OptionalString (table : toml_table) (key : string) : option string :=
  table !! key ≫= toml_string.
Definition OptionalBool `{TomlLib} (table : toml_table) (key : string) : option bool :=
  table !! key ≫= toml_bool.

(** The strings of an array. *)
Definition string_array (table : toml_table) (key context : string) : exn + list string :=
  array <-? require (array_at table key)
    ("missing or invalid '" +:+ key +:+ "' array in " +:+ context) ;;
  traverse (fun node => require (toml_string node)
    ("array '" +:+ key +:+ "' in " +:+ context +:+ " must contain only strings")) array.

(** [std::quoted(value)]. *)
Definition quoted_char (c : ascii) : list ascii :=
  if Ascii.eqb c (ascii_of_nat 34) || Ascii.eqb c "\" then ["\"%char; c] else [c].
Definition quote_mark : string := String (ascii_of_nat 34) EmptyString.
Definition QuoteTomlString (value : string) : string :=
  quote_mark +:+ of_chars (flat_map quoted_char (chars value)) +:+ quote_mark.
