(* ===== verification/Manifest.v ===== *)
(** Package manifests ([PlatformCore/Manifest/Manifest.cpp]): reading [spio.toml],
    validating it, and writing it in canonical form. *)
From stdpp Require Import base list gmap strings sorting.
From Stdlib Require Import ZArith Lia Ascii String.
From S2P Require Import Prelude Json Paths FileSystem Toml.

Inductive DependencySourceKind := kPath | kGit | kRegistry.
#[export] Instance DependencySourceKind_eq_dec : EqDecision DependencySourceKind.
Proof. solve_decision. Defined.

Record Dependency := mkDependency {
  alias : string;
  dependency_package : option string;
  dependency_kind : DependencySourceKind;
  dependency_source : string;
  rev : option string;
  dependency_version : option string;
}.
Record Toolchain := mkToolchain { channel : string; implicit_std : bool }.
(** [BinTarget] and [TestTarget]; a [LibTarget] is its path. *)
Record NamedTarget := mkTarget { target_name : string; target_path : string }.
Record WorkspaceConfig := mkWorkspace {
  members : list string;
  exclude : list string;
  resolver : string;
}.
Record PackageConfig := mkPackageConfig {
  package_name : string;
  package_version : string;
  edition : string;
  publish : bool;
  toolchain : Toolchain;
  lib : option string;
  bins : list NamedTarget;
  tests : list NamedTarget;
  package_dependencies : list Dependency;
  dev_dependencies : list Dependency;
}.
Record ManifestDocument := mkManifest {
  manifest_package : option PackageConfig;
  manifest_workspace : option WorkspaceConfig;
}.
Record InitOptions := mkInit { init_package_name : string; init_root : string; init_kind : string }.

(** ** Patterns *)

Definition name_start (c : ascii) : bool := is_lower c || is_digit c.
Definition name_char (c : ascii) : bool := name_start c || Ascii.eqb c "_" || Ascii.eqb c "-".
Definition name_segment (s : string) : bool :=
  match chars s with c :: rest => name_start c && forallb name_char rest | [] => false end.
(** [NameRegex]. *)
Definition matches_name (name : string) : bool :=
  match split_all "/" [] (chars name) with
  | [namespace; short] => name_segment namespace && name_segment short
  | _ => false
  end.
(** [SemverRegex]. *)
Definition digits (s : string) : bool := negb (is_empty s) && forallb is_digit (chars s).
Definition matches_semver (version : string) : bool :=
  match split_all "." [] (chars version) with
  | [a; b; c] => digits a && digits b && digits c
  | _ => false
  end.
(** [BareKeyRegex]. *)
Definition bare_char (c : ascii) : bool := is_alnum c || Ascii.eqb c "_" || Ascii.eqb c "-".
Definition matches_bare_key (key : string) : bool :=
  negb (is_empty key) && forallb bare_char (chars key).

Definition IsNonEmptyRelativePath (value : string) : bool :=
  negb (is_empty value) && negb (is_absolute value).
Definition IsRegistryRootUrl (value : string) : bool :=
  str_starts_with value "file://" || str_starts_with value "http://"
  || str_starts_with value "https://".

Definition ValidatePackageName (name context : string) : exn + unit :=
  ensure (matches_name name) (context +:+ " must match namespace/name").
Definition ValidateSemver (version context : string) : exn + unit :=
  ensure (matches_semver version) (context +:+ " must be strict semver x.y.z").
Definition ValidateRelativePath (path context : string) : exn + unit :=
  ensure (IsNonEmptyRelativePath path) (context +:+ " must be an explicit relative path").
Definition ValidateRegistryRoot (registry_root context : string) : exn + unit :=
  ensure (IsRegistryRootUrl registry_root)
    (context +:+ " must use file://, http://, or https://").

(** ** Reading *)

Definition RequireTable (parent : toml_table) (key context : string) : exn + toml_table :=
  require (table_at parent key)
    ("missing or invalid [" +:+ key +:+ "] table in " +:+ context).

Definition RequireStringArray (table : toml_table) (key context : string)
    (require_non_empty : bool) : exn + list string :=
  values <-? string_array table key context ;;
  _ <-? ensure (negb (require_non_empty && match values with [] => true | _ => false end))
         ("array '" +:+ key +:+ "' in " +:+ context +:+ " must not be empty") ;;
  inr values.

(** One entry of a dependency table. *)
Definition ParseDependency (table_name : string) (entry : string * toml) : exn + Dependency :=
  let '(alias, node) := entry in
  let context := "dependency '" +:+ alias +:+ "'" in
  dep <-? require (as_table node)
    (context +:+ " in [" +:+ table_name +:+ "] must be an inline table") ;;
  let has_path := has_key dep "path" in
  let has_git := has_key dep "git" in
  let has_registry_source := has_key dep "version" || has_key dep "registry" in
  _ <-? ensure (bool_decide (Z.b2z has_path + Z.b2z has_git + Z.b2z has_registry_source = 1))
         (context +:+ " in [" +:+ table_name +:+ "] must declare exactly one source kind") ;;
  let package := OptionalString dep "package" in
  _ <-? match package with
        | Some name => ValidatePackageName name (context +:+ " package")
        | None => inr tt
        end ;;
  if has_path then
    source <-? RequireString dep "path" context ;;
    _ <-? ValidateRelativePath source (context +:+ " path") ;;
    inr (mkDependency alias package kPath source None None)
  else if has_git then
    source <-? RequireString dep "git" context ;;
    _ <-? ensure (negb (is_empty source)) (context +:+ " git must be a non-empty string") ;;
    rev <-? RequireString dep "rev" context ;;
    _ <-? ensure (negb (is_empty rev)) (context +:+ " rev must be a non-empty string") ;;
    inr (mkDependency alias package kGit source (Some rev) None)
  else
    _ <-? ensure (match package with Some _ => true | None => false end)
           (context +:+ " must declare package = " +:+ quote_mark +:+ "namespace/name" +:+ quote_mark
            +:+ " for registry sources") ;;
    version <-? RequireString dep "version" context ;;
    _ <-? ValidateSemver version (context +:+ " version") ;;
    source <-? RequireString dep "registry" context ;;
    _ <-? ValidateRegistryRoot source (context +:+ " registry") ;;
    inr (mkDependency alias package kRegistry source None (Some version)).

Definition ParseDependencies (doc : toml_table) (table_name : string) : exn + list Dependency :=
  match table_at doc table_name with
  | None => inr []
  | Some dependencies => traverse (ParseDependency table_name) (items dependencies)
  end.

Definition ParseToolchain `{TomlLib} (doc : toml_table) : exn + Toolchain :=
  table <-? RequireTable doc "toolchain" "package manifest" ;;
  channel <-? RequireString table "channel" "[toolchain]" ;;
  _ <-? ensure (negb (is_empty channel)) "[toolchain].channel must be a non-empty string" ;;
  implicit_std <-? require (OptionalBool table "implicit-std")
                     "[toolchain].implicit-std must be a boolean" ;;
  inr (mkToolchain channel implicit_std).

Definition ParseLib (doc : toml_table) : exn + option string :=
  match table_at doc "lib" with
  | None => inr None
  | Some lib =>
      path <-? RequireString lib "path" "[lib]" ;;
      _ <-? ValidateRelativePath path "[lib].path" ;;
      inr (Some path)
  end.

(** The loop of [ParseBins] and [ParseTests], [key] being [bin] or [test]. *)
Fixpoint parse_targets (key : string) (seen : list string) (nodes : list toml)
  : exn + list NamedTarget :=
  match nodes with
  | [] => inr []
  | node :: nodes =>
      let label := "[[" +:+ key +:+ "]]" in
      table <-? require (as_table node) (label +:+ " entries must be tables") ;;
      name <-? RequireString table "name" label ;;
      path <-? RequireString table "path" label ;;
      _ <-? ensure (negb (is_empty name)) (label +:+ ".name must be a non-empty string") ;;
      _ <-? ValidateRelativePath path (label +:+ ".path") ;;
      _ <-? ensure (negb (string_in name seen))
             ("duplicate " +:+ label +:+ ".name in package manifest: " +:+ name) ;;
      rest <-? parse_targets key (name :: seen) nodes ;;
      inr (mkTarget name path :: rest)
  end.
Definition ParseTargets (key : string) (doc : toml_table) : exn + list NamedTarget :=
  match array_at doc key with None => inr [] | Some nodes => parse_targets key [] nodes end.
Definition ParseBins : toml_table -> exn + list NamedTarget := ParseTargets "bin".
Definition ParseTests : toml_table -> exn + list NamedTarget := ParseTargets "test".

Definition has_target (lib : option string) (bins tests : list NamedTarget) : bool :=
  match lib, bins, tests with None, [], [] => false | _, _, _ => true end.

Definition ParsePackage `{TomlLib} (doc : toml_table) : exn + PackageConfig :=
  table <-? RequireTable doc "package" "manifest" ;;
  name <-? RequireString table "name" "[package]" ;;
  version <-? RequireString table "version" "[package]" ;;
  edition <-? RequireString table "edition" "[package]" ;;
  let publish := default false (OptionalBool table "publish") in
  toolchain <-? ParseToolchain doc ;;
  lib <-? ParseLib doc ;;
  bins <-? ParseBins doc ;;
  tests <-? ParseTests doc ;;
  dependencies <-? ParseDependencies doc "dependencies" ;;
  dev_dependencies <-? ParseDependencies doc "dev-dependencies" ;;
  _ <-? ValidatePackageName name "package.name" ;;
  _ <-? ValidateSemver version "package.version" ;;
  _ <-? ensure (negb (is_empty edition)) "package.edition must be an explicit string" ;;
  _ <-? ensure (has_target lib bins tests)
         "package manifests must define at least one explicit [lib], [[bin]], or [[test]] target" ;;
  inr (mkPackageConfig name version edition publish toolchain lib bins tests dependencies
         dev_dependencies).

Fixpoint validate_paths (paths : list string) (context : string) : exn + unit :=
  match paths with
  | [] => inr tt
  | path :: paths => _ <-? ValidateRelativePath path context ;; validate_paths paths context
  end.

Definition ParseWorkspace (doc : toml_table) : exn + WorkspaceConfig :=
  table <-? RequireTable doc "workspace" "manifest" ;;
  members <-? RequireStringArray table "members" "[workspace]" true ;;
  exclude <-? (if has_key table "exclude"
               then RequireStringArray table "exclude" "[workspace]" false else inr []) ;;
  resolver <-? RequireString table "resolver" "[workspace]" ;;
  _ <-? ensure (resolver =s "1")
         ("[workspace].resolver must be " +:+ quote_mark +:+ "1" +:+ quote_mark) ;;
  _ <-? validate_paths members "[workspace].members entry" ;;
  _ <-? validate_paths exclude "[workspace].exclude entry" ;;
  inr (mkWorkspace members exclude resolver).

(** [LoadManifest] after the document is parsed. *)
Definition parse_manifest `{TomlLib} (doc : toml_table) : exn + ManifestDocument :=
  spio <-? RequireTable doc "spio" "manifest" ;;
  _ <-? ensure (bool_decide (spio !! "manifest-version" ≫= toml_int = Some 1))
         "spio manifest-version must be 1" ;;
  let has_package := has_key doc "package" in
  let has_workspace := has_key doc "workspace" in
  _ <-? ensure (has_package || has_workspace)
         "manifest must contain [package], [workspace], or both" ;;
  package <-? (if has_package then p <-? ParsePackage doc ;; inr (Some p) else inr None) ;;
  workspace <-? (if has_workspace then w <-? ParseWorkspace doc ;; inr (Some w) else inr None) ;;
  inr (mkManifest package workspace).

(** [toml::parse_file(path)], its errors reported as the platform does. *)
Definition parse_toml_file `{TomlLib} `{FileHost} (what path : string) (t : FileTree)
  : exn + toml_table :=
  let failed description :=
    inl (ValidationError ("failed to parse " +:+ what +:+ " '" +:+ path +:+ "': " +:+ description)) in
  match open_in t path with
  | None => failed toml_open_error
  | Some text => match toml_parse text with inr doc => inr doc | inl description => failed description end
  end.

Definition LoadManifest `{TomlLib} `{FileHost} (manifest_path : string) (t : FileTree)
  : exn + ManifestDocument :=
  doc <-? parse_toml_file "manifest" manifest_path t ;; parse_manifest doc.

(** ** Writing *)

Definition line (text : string) : string := text +:+ String "010" EmptyString.
Definition text_of (lines : list string) : string := String.concat "" (map line lines).
Definition bool_text (b : bool) : string := if b then "true" else "false".

Definition QuoteTomlKey (value : string) : string :=
  if matches_bare_key value then value else QuoteTomlString value.
Definition string_field (key value : string) : string := key +:+ " = " +:+ QuoteTomlString value.
Definition EmitStringArray (key : string) (values : list string) : string :=
  key +:+ " = [" +:+ String.concat ", " (map QuoteTomlString values) +:+ "]".

(** Sorting by a name; [std::sort] is taken as stable where two names are equal. *)
Definition by_name {A} (name : A -> string) (a b : A) : Prop := str_le (name a) (name b).
#[export] Instance by_name_dec {A} (name : A -> string) a b : Decision (by_name name a b) :=
  bool_eq_dec _ _.
Definition sort_by {A} (name : A -> string) (l : list A) : list A := merge_sort (by_name name) l.

Definition dependency_fields (d : Dependency) : list (string * string) :=
  match dependency_package d with Some package => [("package"%string, package)] | None => [] end
  ++ match dependency_kind d with
     | kPath => [("path", dependency_source d)]
     | kGit => [("git", dependency_source d); ("rev", default EmptyString (rev d))]
     | kRegistry => [("version", default EmptyString (dependency_version d));
                     ("registry", dependency_source d)]
     end%string.
Definition dependency_line (d : Dependency) : string :=
  QuoteTomlKey (alias d) +:+ " = { "
  +:+ String.concat ", " (map (fun '(key, value) => string_field key value) (dependency_fields d))
  +:+ " }".
Definition EmitDependencySection (section : string) (dependencies : list Dependency) : list string :=
  match dependencies with
  | [] => []
  | _ => ("[" +:+ section +:+ "]") :: map dependency_line (sort_by alias dependencies)
  end.

(** The blank line [SerializeManifestCanonical] puts before a section. *)
Definition section_lines (lines : list string) : list string :=
  match lines with [] => [] | _ => EmptyString :: lines end.

Definition target_lines (header : string) (targets : list NamedTarget) : list string :=
  flat_map (fun t => [EmptyString; header; string_field "name" (target_name t);
                      string_field "path" (target_path t)])
    (sort_by target_name targets).

Definition package_lines (p : PackageConfig) : list string :=
  [EmptyString; "[package]"; string_field "name" (package_name p);
   string_field "version" (package_version p); string_field "edition" (edition p);
   "publish = " +:+ bool_text (publish p);
   EmptyString; "[toolchain]"; string_field "channel" (channel (toolchain p));
   "implicit-std = " +:+ bool_text (implicit_std (toolchain p))]%string
  ++ match lib p with
     | Some path => [EmptyString; "[lib]"%string; string_field "path" path]
     | None => []
     end
  ++ target_lines "[[bin]]" (bins p)
  ++ target_lines "[[test]]" (tests p)
  ++ section_lines (EmitDependencySection "dependencies" (package_dependencies p))
  ++ section_lines (EmitDependencySection "dev-dependencies" (dev_dependencies p)).

Definition workspace_lines (w : WorkspaceConfig) : list string :=
  [EmptyString; "[workspace]"%string; EmitStringArray "members" (members w)]
  ++ match exclude w with [] => [] | _ => [EmitStringArray "exclude" (exclude w)] end
  ++ [string_field "resolver" (resolver w)].

Definition manifest_lines (m : ManifestDocument) : list string :=
  ["[spio]"; "manifest-version = 1"]%string
  ++ match manifest_package m with Some p => package_lines p | None => [] end
  ++ match manifest_workspace m with Some w => workspace_lines w | None => [] end.
Definition SerializeManifestCanonical (m : ManifestDocument) : string := text_of (manifest_lines m).

(** ** Scaffolding *)

(** [package_name.find('/')] is there in the names the caller validated. *)
Definition PackageShortName (name : string) : exn + string :=
  match find_char "/" (chars name) with
  | Some slash =>
      if (str_length name <=? slash + 1)%nat
      then inl (ValidationError "package.name must match namespace/name")
      else inr (str_drop (S slash) name)
  | None => inl (ValidationError "package.name must match namespace/name")
  end.

Definition BuildScaffoldManifest (package_name kind : string) : exn + ManifestDocument :=
  _ <-? ValidatePackageName package_name "package.name" ;;
  let package lib bins :=
    mkPackageConfig package_name "0.1.0" "2026" false (mkToolchain "nightly" true) lib bins [] [] [] in
  if kind =s "lib" then inr (mkManifest (Some (package (Some "src/lib.styio"%string) [])) None)
  else
    name <-? PackageShortName package_name ;;
    inr (mkManifest (Some (package None [mkTarget name "src/main.styio"])) None).

Definition RenderLibSource : string := line "# add := (a: i32, b: i32) => a + b".
Definition RenderMainSource : string :=
  line (">_(" +:+ quote_mark +:+ "hello from native spio bootstrap" +:+ quote_mark +:+ ")").

Section InitializeProject.
Context `{JsonLib} `{FileHost}.

Definition InferLocalPackageName (root : string) : string := "local/" +:+ filename root.

Definition InitializeProject (options : InitOptions) : M exn FileTree unit :=
  let root := init_root options in
  create_directories root ;;;
  let manifest_path := path_join root "spio.toml" in
  let src_dir := path_join root "src" in
  create_directories src_dir ;;;
  present <- gets (fun t => exists_ t manifest_path) ;;
  if present then throw (RuntimeError ("manifest already exists: " +:+ manifest_path))
  else
    modify (write_stream manifest_path EmptyString) ;;;
    manifest <- lift (BuildScaffoldManifest (init_package_name options) (init_kind options)) ;;
    modify (append_stream manifest_path (SerializeManifestCanonical manifest)) ;;;
    let is_lib := init_kind options =s "lib" in
    modify (write_stream (path_join src_dir (if is_lib then "lib.styio" else "main.styio"))
              (if is_lib then RenderLibSource else RenderMainSource)).
End InitializeProject.
