(* ===== verification/TomlFacts.v ===== *)
(** TOML documents made of sections of plain strings: their text, what TOML says of
    them, and a concrete reader on which that law holds. *)
From stdpp Require Import base list gmap strings.
From Stdlib Require Import ZArith Lia Ascii String.
From S2P Require Import Prelude Json Toml Manifest.

(** Characters that stand for themselves in a TOML basic string. *)
Definition plain_char (c : ascii) : bool :=
  (32 <=? char_code c) && (char_code c <? 127) && negb (char_code c =? 34) && negb (char_code c =? 92).
Definition plain_text (s : string) : bool := forallb plain_char (chars s).

Abbreviation section := (string * list (string * string))%type.
Definition value_line (entry : string * string) : string :=
  entry.1 +:+ " = " +:+ quote_mark +:+ entry.2 +:+ quote_mark.
Definition one_section (s : section) : list string :=
  ("[" +:+ s.1 +:+ "]")%string :: map value_line s.2.
Fixpoint sections_lines (sections : list section) : list string :=
  match sections with
  | [] => []
  | [s] => one_section s
  | s :: sections => one_section s ++ EmptyString :: sections_lines sections
  end.
Definition entries_table (entries : list (string * string)) : toml_table :=
  list_to_map (map (fun '(k, v) => (k, TString v)) entries).
Definition sections_table (sections : list section) : toml_table :=
  list_to_map (map (fun '(name, entries) => (name, TTable (entries_table entries))) sections).

Record plain_section (s : section) : Prop := {
  bare_name : matches_bare_key s.1 = true;
  bare_keys : Forall (fun e => matches_bare_key e.1 = true) s.2;
  plain_values : Forall (fun e => plain_text e.2 = true) s.2;
  keys_once : NoDup s.2.*1;
}.

(** What TOML says of such a document. *)
Class TomlSectionLaw `{TomlLib} : Prop :=
  reads_sections : forall sections, Forall plain_section sections -> NoDup sections.*1 ->
    toml_parse (text_of (sections_lines sections)) = inr (sections_table sections).

(** ** A concrete reader of such documents *)

Definition read_line (acc : string * toml_table) (l : string) : string * toml_table :=
  let '(current, doc) := acc in
  match chars l with
  | [] => acc
  | c :: rest =>
      if Ascii.eqb c "[" then
        let name := of_chars (removelast rest) in (name, <[name := TTable ∅]> doc)
      else
        match find_char " " (chars l) with
        | Some n =>
            let value := TString (of_chars (removelast (drop (n + 4) (chars l)))) in
            (current, <[current := TTable (<[str_take n l := value]> (default ∅ (table_at doc current)))]> doc)
        | None => acc
        end
  end.
Definition read_sections (text : string) : toml_table :=
  (fold_left read_line (getline_all "010" text) (EmptyString, ∅)).2.
Definition section_toml : TomlLib :=
  {| toml_parse := fun text => inr (read_sections text); toml_open_error := "not found";
     toml_to_int := fun _ => None; toml_to_bool := fun _ => None |}.

Definition single_line (l : string) : bool := forallb (fun c => negb (Ascii.eqb c "010")) (chars l).

Lemma text_of_cons l lines :
  chars (text_of (l :: lines)) = chars l ++ "010"%char :: chars (text_of lines).
Proof.
  unfold text_of. destruct lines as [|m lines]; cbn [map String.concat]; unfold line; rewrite !chars_app.
  - done.
  - by rewrite <- app_assoc.
Qed.

Lemma lines_of_text lines : Forall (fun l => single_line l = true) lines ->
  getline_all "010" (text_of lines) = lines.
Proof.
  unfold getline_all. induction 1 as [|l lines Hl _ IH]; [done|].
  rewrite text_of_cons, getline_join by done. rewrite IH. cbn [rev]. by rewrite app_nil_l, of_chars_chars.
Qed.

Lemma bare_key_chars k c : matches_bare_key k = true -> c ∈ chars k ->
  Ascii.eqb c "010" = false /\ Ascii.eqb c " " = false /\ Ascii.eqb c "[" = false.
Proof.
  unfold matches_bare_key. intros [_ Hk]%andb_true_iff Hc.
  rewrite forallb_forall in Hk. specialize (Hk c (proj1 (list_elem_of_In _ _) Hc)).
  split_and!; apply not_true_iff_false; intros ->%Ascii.eqb_eq; by vm_compute in Hk.
Qed.

Definition quote_char : ascii := ascii_of_nat 34.
Lemma value_line_chars k v :
  chars (value_line (k, v))
  = chars k ++ [" "; "="; " "; quote_char]%char ++ chars v ++ [quote_char].
Proof. unfold value_line. by rewrite !chars_app. Qed.

Lemma bare_key_first k : matches_bare_key k = true ->
  exists c rest, chars k = c :: rest /\ Ascii.eqb c "[" = false.
Proof.
  intros Hk. destruct (chars k) as [|c rest] eqn:Ek.
  - apply (f_equal of_chars) in Ek. rewrite of_chars_chars in Ek. by subst k.
  - exists c, rest. split; [done|]. apply (bare_key_chars k c Hk). rewrite Ek. by left.
Qed.

Lemma read_value_line current doc table k v :
  matches_bare_key k = true -> doc !! current = Some (TTable table) ->
  read_line (current, doc) (value_line (k, v))
  = (current, <[current := TTable (<[k := TString v]> table)]> doc).
Proof.
  intros Hk Hd. destruct (bare_key_first k Hk) as (c & rest & Ek & Ec).
  assert (Hn : find_char " " (chars (value_line (k, v))) = Some (List.length (chars k))).
  { rewrite value_line_chars. apply find_char_at, forallb_forall. intros d Hd'%list_elem_of_In.
    by destruct (bare_key_chars k d Hk Hd') as (_ & -> & _). }
  assert (Hv : removelast (drop (List.length (chars k) + 4) (chars (value_line (k, v)))) = chars v).
  { rewrite value_line_chars, app_assoc, drop_app_length'; [apply removelast_last|].
    by rewrite length_app. }
  assert (Ht : str_take (List.length (chars k)) (value_line (k, v)) = k).
  { apply chars_inj. rewrite chars_str_take, value_line_chars. by rewrite take_app_length. }
  unfold read_line. rewrite Hn, Hv, Ht, of_chars_chars. unfold table_at. rewrite Hd. cbn.
  rewrite value_line_chars, Ek. cbn [app]. by rewrite Ec.
Qed.

Lemma entries_fresh entries k : k ∉ entries.*1 -> entries_table entries !! k = None.
Proof.
  intros Hk. apply not_elem_of_list_to_map_1. intros Hin. apply Hk.
  induction entries as [|[k' v] entries IH]; [done|]. cbn in *.
  apply elem_of_cons in Hin as [->|Hin]; [by left|]. right. apply IH; [|done].
  intros Hk'. apply Hk. by right.
Qed.

Lemma read_entries n entries m doc :
  Forall (fun e => matches_bare_key e.1 = true) entries -> NoDup entries.*1 ->
  (forall k, k ∈ entries.*1 -> m !! k = None) ->
  fold_left read_line (map value_line entries) (n, <[n := TTable m]> doc)
  = (n, <[n := TTable (entries_table entries ∪ m)]> doc).
Proof.
  intros Hb. revert m. induction Hb as [|[k v] entries Hk _ IH]; intros m Hnd Hm.
  - unfold entries_table. cbn. by rewrite (left_id_L ∅ (∪)).
  - apply NoDup_cons in Hnd as [Hn Hnd]. cbn [map fold_left].
    rewrite (read_value_line n _ m) by (done || apply lookup_insert_eq).
    rewrite insert_insert_eq, IH; [|done|].
    + change (entries_table ((k, v) :: entries)) with (<[k := TString v]> (entries_table entries)).
      by rewrite <- insert_union_r, insert_union_l by by apply entries_fresh.
    + intros k' Hk'. rewrite lookup_insert_ne by (intros ->; done). apply Hm. by right.
Qed.

Lemma read_section s current doc : plain_section s ->
  fold_left read_line (one_section s) (current, doc)
  = (s.1, <[s.1 := TTable (entries_table s.2)]> doc).
Proof.
  intros [Hn Hk _ Hnd]. unfold one_section. cbn [fold_left].
  assert (Hl : read_line (current, doc) ("[" +:+ s.1 +:+ "]") = (s.1, <[s.1 := TTable ∅]> doc)).
  { unfold read_line. rewrite !chars_app. cbn [chars list_ascii_of_string app].
    change (Ascii.eqb "[" "[") with true. cbn match.
    change (list_ascii_of_string (s.1)) with (chars (s.1)). rewrite removelast_last.
    by rewrite of_chars_chars. }
  rewrite Hl, read_entries by (done || (intros; apply lookup_empty)). by rewrite (right_id_L ∅ (∪)).
Qed.

Lemma read_lines sections current doc : Forall plain_section sections -> NoDup sections.*1 ->
  (forall n, n ∈ sections.*1 -> doc !! n = None) ->
  (fold_left read_line (sections_lines sections) (current, doc)).2 = sections_table sections ∪ doc.
Proof.
  intros Hp. revert current doc. induction Hp as [|s sections Hs Hp IH]; intros current doc Hnd Hd.
  { unfold sections_table. cbn. by rewrite (left_id_L ∅ (∪)). }
  apply NoDup_cons in Hnd as [Hn Hnd].
  assert (Hstep : (fold_left read_line (sections_lines (s :: sections)) (current, doc)).2
                  = (fold_left read_line (sections_lines sections)
                       (s.1, <[s.1 := TTable (entries_table s.2)]> doc)).2).
  { destruct sections as [|s' sections]; [by cbn [sections_lines]; rewrite read_section|].
    change (sections_lines (s :: s' :: sections))
      with (one_section s ++ EmptyString :: sections_lines (s' :: sections)).
    rewrite fold_left_app, read_section by done. done. }
  rewrite Hstep, IH; [|done|].
  - assert (Hf : sections_table sections !! s.1 = None).
    { apply not_elem_of_list_to_map_1. intros Hin. apply Hn. clear -Hin.
      induction sections as [|[n entries] sections IH]; [done|]. cbn in *.
      apply elem_of_cons in Hin as [->|Hin]; [by left|]. right. by apply IH. }
    destruct s as [n entries]. cbn [fst snd].
    change (sections_table ((n, entries) :: sections))
      with (<[n := TTable (entries_table entries)]> (sections_table sections)).
    by rewrite <- insert_union_r, insert_union_l.
  - intros n Hn'. rewrite lookup_insert_ne by (intros E; by rewrite E in Hn). apply Hd. by right.
Qed.

Lemma single_line_app a b : single_line a = true -> single_line b = true -> single_line (a +:+ b) = true.
Proof. unfold single_line. intros Ha Hb. by rewrite chars_app, forallb_app, Ha, Hb. Qed.
Lemma bare_single_line k : matches_bare_key k = true -> single_line k = true.
Proof.
  intros Hk. apply forallb_forall. intros c Hc%list_elem_of_In.
  by destruct (bare_key_chars k c Hk Hc) as (-> & _).
Qed.
Lemma plain_single_line v : plain_text v = true -> single_line v = true.
Proof.
  unfold plain_text, single_line. rewrite !forallb_forall. intros Hv c Hc. specialize (Hv c Hc).
  apply negb_true_iff, not_true_iff_false. intros ->%Ascii.eqb_eq. by vm_compute in Hv.
Qed.

Lemma section_single_line s : plain_section s -> Forall (fun l => single_line l = true) (one_section s).
Proof.
  intros [Hn Hk Hv _]. constructor.
  - apply single_line_app; [done|]. apply single_line_app; [by apply bare_single_line|done].
  - apply Forall_fmap. rewrite Forall_forall in Hk, Hv |- *. intros e He. specialize (Hk e He).
    specialize (Hv e He). cbn. repeat apply single_line_app; try done;
      [by apply bare_single_line|by apply plain_single_line].
Qed.

Lemma section_toml_law : @TomlSectionLaw section_toml.
Proof.
  intros sections Hp Hnd. cbn. unfold read_sections. rewrite lines_of_text.
  - rewrite read_lines by (done || (intros; apply lookup_empty)). by rewrite (right_id_L ∅ (∪)).
  - clear Hnd. induction Hp as [|s sections Hs Hp IH]; [done|].
    destruct sections as [|s' sections]; [by apply section_single_line|].
    apply Forall_app. split; [by apply section_single_line|]. by constructor.
Qed.
