(* ===== verification/Lockfile.v ===== *)
(** Lockfiles ([PlatformCore/Manifest/Lockfile.cpp]): reading, validating and
    writing them in canonical form. *)
From stdpp Require Import base list gmap strings sorting.
From Stdlib Require Import ZArith Lia Ascii String.
From S2P Require Import Prelude Json Paths FileSystem Toml Manifest.

Record LockPackage := mkLockPackage {
  lock_id : string;
  lock_name : string;
  lock_version : string;
  lock_source_kind : string;
  lock_git : option string;
  lock_rev : option string;
  lock_registry : option string;
  lock_sha256 : option string;
  lock_dependencies : list string;
}.
Record LockfileDocument := mkLockfile {
  generated_by : string;
  lock_resolver : string;
  lock_packages : list LockPackage;
}.

(** [Sha256Regex]. *)
Definition hex_char (c : ascii) : bool :=
  is_digit c || ((97 <=? char_code c) && (char_code c <=? 102)).
Definition matches_sha256 (s : string) : bool :=
  (str_length s =? 64)%nat && forallb hex_char (chars s).

Definition ValidateSourceKind (source_kind : string) : exn + unit :=
  ensure (string_in source_kind ["workspace"; "path"; "git"; "registry"]%string)
    "lockfile package source-kind must be one of workspace, path, git, or registry".
Definition ValidateSha256 (sha256 context : string) : exn + unit :=
  ensure (matches_sha256 sha256) (context +:+ " must be a lowercase sha256 hex digest").

(** A field that is there and not empty. *)
Definition non_empty_field (field : option string) : bool :=
  match field with Some value => negb (is_empty value) | None => false end.
Definition absent (field : option string) : bool := match field with Some _ => false | None => true end.

(** The fields a source kind requires and excludes. *)
Definition validate_source (p : LockPackage) : exn + unit :=
  let when_kind field kind :=
    "[[package]]." +:+ field +:+ " must be a non-empty string when source-kind = " +:+ quote_mark
    +:+ kind +:+ quote_mark in
  if lock_source_kind p =s "git" then
    _ <-? ensure (non_empty_field (lock_git p)) (when_kind "git" "git") ;;
    _ <-? ensure (non_empty_field (lock_rev p)) (when_kind "rev" "git") ;;
    ensure (absent (lock_registry p) && absent (lock_sha256 p))
      ("[[package]].registry and [[package]].sha256 are only valid when source-kind = "
       +:+ quote_mark +:+ "registry" +:+ quote_mark)
  else if lock_source_kind p =s "registry" then
    _ <-? ensure (non_empty_field (lock_registry p)) (when_kind "registry" "registry") ;;
    sha256 <-? require (lock_sha256 p)
      ("[[package]].sha256 must be present when source-kind = "
       +:+ quote_mark +:+ "registry" +:+ quote_mark) ;;
    _ <-? ValidateSha256 sha256 "[[package]].sha256" ;;
    ensure (absent (lock_git p) && absent (lock_rev p))
      ("[[package]].git and [[package]].rev are only valid when source-kind = "
       +:+ quote_mark +:+ "git" +:+ quote_mark)
  else
    ensure (absent (lock_git p) && absent (lock_rev p) && absent (lock_registry p)
            && absent (lock_sha256 p))
      ("[[package]].git/rev are only valid for git packages and [[package]].registry/sha256 "
       +:+ "are only valid for registry packages").

Definition parse_lock_package (node : toml) : exn + LockPackage :=
  table <-? require (as_table node) "lockfile package entry must be a table" ;;
  id <-? RequireString table "id" "[[package]]" ;;
  name <-? RequireString table "name" "[[package]]" ;;
  version <-? RequireString table "version" "[[package]]" ;;
  source_kind <-? RequireString table "source-kind" "[[package]]" ;;
  dependencies <-? string_array table "dependencies" "[[package]]" ;;
  let p := mkLockPackage id name version source_kind (OptionalString table "git")
             (OptionalString table "rev") (OptionalString table "registry")
             (OptionalString table "sha256") dependencies in
  _ <-? ensure (negb (is_empty id)) "[[package]].id must be a non-empty string" ;;
  _ <-? ValidatePackageName name "lockfile package name" ;;
  _ <-? ValidateSemver version "lockfile package version" ;;
  _ <-? ValidateSourceKind source_kind ;;
  _ <-? validate_source p ;;
  inr p.

Definition parse_lockfile `{TomlLib} (doc : toml_table) : exn + LockfileDocument :=
  _ <-? ensure (bool_decide (doc !! "lock-version" ≫= toml_int = Some 1)) "lock-version must be 1" ;;
  metadata <-? require (table_at doc "metadata") "missing or invalid [metadata] table" ;;
  generated_by <-? RequireString metadata "generated-by" "[metadata]" ;;
  resolver <-? RequireString metadata "resolver" "[metadata]" ;;
  _ <-? ensure (negb (is_empty generated_by)) "[metadata].generated-by must be a non-empty string" ;;
  _ <-? ensure (resolver =s "single-version-v1") "[metadata].resolver must be single-version-v1" ;;
  match array_at doc "package" with
  | None => inr (mkLockfile generated_by resolver [])
  | Some nodes =>
      packages <-? traverse parse_lock_package nodes ;;
      inr (mkLockfile generated_by resolver packages)
  end.

Definition LoadLockfile `{TomlLib} `{FileHost} (lockfile_path : string) (t : FileTree)
  : exn + LockfileDocument :=
  doc <-? parse_toml_file "lockfile" lockfile_path t ;; parse_lockfile doc.

(** ** Writing *)

Definition source_lines (p : LockPackage) : list string :=
  if lock_source_kind p =s "git" then
    [string_field "git" (default EmptyString (lock_git p));
     string_field "rev" (default EmptyString (lock_rev p))]
  else if lock_source_kind p =s "registry" then
    [string_field "registry" (default EmptyString (lock_registry p));
     string_field "sha256" (default EmptyString (lock_sha256 p))]
  else [].

Definition lock_package_lines (p : LockPackage) : list string :=
  [EmptyString; "[[package]]"%string; string_field "id" (lock_id p); string_field "name" (lock_name p);
   string_field "version" (lock_version p); string_field "source-kind" (lock_source_kind p)]
  ++ source_lines p
  ++ [EmitStringArray "dependencies" (sort_by id (lock_dependencies p))].

Definition SerializeLockfileCanonical (l : LockfileDocument) : string :=
  text_of
    (["lock-version = 1"; EmptyString; "[metadata]"; string_field "generated-by" (generated_by l);
      string_field "resolver" (lock_resolver l)]%string
     ++ flat_map lock_package_lines (sort_by lock_id (lock_packages l))).
