(* ===== verification/Process.v ===== *)
(** Child processes ([PlatformCore/Core/Process.cpp]).

    The system calls belong to the operating system: a run is given by what they
    return, a [launch]: whether pipes and child came up, one [poll_round] per
    turn of the loop with the results of [poll], [read] and [write], and the
    status [waitpid] reports.  What the code makes of them is the model. *)
From stdpp Require Import base list gmap strings.
From Stdlib Require Import ZArith Lia Ascii String.
From S2P Require Import Prelude Json.

Record ProcessResult := mkResult {
  exit_code : Z;
  terminated_by_signal : bool;
  signal_number : Z;
  timed_out : bool;
  stdout_truncated : bool;
  stderr_truncated : bool;
  stdout_text : string;
  stderr_text : string;
}.
Definition default_result : ProcessResult :=
  mkResult 0 false 0 false false false EmptyString EmptyString.

Record ProcessRequest := mkProcess {
  program : string;
  args : list string;
  child_directory : option string;
  search_path : bool;
  environment_overrides : gmap string (option string);
  clear_environment : bool;
  timeout : option Z;
  max_stdout_bytes : nat;
  max_stderr_bytes : nat;
  stdin_text : string;
  terminate_process_group_on_timeout : bool;
  error_context : string;
}.

(** The longest time, in milliseconds, that a build may take. *)
Definition kExternalProcessBuildTimeout : Z := 3600000.

Definition DescribeProcessContext (context : string) : string :=
  if is_empty context then "child process" else context.

(** The bytes kept so far of an output stream, and whether some were dropped. *)
Definition AppendOutputChunk (limit : nat) (captured : string * bool) (chunk : string)
  : string * bool :=
  let '(target, truncated) := captured in
  if Nat.eqb limit 0 then (target, truncated || negb (is_empty chunk))
  else if (limit <=? str_length target)%nat then (target, truncated || negb (is_empty chunk))
  else
    let remaining := (limit - str_length target)%nat in
    let to_copy := Nat.min remaining (str_length chunk) in
    (target +:+ str_take to_copy chunk, truncated || (to_copy <? str_length chunk)%nat).

(** The environment of the child. *)
Definition ApplyChildEnvironment (request : ProcessRequest) (environ : gmap string string)
  : gmap string string :=
  fold_left (fun env '(name, value) =>
               match value with
               | Some value => <[name := value]> env
               | None => delete name env
               end)
    (items (environment_overrides request))
    (if clear_environment request then ∅ else environ).

(** ** The loop over the pipes *)

Inductive read_result :=
| ReadBytes (chunk : string) | ReadEnd | ReadInterrupted | ReadWouldBlock | ReadFailed.
Inductive write_result :=
| WriteBytes (count : nat) | WriteInterrupted | WriteWouldBlock | WriteFailed.

(** [ready] flags: the events [poll] reports for the three pipes. *)
Inductive poll_result :=
| PollInterrupted | PollFailed | PollTimeout
| PollReady (stdin_ready stdout_ready stderr_ready : bool).

Record poll_round := mkRound {
  elapsed : Z;
  poll : poll_result;
  writes : list write_result;
  stdout_reads : list read_result;
  stderr_reads : list read_result;
}.

(** [drain_fd]: the capture and whether the pipe is still open.  A list that ends
    counts as a read that would block. *)
Fixpoint drain_fd (limit : nat) (reads : list read_result) (captured : string * bool)
  : string * bool * bool :=
  match reads with
  | [] | ReadWouldBlock :: _ => (captured, true)
  | ReadBytes chunk :: reads => drain_fd limit reads (AppendOutputChunk limit captured chunk)
  | ReadInterrupted :: reads => drain_fd limit reads captured
  | (ReadEnd | ReadFailed) :: _ => (captured, false)
  end.

(** The bytes of the standard input written; all of them are given up on an
    error. *)
Fixpoint write_stdin (total : nat) (writes : list write_result) (written : nat) : nat :=
  if (written <? total)%nat then
    match writes with
    | [] | WriteWouldBlock :: _ => written
    | WriteBytes (S count) :: writes => write_stdin total writes (written + S count)
    | WriteInterrupted :: writes => write_stdin total writes written
    | (WriteBytes O | WriteFailed) :: _ => total
    end
  else written.

Record pump := mkPump {
  out : string * bool;
  err : string * bool;
  stdout_open : bool;
  stderr_open : bool;
  stdin_open : bool;
  stdin_written : nat;
}.
Definition initial_pump (request : ProcessRequest) : pump :=
  mkPump (EmptyString, false) (EmptyString, false) true true
    (negb (is_empty (stdin_text request))) 0.

Inductive round_end := NextRound (p : pump) | TimedOut (p : pump) | PumpFailed (e : exn).

Definition pump_round (request : ProcessRequest) (r : poll_round) (p : pump) : round_end :=
  let expired := match timeout request with Some limit => limit <=? elapsed r | None => false end in
  if expired then TimedOut p
  else
    match poll r with
    | PollInterrupted => NextRound p
    | PollFailed =>
        PumpFailed (RuntimeError ("failed to poll process pipes for "
                      +:+ DescribeProcessContext (error_context request)))
    | PollTimeout => TimedOut p
    | PollReady stdin_ready stdout_ready stderr_ready =>
        let total := str_length (stdin_text request) in
        let written := if stdin_open p && stdin_ready
                       then write_stdin total (writes r) (stdin_written p) else stdin_written p in
        let feeding := stdin_open p && negb (stdin_ready && (total <=? written)%nat) in
        let '(out, out_open) :=
          if stdout_open p && stdout_ready
          then drain_fd (max_stdout_bytes request) (stdout_reads r) (out p)
          else (out p, stdout_open p) in
        let '(err, err_open) :=
          if stderr_open p && stderr_ready
          then drain_fd (max_stderr_bytes request) (stderr_reads r) (err p)
          else (err p, stderr_open p) in
        NextRound (mkPump out err out_open err_open feeding written)
    end.

(** The loop over the rounds of a run; [None] while it has not ended. *)
Fixpoint run_pump (request : ProcessRequest) (rounds : list poll_round) (p : pump)
  : option (exn + bool * pump) :=
  if negb (stdout_open p || stderr_open p) then Some (inr (false, p))
  else
    match rounds with
    | [] => None
    | r :: rounds =>
        match pump_round request r p with
        | NextRound p => run_pump request rounds p
        | TimedOut p => Some (inr (true, p))
        | PumpFailed e => Some (inl e)
        end
    end.

(** What [waitpid] gives; it blocks, without a timeout, while the child runs on after
    it has closed its pipes. *)
Inductive wait_status := Exited (code : Z) | Signaled (signal : Z) | OtherStatus | WaitFailed | StillRunning.

Inductive launch :=
| StdinPipeFailed | PipesFailed | ForkFailed | NonBlockingFailed
| Launched (rounds : list poll_round) (status : wait_status).

(** The fields [waitpid] decides. *)
Definition exit_fields (status : wait_status) : Z * bool * Z :=
  match status with
  | Exited code => (code, false, 0)
  | Signaled signal => (128 + signal, true, signal)
  | _ => (1, false, 0)
  end.

Definition RunProcessChecked (request : ProcessRequest) (l : launch)
  : option (exn + ProcessResult) :=
  let context := DescribeProcessContext (error_context request) in
  let failed text := Some (inl (RuntimeError text)) in
  match l with
  | StdinPipeFailed => failed ("failed to create stdin pipe for " +:+ context +:+ " execution")
  | PipesFailed => failed ("failed to create pipes for " +:+ context +:+ " execution")
  | ForkFailed => failed ("failed to fork " +:+ context)
  | NonBlockingFailed => failed ("failed to configure non-blocking pipe for " +:+ context)
  | Launched rounds status =>
      match run_pump request rounds (initial_pump request) with
      | None => None
      | Some (inl e) => Some (inl e)
      | Some (inr (expired, p)) =>
          match status with
          | WaitFailed => failed ("failed to wait for " +:+ context)
          | StillRunning => None
          | _ =>
              let '(code, signaled, signal) := exit_fields status in
              Some (inr (mkResult code signaled signal expired (out p).2 (err p).2
                           (out p).1 (err p).1))
          end
      end
  end.

(** ** Reports *)

Definition is_newline (c : ascii) : bool := Ascii.eqb c "010" || Ascii.eqb c "013".
Definition TrimTrailingNewline (text : string) : string :=
  of_chars (drop_while_end is_newline (chars text)).

Definition DescribeProcessFailure (result : ProcessResult) : string :=
  if timed_out result then "process timed out"
  else if negb (is_empty (stderr_text result)) then TrimTrailingNewline (stderr_text result)
  else if negb (is_empty (stdout_text result)) then TrimTrailingNewline (stdout_text result)
  else if terminated_by_signal result
  then "process terminated by signal " +:+ decimal (signal_number result)
  else "process exited with code " +:+ decimal (exit_code result).

(** ** What a run captures *)

(** The capture of a whole stream. *)
Definition captured (limit : nat) (stream : string) : string * bool :=
  (str_take limit stream, (limit <? str_length stream)%nat).

(** The bytes a pipe delivers in one turn, and whether it closes then. *)
Fixpoint delivered (reads : list read_result) : string :=
  match reads with
  | ReadBytes chunk :: reads => chunk +:+ delivered reads
  | ReadInterrupted :: reads => delivered reads
  | _ => EmptyString
  end.
Fixpoint closes (reads : list read_result) : bool :=
  match reads with
  | (ReadBytes _ | ReadInterrupted) :: reads => closes reads
  | (ReadEnd | ReadFailed) :: _ => true
  | _ => false
  end.

(** The reads of a pipe in a turn that found it ready. *)
Definition stdout_turn (r : poll_round) : list read_result :=
  match poll r with PollReady _ true _ => stdout_reads r | _ => [] end.
Definition stderr_turn (r : poll_round) : list read_result :=
  match poll r with PollReady _ _ true => stderr_reads r | _ => [] end.

(** Everything a pipe delivers until it closes, and whether it does. *)
Fixpoint stream (turn : poll_round -> list read_result) (rounds : list poll_round) : string :=
  match rounds with
  | [] => EmptyString
  | r :: rounds =>
      delivered (turn r) +:+ (if closes (turn r) then EmptyString else stream turn rounds)
  end.
Definition ends (turn : poll_round -> list read_result) (rounds : list poll_round) : bool :=
  existsb (fun r => closes (turn r)) rounds.

(** No turn times out or fails. *)
Definition undisturbed (request : ProcessRequest) (r : poll_round) : bool :=
  match timeout request with Some limit => negb (limit <=? elapsed r) | None => true end
  && match poll r with PollInterrupted | PollReady _ _ _ => true | _ => false end.

(** * Lemmas *)

Lemma str_take_app_cases n a b :
  str_take n (a +:+ b) = str_take n a +:+ str_take (n - str_length a) b.
Proof.
  unfold str_take. rewrite chars_app, take_app, <- str_length_chars. apply chars_inj.
  by rewrite chars_app, !chars_of_chars.
Qed.

Lemma is_empty_length s : is_empty s = (str_length s =? 0)%nat.
Proof. by destruct s. Qed.

Lemma append_captured limit seen chunk :
  AppendOutputChunk limit (captured limit seen) chunk = captured limit (seen +:+ chunk).
Proof.
  unfold AppendOutputChunk, captured. rewrite str_take_app_cases, str_length_app, is_empty_length.
  rewrite str_length_take.
  destruct (Nat.eqb_spec limit 0) as [->|Hl].
  - change (str_take 0 seen) with ""%string. change (0 - str_length seen)%nat with 0%nat.
    change (str_take 0 chunk) with ""%string. cbn [String.append]. f_equal.
    destruct (str_length seen), (str_length chunk); reflexivity.
  - destruct (Nat.leb_spec limit (Nat.min limit (str_length seen))) as [Hle|Hgt].
    + replace (limit - str_length seen)%nat with 0%nat by lia.
      change (str_take 0 chunk) with ""%string. f_equal.
      * apply chars_inj. rewrite chars_app. by rewrite app_nil_r.
      * destruct (Nat.ltb_spec limit (str_length seen)), (Nat.eqb_spec (str_length chunk) 0),
          (Nat.ltb_spec limit (str_length seen + str_length chunk)); cbn; lia || done.
    + replace (Nat.min limit (str_length seen)) with (str_length seen) by lia. f_equal.
      * f_equal. destruct (Nat.min_spec (limit - str_length seen) (str_length chunk))
          as [[Hm ->]|[Hm ->]]; [done|]. by rewrite !str_take_ge by lia.
      * destruct (Nat.ltb_spec limit (str_length seen)),
          (Nat.ltb_spec limit (str_length seen + str_length chunk)),
          (Nat.ltb_spec (Nat.min (limit - str_length seen) (str_length chunk)) (str_length chunk));
          cbn; lia || done.
Qed.

Lemma captured_nil limit : captured limit EmptyString = (EmptyString, false).
Proof. by destruct limit. Qed.

Lemma str_app_nil s : (s +:+ "")%string = s.
Proof. apply chars_inj. by rewrite chars_app, app_nil_r. Qed.

Lemma drain_captured limit reads seen :
  drain_fd limit reads (captured limit seen)
  = (captured limit (seen +:+ delivered reads), negb (closes reads)).
Proof.
  revert seen. induction reads as [|[chunk| | | |] reads IH]; intros seen; cbn [drain_fd delivered closes negb].
  2: { rewrite append_captured, IH. by rewrite str_app_assoc. }
  3: { apply IH. }
  all: by rewrite str_app_nil.
Qed.

(** What is still to come of a pipe. *)
Definition rest (opened : bool) (turn : poll_round -> list read_result) (rounds : list poll_round)
  : string := if opened then stream turn rounds else EmptyString.

Lemma rest_step (opened ready : bool) limit reads turn r rounds seen capture :
  capture = captured limit seen ->
  turn r = (if ready then reads else []) ->
  let '(capture', opened') :=
    if opened && ready then drain_fd limit reads capture else (capture, opened) in
  exists seen', capture' = captured limit seen'
    /\ (seen' +:+ rest opened' turn rounds)%string = (seen +:+ rest opened turn (r :: rounds))%string
    /\ opened' = opened && negb (closes (turn r)).
Proof.
  intros -> Ht. destruct opened, ready; cbn [andb rest]; rewrite ?Ht.
  - rewrite drain_captured. eexists. split; [reflexivity|]. split; [|done]. cbn [stream].
    rewrite Ht, str_app_assoc. by destruct (closes reads).
  - eexists. split; [reflexivity|]. split; [|done]. cbn [stream]. by rewrite Ht.
  - eexists. split; [reflexivity|]. done.
  - eexists. split; [reflexivity|]. done.
Qed.

Lemma turn_quiet (turn : poll_round -> list read_result) r rounds opened :
  turn r = [] -> rest opened turn (r :: rounds) = rest opened turn rounds.
Proof. intros Ht. destruct opened; [|done]. cbn [rest stream]. by rewrite Ht. Qed.

(** The loop keeps, of every pipe, the capture of what arrived, and the flags say
    which pipes have ended. *)
Lemma run_pump_captures request rounds p expired q seen_out seen_err :
  out p = captured (max_stdout_bytes request) seen_out ->
  err p = captured (max_stderr_bytes request) seen_err ->
  run_pump request rounds p = Some (inr (expired, q)) ->
  exists seen_out' seen_err',
    out q = captured (max_stdout_bytes request) seen_out'
    /\ err q = captured (max_stderr_bytes request) seen_err'
    /\ (expired = false ->
        seen_out' = seen_out +:+ rest (stdout_open p) stdout_turn rounds
        /\ seen_err' = seen_err +:+ rest (stderr_open p) stderr_turn rounds)%string.
Proof.
  revert p seen_out seen_err. induction rounds as [|r rounds IH]; intros p seen_out seen_err Ho He.
  - cbn [run_pump]. destruct (negb _) eqn:Hopen; [|done]. intros [= <- <-].
    apply negb_true_iff, orb_false_iff in Hopen as [-> ->]. exists seen_out, seen_err.
    by rewrite !str_app_nil.
  - cbn [run_pump]. destruct (negb _) eqn:Hopen.
    { intros [= <- <-]. apply negb_true_iff, orb_false_iff in Hopen as [-> ->].
      exists seen_out, seen_err. by rewrite !str_app_nil. }
    unfold pump_round.
    destruct (match timeout request with Some limit => limit <=? elapsed r | None => false end).
    { intros [= <- <-]. by exists seen_out, seen_err. }
    destruct (poll r) as [| | |i o e] eqn:Hp; try done.
    + intros Hr. destruct (IH p seen_out seen_err Ho He Hr) as (so & se & H1 & H2 & H3).
      exists so, se. rewrite !turn_quiet by (unfold stdout_turn, stderr_turn; by rewrite Hp). done.
    + intros [= <- <-]. by exists seen_out, seen_err.
    + pose proof (rest_step (stdout_open p) o _ (stdout_reads r) stdout_turn r rounds seen_out _ Ho
                    ltac:(unfold stdout_turn; by rewrite Hp; destruct o)) as Hso.
      pose proof (rest_step (stderr_open p) e _ (stderr_reads r) stderr_turn r rounds seen_err _ He
                    ltac:(unfold stderr_turn; by rewrite Hp; destruct e)) as Hse.
      destruct (if stdout_open p && o then _ else _) as [out' oo].
      destruct (if stderr_open p && e then _ else _) as [err' eo].
      destruct Hso as (so & Ho' & <- & _), Hse as (se & He' & <- & _).
      intros Hr. by apply (IH _ so se) in Hr.
Qed.

Lemma drain_open limit (opened ready : bool) reads capture :
  (if opened && ready then drain_fd limit reads capture else (capture, opened)).2
  = opened && negb (closes (if ready then reads else [])).
Proof.
  destruct opened, ready; cbn [andb]; try done.
  revert capture. by induction reads as [|[] reads IH]; intros capture; cbn; try rewrite IH.
Qed.

Lemma run_pump_returns request rounds p :
  forallb (undisturbed request) rounds = true ->
  (stdout_open p = true -> ends stdout_turn rounds = true) ->
  (stderr_open p = true -> ends stderr_turn rounds = true) ->
  exists q, run_pump request rounds p = Some (inr (false, q)).
Proof.
  revert p. induction rounds as [|r rounds IH]; intros p Hq Ho He; cbn [run_pump].
  - destruct (stdout_open p); [by discriminate Ho|]. destruct (stderr_open p); [by discriminate He|].
    by eexists.
  - destruct (negb _); [by eexists|]. cbn in Hq. apply andb_true_iff in Hq as [Hr Hq].
    unfold undisturbed in Hr. apply andb_true_iff in Hr as [Ht Hp]. unfold pump_round.
    replace (match timeout request with Some limit => limit <=? elapsed r | None => false end)
      with false by (destruct (timeout request); [by apply negb_true_iff in Ht|done]).
    cbn [ends existsb] in Ho, He. unfold stdout_turn at 1 in Ho. unfold stderr_turn at 1 in He.
    destruct (poll r) as [| | |i o e]; try done; [by apply IH|].
    pose proof (drain_open (max_stdout_bytes request) (stdout_open p) o (stdout_reads r) (out p)) as Hdo.
    pose proof (drain_open (max_stderr_bytes request) (stderr_open p) e (stderr_reads r) (err p)) as Hde.
    destruct (if stdout_open p && o then _ else _) as [out' oo].
    destruct (if stderr_open p && e then _ else _) as [err' eo]. cbn in Hdo, Hde. subst oo eo.
    apply IH; [done| |]; cbn; intros [Hop Hc]%andb_true_iff; apply negb_true_iff in Hc;
      [specialize (Ho Hop)|specialize (He Hop)]; [destruct o|destruct e]; by rewrite Hc in *.
Qed.

(** * Properties *)

(** C36. What the platform reads of a child process does not depend on how the
    output arrives: however the pipes deliver it, chunk by chunk and turn by
    turn, a run that is not cut off by its timeout keeps of each stream its first
    bytes up to the limit and reports truncation exactly when there were more,
    with the exit code, or 128 and the signal, of the child.  And a run whose
    turns neither fail nor expire and whose streams both end does return, once the
    child has ended. *)
Theorem process_output_is_captured request rounds status :
  (forall result, RunProcessChecked request (Launched rounds status) = Some (inr result) ->
     timed_out result = false ->
     (stdout_text result, stdout_truncated result)
     = captured (max_stdout_bytes request) (stream stdout_turn rounds)
     /\ (stderr_text result, stderr_truncated result)
        = captured (max_stderr_bytes request) (stream stderr_turn rounds)
     /\ (exit_code result, terminated_by_signal result, signal_number result) = exit_fields status)
  /\ (forallb (undisturbed request) rounds = true ->
      ends stdout_turn rounds = true -> ends stderr_turn rounds = true ->
      status <> WaitFailed -> status <> StillRunning ->
      exists result, RunProcessChecked request (Launched rounds status) = Some (inr result)
        /\ timed_out result = false).
Proof.
  unfold RunProcessChecked. split.
  - intros result. destruct (run_pump _ _ _) as [[?|[expired q]]|] eqn:Hrun; try done.
    intros Hres Hexp. destruct (exit_fields status) as [[code signaled] signal] eqn:Hf.
    assert (Some (inr (A := exn) (mkResult code signaled signal expired (out q).2 (err q).2
              (out q).1 (err q).1)) = Some (inr result)) as [= <-] by (by destruct status).
    cbn in *. apply (run_pump_captures _ _ _ _ _ "" "") in Hrun as (so & se & -> & -> & Hs).
    2, 3: by rewrite captured_nil.
    destruct (Hs Hexp) as [-> ->]. done.
  - intros Hq Ho He Hw Hstill.
    destruct (run_pump_returns request rounds (initial_pump request) Hq (fun _ => Ho) (fun _ => He))
      as [q ->].
    destruct status as [code|signal| | |]; try done; eexists; (split; [reflexivity|done]).
Qed.

Definition demo_process : ProcessRequest :=
  mkProcess "openssl" [] None true ∅ false (Some 1000) 4 100 "" true "".
Definition demo_rounds : list poll_round :=
  [mkRound 1 (PollReady false true true) [] [ReadBytes "ab"; ReadWouldBlock] [ReadEnd];
   mkRound 2 PollInterrupted [] [] [];
   mkRound 3 (PollReady false true false) [] [ReadBytes "cde"; ReadInterrupted; ReadEnd] []].

Theorem process_output_is_captured_witness :
  exists result, RunProcessChecked demo_process (Launched demo_rounds (Exited 3)) = Some (inr result)
    /\ (stdout_text result, stdout_truncated result) = ("abcd"%string, true).
Proof.
  destruct (process_output_is_captured demo_process demo_rounds (Exited 3)) as [Hcap Hret].
  destruct (Hret eq_refl eq_refl eq_refl ltac:(discriminate) ltac:(discriminate)) as (result & Hrun & Ht).
  exists result. split; [exact Hrun|]. rewrite (proj1 (Hcap result Hrun Ht)). reflexivity.
Defined.
