(* ===== verification/RegistrySecurity.v ===== *)
(** How the registry client decides what it may read and write
    ([PlatformSecurity/SecurityHardening/RegistrySecurity.cpp]): chains of handlers,
    and the slots a private module may replace them through. *)
From stdpp Require Import base list strings.
From Stdlib Require Import ZArith Lia Ascii String.
From S2P Require Import Prelude Json.

Record RegistryReadSecurityRequest := mkReadRequest { read_registry_root : string; read_offline : bool }.
Record RegistryReadSecurityDecision := mkReadDecision {
  decision_root : string;
  decision_headers : list string;
  provider_name : string;
}.
Record RegistryWriteSecurityRequest := mkWriteRequest {
  write_registry_root : string;
  profile_name : option string;
  policy_file : option string;
  explicit_request_headers : list string;
}.
Record RegistryWriteSecurityDecision := mkWriteDecision {
  write_root : string;
  write_headers : list string;
  write_provider : string;
  mode : string;
  decision_profile : option string;
}.

Inductive SecurityHandlerResult := kContinue | kResolved.

(** [while (!value.empty() && value.back() == '/') value.pop_back();] *)
Definition NormalizeRegistryRoot (value : string) : string :=
  of_chars (drop_while_end (fun c => Ascii.eqb c "/") (chars value)).
Definition IsHttpRegistryRoot (value : string) : bool :=
  str_starts_with value "http://" || str_starts_with value "https://".
Definition IsFileRegistryRoot (value : string) : bool := str_starts_with value "file://".

(** A handler sees the request and the decision so far. *)
Definition handler (Request Decision : Type) : Type :=
  Request -> Decision -> exn + (SecurityHandlerResult * Decision).

Fixpoint RunSecurityChain {Request Decision : Type} (request : Request) (decision : Decision)
    (handlers : list (handler Request Decision)) (chain_name : string) : exn + Decision :=
  match handlers with
  | [] => inl (LogicError (chain_name +:+ " registry security chain did not resolve"))
  | h :: handlers =>
      step <-? h request decision ;;
      match step with
      | (kResolved, decision) => inr decision
      | (kContinue, decision) => RunSecurityChain request decision handlers chain_name
      end
  end.

Abbreviation read_handler := (handler RegistryReadSecurityRequest RegistryReadSecurityDecision).
Abbreviation write_handler := (handler RegistryWriteSecurityRequest RegistryWriteSecurityDecision).

Definition NormalizeReadRegistryRoot : read_handler := fun request d =>
  inr (kContinue, mkReadDecision (NormalizeRegistryRoot (read_registry_root request))
                    (decision_headers d) (provider_name d)).
Definition ValidateReadRegistryRootScheme : read_handler := fun request d =>
  if negb (IsFileRegistryRoot (decision_root d)) && negb (IsHttpRegistryRoot (decision_root d))
  then inl (FetchError ("registry root must use file://, http://, or https://: "
                        +:+ read_registry_root request))
  else inr (kContinue, d).
Definition ResolvePublicDefaultReadAccess : read_handler := fun _ d =>
  inr (kResolved, mkReadDecision (decision_root d) [] "public-default").

Definition NormalizeWriteRegistryRoot : write_handler := fun request d =>
  inr (kContinue, mkWriteDecision (NormalizeRegistryRoot (write_registry_root request))
                    (write_headers d) (write_provider d) (mode d) (decision_profile d)).
Definition ValidateWriteRegistryRootScheme : write_handler := fun request d =>
  if negb (IsHttpRegistryRoot (write_root d))
  then inl (PublishError ("remote registry publish requires an http:// or https:// registry root: "
                          +:+ write_registry_root request))
  else inr (kContinue, d).
Definition RejectOpenSourceWriteSecurityHooks : write_handler := fun request d =>
  match profile_name request, policy_file request, explicit_request_headers request with
  | None, None, [] => inr (kContinue, d)
  | _, _, _ =>
      inl (PublishError ("registry write security hooks require a private module under "
                         +:+ "src-private/PlatformSecurity and are not available in the open-source core"))
  end.
Definition ResolvePublicDefaultWriteAccess : write_handler := fun _ d =>
  inr (kResolved, mkWriteDecision (write_root d) [] "public-default" "anonymous" None).

Definition kDefaultReadSecurityHandlers : list read_handler :=
  [NormalizeReadRegistryRoot; ValidateReadRegistryRootScheme; ResolvePublicDefaultReadAccess].
Definition kDefaultWriteSecurityHandlers : list write_handler :=
  [NormalizeWriteRegistryRoot; ValidateWriteRegistryRootScheme; RejectOpenSourceWriteSecurityHooks;
   ResolvePublicDefaultWriteAccess].

(** The member initializers. *)
Definition initial_read_decision : RegistryReadSecurityDecision :=
  mkReadDecision "" [] "public-default".
Definition initial_write_decision : RegistryWriteSecurityDecision :=
  mkWriteDecision "" [] "public-default" "anonymous" None.

Definition RegistryReadSecurityResolver : Type :=
  RegistryReadSecurityRequest -> exn + RegistryReadSecurityDecision.
Definition RegistryWriteSecurityResolver : Type :=
  RegistryWriteSecurityRequest -> exn + RegistryWriteSecurityDecision.

Definition ResolveDefaultRegistryReadSecurity : RegistryReadSecurityResolver := fun request =>
  RunSecurityChain request initial_read_decision kDefaultReadSecurityHandlers "default read".
Definition ResolveDefaultRegistryWriteSecurity : RegistryWriteSecurityResolver := fun request =>
  RunSecurityChain request initial_write_decision kDefaultWriteSecurityHandlers "default write".

(** The two static slots. *)
Record SecuritySlots := mkSlots {
  read_slot : RegistryReadSecurityResolver;
  write_slot : RegistryWriteSecurityResolver;
}.
Definition initial_slots : SecuritySlots :=
  mkSlots ResolveDefaultRegistryReadSecurity ResolveDefaultRegistryWriteSecurity.

Abbreviation SlotsM := (M exn SecuritySlots).
(** A null resolver puts the default back; the resolver replaced is returned. *)
Definition RegisterRegistryReadSecurityResolver (resolver : option RegistryReadSecurityResolver)
  : SlotsM RegistryReadSecurityResolver :=
  previous <- gets read_slot ;;
  modify (fun s => mkSlots (default ResolveDefaultRegistryReadSecurity resolver) (write_slot s)) ;;;
  m_ret previous.
Definition RegisterRegistryWriteSecurityResolver (resolver : option RegistryWriteSecurityResolver)
  : SlotsM RegistryWriteSecurityResolver :=
  previous <- gets write_slot ;;
  modify (fun s => mkSlots (read_slot s) (default ResolveDefaultRegistryWriteSecurity resolver)) ;;;
  m_ret previous.

Definition ResolveRegistryReadSecurity (request : RegistryReadSecurityRequest)
  : SlotsM RegistryReadSecurityDecision :=
  slot <- gets read_slot ;; lift (slot request).
Definition ResolveRegistryWriteSecurity (request : RegistryWriteSecurityRequest)
  : SlotsM RegistryWriteSecurityDecision :=
  slot <- gets write_slot ;; lift (slot request).
