(* ===== verification/CachePaths.v ===== *)
(** Where the package manager keeps its caches and state
    ([PlatformStorage/PlatformCache/CachePaths.cpp]), and the world its client side
    works in: files, the programs it runs and the security slots. *)
From stdpp Require Import base list gmap strings.
From Stdlib Require Import ZArith Lia Ascii String.
From S2P Require Import Prelude Json Paths FileSystem Process RegistrySecurity.

Record ClientWorld := mkWorld {
  world_files : FileTree;
  program_runs : nat;
  security_slots : SecuritySlots;
}.
Abbreviation ClientM := (M exn ClientWorld).

(** The environment, and the programs the client runs: the [n]-th run of a program
    gives a result or fails to start, and leaves the files in some state. *)
Class ProgramHost := {
  get_env : string -> option string;
  run_program : nat -> ProcessRequest -> FileTree -> (string + ProcessResult) * FileTree;
}.

Definition in_files {A} (m : M exn FileTree A) : ClientM A :=
  zoom world_files (fun t w => mkWorld t (program_runs w) (security_slots w)) m.
Definition in_slots {A} (m : M exn SecuritySlots A) : ClientM A :=
  zoom security_slots (fun s w => mkWorld (world_files w) (program_runs w) s) m.
Definition looks {A} (f : FileTree -> A) : ClientM A := gets (fun w => f (world_files w)).
Definition looks_at {A} (f : FileTree -> exn + A) : ClientM A :=
  t <- gets world_files ;; lift (f t).

(** [RunProcess<Error>(request)]; [failure] makes the error of a program that did
    not run. *)
Definition run_with `{ProgramHost} (failure : string -> exn) (request : ProcessRequest)
  : ClientM ProcessResult :=
  fun w => let '(outcome, t) := run_program (program_runs w) request (world_files w) in
           (match outcome with inl text => inl (failure text) | inr result => inr result end,
            mkWorld t (S (program_runs w)) (security_slots w)).

(** A request with the default members. *)
Definition kExternalProcessProbeTimeout : Z := 30000.
Definition kExternalProcessStepTimeout : Z := 600000.
Definition process_request (program : string) (args : list string) (directory : option string)
    (timeout : Z) (context : string) : ProcessRequest :=
  mkProcess program args directory true ∅ false (Some timeout) (2 ^ 20) (2 ^ 20) EmptyString true
    context.

Section CachePaths.
Context `{FileHost}.

(** [fs::absolute(path)], which throws on the empty path, and [lexically_normal()]. *)
Definition CanonicalAbsolutePath (path : string) : exn + string :=
  if is_empty path then inl (FilesystemError "cannot make absolute path" path)
  else inr (lexically_normal
              (if is_absolute path then path
               else path_join (absolute_text FileSystem.working_directory false) path)).

(** [CanonicalAbsolutePath(CanonicalAbsolutePath(base) / part / ...)]. *)
Definition canonical_below (base : string) (parts : list string) : exn + string :=
  root <-? CanonicalAbsolutePath base ;;
  CanonicalAbsolutePath (fold_left path_join parts root).

Definition ProjectStateRootForManifest (manifest_path : string) : exn + string :=
  path <-? CanonicalAbsolutePath manifest_path ;;
  CanonicalAbsolutePath (path_join (parent_path path) ".spio").
Definition ProjectVendorRootForManifest (manifest_path : string) : exn + string :=
  root <-? ProjectStateRootForManifest manifest_path ;;
  CanonicalAbsolutePath (path_join root "vendor").
Definition ProjectToolchainPinPathForManifest (manifest_path : string) : exn + string :=
  path <-? CanonicalAbsolutePath manifest_path ;;
  CanonicalAbsolutePath (path_join (parent_path path) "spio-toolchain.toml").
Definition ProjectToolchainStatePathForManifest (manifest_path : string) : exn + string :=
  path <-? CanonicalAbsolutePath manifest_path ;;
  CanonicalAbsolutePath (path_join (parent_path path) "spio-toolchain.lock").

(** The loop over the directories above a manifest; the fuel is the length of the
    first one, which every step shortens. *)
Fixpoint find_upwards (fuel : nat) (name : string) (t : FileTree) (current : string)
  : exn + option string :=
  candidate <-? CanonicalAbsolutePath (path_join current name) ;;
  if exists_ t candidate then inr (Some candidate)
  else
    let parent := parent_path current in
    if path_eqb parent current then inr None
    else match fuel with
         | O => inr None
         | S fuel => find_upwards fuel name t parent
         end.
Definition find_above (name manifest_path : string) (t : FileTree) : exn + option string :=
  path <-? CanonicalAbsolutePath manifest_path ;;
  let current := parent_path path in
  find_upwards (str_length current) name t current.
Definition FindProjectToolchainPinPath : string -> FileTree -> exn + option string :=
  find_above "spio-toolchain.toml".
Definition FindProjectToolchainStatePath : string -> FileTree -> exn + option string :=
  find_above "spio-toolchain.lock".

Definition non_empty_env `{ProgramHost} (name : string) : option string :=
  value ← get_env name; if is_empty value then None else Some value.
Definition ResolveOptionalSpioHome `{ProgramHost} : exn + option string :=
  match non_empty_env "SPIO_HOME", non_empty_env "HOME" with
  | Some explicit_home, _ => home <-? CanonicalAbsolutePath explicit_home ;; inr (Some home)
  | None, Some home => home <-? CanonicalAbsolutePath (path_join home ".spio") ;; inr (Some home)
  | None, None => inr None
  end.
Definition ResolveSpioHome `{ProgramHost} : exn + string :=
  spio_home <-? ResolveOptionalSpioHome ;;
  match spio_home with
  | Some spio_home => inr spio_home
  | None => inl (CacheError "unable to resolve SPIO_HOME: set SPIO_HOME or HOME")
  end.

Definition ManagedToolsRoot (spio_home : string) : exn + string := canonical_below spio_home ["tools"].
Definition ManagedStyioRoot (spio_home : string) : exn + string :=
  root <-? ManagedToolsRoot spio_home ;; CanonicalAbsolutePath (path_join root "styio").
Definition ManagedStyioInstallRoot (spio_home channel compiler_version : string) : exn + string :=
  root <-? ManagedStyioRoot spio_home ;;
  CanonicalAbsolutePath (path_join (path_join root channel) compiler_version).
Definition ManagedStyioCurrentRoot (spio_home : string) : exn + string :=
  root <-? ManagedStyioRoot spio_home ;; CanonicalAbsolutePath (path_join root "current").
Definition ManagedStyioBinaryPath (root : string) : exn + string :=
  CanonicalAbsolutePath (path_join (path_join root "bin") "styio").
Definition ManagedStyioMetadataPath (root : string) : exn + string :=
  CanonicalAbsolutePath (path_join root "install.json").
Definition SourceStateRoot (spio_home : string) : exn + string :=
  canonical_below spio_home ["src"; "styio"]%string.
Definition SourceCheckoutRoot (spio_home channel identity : string) : exn + string :=
  root <-? SourceStateRoot spio_home ;;
  CanonicalAbsolutePath (path_join (path_join (path_join root channel) identity) "source").
Definition SourceToolchainBuildRoot (spio_home channel identity build_mode : string) : exn + string :=
  canonical_below spio_home ["toolchains"; "source"; channel; identity; build_mode]%string.
Definition RegistryCacheRoot (spio_home : string) : exn + string :=
  canonical_below spio_home ["registry"].
Definition RegistryIndexCacheRoot (spio_home : string) : exn + string :=
  root <-? RegistryCacheRoot spio_home ;; CanonicalAbsolutePath (path_join root "index").
Definition RegistryBlobCacheRoot (spio_home : string) : exn + string :=
  root <-? RegistryCacheRoot spio_home ;;
  CanonicalAbsolutePath (path_join (path_join root "blobs") "sha256").
Definition RegistryCheckoutRoot (spio_home : string) : exn + string :=
  root <-? RegistryCacheRoot spio_home ;; CanonicalAbsolutePath (path_join root "checkouts").
Definition ServerStateRoot (spio_home : string) : exn + string := canonical_below spio_home ["server"].
Definition RegistryServerRoot (spio_home : string) : exn + string :=
  root <-? ServerStateRoot spio_home ;; CanonicalAbsolutePath (path_join root "registry").
Definition RegistryPublishProfileRoot (spio_home : string) : exn + string :=
  root <-? RegistryServerRoot spio_home ;; CanonicalAbsolutePath (path_join root "publish-profiles").
Definition RegistryPublishProfilePath (spio_home profile_name : string) : exn + string :=
  root <-? RegistryPublishProfileRoot spio_home ;;
  CanonicalAbsolutePath (path_join root (profile_name +:+ ".toml")).
End CachePaths.
