(* ===== verification/Agreement.v ===== *)
(** Computations of the client that run alike on two hosts: the hosts have the same
    environment and agree on some programs, and the computation runs no others. *)
From stdpp Require Import base list gmap strings.
From Stdlib Require Import ZArith String.
From S2P Require Import Prelude Json FileSystem Process RegistrySecurity CachePaths.

(** Two hosts with the same environment that run some programs alike; what the others
    do is not compared. *)
Record same_programs (compared : ProcessRequest -> Prop) (here there : ProgramHost) : Prop := {
  same_env : forall name, @get_env here name = @get_env there name;
  same_runs : forall n request t, compared request ->
    @run_program here n request t = @run_program there n request t;
}.

Definition agree {E S A} (m m' : M E S A) : Prop := forall s, m s = m' s.

Lemma agree_refl {E S A} (m : M E S A) : agree m m.
Proof. done. Qed.
Lemma agree_bind {E S A B} (m m' : M E S A) (k k' : A -> M E S B) :
  agree m m' -> (forall a, agree (k a) (k' a)) -> agree (m_bind m k) (m_bind m' k').
Proof. intros Hm Hk s. unfold m_bind. rewrite Hm. destruct (m' s) as [[e|a] s']; [done|apply Hk]. Qed.
Lemma agree_catch {E S A} (m m' : M E S A) h h' :
  agree m m' -> (forall e, agree (h e) (h' e)) -> agree (catch m h) (catch m' h').
Proof. intros Hm Hh s. unfold catch. rewrite Hm. destruct (m' s) as [[e|a] s']; [apply Hh|done]. Qed.
Lemma agree_traverse {E S A B} (f f' : A -> M E S B) l :
  (forall a, agree (f a) (f' a)) -> agree (traverse_m f l) (traverse_m f' l).
Proof.
  intros Hf. induction l as [|a l IH]; [done|]. cbn [traverse_m].
  apply agree_bind; [done|]. intros b. apply agree_bind; [done|]. by intros bs.
Qed.

Lemma agree_run compared here there failure request :
  same_programs compared here there -> compared request ->
  agree (@run_with here failure request) (@run_with there failure request).
Proof. intros Hsame Hl w. unfold run_with. by rewrite (same_runs _ _ _ Hsame). Qed.

Lemma agree_home `{FileHost} compared here there : same_programs compared here there ->
  @ResolveSpioHome _ here = @ResolveSpioHome _ there.
Proof.
  intros Hsame. unfold ResolveSpioHome, ResolveOptionalSpioHome, non_empty_env.
  by rewrite !(same_env _ _ _ Hsame).
Qed.

Create HintDb offline.

(** Two computations with the same structure agree when their leaves do. *)
Ltac agree_step :=
  match goal with
  | |- agree ?m ?m => apply agree_refl
  | |- agree (m_bind _ _) (m_bind _ _) => apply agree_bind; [|intros ?]
  | |- agree (catch _ _) (catch _ _) => apply agree_catch; [|intros ?]
  | |- agree (traverse_m _ _) (traverse_m _ _) => apply agree_traverse; intros ?
  | |- agree (if ?b then _ else _) _ => destruct b
  | |- agree (match ?x with _ => _ end) _ => destruct x
  end.
Ltac agreeing_with tac := repeat first [agree_step | tac | solve [eauto with offline]].
