(* ===== verification/Toolchain.v ===== *)
(** The tool chain a project uses ([PlatformCore/Toolchain/Vocabulary.hpp] and
    [State.cpp]): the closed vocabularies, and the state file beside a manifest, which
    is rendered as TOML, loaded and updated. *)
From stdpp Require Import base list gmap strings.
From Stdlib Require Import ZArith Lia Ascii String.
From S2P Require Import Prelude Json Paths FileSystem Toml Manifest CachePaths.

(** ** Vocabularies *)

Definition kToolchainModeBinary : string := "binary".
Definition kToolchainModeBuild : string := "build".
Definition kChannelStable : string := "stable".
Definition kChannelNightly : string := "nightly".
Definition kBuildModeMinimal : string := "minimal".
Definition kRiskClassTrustedInternal : string := "trusted-internal".
Definition kRiskClassPartnerControlled : string := "partner-controlled".
Definition kRiskClassUntrustedUser : string := "untrusted-user".
Definition kExecutionLaneIsolated : string := "isolated".
Definition kExecutionLaneWarmShared : string := "warm-shared".
Definition kSecurityProfileSandboxDefault : string := "sandbox-default".
Definition kSecurityProfilePartnerRestricted : string := "partner-restricted".
Definition kSecurityProfileTrustedWarm : string := "trusted-warm".

Definition kSupportedToolchainModes : list string := [kToolchainModeBinary; kToolchainModeBuild].
Definition kSupportedChannels : list string := [kChannelStable; kChannelNightly].
Definition kSupportedBuildModes : list string := [kBuildModeMinimal].
Definition kSupportedCloudRiskClasses : list string :=
  [kRiskClassTrustedInternal; kRiskClassPartnerControlled; kRiskClassUntrustedUser].
Definition kSupportedCloudExecutionLanes : list string :=
  [kExecutionLaneIsolated; kExecutionLaneWarmShared].
Definition kSupportedCloudSecurityProfiles : list string :=
  [kSecurityProfileSandboxDefault; kSecurityProfilePartnerRestricted; kSecurityProfileTrustedWarm].

Definition VocabularyContains (value : string) (supported : list string) : bool :=
  existsb (fun candidate => candidate =s value) supported.
Definition IsSupportedToolchainMode (value : string) : bool :=
  VocabularyContains value kSupportedToolchainModes.
Definition IsSupportedChannel (value : string) : bool := VocabularyContains value kSupportedChannels.
Definition IsSupportedBuildMode (value : string) : bool := VocabularyContains value kSupportedBuildModes.
Definition IsSupportedCloudRiskClass (value : string) : bool :=
  VocabularyContains value kSupportedCloudRiskClasses.
Definition IsSupportedCloudExecutionLane (value : string) : bool :=
  VocabularyContains value kSupportedCloudExecutionLanes.
Definition IsSupportedCloudSecurityProfile (value : string) : bool :=
  VocabularyContains value kSupportedCloudSecurityProfiles.

(** ** The state of a project *)

Record ProjectToolchainState := mkToolchainState {
  state_manifest_path : string;
  state_path : string;
  state_file_exists : bool;
  state_mode : string;
  state_channel : string;
  state_build_mode : string;
  risk_class : string;
  preferred_execution_lane : string;
  security_profile : string;
  source_revision : option string;
}.
Definition default_toolchain_state : ProjectToolchainState :=
  mkToolchainState EmptyString EmptyString false kToolchainModeBinary kChannelStable kBuildModeMinimal
    kRiskClassUntrustedUser kExecutionLaneIsolated kSecurityProfileSandboxDefault None.

Record ToolchainStateUpdate := mkStateUpdate {
  update_manifest_path : string;
  update_mode : option string;
  update_channel : option string;
  update_build_mode : option string;
  update_risk_class : option string;
  update_execution_lane : option string;
  update_security_profile : option string;
  update_source_revision : option string;
}.

Definition RequireAllowedValue (value : string) (allowed : list string) (label : string) : exn + unit :=
  if existsb (fun candidate => value =s candidate) allowed then inr tt
  else inl (ToolError ("unsupported " +:+ label +:+ ": " +:+ value)).

(** The checks at the end of loading and of updating. *)
Definition RequireSupportedState (state : ProjectToolchainState) : exn + unit :=
  (_ <-? RequireAllowedValue (state_mode state) kSupportedToolchainModes "toolchain mode" ;;
   _ <-? RequireAllowedValue (state_channel state) kSupportedChannels "toolchain channel" ;;
   _ <-? RequireAllowedValue (state_build_mode state) kSupportedBuildModes "build mode" ;;
   _ <-? RequireAllowedValue (risk_class state) kSupportedCloudRiskClasses "cloud risk class" ;;
   _ <-? RequireAllowedValue (preferred_execution_lane state) kSupportedCloudExecutionLanes
           "cloud execution lane" ;;
   RequireAllowedValue (security_profile state) kSupportedCloudSecurityProfiles "cloud security profile")%string.

(** A value between quotation marks, as it is. *)
Definition setting_line (key value : string) : string :=
  key +:+ " = " +:+ quote_mark +:+ value +:+ quote_mark +:+ newline_text.
Definition RenderToolchainState (state : ProjectToolchainState) : string :=
  "[toolchain]" +:+ newline_text
  +:+ setting_line "mode" (state_mode state)
  +:+ setting_line "channel" (state_channel state)
  +:+ setting_line "build" (state_build_mode state)
  +:+ newline_text +:+ "[cloud]" +:+ newline_text
  +:+ setting_line "risk" (risk_class state)
  +:+ setting_line "lane" (preferred_execution_lane state)
  +:+ setting_line "security" (security_profile state)
  +:+ match source_revision state with
      | Some revision =>
          newline_text +:+ "[source]" +:+ newline_text +:+ setting_line "revision" revision
      | None => EmptyString
      end.

(** A string of a table that is there and not empty. *)
Definition non_empty_value (table : toml_table) (key : string) : option string :=
  value ← table !! key ≫= toml_string; if is_empty value then None else Some value.

(** The values of a document over those of a state; a table [cloud] or [source] that
    is missing leaves its values. *)
Definition read_toolchain_state (state : ProjectToolchainState) (toolchain cloud source : toml_table)
  : ProjectToolchainState :=
  let value table key (field : ProjectToolchainState -> string) :=
    default (field state) (non_empty_value table key) in
  mkToolchainState (state_manifest_path state) (state_path state) (state_file_exists state)
    (value toolchain "mode"%string state_mode) (value toolchain "channel"%string state_channel)
    (value toolchain "build"%string state_build_mode) (value cloud "risk"%string risk_class)
    (value cloud "lane"%string preferred_execution_lane)
    (value cloud "security"%string security_profile)
    (match non_empty_value source "revision" with
     | Some revision => Some revision
     | None => source_revision state
     end).

(** The values asked for over those of a state. *)
Definition apply_update (update : ToolchainStateUpdate) (manifest_path path : string)
    (state : ProjectToolchainState) : ProjectToolchainState :=
  mkToolchainState manifest_path path (state_file_exists state)
    (default (state_mode state) (update_mode update))
    (default (state_channel state) (update_channel update))
    (default (state_build_mode state) (update_build_mode update))
    (default (risk_class state) (update_risk_class update))
    (default (preferred_execution_lane state) (update_execution_lane update))
    (default (security_profile state) (update_security_profile update))
    (match update_source_revision update with
     | Some revision => Some revision
     | None => source_revision state
     end).

Definition with_file (path : string) (exists_now : bool) (state : ProjectToolchainState)
  : ProjectToolchainState :=
  mkToolchainState (state_manifest_path state) path exists_now (state_mode state) (state_channel state)
    (state_build_mode state) (risk_class state) (preferred_execution_lane state)
    (security_profile state) (source_revision state).

Section Toolchain.
Context `{FileHost} `{TomlLib}.

Definition WriteTextFile (path content : string) : M exn FileTree unit :=
  create_directories (parent_path path) ;;;
  opened <- gets (can_open path) ;;
  if negb opened then throw (ToolError ("failed to open toolchain state for write: " +:+ path))
  else modify (write_stream path content).

Definition parse_toolchain_state (path : string) (t : FileTree) : exn + toml_table :=
  let failed description :=
    inl (ToolError ("failed to parse project toolchain state '" +:+ path +:+ "': " +:+ description)) in
  match open_in t path with
  | None => failed toml_open_error
  | Some text => match toml_parse text with inr doc => inr doc | inl description => failed description end
  end.

Definition LoadProjectToolchainState (manifest_path : string) (t : FileTree)
  : exn + ProjectToolchainState :=
  manifest_path <-? CanonicalAbsolutePath manifest_path ;;
  path <-? ProjectToolchainStatePathForManifest manifest_path ;;
  let state := mkToolchainState manifest_path path false kToolchainModeBinary kChannelStable
                 kBuildModeMinimal kRiskClassUntrustedUser kExecutionLaneIsolated
                 kSecurityProfileSandboxDefault None in
  discovered <-? FindProjectToolchainStatePath manifest_path t ;;
  match discovered with
  | None => inr state
  | Some discovered =>
      doc <-? parse_toolchain_state discovered t ;;
      match table_at doc "toolchain" with
      | None => inl (ToolError ("project toolchain state is missing [toolchain]: " +:+ discovered))
      | Some toolchain =>
          let state := read_toolchain_state (with_file discovered true state) toolchain
                         (default ∅ (table_at doc "cloud")) (default ∅ (table_at doc "source")) in
          _ <-? RequireSupportedState state ;;
          inr state
      end
  end.

Definition UpdateProjectToolchainState (update : ToolchainStateUpdate)
  : M exn FileTree ProjectToolchainState :=
  manifest_path <- lift (CanonicalAbsolutePath (update_manifest_path update)) ;;
  t <- gets id ;;
  lift (LoadManifest manifest_path t) ;;;
  loaded <- lift (LoadProjectToolchainState manifest_path t) ;;
  path <- lift (ProjectToolchainStatePathForManifest manifest_path) ;;
  let state := apply_update update manifest_path path loaded in
  lift (RequireSupportedState state) ;;;
  WriteTextFile path (RenderToolchainState state) ;;;
  m_ret (with_file path true state).
End Toolchain.
