(* ===== verification/GitFetcher.v ===== *)
(** Fetching git sources ([GitSourceFetcher] of
    [PlatformCore/SourceFetch/SourceFetch.cpp]): work trees for editing and snapshots
    for resolution, in the client's world of files and programs. *)
From stdpp Require Import base list gmap strings.
From Stdlib Require Import ZArith Lia Ascii String.
From S2P Require Import Prelude Json Paths FileSystem Process SourceFetch RegistrySecurity CachePaths.

Record GitWorktreeRequest := mkWorktree {
  wt_origin : string;
  wt_checkout_root : string;
  wt_revision : option string;
  update_existing : bool;
  shallow : bool;
  depth : Z;
  clone_revision_as_branch : bool;
  wt_policy : GitSourcePolicy;
  wt_context : string;
}.
Record GitWorktreeResult := mkWorktreeResult {
  wr_origin : string;
  wr_checkout_root : string;
  requested_revision : option string;
  resolved_revision : string;
  cloned : bool;
  wr_fetched : bool;
  checked_out : bool;
}.
Record GitSnapshotRequest := mkSnapshotFetch {
  gs_spio_home : string;
  vendor_root : option string;
  gs_origin : string;
  gs_revision : string;
  offline : bool;
  gs_policy : GitSourcePolicy;
  gs_context : string;
}.
Record GitSnapshotResult := mkSnapshot {
  sn_origin : string;
  sn_revision : string;
  repo_hash : string;
  snapshot_root : string;
  used_vendor : bool;
  cloned_mirror : bool;
  sn_fetched : bool;
  created_snapshot : bool;
}.

Section GitFetcher.
Context `{JsonLib} `{FileHost} `{ProgramHost}.

Definition ResultFailed (result : ProcessResult) : bool :=
  negb (exit_code result =? 0) || timed_out result || terminated_by_signal result.
Definition FailureMessage (operation : string) (result : ProcessResult) : string :=
  operation +:+ " failed: " +:+ DescribeProcessFailure result.

Definition ready_file : string := ".spio-snapshot-ready".

Definition FindVendoredSnapshot (vendor_root : option string) (repo_hash revision : string)
    (t : FileTree) : exn + option string :=
  match vendor_root with
  | None => inr None
  | Some vendor_root =>
      vendor <-? CanonicalAbsolutePath vendor_root ;;
      let snapshot_root := path_join (path_join (path_join vendor "git") repo_hash) revision in
      if negb (exists_ t snapshot_root) then inr None
      else if exists_ t (path_join snapshot_root ready_file)
              || exists_ t (path_join snapshot_root "spio.toml")
      then path <-? CanonicalAbsolutePath snapshot_root ;; inr (Some path)
      else inr None
  end.

Definition NormalizeGitSource (source base_dir : string) : exn + string :=
  if LooksLikeRemoteGitSource source then inr source
  else if is_absolute source then CanonicalAbsolutePath source
  else CanonicalAbsolutePath (path_join base_dir source).

Definition ValidateOrigin (origin : string) (policy : GitSourcePolicy) : exn + unit :=
  match GitSourcePolicyViolation origin policy with
  | Some violation => inl (FetchError (violation +:+ ": " +:+ origin))
  | None => inr tt
  end.

(** A program of the fetcher that must succeed; one that does not run fails the same
    way. *)
Definition checked (operation : string) (request : ProcessRequest) : ClientM ProcessResult :=
  result <- run_with (fun text => SourceFetchError operation (operation +:+ " failed: " +:+ text) false 0 "")
              request ;;
  if ResultFailed result
  then throw (SourceFetchError operation (FailureMessage operation result) (timed_out result)
                (exit_code result) (stderr_text result))
  else m_ret result.
Definition RunGitChecked (args : list string) (working_directory : option string)
    (operation error_context : string) : ClientM ProcessResult :=
  checked operation (process_request "git" args working_directory kExternalProcessStepTimeout
                       error_context).
Definition ResolveWorktreeRevision (checkout_root : string) : ClientM string :=
  result <- checked "git rev-parse"
              (process_request "git" ["rev-parse"; "HEAD"] (Some checkout_root)
                 kExternalProcessProbeTimeout "source revision probe") ;;
  m_ret (TrimTrailingNewline (stdout_text result)).

Definition depth_args (request : GitWorktreeRequest) : list string :=
  if shallow request then ["--depth"%string; decimal (Z.max (depth request) 1)] else [].

(** The arguments of the clone of a work tree. *)
Definition clone_args (request : GitWorktreeRequest) (checkout_root : string) : list string :=
  ["clone"%string] ++ depth_args request
  ++ match wt_revision request with
     | Some revision => if clone_revision_as_branch request then ["--branch"%string; revision]
                        else ["--no-checkout"%string]
     | None => []
     end
  ++ [wt_origin request; checkout_root].

Definition EnsureWorktree (request : GitWorktreeRequest) : ClientM GitWorktreeResult :=
  lift (ValidateOrigin (wt_origin request) (wt_policy request)) ;;;
  if is_empty (wt_checkout_root request) then throw (FetchError "git checkout root is required")
  else if match wt_revision request with Some r => is_empty r | None => false end
  then throw (FetchError "git revision must be non-empty when present")
  else
    checkout_root <- lift (CanonicalAbsolutePath (wt_checkout_root request)) ;;
    let git args directory operation :=
      RunGitChecked args directory operation (wt_context request) in
    checkout_exists <- looks (fun t => exists_ t checkout_root) ;;
    let has_revision := match wt_revision request with Some _ => true | None => false end in
    (if negb checkout_exists then
       in_files (create_directories (parent_path checkout_root)) ;;;
       git (clone_args request checkout_root) None "git clone"%string ;;;
       m_ret tt
     else
       directory <- looks (fun t => is_directory t checkout_root) ;;
       if directory then m_ret tt
       else throw (FetchError ("git checkout root exists but is not a directory: "
                               +:+ checkout_root))) ;;;
    let cloned := negb checkout_exists in
    let cloned_branch := cloned && has_revision && clone_revision_as_branch request in
    match wt_revision request with
    | Some revision =>
        if (negb (clone_revision_as_branch request) || checkout_exists) && update_existing request then
          git (["fetch"%string] ++ depth_args request ++ ["origin"%string; revision]) (Some checkout_root)
            "git fetch"%string ;;;
          git ["checkout"; "--force"; "FETCH_HEAD"]%string (Some checkout_root) "git checkout"%string ;;;
          resolved <- ResolveWorktreeRevision checkout_root ;;
          m_ret (mkWorktreeResult (wt_origin request) checkout_root (wt_revision request) resolved
                   cloned true true)
        else
          resolved <- ResolveWorktreeRevision checkout_root ;;
          m_ret (mkWorktreeResult (wt_origin request) checkout_root (wt_revision request) resolved
                   cloned false cloned_branch)
    | None =>
        resolved <- ResolveWorktreeRevision checkout_root ;;
        m_ret (mkWorktreeResult (wt_origin request) checkout_root None resolved cloned false false)
    end.

(** The lambda of [MaterializeSnapshot]: only a program that timed out is an error. *)
Definition has_revision (request : GitSnapshotRequest) (repo_dir : string) : ClientM bool :=
  catch
    (RunGitChecked ["--git-dir"; repo_dir; "cat-file"; "-e"; gs_revision request +:+ "^{commit}"]%string
       None "git rev check" (gs_context request) ;;;
     m_ret true)
    (fun e => match e with
              | SourceFetchError _ _ timed_out _ _ => if timed_out then throw e else m_ret false
              | _ => throw e
              end).

(** The mirror has the revision, fetched where it may be. *)
Definition ensure_revision (request : GitSnapshotRequest) (repo_dir : string) : ClientM bool :=
  present <- has_revision request repo_dir ;;
  if present then m_ret false
  else if offline request
  then throw (FetchError ("offline mode is missing git rev '" +:+ gs_revision request
                          +:+ "' in the local cache for '" +:+ gs_origin request +:+ "'"))
  else
    RunGitChecked ["--git-dir"; repo_dir; "fetch"; "--prune"; "origin"]%string None "git fetch"
      (gs_context request) ;;;
    present <- has_revision request repo_dir ;;
    if present then m_ret true
    else throw (FetchError ("git source does not contain requested rev '" +:+ gs_revision request
                            +:+ "': " +:+ gs_origin request)).

(** The files of the revision, through an archive that is removed either way. *)
Definition extract_snapshot (request : GitSnapshotRequest) (repo_dir snapshot_root archive_path : string)
  : ClientM unit :=
  catch
    (RunGitChecked ["--git-dir"; repo_dir; "archive"; "--format=tar"; "--output"; archive_path;
                    gs_revision request]%string None "git archive" (gs_context request) ;;;
     extract <- run_with RuntimeError
                  (process_request "tar" ["-xf"; archive_path; "-C"; snapshot_root]%string None
                     kExternalProcessStepTimeout (gs_context request)) ;;
     in_files (modify (remove archive_path)) ;;;
     if ResultFailed extract
     then throw (CacheError ("failed to extract git snapshot '" +:+ snapshot_root +:+ "': "
                             +:+ DescribeProcessFailure extract))
     else m_ret tt)
    (fun e => in_files (modify (remove archive_path)) ;;; throw e).

Definition MaterializeSnapshot (request : GitSnapshotRequest) : ClientM GitSnapshotResult :=
  lift (ValidateOrigin (gs_origin request) (gs_policy request)) ;;;
  if is_empty (gs_revision request) then throw (FetchError "git snapshot revision is required")
  else if is_empty (gs_spio_home request) then throw (FetchError "git snapshot cache root is required")
  else
    spio_home <- lift (CanonicalAbsolutePath (gs_spio_home request)) ;;
    let repo_hash := SourceFetchIdentityHash (gs_origin request) in
    let answer root vendored cloned fetched created :=
      mkSnapshot (gs_origin request) (gs_revision request) repo_hash root vendored cloned fetched
        created in
    vendored <- looks_at (FindVendoredSnapshot (vendor_root request) repo_hash (gs_revision request)) ;;
    match vendored with
    | Some root => m_ret (answer root true false false false)
    | None =>
        let git_root := path_join spio_home "git" in
        let repos := path_join git_root "repos" in
        let checkouts := path_join git_root "checkouts" in
        in_files (create_directories repos) ;;;
        in_files (create_directories checkouts) ;;;
        let repo_dir := path_join repos (repo_hash +:+ ".git") in
        let root := path_join (path_join checkouts repo_hash) (gs_revision request) in
        mirrored <- looks (fun t => exists_ t repo_dir) ;;
        (if mirrored then m_ret tt
         else if offline request
         then throw (FetchError ("offline mode requires a vendored snapshot or cached git mirror for '"
                                 +:+ gs_origin request +:+ "'"))
         else
           in_files (create_directories (parent_path repo_dir)) ;;;
           RunGitChecked ["clone"; "--mirror"; gs_origin request; repo_dir]%string None "git clone"
             (gs_context request) ;;;
           m_ret tt) ;;;
        fetched <- ensure_revision request repo_dir ;;
        let marker := path_join root ready_file in
        ready <- looks (fun t => exists_ t marker) ;;
        if ready then m_ret (answer root false (negb mirrored) fetched false)
        else
          in_files (modify (remove_all root)) ;;;
          in_files (create_directories root) ;;;
          let archive_path :=
            path_join (parent_path root) (SourceFetchIdentityHash (gs_revision request) +:+ ".tar") in
          extract_snapshot request repo_dir root archive_path ;;;
          in_files (modify (write_stream marker ("ready" +:+ newline_text))) ;;;
          m_ret (answer root false (negb mirrored) fetched true)
    end.
End GitFetcher.
