(* ===== verification/SourceBuild.v ===== *)
(** Building the compiler from its sources ([PlatformCore/Toolchain/SourceBuild.cpp]):
    the source tree is found or fetched, and configured and built with cmake. *)
From stdpp Require Import base list gmap strings.
From Stdlib Require Import ZArith Lia Ascii String.
From S2P Require Import Prelude Json Paths FileSystem Process RegistrySecurity CachePaths SourceFetch GitFetcher Toolchain.

Record SourceBuildRequest := mkSourceBuild {
  build_manifest : string;
  build_channel : string;
  source_build_mode : string;
  explicit_source_root : option string;
  asked_revision : option string;
  may_fetch : bool;
  build_offline : bool;
  assume_yes : bool;
  non_interactive : bool;
}.
Record SourceBuildResult := mkSourceBuilt {
  built_source_root : string;
  compiler_binary : string;
  built_revision : string;
  built_channel : string;
  built_mode : string;
  fetched : bool;
  built : bool;
}.

(** The terminal: whether standard input is one, and the line read from it. *)
Class Terminal := { stdin_is_tty : bool; stdin_line : option string }.

Definition trimmed_char (c : ascii) : bool :=
  Ascii.eqb c " " || Ascii.eqb c "009" || Ascii.eqb c "010" || Ascii.eqb c "013".
Definition Trim (text : string) : string :=
  of_chars (drop_while trimmed_char (drop_while_end trimmed_char (chars text))).

Definition RequestedSourceRef (request : SourceBuildRequest) : string :=
  match asked_revision request with
  | Some revision => if is_empty revision then build_channel request else revision
  | None => build_channel request
  end.

Definition ShouldFetchSource `{Terminal} (request : SourceBuildRequest) : exn + bool :=
  if negb (may_fetch request) || build_offline request then inr false
  else if assume_yes request then inr true
  else if non_interactive request || negb stdin_is_tty
  then inl (ToolError "styio source tree not found locally; rerun with --yes, configure a local source root, or disable source-build mode")
  else
    match stdin_line with
    | None => inr false
    | Some line =>
        let answer := Trim line in
        inr (is_empty answer || string_in answer ["Y"; "y"; "yes"; "YES"])%string
    end.

Definition cmake_configure_args (source_root build_root : string) : list string :=
  ["-S"; source_root; "-B"; build_root; "-G"; "Ninja"; "-DCMAKE_BUILD_TYPE=Release"]%string.
Definition cmake_build_args (build_root : string) : list string :=
  ["--build"; build_root; "--target"; "styio"]%string.

Section SourceBuild.
Context `{JsonLib} `{FileHost} `{ProgramHost} `{Terminal}.

Definition OfficialSourceOrigin : string :=
  default "https://github.com/eBioRing/Styio.git"%string (non_empty_env "SPIO_STYIO_SOURCE_ORIGIN").

Definition EnsureDirectorySourceRoot (source_root : string) (t : FileTree) : exn + unit :=
  if negb (exists_ t source_root) then inl (ToolError ("styio source root not found: " +:+ source_root))
  else if negb (is_directory t source_root)
  then inl (ToolError ("styio source root must be a directory: " +:+ source_root))
  else if negb (exists_ t (path_join source_root "CMakeLists.txt"))
  then inl (ToolError ("styio source root is missing CMakeLists.txt: " +:+ source_root))
  else inr tt.

Definition TryResolveGitRevision (source_root : string) : ClientM string :=
  tracked <- looks (fun t => exists_ t (path_join source_root ".git")) ;;
  if negb tracked then m_ret EmptyString
  else
    result <- run_with ToolError
                (process_request "git" ["rev-parse"; "HEAD"] (Some source_root)
                   kExternalProcessProbeTimeout "source-toolchain process") ;;
    m_ret (if negb (exit_code result =? 0) then EmptyString else Trim (stdout_text result)).

Definition RunChecked (program : string) (args : list string) (label : string) (timeout : Z)
  : ClientM unit :=
  result <- run_with ToolError
              (process_request program args None timeout "source-toolchain process") ;;
  if negb (exit_code result =? 0) then
    let detail := DescribeProcessFailure result in
    throw (ToolError (label +:+ " failed" +:+ (if is_empty detail then "" else ": " +:+ detail)))
  else m_ret tt.

(** A source tree the user has. *)
Definition given_source_root (path : string) : ClientM (string * string * bool) :=
  source_root <- lift (CanonicalAbsolutePath path) ;;
  looks_at (EnsureDirectorySourceRoot source_root) ;;;
  revision <- TryResolveGitRevision source_root ;;
  m_ret (source_root, revision, false).

Definition worktree_of (request : SourceBuildRequest) (origin source_root : string) : GitWorktreeRequest :=
  mkWorktree origin source_root (Some (RequestedSourceRef request)) true true 1
    (match asked_revision request with Some _ => false | None => true end)
    TrustedGitSourcePolicy "source-toolchain process".

(** The source tree in the cache, fetched or brought up to date. *)
Definition cached_source_root (request : SourceBuildRequest) (spio_home : string)
  : ClientM (string * string * bool) :=
  let origin := OfficialSourceOrigin in
  let cache_identity := SourceFetchSlug (origin +:+ "#" +:+ RequestedSourceRef request) in
  source_root <- lift (SourceCheckoutRoot spio_home (build_channel request) cache_identity) ;;
  present <- looks (fun t => exists_ t source_root) ;;
  (if present then m_ret tt
   else
     wanted <- lift (ShouldFetchSource request) ;;
     if wanted then m_ret tt
     else throw (ToolError "styio source tree not available locally and fetch was declined")) ;;;
  fetched <- (if present then
                looks_at (EnsureDirectorySourceRoot source_root) ;;;
                tracked <- looks (fun t => exists_ t (path_join source_root ".git")) ;;
                if tracked && negb (build_offline request)
                then EnsureWorktree (worktree_of request origin source_root) ;;; m_ret false
                else m_ret false
              else
                checkout <- EnsureWorktree (worktree_of request origin source_root) ;;
                m_ret (cloned checkout || wr_fetched checkout)) ;;
  revision <- TryResolveGitRevision source_root ;;
  m_ret (source_root, revision, fetched).

Definition locate_source (request : SourceBuildRequest) (spio_home : string)
  : ClientM (string * string * bool) :=
  match explicit_source_root request, non_empty_env "SPIO_STYIO_SOURCE_ROOT" with
  | Some root, _ => given_source_root root
  | None, Some root => given_source_root root
  | None, None => cached_source_root request spio_home
  end.

Definition cmake_build (source_root build_root : string) : ClientM unit :=
  in_files (create_directories build_root) ;;;
  RunChecked "cmake" (cmake_configure_args source_root build_root) "cmake configure"
    kExternalProcessBuildTimeout ;;;
  RunChecked "cmake" (cmake_build_args build_root) "cmake build" kExternalProcessBuildTimeout.

Definition EnsureSourceBuiltStyio (request : SourceBuildRequest) : ClientM SourceBuildResult :=
  if negb (IsSupportedBuildMode (source_build_mode request))
  then throw (ToolError ("unsupported source build mode: " +:+ source_build_mode request))
  else
    spio_home <- lift ResolveSpioHome ;;
    source <- locate_source request spio_home ;;
    let '(source_root, revision, fetched) := source in
    let source_revision :=
      if is_empty revision then default (SourceFetchSlug source_root) (asked_revision request)
      else revision in
    build_root <- lift (SourceToolchainBuildRoot spio_home (build_channel request)
                          (SourceFetchSlug source_revision) (source_build_mode request)) ;;
    compiler <- lift (CanonicalAbsolutePath (path_join (path_join build_root "bin") "styio")) ;;
    present <- looks (fun t => exists_ t compiler) ;;
    (if present then m_ret tt else cmake_build source_root build_root) ;;;
    produced <- looks (fun t => exists_ t compiler) ;;
    if negb produced
    then throw (ToolError ("source-built styio compiler binary was not produced at " +:+ compiler))
    else m_ret (mkSourceBuilt source_root compiler source_revision (build_channel request)
                  (source_build_mode request) fetched (negb present)).
End SourceBuild.
