(* ===== verification/RegistryClient.v ===== *)
(** The registry client ([PlatformCore/RegistryClient/Client.cpp]): the objects of a
    static registry, over files or HTTP with a cache, and the checkout of a package
    release. *)
From stdpp Require Import base list gmap strings.
From Stdlib Require Import ZArith Lia Ascii String.
From S2P Require Import Prelude Json Paths FileSystem Process SourceFetch RegistrySecurity CachePaths.

Record RegistryConfig := mkRegistryPaths { targets_prefix : string }.
Record RegistryPackageMetadata := mkPackageMetadata { metadata_index_path : string }.
Record RegistryEntry := mkEntry {
  entry_package : string;
  entry_version : string;
  entry_sha256 : string;
  entry_artifact_path : string;
}.
Record RegistryMaterializationResult := mkMaterialized {
  mr_registry_root : string;
  mr_package_name : string;
  mr_version : string;
  mr_sha256 : string;
  mr_snapshot_root : string;
}.

Section RegistryClient.
Context `{JsonLib} `{FileHost} `{ProgramHost}.

Definition IsHttpRegistry : string -> bool := IsHttpRegistryRoot.
Definition IsFileRegistry : string -> bool := IsFileRegistryRoot.
Definition FileUrlToPath (registry_root : string) : string := str_drop 7 registry_root.

Definition SplitPackageName (package_name : string) : exn + (string * string) :=
  match find_char "/" (chars package_name) with
  | Some slash =>
      if Nat.eqb slash 0 || (str_length package_name <=? slash + 1)%nat
      then inl (FetchError ("registry package name must match namespace/name: " +:+ package_name))
      else inr (str_take slash package_name, str_drop (S slash) package_name)
  | None => inl (FetchError ("registry package name must match namespace/name: " +:+ package_name))
  end.

Definition ReadTextFile (path context : string) (t : FileTree) : exn + string :=
  match open_in t path with
  | Some text => inr text
  | None => inl (FetchError ("failed to open " +:+ context +:+ ": " +:+ path))
  end.

(** [path.parent_path() / (path.filename().string() + ".tmp")]. *)
Definition temp_path (path : string) : string :=
  path_join (parent_path path) (filename path +:+ ".tmp").

(** The rename that ends a download; the temporary file goes where it fails. *)
Definition finalize (temp path : string) (error : exn) : M exn FileTree unit :=
  fun t => match rename temp path t with
           | Some t' => (inr tt, t')
           | None => (remove_file temp ;;; throw error) t
           end.

Definition WriteFileAtomically (path content context : string) : M exn FileTree unit :=
  create_directories (parent_path path) ;;;
  let temp := temp_path path in
  opened <- gets (can_open temp) ;;
  if negb opened
  then throw (CacheError ("failed to open temporary " +:+ context +:+ " for write: " +:+ temp))
  else
    modify (write_stream temp content) ;;;
    finalize temp path (CacheError ("failed to finalize " +:+ context +:+ ": " +:+ path)).

Definition ParseJsonObject (text context : string) : exn + json :=
  match json_parse text with
  | None => inl (FetchError (context +:+ " is not valid JSON"))
  | Some payload => if is_object payload then inr payload
                    else inl (FetchError (context +:+ " must be a JSON object"))
  end.

Definition NormalizeRelativeRegistryPath (relative_path context : string) : exn + string :=
  if is_empty relative_path
  then inl (FetchError (context +:+ " must be a non-empty relative path"))
  else if is_absolute relative_path
  then inl (FetchError (context +:+ " must be relative: " +:+ relative_path))
  else
    let text := relative_normal relative_path in
    if is_empty text || (text =s ".") || (text =s "..") || str_starts_with text "../"
    then inl (FetchError (context +:+ " escapes the registry root: " +:+ relative_path))
    else inr text.

Definition ValidateConfig (config : json) (context : string) : exn + RegistryConfig :=
  protocol <-? value_string config "protocol" "" ;;
  version_ok <-? (if protocol <>s "spio-static-registry" then inr false
                  else v <-? value_int config "protocol_version" 0 ;; inr (v =? 2)) ;;
  if negb version_ok
  then inl (FetchError (context +:+ " does not match the supported registry v2 protocol"))
  else
    prefix <-? match j_lookup config "paths" with
               | None => inr "trust/targets/"%string
               | Some paths =>
                   if negb (is_object paths)
                   then inl (FetchError (context +:+ " paths must be a JSON object"))
                   else value_string paths "targets_prefix" "trust/targets/"
               end ;;
    if is_empty prefix then inl (FetchError (context +:+ " is missing paths.targets_prefix"))
    else inr (mkRegistryPaths prefix).

(** A member that must be an object. *)
Definition object_at (j : json) (key : string) (error : exn) : exn + json :=
  match j_lookup j key with
  | Some v => if is_object v then inr v else inl error
  | None => inl error
  end.

Definition ValidateTargetsMetadata (payload : json) (package_name package_namespace version context : string)
  : exn + RegistryPackageMetadata :=
  signed_payload <-? object_at payload "signed"
                       (FetchError (context +:+ " must contain a signed object")) ;;
  type <-? value_string signed_payload "type" "" ;;
  if type <>s "targets" then inl (FetchError (context +:+ " signed.type must equal 'targets'"))
  else
    found <-? value_string signed_payload "namespace" "" ;;
    if found <>s package_namespace
    then inl (FetchError (context +:+ " namespace mismatch: expected '" +:+ package_namespace
                          +:+ "' but found '" +:+ found +:+ "'"))
    else
      packages <-? object_at signed_payload "packages"
                     (FetchError (context +:+ " signed.packages must be a JSON object")) ;;
      package <-? object_at packages package_name
                    (FetchError ("registry v2 targets metadata is missing package: "
                                 +:+ package_name)) ;;
      index_path <-? value_string package "index_path" "" ;;
      if is_empty index_path
      then inl (FetchError ("registry v2 targets metadata is missing index_path for " +:+ package_name))
      else
        releases <-? object_at package "releases"
                       (FetchError ("registry v2 targets metadata is missing releases for "
                                    +:+ package_name)) ;;
        match j_lookup releases version with
        | None => inl (FetchError ("registry v2 targets metadata does not contain version "
                                   +:+ package_name +:+ "@" +:+ version))
        | Some _ =>
            normalized <-? NormalizeRelativeRegistryPath index_path "registry v2 package index_path" ;;
            inr (mkPackageMetadata normalized)
        end.

Definition ValidateEntry (entry : json) (expected_package expected_version : string)
  : exn + RegistryEntry :=
  package <-? value_string entry "package" "" ;;
  version <-? value_string entry "version" "" ;;
  if package <>s expected_package
  then inl (FetchError ("registry v2 entry package mismatch: expected '" +:+ expected_package
                        +:+ "' but found '" +:+ package +:+ "'"))
  else if version <>s expected_version
  then inl (FetchError ("registry v2 entry version mismatch: expected '" +:+ expected_version
                        +:+ "' but found '" +:+ version +:+ "'"))
  else
    artifact <-? object_at entry "source_artifact"
                   (FetchError "registry v2 entry is missing source_artifact") ;;
    sha256 <-? value_string artifact "sha256" "" ;;
    artifact_path <-? value_string artifact "path" "" ;;
    if negb (str_length sha256 =? 64)%nat
    then inl (FetchError "registry v2 source_artifact is missing a valid sha256 digest")
    else
      _ <-? NormalizeRelativeRegistryPath artifact_path "registry v2 source_artifact path" ;;
      inr (mkEntry package version sha256 artifact_path).

(** ** Objects *)

Definition header_args (request_headers : list string) : list string :=
  ["-fsSL"%string] ++ flat_map (fun header => ["-H"%string; header]) request_headers.
Definition run_curl (args : list string) : ClientM ProcessResult :=
  run_with CacheError (process_request "curl" args None kExternalProcessStepTimeout "registry process").

Definition FetchUrlToString (url : string) (request_headers : list string) : ClientM string :=
  result <- run_curl (header_args request_headers ++ [url]) ;;
  if negb (exit_code result =? 0)
  then throw (FetchError ("failed to fetch registry url '" +:+ url +:+ "': "
                          +:+ DescribeProcessFailure result))
  else m_ret (stdout_text result).

Definition FetchUrlToFile (url path : string) (request_headers : list string) : ClientM unit :=
  in_files (create_directories (parent_path path)) ;;;
  let temp := temp_path path in
  result <- run_curl (header_args request_headers ++ ["-o"%string; temp; url]) ;;
  if negb (exit_code result =? 0) then
    in_files (modify (remove temp)) ;;;
    throw (FetchError ("failed to download registry artifact '" +:+ url +:+ "': "
                       +:+ DescribeProcessFailure result))
  else
    in_files (finalize temp path
                (CacheError ("failed to finalize registry artifact cache: " +:+ path))).

Definition JoinUrl (root relative_path : string) : exn + string :=
  normalized <-? NormalizeRelativeRegistryPath relative_path "registry object path" ;;
  inr (NormalizeRegistryRoot root +:+ "/" +:+ normalized).

Definition RegistryObjectCachePath (spio_home registry_root relative_path : string) : exn + string :=
  index_root <-? RegistryIndexCacheRoot spio_home ;;
  normalized <-? NormalizeRelativeRegistryPath relative_path "registry cache object path" ;;
  inr (path_join (path_join index_root (hex_text (Fnv1a64 registry_root))) normalized).

Definition BlobCachePath (spio_home sha256 : string) : exn + string :=
  blob_root <-? RegistryBlobCacheRoot spio_home ;;
  inr (path_join (path_join (path_join blob_root (str_take 2 sha256)) (str_take 2 (str_drop 2 sha256)))
         (sha256 +:+ ".tar")).

Definition CheckoutPath (spio_home package_name version sha256 : string) : exn + string :=
  names <-? SplitPackageName package_name ;;
  root <-? RegistryCheckoutRoot spio_home ;;
  inr (path_join (path_join (path_join (path_join root names.1) names.2) version) sha256).

Definition LoadRegistryObjectText (spio_home registry_root : string) (request_headers : list string)
    (relative_path context : string) (offline : bool) : ClientM string :=
  normalized <- lift (NormalizeRelativeRegistryPath relative_path context) ;;
  if IsFileRegistry registry_root
  then looks_at (ReadTextFile (path_join (FileUrlToPath registry_root) normalized) context)
  else if negb (IsHttpRegistry registry_root)
  then throw (FetchError ("registry root must use file://, http://, or https://: " +:+ registry_root))
  else
    cache_path <- lift (RegistryObjectCachePath spio_home registry_root normalized) ;;
    if offline then
      present <- looks (fun t => exists_ t cache_path) ;;
      if negb present
      then throw (FetchError ("offline mode is missing cached " +:+ context +:+ " for "
                              +:+ registry_root))
      else looks_at (ReadTextFile cache_path ("cached " +:+ context))
    else
      url <- lift (JoinUrl registry_root normalized) ;;
      text <- FetchUrlToString url request_headers ;;
      in_files (WriteFileAtomically cache_path text (context +:+ " cache")) ;;;
      m_ret text.

(** ** A package release *)

Section Release.
Context (spio_home registry_root : string) (request_headers : list string) (offline : bool).

Definition load_object (relative_path context : string) : ClientM string :=
  LoadRegistryObjectText spio_home registry_root request_headers relative_path context offline.

Definition LoadConfig : ClientM RegistryConfig :=
  text <- load_object "config.json" "registry v2 config" ;;
  config <- lift (ParseJsonObject text "registry v2 config") ;;
  lift (ValidateConfig config "registry v2 config").

Definition LoadPackageMetadata (config : RegistryConfig) (package_name version : string)
  : ClientM RegistryPackageMetadata :=
  names <- lift (SplitPackageName package_name) ;;
  text <- load_object (targets_prefix config +:+ names.1 +:+ ".json") "registry v2 targets metadata" ;;
  payload <- lift (ParseJsonObject text "registry v2 targets metadata") ;;
  lift (ValidateTargetsMetadata payload package_name names.1 version "registry v2 targets metadata").

(** [line.find_first_not_of(" \t\r\n") == npos]. *)
Definition blank_char (c : ascii) : bool :=
  Ascii.eqb c " " || Ascii.eqb c "009" || Ascii.eqb c "013" || Ascii.eqb c "010".

(** The first record of the release. *)
Fixpoint find_entry (package_name version : string) (lines : list string) : exn + RegistryEntry :=
  match lines with
  | [] => inl (FetchError ("registry v2 index does not contain package version: "
                           +:+ package_name +:+ "@" +:+ version))
  | line :: lines =>
      if forallb blank_char (chars line) then find_entry package_name version lines
      else
        entry <-? ParseJsonObject line "registry v2 index record" ;;
        package <-? value_string entry "package" "" ;;
        matching <-? (if package =s package_name
                      then v <-? value_string entry "version" "" ;; inr (v =s version)
                      else inr false) ;;
        if matching then ValidateEntry entry package_name version
        else find_entry package_name version lines
  end.
Definition LoadEntry (package_name version : string) (metadata : RegistryPackageMetadata)
  : ClientM RegistryEntry :=
  text <- load_object (metadata_index_path metadata) "registry v2 index" ;;
  lift (find_entry package_name version (getline_all "010" text)).

Definition release_name (entry : RegistryEntry) : string :=
  entry_package entry +:+ "@" +:+ entry_version entry.

(** The artifact of a file registry, copied into the cache. *)
Definition cache_local_artifact (source_blob blob_cache_path : string) : ClientM unit :=
  present <- looks (fun t => exists_ t source_blob) ;;
  if negb present
  then throw (FetchError ("registry v2 source artifact not found: " +:+ source_blob))
  else
    in_files (create_directories (parent_path blob_cache_path)) ;;;
    in_files (fun t => match copy_file true source_blob blob_cache_path t with
                       | Some t' => (inr tt, t')
                       | None => (inl (CacheError ("failed to cache registry v2 source artifact: "
                                                   +:+ blob_cache_path)), t)
                       end).

Definition MaterializeArtifact (entry : RegistryEntry) : ClientM unit :=
  blob_cache_path <- lift (BlobCachePath spio_home (entry_sha256 entry)) ;;
  cached <- looks (fun t => exists_ t blob_cache_path) ;;
  if cached then
    actual <- looks_at (fun t => Sha256File t blob_cache_path) ;;
    if actual <>s entry_sha256 entry
    then throw (CacheError ("cached registry artifact sha256 mismatch: " +:+ blob_cache_path))
    else m_ret tt
  else
    artifact_relative <- lift (NormalizeRelativeRegistryPath (entry_artifact_path entry)
                                 "registry v2 source artifact path") ;;
    (if IsFileRegistry registry_root
     then cache_local_artifact (path_join (FileUrlToPath registry_root) artifact_relative)
            blob_cache_path
     else if offline
     then throw (FetchError ("offline mode is missing cached registry artifact for "
                             +:+ release_name entry))
     else
       url <- lift (JoinUrl registry_root artifact_relative) ;;
       FetchUrlToFile url blob_cache_path request_headers) ;;;
    actual <- looks_at (fun t => Sha256File t blob_cache_path) ;;
    if actual <>s entry_sha256 entry
    then throw (FetchError ("registry v2 source artifact sha256 mismatch for " +:+ release_name entry))
    else m_ret tt.
End Release.

Definition DetectSnapshotRoot (checkout_root : string) (t : FileTree) : exn + string :=
  if exists_ t (path_join checkout_root "spio.toml") then inr checkout_root
  else
    let missing := CacheError ("registry package snapshot does not contain spio.toml: "
                               +:+ checkout_root) in
    if negb (is_directory t checkout_root)
    then inl (FilesystemError "directory iterator cannot open directory" checkout_root)
    else
      match List.filter (is_directory t) (directory_iterator t checkout_root) with
      | [subdirectory] => if exists_ t (path_join subdirectory "spio.toml") then inr subdirectory
                          else inl missing
      | _ => inl missing
      end.

Definition EnsureCheckout (spio_home : string) (entry : RegistryEntry) : ClientM string :=
  checkout_root <- lift (CheckoutPath spio_home (entry_package entry) (entry_version entry)
                           (entry_sha256 entry)) ;;
  let ready_marker := path_join checkout_root ".spio-snapshot-ready" in
  ready <- looks (fun t => exists_ t ready_marker) ;;
  if ready then looks_at (DetectSnapshotRoot checkout_root)
  else
    in_files (modify (remove_all checkout_root)) ;;;
    in_files (create_directories checkout_root) ;;;
    blob_cache_path <- lift (BlobCachePath spio_home (entry_sha256 entry)) ;;
    extract <- run_with CacheError
                 (process_request "tar" ["-xf"; blob_cache_path; "-C"; checkout_root]%string None
                    kExternalProcessStepTimeout "registry process") ;;
    if negb (exit_code extract =? 0)
    then throw (CacheError ("failed to extract registry artifact '" +:+ blob_cache_path +:+ "': "
                            +:+ DescribeProcessFailure extract))
    else
      snapshot_root <- looks_at (DetectSnapshotRoot checkout_root) ;;
      opened <- looks (can_open ready_marker) ;;
      if negb opened
      then throw (CacheError ("failed to write registry ready marker: " +:+ ready_marker))
      else
        in_files (modify (write_stream ready_marker ("ready" +:+ newline_text))) ;;;
        m_ret snapshot_root.

Definition MaterializeRegistryPackage (registry_root package_name version : string) (offline : bool)
  : ClientM RegistryMaterializationResult :=
  security <- in_slots (ResolveRegistryReadSecurity (mkReadRequest registry_root offline)) ;;
  spio_home <- lift ResolveSpioHome ;;
  let root := decision_root security in
  let headers := decision_headers security in
  config <- LoadConfig spio_home root headers offline ;;
  metadata <- LoadPackageMetadata spio_home root headers offline config package_name version ;;
  entry <- LoadEntry spio_home root headers offline package_name version metadata ;;
  MaterializeArtifact spio_home root headers offline entry ;;;
  snapshot_root <- EnsureCheckout spio_home entry ;;
  m_ret (mkMaterialized root (entry_package entry) (entry_version entry) (entry_sha256 entry)
           snapshot_root).
End RegistryClient.
