(* ===== verification/RouterSupport.v ===== *)
(** The router's state, its helpers and its rate limiter and metrics
    ([PlatformService/Router.hpp], [RouterSupport.hpp],
    [PlatformService/PlatformOps/OpsManager.cpp]). *)
From stdpp Require Import base list gmap strings.
From Stdlib Require Import ZArith Lia Ascii String.
From S2P Require Import Prelude Json StateRecords MemoryStateStore Identity Http Config.
From S2P Require Import FileSystem.

(** What the platform takes from its host: the file system's choices, the system
    clock, read as a sequence of readings, and OpenSSL's one-shot SHA-256 and
    random bytes, [RAND_bytes] read as a sequence of draws ([None] where it
    fails). *)
Class Host := {
  host_files :: FileHost;
  openssl_RAND_bytes : nat -> nat -> option (list Z);
  clock_unix_seconds : nat -> Z;
  clock_utc_timestamp : nat -> Z -> string;
  openssl_SHA256 : string -> list Z;
}.

(** What the handlers use of the PostgreSQL store.  Its methods run SQL on a
    database server through libpq, so [DB], the state of that server, and the
    operations on it are parameters. *)
Class PostgresStore (DB : Type) := {
  PostgresDriverAvailable : bool;
  pg_connect : string -> DB;
  pg_NextJobId : M exn DB string;
  pg_SubmitJob : PlatformJobRecord -> M exn DB unit;
  pg_GetJob : string -> M exn DB (option PlatformJobRecord);
  pg_GetJobEvents : string -> M exn DB (list JobEventRecord);
  pg_CancelJob : string -> string -> M exn DB (option PlatformJobRecord);
  pg_RegisterWorker : json -> M exn DB json;
  pg_RegisterCompileContainer : CompileContainerRecord -> M exn DB CompileContainerRecord;
  pg_GetCompileContainer : string -> M exn DB (option CompileContainerRecord);
  pg_SwitchCompileContainerWorkspace :
    string -> string -> string -> string -> M exn DB (option CompileContainerRecord);
  pg_ClaimJob : string -> string -> string -> M exn DB (option PlatformJobRecord);
  pg_ClaimJobForCompileContainer :
    string -> string -> string -> string -> M exn DB (option PlatformJobRecord);
  pg_HeartbeatJob : string -> string -> string -> M exn DB (option PlatformJobRecord);
  pg_CompleteJob : string -> string -> string -> string -> list ArtifactRecord -> json ->
    M exn DB (option PlatformJobRecord);
  pg_RegisterWorkgroupCluster : string -> json -> M exn DB json;
  pg_ListWorkgroupClusters : string -> M exn DB json;
  pg_ListRegistryAuditEvents : M exn DB json;
  pg_GetMirrorState : string -> M exn DB (option MirrorCursorRecord);
  pg_GetRegistryPackage : string -> M exn DB (option RegistryPackageRecord);
  pg_ListRegistryPackageReleases : string -> M exn DB json;
  pg_GetRegistryPackageRelease : string -> string -> M exn DB (option RegistryPackageReleaseRecord);
  pg_AddRegistryPackageOwner : RegistryPackageOwnerRecord -> M exn DB unit;
  pg_RemoveRegistryPackageOwner : string -> string -> M exn DB bool;
  pg_HasRegistryPackageOwner : string -> string -> M exn DB bool;
  pg_ListRegistryPackageOwners : string -> M exn DB json;
  pg_NextRegistryTokenId : M exn DB string;
  pg_UpsertRegistryPublishToken : RegistryPublishTokenRecord -> M exn DB unit;
  pg_GetRegistryPublishToken : string -> M exn DB (option RegistryPublishTokenRecord);
  pg_FindRegistryPublishTokenByHash : string -> M exn DB (option RegistryPublishTokenRecord);
  pg_ListRegistryPublishTokens : string -> M exn DB json;
  pg_RevokeRegistryPublishToken : string -> string -> M exn DB bool;
  pg_ListRegistryRepositories : M exn DB json;
  pg_ListRegistryRepositoryVersions : string -> M exn DB json;
  pg_GetRegistryPublication : string -> M exn DB (option RegistryPublicationRecord);
  pg_ListRegistryDistributions : M exn DB json;
  pg_RecordMirrorState : string -> string -> string -> string -> string -> string -> string ->
    string -> Z -> M exn DB unit;
  pg_UpsertRegistryPackage : RegistryPackageRecord -> M exn DB unit;
  pg_UpsertRegistryPackageRelease : RegistryPackageReleaseRecord -> M exn DB unit;
  pg_SetRegistryPackageReleaseYanked : string -> string -> bool -> string -> M exn DB bool;
  pg_NextRepositoryVersionSequence : string -> M exn DB Z;
  pg_UpsertRegistryRepository : RegistryRepositoryRecord -> M exn DB unit;
  pg_RecordRegistryRepositoryVersion : RegistryRepositoryVersionRecord -> M exn DB unit;
  pg_RecordRegistryPublication : RegistryPublicationRecord -> M exn DB unit;
  pg_UpsertRegistryDistribution : RegistryDistributionRecord -> M exn DB unit;
  pg_NextRegistryAuditEventId : M exn DB string;
  pg_RecordRegistryAuditEvent : RegistryAuditEventRecord -> M exn DB unit;
}.

(** * Rate limiter and metrics *)

Record Bucket := mkBucket { window_start : Z; bucket_count : Z }.

Definition RateLimiter : Type := gmap string Bucket.

(** [PlatformRateLimiter::Allow]. *)
Definition Allow (subject operation : string) (limit window_seconds now_seconds : Z)
    (buckets_ : RateLimiter) : bool * RateLimiter :=
  if (limit <=? 0) || (window_seconds <=? 0) then (true, buckets_)
  else
    let key := subject +:+ ":" +:+ operation in
    let bucket := default (mkBucket 0 0) (buckets_ !! key) in
    let bucket := if (window_start bucket =? 0)
                     || (window_seconds <=? now_seconds - window_start bucket)
                  then mkBucket now_seconds 0 else bucket in
    let bucket := mkBucket (window_start bucket) (i32 (bucket_count bucket + 1)) in
    (bucket_count bucket <=? limit, <[key := bucket]> buckets_).

Definition RateLimiterSnapshot (buckets_ : RateLimiter) : json :=
  obj [("buckets",
        JObject ((fun bucket => obj [("window_start", JInt (window_start bucket));
                                     ("count", JInt (bucket_count bucket))]) <$> buckets_))].

Record PlatformRequestMetrics := mkMetrics {
  total_requests_ : Z;
  by_operation_ : gmap string Z;
  by_status_ : gmap Z Z;
}.

(** [PlatformRequestMetrics::Record]. *)
Definition RecordMetric (operation : string) (status : Z) (m : PlatformRequestMetrics)
  : PlatformRequestMetrics :=
  mkMetrics (total_requests_ m + 1)
    (<[operation := default 0 (by_operation_ m !! operation) + 1]> (by_operation_ m))
    (<[status := default 0 (by_status_ m !! status) + 1]> (by_status_ m)).

Definition MetricsSnapshot (m : PlatformRequestMetrics) : json :=
  obj [("total_requests", JInt (total_requests_ m));
       ("by_operation", JObject (JInt <$> by_operation_ m));
       ("by_status",
        JObject (list_to_map (map (fun '(status, count) => (decimal status, JInt count))
                                (map_to_list (by_status_ m)))))].

(** * Router state *)

(** The [curl] calls made so far, with their arguments, input and uploaded file:
    what the remote object store answers next is a function of them. *)
Definition curl_history : Type := list (list string * string * option string).

Record PlatformRouter (DB : Type) := mkRouter {
  memory_ : MemoryStateStore;
  postgres_ : option DB;
  rate_limiter_ : RateLimiter;
  metrics_ : PlatformRequestMetrics;
  clock_readings : nat;
  random_draws : nat;
  files_ : FileTree;
  curl_calls : curl_history;
}.
Arguments mkRouter {DB}.
Arguments memory_ {DB}.
Arguments postgres_ {DB}.
Arguments rate_limiter_ {DB}.
Arguments metrics_ {DB}.
Arguments clock_readings {DB}.
Arguments random_draws {DB}.
Arguments files_ {DB}.
Arguments curl_calls {DB}.

Abbreviation RouterM DB := (M exn (PlatformRouter DB)).

(** A call on [memory_]. *)
Definition on_memory {DB A} (m : M exn MemoryStateStore A) : RouterM DB A :=
  zoom memory_ (fun s r => mkRouter s (postgres_ r) (rate_limiter_ r) (metrics_ r)
                             (clock_readings r) (random_draws r) (files_ r) (curl_calls r)) m.

(** A call on [*postgres_]; there must be one. *)
Definition on_postgres {DB A} (m : M exn DB A) : RouterM DB A :=
  fun r => match postgres_ r with
           | None => (inl UndefinedBehaviour, r)
           | Some db => let '(res, db') := m db in
                        (res, mkRouter (memory_ r) (Some db') (rate_limiter_ r) (metrics_ r)
                                (clock_readings r) (random_draws r) (files_ r) (curl_calls r))
           end.

(** Calls on the file system. *)
Definition on_files {DB : Type} {A} (m : M exn FileTree A) : RouterM DB A :=
  zoom files_ (fun t r => mkRouter (memory_ r) (postgres_ r) (rate_limiter_ r) (metrics_ r)
                            (clock_readings r) (random_draws r) t (curl_calls r)) m.

(** Calls on the remote object store. *)
Definition on_remote {DB A} (m : M exn curl_history A) : RouterM DB A :=
  zoom curl_calls (fun h r => mkRouter (memory_ r) (postgres_ r) (rate_limiter_ r) (metrics_ r)
                                (clock_readings r) (random_draws r) (files_ r) h) m.

(** [if (postgres_ != nullptr) { p } else { m }]. *)
Definition if_postgres {DB A} (p m : RouterM DB A) : RouterM DB A :=
  fun r => match postgres_ r with Some _ => p r | None => m r end.

Definition next_reading {DB} : RouterM DB nat :=
  fun r => (inr (clock_readings r),
            mkRouter (memory_ r) (postgres_ r) (rate_limiter_ r) (metrics_ r)
              (S (clock_readings r)) (random_draws r) (files_ r) (curl_calls r)).

(** [RAND_bytes] on a buffer of [bytes] bytes. *)
Definition RAND_bytes {DB} `{Host} (bytes : nat) : RouterM DB (option (list Z)) :=
  fun r => (inr (openssl_RAND_bytes (random_draws r) bytes),
            mkRouter (memory_ r) (postgres_ r) (rate_limiter_ r) (metrics_ r)
              (clock_readings r) (S (random_draws r)) (files_ r) (curl_calls r)).

Definition UnixSecondsNow {DB} `{Host} : RouterM DB Z :=
  n <- next_reading ;; m_ret (clock_unix_seconds n).

Definition UtcTimestampPlusDays {DB} `{Host} (days : Z) : RouterM DB string :=
  n <- next_reading ;; m_ret (clock_utc_timestamp n days).
Definition UtcTimestampNow {DB} `{Host} : RouterM DB string := UtcTimestampPlusDays 0.

(** * Helpers *)

Definition RegistryTokenFromHeaders (headers : gmap string string) : option string :=
  match headers !! "x-styio-registry-token" with
  | Some direct => if negb (is_empty direct) then Some direct
                   else match headers !! "authorization" with
                        | None => None
                        | Some authorization =>
                            if negb (str_starts_with authorization "Bearer ") then None
                            else Some (str_drop 7 authorization)
                        end
  | None => match headers !! "authorization" with
            | None => None
            | Some authorization =>
                if negb (str_starts_with authorization "Bearer ") then None
                else Some (str_drop 7 authorization)
            end
  end.

Definition UsesPostgresState (config : PlatformConfig) : bool := state_backend config =s "postgres".

Definition LooksLikePostgresDsn (value : string) : bool :=
  str_starts_with value "postgres://" || str_starts_with value "postgresql://"
  || str_starts_with value "host=".

Definition JsonResponse (status : Z) (body : json) : HttpResponse := mkResponse status body.

Definition RegistryFailureEnvelope (message detail category : string) (returncode : Z) : json :=
  obj [("returncode", JInt returncode); ("message", JString message); ("stdout", JString "");
       ("stderr", JString detail);
       ("error_payload", obj [("category", JString category); ("detail", JString detail)])].

Definition FailureResponse (status : Z) (message detail category operation : string)
    (returncode : Z) : HttpResponse :=
  if IsRegistryOperation operation
  then JsonResponse status (RegistryFailureEnvelope message detail category returncode)
  else JsonResponse status (FailureEnvelope message detail category operation returncode).

(** [match.parameters.at(name)]. *)
Definition parameter (m : RouteMatch) (name : string) : exn + string :=
  match parameters m !! name with Some v => inr v | None => inl OutOfRange end.

Definition HasNonEmptyString (body : json) (field : string) : bool :=
  match j_lookup body field with
  | Some (JString s) => negb (is_empty s)
  | _ => false
  end.

Definition non_empty_string (j : json) : bool :=
  match j with JString s => negb (is_empty s) | _ => false end.

Fixpoint ValidateOptionalStringFields (body : json) (fields : list string) : option string :=
  match fields with
  | [] => None
  | key :: rest =>
      match j_lookup body key with
      | Some v => if negb (non_empty_string v)
                  then Some (key +:+ " must be a non-empty string when present")
                  else ValidateOptionalStringFields body rest
      | None => ValidateOptionalStringFields body rest
      end
  end.

Definition PaddedNumber (value : Z) (width : nat) : string := pad_left "0" width (decimal value).

Definition IsSafeLowercaseIdentifier (value : string) : bool :=
  match chars value with
  | [] => false
  | first :: _ =>
      (is_lower first || is_digit first)
      && forallb (fun ch => is_lower ch || is_digit ch || Ascii.eqb ch "-" || Ascii.eqb ch "_")
           (chars value)
  end.

Definition IsSafeWorkgroupId (value : string) : bool := IsSafeLowercaseIdentifier value.

Definition LooksLikeHttpEndpoint (value : string) : bool :=
  str_starts_with value "http://" || str_starts_with value "https://".

Definition ValidateStringArray (body : json) (field : string) : option string :=
  match j_lookup body field with
  | None => None
  | Some (JArray entries) =>
      if forallb non_empty_string entries then None
      else Some (field +:+ " entries must be non-empty strings")
  | Some _ => Some (field +:+ " must be an array")
  end.

Definition WorkgroupPolicyPayload (config : PlatformConfig) : json :=
  let w := workgroup config in
  obj [("enabled", JBool (workgroup_enabled w));
       ("workgroup_id", JString (workgroup_id w));
       ("trust_domain", JString (trust_domain w));
       ("registration_policy", JString (registration_policy w));
       ("registration_tenant", JString (registration_tenant w));
       ("registration_token_required", JBool (negb (is_empty (registration_token w))));
       ("allowed_registration_roles", strings ["operator"; "control-plane"; "cluster-registrar"]);
       ("allowed_read_roles",
        strings ["operator"; "control-plane"; "cluster-registrar"; "worker"; "mirror";
                 "registry-writer"])].

(** The first of [fields] the body lacks as a non-empty string. *)
Fixpoint first_missing_string (body : json) (fields : list string) : option string :=
  match fields with
  | [] => None
  | field :: rest => if negb (HasNonEmptyString body field) then Some (field +:+ " is required")
                     else first_missing_string body rest
  end.

(** A field the code reads as [body[field].get<std::string>()] after checking
    that it is a string. *)
Definition string_at (body : json) (field : string) : string :=
  match j_lookup body field with Some (JString s) => s | _ => EmptyString end.

Fixpoint first_bad_endpoint (body : json) (fields : list string) : option string :=
  match fields with
  | [] => None
  | field :: rest =>
      if HasNonEmptyString body field && negb (LooksLikeHttpEndpoint (string_at body field))
      then Some (field +:+ " must be an http or https endpoint")
      else first_bad_endpoint body rest
  end.

Definition safe_id_text : string :=
  " must start with a lowercase letter or digit and contain only lowercase letters, digits, hyphen, or underscore".

Definition optional_endpoints : list string :=
  ["registry_endpoint"; "mirror_endpoint"; "internal_control_plane_endpoint"].

Definition ValidateWorkgroupClusterRegistration (workgroup_id : string) (body : json)
  : option string :=
  if negb (IsSafeWorkgroupId workgroup_id) then Some ("workgroup_id" +:+ safe_id_text)
  else
    match first_missing_string body ["cluster_id"; "region"; "node_id"; "control_plane_endpoint"] with
    | Some error => Some error
    | None =>
        if negb (IsSafeWorkgroupId (string_at body "cluster_id"))
        then Some ("cluster_id" +:+ safe_id_text)
        else if negb (LooksLikeHttpEndpoint (string_at body "control_plane_endpoint"))
        then Some "control_plane_endpoint must be an http or https endpoint"
        else
          match first_bad_endpoint body optional_endpoints with
          | Some error => Some error
          | None =>
              match ValidateStringArray body "roles" with
              | Some error => Some error
              | None =>
                  match j_lookup body "labels" with
                  | Some labels => if negb (is_object labels)
                                   then Some "labels must be an object when present" else None
                  | None => None
                  end
              end
          end
    end.

(** [get<std::vector<std::string>>]. *)
Fixpoint get_string_list (l : list json) : exn + list string :=
  match l with
  | [] => inr []
  | j :: l => s <-? get_string j ;; rest <-? get_string_list l ;; inr (s :: rest)
  end.
Definition get_strings (j : json) : exn + list string :=
  match j with JArray l => get_string_list l | _ => inl (JsonTypeError 302 j) end.

Definition anonymous_identity : json :=
  obj [("role", JString "anonymous"); ("tenant_id", JString "anonymous");
       ("node_id", JString "anonymous")].

(** The closing loop of [BuildWorkgroupClusterRecord]. *)
Fixpoint add_endpoints (body : json) (fields : list string) (record : json) : json :=
  match fields with
  | [] => record
  | field :: rest =>
      add_endpoints body rest
        (j_set_if (HasNonEmptyString body field) field (JString (string_at body field)) record)
  end.

Definition BuildWorkgroupClusterRecord (workgroup_id : string) (body : json)
    (config : PlatformConfig) (identity : option MtlsIdentity) : exn + json :=
  roles <-? value_or get_strings body "roles" (roles config) ;;
  cluster_id <-? field_string body "cluster_id" ;;
  region <-? field_string body "region" ;;
  node_id <-? field_string body "node_id" ;;
  control_plane_endpoint <-? field_string body "control_plane_endpoint" ;;
  labels <-? value_json body "labels" (obj []) ;;
  domain <-? value_string body "trust_domain" (trust_domain (workgroup config)) ;;
  inr (add_endpoints body optional_endpoints
    (obj [("workgroup_id", JString workgroup_id);
          ("cluster_id", JString cluster_id);
          ("region", JString region);
          ("node_id", JString node_id);
          ("control_plane_endpoint", JString control_plane_endpoint);
          ("roles", strings roles);
          ("labels", labels);
          ("trust_domain", JString domain);
          ("registration_policy", JString (registration_policy (workgroup config)));
          ("status", JString "registered");
          ("registered_by", match identity with
                            | Some i => SerializeMtlsIdentity i
                            | None => anonymous_identity
                            end)])).

Definition HexBytes (data : list Z) : string :=
  fold_right (fun byte text => hex_fixed 2 byte +:+ text) EmptyString data.

Definition Sha256Bytes `{Host} (payload : string) : string := HexBytes (openssl_SHA256 payload).

Definition RequestSubject `{Host} (request : HttpRequest) : string :=
  match req_identity request with
  | Some identity => node_id identity
  | None =>
      match RegistryTokenFromHeaders (req_headers request) with
      | Some token => "token:" +:+ str_take 12 (Sha256Bytes token)
      | None => "anonymous"
      end
  end.

(** * Lemmas *)

Lemma HasNonEmptyString_lookup body field :
  HasNonEmptyString body field = true ->
  exists s, j_lookup body field = Some (JString s) /\ s <> EmptyString.
Proof.
  unfold HasNonEmptyString. destruct (j_lookup body field) as [[]|]; try done.
  intros H%negb_true_iff%is_empty_false. by eexists.
Qed.

Lemma value_string_lookup body key text d :
  j_lookup body key = Some (JString text) -> value_string body key d = inr text.
Proof. destruct body; cbn; try done. unfold value_string, value_or. by intros ->. Qed.
