(* ===== verification/PostgresSql.v ===== *)
(** The SQL of the PostgreSQL store
    ([PlatformStorage/PlatformPersistence/PostgresStore.cpp]): its statements and the
    migrations of the schema, text for text. *)
From stdpp Require Import base list strings.
From Stdlib Require Import Ascii String.
From S2P Require Import Prelude.

Definition double_quote : string := String (ascii_of_nat 34) EmptyString.
Definition UtcTimestampSql (column : string) : string :=
  "to_char(" +:+ column +:+ " AT TIME ZONE 'UTC', 'YYYY-MM-DD" +:+ double_quote +:+ "T" +:+ double_quote
  +:+ "HH24:MI:SS" +:+ double_quote +:+ "Z" +:+ double_quote +:+ "')".

Definition JobSelectSql (where_clause : string) : string :=
  "SELECT job_id, tenant_id, user_id, workspace_id, action, status, region, worker_pool_key, "
    +:+ "worker_id, request::text AS request_text, "
    +:+ UtcTimestampSql "created_at"
    +:+ " AS created_at_text, "
    +:+ "COALESCE("
    +:+ UtcTimestampSql "finished_at"
    +:+ ", '') AS finished_at_text "
    +:+ "FROM platform_jobs "
    +:+ where_clause.
Definition CompileContainerSelectSql (where_clause : string) : string :=
  "SELECT container_id, worker_id, tenant_id, user_id, current_workspace_id, region, worker_pool_key, "
    +:+ "status, capacity::text AS capacity, workspace_generation::text AS workspace_generation, "
    +:+ UtcTimestampSql "created_at"
    +:+ " AS created_at_text, "
    +:+ "COALESCE("
    +:+ UtcTimestampSql "last_switched_at"
    +:+ ", '') AS last_switched_at_text, "
    +:+ "COALESCE(last_switch_reason, '') AS last_switch_reason "
    +:+ "FROM platform_compile_containers "
    +:+ where_clause.
Definition RegistryPackageSelectSql (where_clause : string) : string :=
  "SELECT package_id, namespace, name, "
    +:+ UtcTimestampSql "created_at"
    +:+ " AS created_at_text, "
    +:+ "created_by, visibility FROM platform_packages "
    +:+ where_clause.
Definition RegistryReleaseSelectSql (where_clause : string) : string :=
  "SELECT package_id, version, edition, manifest_sha256, source_artifact_sha256, "
    +:+ "dependencies::text AS dependencies_text, publisher_id, "
    +:+ UtcTimestampSql "published_at"
    +:+ " AS published_at_text, yanked::text AS yanked, yanked_reason "
    +:+ "FROM platform_package_releases "
    +:+ where_clause.
Definition RegistryTokenSelectSql (where_clause : string) : string :=
  "SELECT token_id, token_hash, owner_id, scopes::text AS scopes_text, "
    +:+ "package_patterns::text AS package_patterns_text, "
    +:+ "COALESCE("
    +:+ UtcTimestampSql "expires_at"
    +:+ ", '') AS expires_at_text, "
    +:+ "COALESCE("
    +:+ UtcTimestampSql "revoked_at"
    +:+ ", '') AS revoked_at_text, "
    +:+ UtcTimestampSql "created_at"
    +:+ " AS created_at_text "
    +:+ "FROM platform_publish_tokens "
    +:+ where_clause.
Definition sql_artifacts : string :=
  "SELECT artifact_id, object_key, kind FROM platform_artifacts WHERE job_id = $1 ORDER BY artifact_id ASC".
Definition cloud_kernel : string :=
  "
CREATE TABLE IF NOT EXISTS platform_tenants (
  tenant_id TEXT PRIMARY KEY,
  created_at TIMESTAMPTZ NOT NULL DEFAULT now()
);

CREATE TABLE IF NOT EXISTS platform_nodes (
  node_id TEXT PRIMARY KEY,
  region TEXT NOT NULL,
  roles JSONB NOT NULL,
  last_seen_at TIMESTAMPTZ NOT NULL DEFAULT now()
);

CREATE TABLE IF NOT EXISTS platform_workers (
  worker_id TEXT PRIMARY KEY,
  region TEXT NOT NULL,
  worker_pool_key TEXT NOT NULL,
  status TEXT NOT NULL,
  capacity INTEGER NOT NULL,
  last_seen_at TIMESTAMPTZ NOT NULL DEFAULT now()
);

CREATE TABLE IF NOT EXISTS platform_compile_containers (
  container_id TEXT PRIMARY KEY,
  worker_id TEXT NOT NULL REFERENCES platform_workers(worker_id),
  tenant_id TEXT NOT NULL,
  user_id TEXT NOT NULL,
  current_workspace_id TEXT NOT NULL,
  region TEXT NOT NULL,
  worker_pool_key TEXT NOT NULL,
  status TEXT NOT NULL,
  capacity INTEGER NOT NULL,
  workspace_generation INTEGER NOT NULL DEFAULT 1,
  created_at TIMESTAMPTZ NOT NULL DEFAULT now(),
  updated_at TIMESTAMPTZ NOT NULL DEFAULT now(),
  last_switched_at TIMESTAMPTZ,
  last_switch_reason TEXT
);

CREATE INDEX IF NOT EXISTS platform_compile_containers_worker_idx
  ON platform_compile_containers (worker_id, region, worker_pool_key, status);

CREATE INDEX IF NOT EXISTS platform_compile_containers_binding_idx
  ON platform_compile_containers (tenant_id, user_id, status);

CREATE SEQUENCE IF NOT EXISTS platform_job_id_seq;

CREATE TABLE IF NOT EXISTS platform_jobs (
  job_id TEXT PRIMARY KEY,
  tenant_id TEXT NOT NULL REFERENCES platform_tenants(tenant_id),
  user_id TEXT NOT NULL DEFAULT 'unbound-user',
  workspace_id TEXT NOT NULL,
  action TEXT NOT NULL,
  status TEXT NOT NULL,
  region TEXT NOT NULL,
  worker_pool_key TEXT NOT NULL,
  worker_id TEXT,
  request JSONB NOT NULL,
  result JSONB,
  created_at TIMESTAMPTZ NOT NULL DEFAULT now(),
  updated_at TIMESTAMPTZ NOT NULL DEFAULT now(),
  finished_at TIMESTAMPTZ
);

CREATE INDEX IF NOT EXISTS platform_jobs_claim_idx
  ON platform_jobs (status, region, worker_pool_key, created_at);

CREATE INDEX IF NOT EXISTS platform_jobs_claim_user_idx
  ON platform_jobs (status, region, worker_pool_key, tenant_id, user_id, created_at);

CREATE TABLE IF NOT EXISTS platform_job_events (
  event_id BIGSERIAL PRIMARY KEY,
  job_id TEXT NOT NULL REFERENCES platform_jobs(job_id),
  status TEXT NOT NULL,
  message TEXT NOT NULL,
  created_at TIMESTAMPTZ NOT NULL DEFAULT now()
);

CREATE TABLE IF NOT EXISTS platform_artifacts (
  artifact_id TEXT PRIMARY KEY,
  job_id TEXT NOT NULL REFERENCES platform_jobs(job_id),
  object_key TEXT NOT NULL,
  kind TEXT NOT NULL,
  created_at TIMESTAMPTZ NOT NULL DEFAULT now()
);

CREATE TABLE IF NOT EXISTS platform_mirror_cursors (
  mirror_id TEXT PRIMARY KEY,
  region TEXT NOT NULL,
  origin TEXT NOT NULL,
  freshness TEXT NOT NULL,
  replay_cursor TEXT NOT NULL,
  updated_at TIMESTAMPTZ NOT NULL DEFAULT now()
);

CREATE TABLE IF NOT EXISTS platform_workgroup_clusters (
  workgroup_id TEXT NOT NULL,
  cluster_id TEXT NOT NULL,
  region TEXT NOT NULL,
  node_id TEXT NOT NULL,
  control_plane_endpoint TEXT NOT NULL,
  registry_endpoint TEXT,
  mirror_endpoint TEXT,
  internal_control_plane_endpoint TEXT,
  roles JSONB NOT NULL,
  labels JSONB NOT NULL,
  trust_domain TEXT NOT NULL,
  registration_policy TEXT NOT NULL,
  status TEXT NOT NULL,
  registered_by JSONB NOT NULL,
  updated_at TIMESTAMPTZ NOT NULL DEFAULT now(),
  PRIMARY KEY (workgroup_id, cluster_id)
);

CREATE INDEX IF NOT EXISTS platform_workgroup_clusters_region_idx
  ON platform_workgroup_clusters (workgroup_id, region, status);
".
Definition user_bound_compile_containers : string :=
  "
ALTER TABLE platform_jobs
  ADD COLUMN IF NOT EXISTS user_id TEXT NOT NULL DEFAULT 'unbound-user';

CREATE TABLE IF NOT EXISTS platform_compile_containers (
  container_id TEXT PRIMARY KEY,
  worker_id TEXT NOT NULL REFERENCES platform_workers(worker_id),
  tenant_id TEXT NOT NULL,
  user_id TEXT NOT NULL,
  current_workspace_id TEXT NOT NULL,
  region TEXT NOT NULL,
  worker_pool_key TEXT NOT NULL,
  status TEXT NOT NULL,
  capacity INTEGER NOT NULL,
  workspace_generation INTEGER NOT NULL DEFAULT 1,
  created_at TIMESTAMPTZ NOT NULL DEFAULT now(),
  updated_at TIMESTAMPTZ NOT NULL DEFAULT now(),
  last_switched_at TIMESTAMPTZ,
  last_switch_reason TEXT
);

CREATE INDEX IF NOT EXISTS platform_compile_containers_worker_idx
  ON platform_compile_containers (worker_id, region, worker_pool_key, status);

CREATE INDEX IF NOT EXISTS platform_compile_containers_binding_idx
  ON platform_compile_containers (tenant_id, user_id, status);

CREATE INDEX IF NOT EXISTS platform_jobs_claim_user_idx
  ON platform_jobs (status, region, worker_pool_key, tenant_id, user_id, created_at);
".
Definition package_registry_repository_model : string :=
  "
ALTER TABLE platform_mirror_cursors
  ADD COLUMN IF NOT EXISTS publication_id TEXT NOT NULL DEFAULT '',
  ADD COLUMN IF NOT EXISTS repository_version_id TEXT NOT NULL DEFAULT '',
  ADD COLUMN IF NOT EXISTS synced_at TIMESTAMPTZ,
  ADD COLUMN IF NOT EXISTS tree_size INTEGER NOT NULL DEFAULT 0;

CREATE TABLE IF NOT EXISTS platform_packages (
  package_id TEXT PRIMARY KEY,
  namespace TEXT NOT NULL,
  name TEXT NOT NULL,
  created_at TIMESTAMPTZ NOT NULL DEFAULT now(),
  created_by TEXT NOT NULL,
  visibility TEXT NOT NULL,
  UNIQUE(namespace, name)
);

CREATE TABLE IF NOT EXISTS platform_package_releases (
  package_id TEXT NOT NULL REFERENCES platform_packages(package_id),
  version TEXT NOT NULL,
  edition TEXT NOT NULL,
  manifest_sha256 TEXT NOT NULL,
  source_artifact_sha256 TEXT NOT NULL,
  dependencies JSONB NOT NULL,
  publisher_id TEXT NOT NULL,
  published_at TIMESTAMPTZ NOT NULL DEFAULT now(),
  yanked BOOLEAN NOT NULL DEFAULT false,
  yanked_reason TEXT NOT NULL DEFAULT '',
  PRIMARY KEY (package_id, version)
);

CREATE TABLE IF NOT EXISTS platform_package_owners (
  package_id TEXT NOT NULL REFERENCES platform_packages(package_id),
  owner_id TEXT NOT NULL,
  owner_kind TEXT NOT NULL,
  role TEXT NOT NULL,
  added_by TEXT NOT NULL,
  added_at TIMESTAMPTZ NOT NULL DEFAULT now(),
  PRIMARY KEY (package_id, owner_id)
);

CREATE TABLE IF NOT EXISTS platform_publish_tokens (
  token_id TEXT PRIMARY KEY,
  token_hash TEXT NOT NULL UNIQUE,
  owner_id TEXT NOT NULL,
  scopes JSONB NOT NULL,
  package_patterns JSONB NOT NULL,
  expires_at TIMESTAMPTZ,
  revoked_at TIMESTAMPTZ,
  created_at TIMESTAMPTZ NOT NULL DEFAULT now()
);

CREATE SEQUENCE IF NOT EXISTS platform_publish_token_id_seq;

CREATE TABLE IF NOT EXISTS platform_repositories (
  repository_id TEXT PRIMARY KEY,
  name TEXT NOT NULL,
  tenant_id TEXT NOT NULL,
  policy JSONB NOT NULL,
  created_at TIMESTAMPTZ NOT NULL DEFAULT now()
);

CREATE TABLE IF NOT EXISTS platform_repository_versions (
  repository_version_id TEXT PRIMARY KEY,
  repository_id TEXT NOT NULL REFERENCES platform_repositories(repository_id),
  sequence INTEGER NOT NULL,
  change_kind TEXT NOT NULL,
  change_ref TEXT NOT NULL,
  created_at TIMESTAMPTZ NOT NULL DEFAULT now(),
  UNIQUE(repository_id, sequence)
);

CREATE TABLE IF NOT EXISTS platform_publications (
  publication_id TEXT PRIMARY KEY,
  repository_version_id TEXT NOT NULL REFERENCES platform_repository_versions(repository_version_id),
  layout_version INTEGER NOT NULL,
  root_path TEXT NOT NULL,
  manifest_sha256 TEXT NOT NULL,
  tree_size INTEGER NOT NULL,
  created_at TIMESTAMPTZ NOT NULL DEFAULT now(),
  verified BOOLEAN NOT NULL DEFAULT false
);

CREATE TABLE IF NOT EXISTS platform_distributions (
  distribution_id TEXT PRIMARY KEY,
  repository_id TEXT NOT NULL REFERENCES platform_repositories(repository_id),
  name TEXT NOT NULL,
  base_url TEXT NOT NULL,
  current_publication_id TEXT,
  previous_publication_id TEXT,
  updated_at TIMESTAMPTZ NOT NULL DEFAULT now()
);

CREATE TABLE IF NOT EXISTS platform_registry_audit_events (
  event_id TEXT PRIMARY KEY,
  actor_id TEXT NOT NULL,
  operation TEXT NOT NULL,
  target JSONB NOT NULL,
  request_id TEXT NOT NULL,
  result TEXT NOT NULL,
  created_at TIMESTAMPTZ NOT NULL DEFAULT now()
);

CREATE SEQUENCE IF NOT EXISTS platform_registry_audit_event_id_seq;
".
Definition ClaimJobSql : string :=
  "
WITH candidate AS (
  SELECT job_id
  FROM platform_jobs
  WHERE status = 'queued'
    AND region = $1
    AND worker_pool_key = $2
  ORDER BY created_at ASC
  LIMIT 1
  FOR UPDATE SKIP LOCKED
)
UPDATE platform_jobs
SET status = 'running',
    worker_id = $3,
    updated_at = now()
WHERE job_id IN (SELECT job_id FROM candidate)
RETURNING *;
".
Definition CompleteJobSql : string :=
  "
UPDATE platform_jobs
SET status = $2,
    result = $3::jsonb,
    updated_at = now(),
    finished_at = now()
WHERE job_id = $1
  AND worker_id = $4
  AND status = 'running'
RETURNING *;
".
Definition sql_upsert_node : string :=
  "INSERT INTO platform_nodes (node_id, region, roles, last_seen_at) "
    +:+ "VALUES ($1, $2, $3::jsonb, now()) "
    +:+ "ON CONFLICT (node_id) DO UPDATE SET region = EXCLUDED.region, roles = EXCLUDED.roles, last_seen_at = now()".
Definition sql_next_job : string :=
  "SELECT nextval('platform_job_id_seq')::text AS job_id_seq".
Definition sql_insert_tenant : string :=
  "INSERT INTO platform_tenants (tenant_id) VALUES ($1) ON CONFLICT (tenant_id) DO NOTHING".
Definition sql_insert_job : string :=
  "INSERT INTO platform_jobs "
    +:+ "(job_id, tenant_id, user_id, workspace_id, action, status, region, worker_pool_key, request, updated_at) "
    +:+ "VALUES ($1, $2, $3, $4, $5, $6, $7, $8, $9::jsonb, now()) "
    +:+ "ON CONFLICT (job_id) DO UPDATE SET status = EXCLUDED.status, worker_id = NULL, "
    +:+ "user_id = EXCLUDED.user_id, workspace_id = EXCLUDED.workspace_id, request = EXCLUDED.request, updated_at = now(), finished_at = NULL".
Definition sql_insert_event : string :=
  "INSERT INTO platform_job_events (job_id, status, message) VALUES ($1, $2, $3)".
Definition sql_job_events : string :=
  "SELECT event_id::text, job_id, status, message, "
    +:+ UtcTimestampSql "created_at"
    +:+ " AS created_at_text FROM platform_job_events WHERE job_id = $1 ORDER BY event_id ASC".
Definition sql_cancel_job : string :=
  "UPDATE platform_jobs SET status = 'cancelled', updated_at = now(), finished_at = now() "
    +:+ "WHERE job_id = $1 AND status IN ('queued', 'running') RETURNING job_id".
Definition sql_upsert_worker : string :=
  "INSERT INTO platform_workers (worker_id, region, worker_pool_key, status, capacity, last_seen_at) "
    +:+ "VALUES ($1, $2, $3, $4, $5::int, now()) "
    +:+ "ON CONFLICT (worker_id) DO UPDATE SET region = EXCLUDED.region, worker_pool_key = EXCLUDED.worker_pool_key, "
    +:+ "status = EXCLUDED.status, capacity = EXCLUDED.capacity, last_seen_at = now()".
Definition sql_registered_worker : string :=
  "SELECT worker_id FROM platform_workers WHERE worker_id = $1 AND region = $2 AND worker_pool_key = $3".
Definition sql_lock_container : string :=
  "SELECT worker_id, tenant_id, user_id FROM platform_compile_containers WHERE container_id = $1 FOR UPDATE".
Definition sql_upsert_container : string :=
  "INSERT INTO platform_compile_containers "
    +:+ "(container_id, worker_id, tenant_id, user_id, current_workspace_id, region, worker_pool_key, status, capacity, updated_at) "
    +:+ "VALUES ($1, $2, $3, $4, $5, $6, $7, $8, $9::int, now()) "
    +:+ "ON CONFLICT (container_id) DO UPDATE SET worker_id = EXCLUDED.worker_id, "
    +:+ "current_workspace_id = EXCLUDED.current_workspace_id, region = EXCLUDED.region, "
    +:+ "worker_pool_key = EXCLUDED.worker_pool_key, status = EXCLUDED.status, capacity = EXCLUDED.capacity, updated_at = now()".
Definition sql_switch_container : string :=
  "UPDATE platform_compile_containers "
    +:+ "SET workspace_generation = CASE WHEN current_workspace_id = $3 THEN workspace_generation ELSE workspace_generation + 1 END, "
    +:+ "current_workspace_id = $3, "
    +:+ "last_switched_at = CASE WHEN current_workspace_id = $3 THEN last_switched_at ELSE now() END, "
    +:+ "last_switch_reason = CASE WHEN current_workspace_id = $3 THEN last_switch_reason ELSE $4 END, "
    +:+ "updated_at = now() "
    +:+ "WHERE container_id = $1 AND worker_id = $2 AND status = 'active' "
    +:+ "RETURNING container_id".
Definition sql_claim_for_container : string :=
  "
WITH candidate AS (
  SELECT job_id
  FROM platform_jobs
  WHERE status = 'queued'
    AND region = $1
    AND worker_pool_key = $2
    AND tenant_id = $4
    AND user_id = $5
  ORDER BY created_at ASC
  LIMIT 1
  FOR UPDATE SKIP LOCKED
)
UPDATE platform_jobs
SET status = 'running',
    worker_id = $3,
    updated_at = now()
WHERE job_id IN (SELECT job_id FROM candidate)
RETURNING job_id, workspace_id;
".
Definition sql_follow_job : string :=
  "UPDATE platform_compile_containers "
    +:+ "SET current_workspace_id = $3, workspace_generation = workspace_generation + 1, "
    +:+ "last_switched_at = now(), last_switch_reason = 'claimJob', updated_at = now() "
    +:+ "WHERE container_id = $1 AND worker_id = $2".
Definition sql_heartbeat : string :=
  "UPDATE platform_jobs SET updated_at = now() WHERE job_id = $1 AND worker_id = $2 AND status = 'running' RETURNING job_id".
Definition sql_delete_artifacts : string :=
  "DELETE FROM platform_artifacts WHERE job_id = $1".
Definition sql_insert_artifact : string :=
  "INSERT INTO platform_artifacts (artifact_id, job_id, object_key, kind) VALUES ($1, $2, $3, $4)".
Definition sql_upsert_cluster : string :=
  "INSERT INTO platform_workgroup_clusters "
    +:+ "(workgroup_id, cluster_id, region, node_id, control_plane_endpoint, registry_endpoint, mirror_endpoint, "
    +:+ "internal_control_plane_endpoint, roles, labels, trust_domain, registration_policy, status, registered_by, updated_at) "
    +:+ "VALUES ($1, $2, $3, $4, $5, NULLIF($6, ''), NULLIF($7, ''), NULLIF($8, ''), "
    +:+ "$9::jsonb, $10::jsonb, $11, $12, $13, $14::jsonb, now()) "
    +:+ "ON CONFLICT (workgroup_id, cluster_id) DO UPDATE SET "
    +:+ "region = EXCLUDED.region, node_id = EXCLUDED.node_id, control_plane_endpoint = EXCLUDED.control_plane_endpoint, "
    +:+ "registry_endpoint = EXCLUDED.registry_endpoint, mirror_endpoint = EXCLUDED.mirror_endpoint, "
    +:+ "internal_control_plane_endpoint = EXCLUDED.internal_control_plane_endpoint, roles = EXCLUDED.roles, labels = EXCLUDED.labels, "
    +:+ "trust_domain = EXCLUDED.trust_domain, registration_policy = EXCLUDED.registration_policy, "
    +:+ "status = EXCLUDED.status, registered_by = EXCLUDED.registered_by, updated_at = now()".
Definition sql_clusters : string :=
  "SELECT workgroup_id, cluster_id, region, node_id, control_plane_endpoint, "
    +:+ "COALESCE(registry_endpoint, '') AS registry_endpoint, "
    +:+ "COALESCE(mirror_endpoint, '') AS mirror_endpoint, "
    +:+ "COALESCE(internal_control_plane_endpoint, '') AS internal_control_plane_endpoint, "
    +:+ "roles::text AS roles_text, labels::text AS labels_text, trust_domain, registration_policy, status, "
    +:+ "registered_by::text AS registered_by_text, "
    +:+ UtcTimestampSql "updated_at"
    +:+ " AS updated_at_text "
    +:+ "FROM platform_workgroup_clusters WHERE workgroup_id = $1 ORDER BY cluster_id ASC".
Definition sql_upsert_mirror : string :=
  "INSERT INTO platform_mirror_cursors "
    +:+ "(mirror_id, region, origin, freshness, replay_cursor, publication_id, repository_version_id, synced_at, tree_size, updated_at) "
    +:+ "VALUES ($1, $2, $3, $4, $5, $6, $7, NULLIF($8, '')::timestamptz, $9::integer, now()) "
    +:+ "ON CONFLICT (mirror_id) DO UPDATE SET region = EXCLUDED.region, origin = EXCLUDED.origin, "
    +:+ "freshness = EXCLUDED.freshness, replay_cursor = EXCLUDED.replay_cursor, publication_id = EXCLUDED.publication_id, "
    +:+ "repository_version_id = EXCLUDED.repository_version_id, synced_at = EXCLUDED.synced_at, tree_size = EXCLUDED.tree_size, updated_at = now()".
Definition sql_mirror : string :=
  "SELECT mirror_id, region, origin, freshness, replay_cursor, publication_id, repository_version_id, "
    +:+ "COALESCE("
    +:+ UtcTimestampSql "synced_at"
    +:+ ", '') AS synced_at_text, tree_size::text AS tree_size "
    +:+ "FROM platform_mirror_cursors WHERE mirror_id = $1".
Definition sql_upsert_package : string :=
  "INSERT INTO platform_packages (package_id, namespace, name, created_at, created_by, visibility) "
    +:+ "VALUES ($1, $2, $3, NULLIF($4, '')::timestamptz, $5, $6) "
    +:+ "ON CONFLICT (package_id) DO UPDATE SET namespace = EXCLUDED.namespace, name = EXCLUDED.name, "
    +:+ "created_by = EXCLUDED.created_by, visibility = EXCLUDED.visibility".
Definition sql_upsert_release : string :=
  "INSERT INTO platform_package_releases "
    +:+ "(package_id, version, edition, manifest_sha256, source_artifact_sha256, dependencies, publisher_id, published_at, yanked, yanked_reason) "
    +:+ "VALUES ($1, $2, $3, $4, $5, $6::jsonb, $7, NULLIF($8, '')::timestamptz, $9::boolean, $10) "
    +:+ "ON CONFLICT (package_id, version) DO UPDATE SET edition = EXCLUDED.edition, manifest_sha256 = EXCLUDED.manifest_sha256, "
    +:+ "source_artifact_sha256 = EXCLUDED.source_artifact_sha256, dependencies = EXCLUDED.dependencies, "
    +:+ "publisher_id = EXCLUDED.publisher_id, yanked = EXCLUDED.yanked, yanked_reason = EXCLUDED.yanked_reason".
Definition sql_yank_release : string :=
  "UPDATE platform_package_releases SET yanked = $3::boolean, yanked_reason = $4 "
    +:+ "WHERE package_id = $1 AND version = $2 RETURNING package_id".
Definition sql_upsert_owner : string :=
  "INSERT INTO platform_package_owners (package_id, owner_id, owner_kind, role, added_by, added_at) "
    +:+ "VALUES ($1, $2, $3, $4, $5, NULLIF($6, '')::timestamptz) "
    +:+ "ON CONFLICT (package_id, owner_id) DO UPDATE SET owner_kind = EXCLUDED.owner_kind, "
    +:+ "role = EXCLUDED.role, added_by = EXCLUDED.added_by".
Definition sql_delete_owner : string :=
  "DELETE FROM platform_package_owners WHERE package_id = $1 AND owner_id = $2 RETURNING owner_id".
Definition sql_has_owner : string :=
  "SELECT owner_id FROM platform_package_owners WHERE package_id = $1 AND owner_id = $2".
Definition sql_owners : string :=
  "SELECT package_id, owner_id, owner_kind, role, added_by, "
    +:+ UtcTimestampSql "added_at"
    +:+ " AS added_at_text FROM platform_package_owners "
    +:+ "WHERE package_id = $1 ORDER BY owner_id ASC".
Definition sql_next_token : string :=
  "SELECT nextval('platform_publish_token_id_seq')::text AS token_sequence".
Definition sql_upsert_token : string :=
  "INSERT INTO platform_publish_tokens "
    +:+ "(token_id, token_hash, owner_id, scopes, package_patterns, expires_at, revoked_at, created_at) "
    +:+ "VALUES ($1, $2, $3, $4::jsonb, $5::jsonb, NULLIF($6, '')::timestamptz, NULLIF($7, '')::timestamptz, NULLIF($8, '')::timestamptz) "
    +:+ "ON CONFLICT (token_id) DO UPDATE SET token_hash = EXCLUDED.token_hash, owner_id = EXCLUDED.owner_id, "
    +:+ "scopes = EXCLUDED.scopes, package_patterns = EXCLUDED.package_patterns, expires_at = EXCLUDED.expires_at, "
    +:+ "revoked_at = EXCLUDED.revoked_at".
Definition sql_revoke_token : string :=
  "UPDATE platform_publish_tokens SET revoked_at = NULLIF($2, '')::timestamptz WHERE token_id = $1 RETURNING token_id".
Definition sql_next_version : string :=
  "SELECT COALESCE(MAX(sequence), 0)::text AS max_sequence FROM platform_repository_versions WHERE repository_id = $1".
Definition sql_upsert_repository : string :=
  "INSERT INTO platform_repositories (repository_id, name, tenant_id, policy, created_at) "
    +:+ "VALUES ($1, $2, $3, $4::jsonb, NULLIF($5, '')::timestamptz) "
    +:+ "ON CONFLICT (repository_id) DO UPDATE SET name = EXCLUDED.name, tenant_id = EXCLUDED.tenant_id, policy = EXCLUDED.policy".
Definition sql_repositories : string :=
  "SELECT repository_id, name, tenant_id, policy::text AS policy_text, "
    +:+ UtcTimestampSql "created_at"
    +:+ " AS created_at_text FROM platform_repositories ORDER BY repository_id ASC".
Definition sql_insert_version : string :=
  "INSERT INTO platform_repository_versions "
    +:+ "(repository_version_id, repository_id, sequence, change_kind, change_ref, created_at) "
    +:+ "VALUES ($1, $2, $3::integer, $4, $5, NULLIF($6, '')::timestamptz) "
    +:+ "ON CONFLICT (repository_version_id) DO UPDATE SET change_kind = EXCLUDED.change_kind, change_ref = EXCLUDED.change_ref".
Definition sql_versions : string :=
  "SELECT repository_version_id, repository_id, sequence::text AS sequence, change_kind, change_ref, "
    +:+ UtcTimestampSql "created_at"
    +:+ " AS created_at_text FROM platform_repository_versions "
    +:+ "WHERE repository_id = $1 ORDER BY sequence ASC".
Definition sql_upsert_publication : string :=
  "INSERT INTO platform_publications "
    +:+ "(publication_id, repository_version_id, layout_version, root_path, manifest_sha256, tree_size, created_at, verified) "
    +:+ "VALUES ($1, $2, $3::integer, $4, $5, $6::integer, NULLIF($7, '')::timestamptz, $8::boolean) "
    +:+ "ON CONFLICT (publication_id) DO UPDATE SET root_path = EXCLUDED.root_path, manifest_sha256 = EXCLUDED.manifest_sha256, "
    +:+ "tree_size = EXCLUDED.tree_size, verified = EXCLUDED.verified".
Definition sql_publication : string :=
  "SELECT publication_id, repository_version_id, layout_version::text AS layout_version, root_path, "
    +:+ "manifest_sha256, tree_size::text AS tree_size, "
    +:+ UtcTimestampSql "created_at"
    +:+ " AS created_at_text, verified::text AS verified "
    +:+ "FROM platform_publications WHERE publication_id = $1".
Definition sql_publications : string :=
  "SELECT publication_id, repository_version_id, layout_version::text AS layout_version, root_path, "
    +:+ "manifest_sha256, tree_size::text AS tree_size, "
    +:+ UtcTimestampSql "created_at"
    +:+ " AS created_at_text, verified::text AS verified "
    +:+ "FROM platform_publications ORDER BY created_at ASC, publication_id ASC".
Definition sql_upsert_distribution : string :=
  "INSERT INTO platform_distributions "
    +:+ "(distribution_id, repository_id, name, base_url, current_publication_id, previous_publication_id, updated_at) "
    +:+ "VALUES ($1, $2, $3, $4, NULLIF($5, ''), NULLIF($6, ''), NULLIF($7, '')::timestamptz) "
    +:+ "ON CONFLICT (distribution_id) DO UPDATE SET repository_id = EXCLUDED.repository_id, name = EXCLUDED.name, "
    +:+ "base_url = EXCLUDED.base_url, current_publication_id = EXCLUDED.current_publication_id, "
    +:+ "previous_publication_id = EXCLUDED.previous_publication_id, updated_at = EXCLUDED.updated_at".
Definition sql_distribution : string :=
  "SELECT distribution_id, repository_id, name, base_url, "
    +:+ "COALESCE(current_publication_id, '') AS current_publication_id, "
    +:+ "COALESCE(previous_publication_id, '') AS previous_publication_id, "
    +:+ UtcTimestampSql "updated_at"
    +:+ " AS updated_at_text "
    +:+ "FROM platform_distributions WHERE distribution_id = $1".
Definition sql_distributions : string :=
  "SELECT distribution_id, repository_id, name, base_url, "
    +:+ "COALESCE(current_publication_id, '') AS current_publication_id, "
    +:+ "COALESCE(previous_publication_id, '') AS previous_publication_id, "
    +:+ UtcTimestampSql "updated_at"
    +:+ " AS updated_at_text "
    +:+ "FROM platform_distributions ORDER BY distribution_id ASC".
Definition sql_next_audit : string :=
  "SELECT nextval('platform_registry_audit_event_id_seq')::text AS audit_sequence".
Definition sql_insert_audit : string :=
  "INSERT INTO platform_registry_audit_events "
    +:+ "(event_id, actor_id, operation, target, request_id, result, created_at) "
    +:+ "VALUES ($1, $2, $3, $4::jsonb, $5, $6, NULLIF($7, '')::timestamptz)".
Definition sql_audit_events : string :=
  "SELECT event_id, actor_id, operation, target::text AS target_text, request_id, result, "
    +:+ UtcTimestampSql "created_at"
    +:+ " AS created_at_text "
    +:+ "FROM platform_registry_audit_events ORDER BY created_at ASC, event_id ASC".
