(* ===== verification/Demo.v ===== *)
(** A concrete platform, on which theorems are applied to concrete inputs: a JSON
    library, a host and a PostgreSQL server that is always down. *)
From stdpp Require Import base list gmap strings.
From Stdlib Require Import ZArith Ascii String.
From S2P Require Import Prelude Json MemoryStateStore Http Config FileSystem RouterSupport.

Definition demo_json_lib : JsonLib :=
  {| json_parse := fun _ => None; json_dump := fun _ => inr EmptyString;
     json_dump_indented := fun _ => inr EmptyString;
     library_what := fun _ => "error"%string; float_to_Z := fun _ => 0;
     numbers_equal := fun _ _ => false |}.

Definition demo_file_host : FileHost :=
  {| working_directory := []; working_directory_plain := Forall_nil_2 plain; visit_order := fun l => l;
     visit_order_perm := fun l => Permutation_refl l |}.

(** A clock that counts up, a "hash" that keeps the text, constant "random" bytes. *)
Definition demo_host : Host :=
  {| host_files := demo_file_host;
     clock_unix_seconds := fun n => 1000 + Z.of_nat n;
     clock_utc_timestamp := fun _ _ => "2026-05-01T00:00:00Z"%string;
     openssl_SHA256 := fun text => map char_code (chars text);
     openssl_RAND_bytes := fun _ n => Some (replicate n 7) |}.

Definition pg_down {A} : M exn unit A := throw (PostgresStateStoreError "unavailable").
Definition demo_postgres : PostgresStore unit :=
  {| PostgresDriverAvailable := false; pg_connect := fun _ => tt; pg_NextJobId := pg_down;
     pg_SubmitJob := fun _ => pg_down; pg_GetJob := fun _ => pg_down;
     pg_GetJobEvents := fun _ => pg_down; pg_CancelJob := fun _ _ => pg_down;
     pg_RegisterWorker := fun _ => pg_down; pg_RegisterCompileContainer := fun _ => pg_down;
     pg_GetCompileContainer := fun _ => pg_down;
     pg_SwitchCompileContainerWorkspace := fun _ _ _ _ => pg_down;
     pg_ClaimJob := fun _ _ _ => pg_down; pg_ClaimJobForCompileContainer := fun _ _ _ _ => pg_down;
     pg_HeartbeatJob := fun _ _ _ => pg_down; pg_CompleteJob := fun _ _ _ _ _ _ => pg_down;
     pg_RegisterWorkgroupCluster := fun _ _ => pg_down;
     pg_ListWorkgroupClusters := fun _ => pg_down; pg_ListRegistryAuditEvents := pg_down;
     pg_GetMirrorState := fun _ => pg_down; pg_GetRegistryPackage := fun _ => pg_down;
     pg_ListRegistryPackageReleases := fun _ => pg_down;
     pg_GetRegistryPackageRelease := fun _ _ => pg_down;
     pg_AddRegistryPackageOwner := fun _ => pg_down;
     pg_RemoveRegistryPackageOwner := fun _ _ => pg_down;
     pg_HasRegistryPackageOwner := fun _ _ => pg_down;
     pg_ListRegistryPackageOwners := fun _ => pg_down; pg_NextRegistryTokenId := pg_down;
     pg_UpsertRegistryPublishToken := fun _ => pg_down;
     pg_GetRegistryPublishToken := fun _ => pg_down;
     pg_FindRegistryPublishTokenByHash := fun _ => pg_down;
     pg_ListRegistryPublishTokens := fun _ => pg_down;
     pg_RevokeRegistryPublishToken := fun _ _ => pg_down;
     pg_ListRegistryRepositories := pg_down;
     pg_ListRegistryRepositoryVersions := fun _ => pg_down;
     pg_GetRegistryPublication := fun _ => pg_down; pg_ListRegistryDistributions := pg_down;
     pg_RecordMirrorState := fun _ _ _ _ _ _ _ _ _ => pg_down;
     pg_UpsertRegistryPackage := fun _ => pg_down;
     pg_UpsertRegistryPackageRelease := fun _ => pg_down;
     pg_SetRegistryPackageReleaseYanked := fun _ _ _ _ => pg_down;
     pg_NextRepositoryVersionSequence := fun _ => pg_down;
     pg_UpsertRegistryRepository := fun _ => pg_down;
     pg_RecordRegistryRepositoryVersion := fun _ => pg_down;
     pg_RecordRegistryPublication := fun _ => pg_down;
     pg_UpsertRegistryDistribution := fun _ => pg_down;
     pg_NextRegistryAuditEventId := pg_down; pg_RecordRegistryAuditEvent := fun _ => pg_down |}.
Definition demo_router (s : MemoryStateStore) : PlatformRouter unit :=
  mkRouter s None ∅ (mkMetrics 0 ∅ ∅) 0 0 ∅ [].
Definition demo_match (name value : string) : RouteMatch :=
  mkMatch (mkRoute "" Post "" false) {[ name := value ]}.
Definition demo_request (body : json) : HttpRequest := mkRequest Post "" ∅ body None.
