(* ===== verification/SourceBuildFacts.v ===== *)
(** Facts about building the compiler from its sources: what a build that succeeds
    leaves, when a compiler is reused, and which builds need no network. *)
From stdpp Require Import base list gmap strings.
From Stdlib Require Import ZArith Lia Ascii String.
From S2P Require Import Prelude Json Paths FileSystem Process RegistrySecurity CachePaths Agreement SourceFetch GitFetcher Toolchain SourceBuild Demo.

(** The revision a build is named after. *)
Definition build_revision (request : SourceBuildRequest) (source_root revision : string) : string :=
  if is_empty revision then default (SourceFetchSlug source_root) (asked_revision request) else revision.

Section Builds.
Context `{JsonLib} `{FileHost} `{ProgramHost} `{Terminal}.

Definition compiler_path (request : SourceBuildRequest) (spio_home revision : string)
  : exn + (string * string) :=
  build_root <-? SourceToolchainBuildRoot spio_home (build_channel request)
                   (SourceFetchSlug revision) (source_build_mode request) ;;
  compiler <-? CanonicalAbsolutePath (path_join (path_join build_root "bin") "styio") ;;
  inr (build_root, compiler).

(** A build whose source is found, by what it does next. *)
Lemma build_after_source request home w source_root revision fetched w1 build_root compiler :
  IsSupportedBuildMode (source_build_mode request) = true -> ResolveSpioHome = inr home ->
  locate_source request home w = (inr (source_root, revision, fetched), w1) ->
  compiler_path request home (build_revision request source_root revision) = inr (build_root, compiler) ->
  EnsureSourceBuiltStyio request w
  = (let present := exists_ (world_files w1) compiler in
     ((if present then m_ret tt else cmake_build source_root build_root) ;;;
      produced <- looks (fun t => exists_ t compiler) ;;
      if negb produced
      then throw (ToolError ("source-built styio compiler binary was not produced at " +:+ compiler))
      else m_ret (mkSourceBuilt source_root compiler (build_revision request source_root revision)
                    (build_channel request) (source_build_mode request) fetched (negb present))) w1).
Proof.
  intros Hs Hh Hl Hc. unfold EnsureSourceBuiltStyio. rewrite Hs. cbn [negb].
  unfold m_bind at 1, lift at 1. rewrite Hh. unfold m_bind at 1. rewrite Hl.
  unfold compiler_path in Hc. fold (build_revision request source_root revision).
  destruct (SourceToolchainBuildRoot _ _ _ _) as [|root]; [done|]. cbn [r_bind] in Hc.
  destruct (CanonicalAbsolutePath _) as [|binary] eqn:Eb; [done|]. cbn [r_bind] in Hc.
  apply (inj inr) in Hc. injection Hc as -> ->.
  unfold m_bind at 1, lift at 1. unfold m_bind at 1, lift at 1. rewrite Eb. reflexivity.
Qed.

Lemma build_inv request w result w' : EnsureSourceBuiltStyio request w = (inr result, w') ->
  exists home source_root revision fetched w1 build_root compiler,
    IsSupportedBuildMode (source_build_mode request) = true /\ ResolveSpioHome = inr home
    /\ locate_source request home w = (inr (source_root, revision, fetched), w1)
    /\ compiler_path request home (build_revision request source_root revision)
       = inr (build_root, compiler).
Proof.
  unfold EnsureSourceBuiltStyio. destruct (IsSupportedBuildMode _) eqn:Es; [|done]. cbn [negb]. intros Hr.
  run_step Hr home s1 Eh. unfold lift in Eh. injection Eh as Eh <-.
  run_step Hr source s2 El. destruct source as [[source_root revision] fetched].
  run_step Hr root s3 E3. unfold lift in E3. injection E3 as E3 <-.
  run_step Hr compiler s4 E4. unfold lift in E4. injection E4 as E4 <-.
  exists home, source_root, revision, fetched, s2, root, compiler. split_and!; try done.
  unfold compiler_path, build_revision. rewrite E3. cbn [r_bind]. by rewrite E4.
Qed.

(** C39. A source build that succeeds leaves a compiler.  The build mode is a supported
    one; the compiler is the file [bin/styio] of the directory named after the channel,
    the revision and the mode, and it is there when the build returns; nothing is run
    after the source was found unless the compiler was missing.  And compilers are
    reused by revision: whenever the source is found at that revision again and the
    compiler is still there, the same compiler is returned and nothing is built. *)
Theorem source_builds_leave_a_compiler request w result w' :
  EnsureSourceBuiltStyio request w = (inr result, w') ->
  exists home build_root,
    ResolveSpioHome = inr home
    /\ IsSupportedBuildMode (built_mode result) = true
    /\ compiler_path request home (built_revision result) = inr (build_root, compiler_binary result)
    /\ exists_ (world_files w') (compiler_binary result) = true
    /\ (built result = false -> exists revision,
          locate_source request home w = (inr (built_source_root result, revision, fetched result), w'))
    /\ forall w1 source_root revision fetched w2,
         locate_source request home w1 = (inr (source_root, revision, fetched), w2) ->
         build_revision request source_root revision = built_revision result ->
         exists_ (world_files w2) (compiler_binary result) = true ->
         EnsureSourceBuiltStyio request w1
         = (inr (mkSourceBuilt source_root (compiler_binary result) (built_revision result)
                   (built_channel result) (built_mode result) fetched false), w2).
Proof.
  intros Hr.
  destruct (build_inv _ _ _ _ Hr) as (home & root & revision & fetched & w1 & build_root & compiler & Hs & Hh & Hl & Hc).
  rewrite (build_after_source _ _ _ _ _ _ _ _ _ Hs Hh Hl Hc) in Hr. cbn zeta in Hr.
  run_step Hr [] w2 Eb. run_step Hr produced w3 Ep. unfold looks, gets in Ep. injection Ep as <- <-.
  destruct (exists_ (world_files w2) compiler) eqn:Ex; [|done]. cbn [negb] in Hr.
  injection Hr as <- <-. exists home, build_root.
  cbn [built_mode compiler_binary built_revision built built_source_root SourceBuild.fetched built_channel].
  split_and!; [done..| |].
  - intros Hb%negb_false_iff. rewrite Hb in Eb. injection Eb as <-. by exists revision.
  - intros v1 source rev f v2 Hl' Hrev Hex. rewrite <- Hrev in Hc |- *.
    rewrite (build_after_source _ _ _ _ _ _ _ _ _ Hs Hh Hl' Hc), Hex. cbn zeta.
    unfold m_bind, m_ret, looks, gets. by rewrite Hex.
Qed.
End Builds.

(** * Builds without a network *)

(** The programs that only work on the files of this machine: cmake, and git asking a
    work tree for its revision. *)
Definition build_program (request : ProcessRequest) : Prop :=
  program request = "cmake"%string
  \/ program request = "git"%string /\ args request = ["rev-parse"; "HEAD"]%string.

(** Where the source is found without asking its origin. *)
Definition no_origin_needed `{ProgramHost} (request : SourceBuildRequest) : Prop :=
  build_offline request = true \/ explicit_source_root request <> None
  \/ non_empty_env "SPIO_STYIO_SOURCE_ROOT" <> None.

Section NoNetwork.
Context `{JsonLib} `{FileHost} `{Terminal} (here there : ProgramHost).
Hypothesis Hsame : same_programs build_program here there.
Ltac agreeing := agreeing_with fail.

Lemma agree_revision_of root :
  agree (@TryResolveGitRevision _ here root) (@TryResolveGitRevision _ there root).
Proof.
  unfold TryResolveGitRevision. agreeing. apply (agree_run build_program); [done|]. by right.
Qed.
#[local] Hint Resolve agree_revision_of : offline.

Lemma agree_cmake args label timeout :
  agree (@RunChecked here "cmake" args label timeout) (@RunChecked there "cmake" args label timeout).
Proof. unfold RunChecked. agreeing. apply (agree_run build_program); [done|]. by left. Qed.
#[local] Hint Resolve agree_cmake : offline.

Lemma agree_given path :
  agree (@given_source_root _ here path) (@given_source_root _ there path).
Proof. unfold given_source_root. agreeing. Qed.
#[local] Hint Resolve agree_given : offline.

(** A guard that throws keeps what follows from running. *)
Lemma agree_guard {E S A} (b : bool) (stop : M E S unit) (k k' : unit -> M E S A) :
  (forall s, exists e s', stop s = (inl e, s')) -> (b = true -> agree (k tt) (k' tt)) ->
  agree (m_bind (if b then m_ret tt else stop) k) (m_bind (if b then m_ret tt else stop) k').
Proof.
  intros Hs Hk s. destruct b; [by apply Hk|]. unfold m_bind. by destruct (Hs s) as (e & s' & ->).
Qed.

Lemma agree_cached request home : build_offline request = true ->
  agree (@cached_source_root _ here _ request home) (@cached_source_root _ there _ request home).
Proof.
  intros Ho. unfold cached_source_root, OfficialSourceOrigin, non_empty_env.
  rewrite !(same_env _ _ _ Hsame), Ho. agree_step; [done|]. agree_step; [done|].
  apply agree_guard.
  - intros w. unfold ShouldFetchSource. rewrite Ho, orb_true_r. by eexists _, _.
  - intros ->. agree_step; [|agreeing]. agree_step; [done|]. agree_step; [done|].
    by rewrite andb_false_r.
Qed.

Lemma agree_locate request home : @no_origin_needed here request ->
  agree (@locate_source _ here _ request home) (@locate_source _ there _ request home).
Proof.
  unfold no_origin_needed, locate_source, non_empty_env. rewrite !(same_env _ _ _ Hsame). intros Hn.
  destruct (explicit_source_root request) as [root|]; [apply agree_given|].
  destruct (_ ≫= _) as [root|]; [apply agree_given|].
  apply agree_cached. by destruct Hn as [?|[?|?]].
Qed.

Lemma agree_build request : @no_origin_needed here request ->
  agree (@EnsureSourceBuiltStyio _ here _ request) (@EnsureSourceBuiltStyio _ there _ request).
Proof.
  intros Hn. unfold EnsureSourceBuiltStyio, cmake_build. rewrite (agree_home _ _ _ Hsame).
  agree_step; [done|]. agree_step; [done|]. agree_step; [by apply agree_locate|]. agreeing.
Qed.
End NoNetwork.

(** C25. Which source builds need no network.  A build that is offline, or that is given
    its source tree, runs nothing but cmake and [git rev-parse HEAD]: on two hosts with
    the same environment that agree on those, it gives the same compiler or the same
    error and leaves the same files, whatever [git clone], [git fetch], [curl] and any
    other program would do. *)
Theorem source_builds_need_no_network `{JsonLib} `{FileHost} `{Terminal} (here there : ProgramHost)
    request w :
  same_programs build_program here there -> @no_origin_needed here request ->
  @EnsureSourceBuiltStyio _ here _ request w = @EnsureSourceBuiltStyio _ there _ request w.
Proof. intros Hsame Hn. by apply agree_build. Qed.

(** ** A tree the user has *)

Section Demo.
#[local] Existing Instances demo_json_lib demo_file_host.
Definition closed_terminal : Terminal := {| stdin_is_tty := false; stdin_line := None |}.
#[local] Existing Instance closed_terminal.

Definition source_env (name : string) : option string :=
  if name =s "HOME" then Some "/home"%string else None.
(** cmake that makes the compiler. *)
Definition make_compiler (args : list string) (t : FileTree) : FileTree :=
  match args with
  | [flag; root; _; _] =>
      if flag =s "--build"
      then write_stream (root +:+ "/bin/styio") "binary" (create_directories (root +:+ "/bin") t).2
      else t
  | _ => t
  end.
Definition building_host (others : string + ProcessResult) : ProgramHost :=
  {| get_env := source_env;
     run_program := fun _ request t =>
       if program request =s "cmake" then (inr default_result, make_compiler (args request) t)
       else (others, t) |}.
Definition stranger_host : ProgramHost := building_host (inl "no such program"%string).
Definition known_host : ProgramHost :=
  {| get_env := source_env;
     run_program := fun n request t =>
       if bool_decide (args request = ["rev-parse"; "HEAD"]%string) then @run_program stranger_host n request t
       else if program request =s "cmake" then (inr default_result, make_compiler (args request) t)
       else (inr default_result, t) |}.

Definition given_source : SourceBuildRequest :=
  mkSourceBuild "spio.toml" kChannelStable kBuildModeMinimal (Some "/styio"%string)
    (Some "v1"%string) true false false false.
Definition source_world : ClientWorld :=
  mkWorld {[ ["styio"%string] := Directory;
             ["styio"; "CMakeLists.txt"]%string := Regular "project(styio)" ]} 0 initial_slots.

Lemma source_builds_leave_a_compiler_witness :
  let '(outcome, w') := @EnsureSourceBuiltStyio _ stranger_host _ given_source source_world in
  match outcome with
  | inr result => exists_ (world_files w') (compiler_binary result) = true /\ built result = true
  | inl _ => False
  end.
Proof.
  assert (Hb : match (@EnsureSourceBuiltStyio _ stranger_host _ given_source source_world).1 with
               | inr result => built result = true
               | inl _ => False
               end) by (vm_compute; reflexivity).
  destruct (@EnsureSourceBuiltStyio _ stranger_host _ given_source source_world) as [outcome w'] eqn:E.
  cbn [fst] in Hb. destruct outcome as [e|result]; [done|]. split; [|done].
  destruct (@source_builds_leave_a_compiler _ stranger_host _ _ _ _ _ E)
    as (home & root & _ & _ & _ & Hx & _). exact Hx.
Defined.

Lemma demo_same_programs : same_programs build_program stranger_host known_host.
Proof.
  split; [done|]. intros n request t Hr. cbn [run_program known_host].
  case_bool_decide as Ha; [done|]. destruct Hr as [Hc|[_ Hg]]; [|done].
  cbn [run_program stranger_host building_host]. by rewrite Hc.
Qed.

Lemma source_builds_need_no_network_witness :
  @EnsureSourceBuiltStyio _ stranger_host _ given_source source_world
  = @EnsureSourceBuiltStyio _ known_host _ given_source source_world.
Proof.
  apply (source_builds_need_no_network stranger_host known_host); [exact demo_same_programs|].
  right; left. discriminate.
Defined.

(** A build that may not fetch still runs [git fetch] when the tree is in the cache. *)
Definition cached_tree : string :=
  match SourceCheckoutRoot "/home/.spio" kChannelStable
          (SourceFetchSlug "https://github.com/eBioRing/Styio.git#stable") with
  | inr path => path
  | inl _ => EmptyString
  end.
Definition cached_world : ClientWorld :=
  mkWorld (write_stream (cached_tree +:+ "/CMakeLists.txt") "project(styio)"
             (create_directories (cached_tree +:+ "/.git") ∅).2) 0 initial_slots.
Definition no_fetch : SourceBuildRequest :=
  mkSourceBuild "spio.toml" kChannelStable kBuildModeMinimal None None false false false true.
Example update_without_permission :
  (@EnsureSourceBuiltStyio _ stranger_host _ no_fetch cached_world).1
  = inl (SourceFetchError "git fetch" "git fetch failed: no such program" false 0 "").
Proof. vm_compute. reflexivity. Qed.
End Demo.
