(* ===== verification/JobQueue.v ===== *)
(** Validation of job submissions and the record they become
    ([PlatformCloud/DeveloperWorkspace/JobQueue.cpp]). *)
From stdpp Require Import base list gmap strings.
From Stdlib Require Import ZArith Lia Ascii String.
From S2P Require Import Prelude Json StateRecords MemoryStateStore SourceFetch Config RouterSupport.

Definition IsAction (value : string) : bool :=
  (value =s "build") || (value =s "run") || (value =s "test").

Definition default_worker_pool : string := "linux/x86_64/binary/stable/minimal".

Definition WorkerPoolFromRequest (request : json) : string :=
  match j_lookup request "preferred_worker_pool" with
  | Some (JString pool) => pool
  | _ =>
      match j_lookup request "job_request" with
      | Some (JObject job_request) =>
          match job_request !! "cloud" with
          | Some (JObject cloud) =>
              match cloud !! "worker_pool_key" with
              | Some (JString pool) => pool
              | _ => default_worker_pool
              end
          | _ => default_worker_pool
          end
      | _ => default_worker_pool
      end
  end.

(** The loop over the optional object fields. *)
Fixpoint first_non_object (job_request : json) (fields : list string) : option string :=
  match fields with
  | [] => None
  | field :: rest =>
      match j_lookup job_request field with
      | Some v => if negb (is_object v)
                  then Some ("job_request." +:+ field +:+ " must be an object when present")
                  else first_non_object job_request rest
      | None => first_non_object job_request rest
      end
  end.

Definition has_integer (j : json) (field : string) : bool :=
  match j_lookup j field with Some v => is_number_integer v | None => false end.

Definition ValidateCloudBuildRequest (job_request : json) : option string :=
  if negb (has_integer job_request "schema_version")
  then Some "job_request.schema_version is required"
  else if negb (HasNonEmptyString job_request "manifest_path")
  then Some "job_request.manifest_path is required"
  else
    match j_lookup job_request "source" with
    | Some (JObject m) =>
        let source := JObject m in
        if negb (HasNonEmptyString source "origin")
        then Some "job_request.source.origin is required"
        else
          match GitSourcePolicyViolation (string_at source "origin") PublicGitSourcePolicy with
          | Some violation => Some ("job_request.source.origin " +:+ violation)
          | None =>
              match j_lookup source "requested_revision" with
              | Some v =>
                  if negb (non_empty_string v)
                  then Some "job_request.source.requested_revision must be a non-empty string when present"
                  else first_non_object job_request ["toolchain"; "workflow"; "target"; "cloud"]
              | None => first_non_object job_request ["toolchain"; "workflow"; "target"; "cloud"]
              end
          end
    | _ => Some "job_request.source is required"
    end.

Definition ValidateSubmitJobRequest (request : json) : option string :=
  if negb (is_object request) then Some "request body must be an object"
  else
    match first_missing_string request ["tenant_id"; "user_id"; "workspace_id"; "action"] with
    | Some error => Some error
    | None =>
        if negb (IsAction (string_at request "action"))
        then Some "action must be build, run, or test"
        else
          match j_lookup request "job_request" with
          | Some (JObject job_request) => ValidateCloudBuildRequest (JObject job_request)
          | _ => Some "job_request is required"
          end
    end.

Definition BuildQueuedJobRecord (request : json) (config : PlatformConfig) (id : string)
  : exn + PlatformJobRecord :=
  tenant_id <-? field_string request "tenant_id" ;;
  user_id <-? field_string request "user_id" ;;
  workspace_id <-? field_string request "workspace_id" ;;
  action <-? field_string request "action" ;;
  region <-? value_string request "region" (config_region config) ;;
  job_request <-? at_key request "job_request" ;;
  inr {| job_id := id;
         job_tenant_id := tenant_id;
         job_user_id := user_id;
         job_workspace_id := workspace_id;
         job_action := action;
         job_status := "queued";
         job_region := region;
         job_worker_pool_key := WorkerPoolFromRequest request;
         job_created_at := default_created_at;
         job_worker_id := EmptyString;
         job_finished_at := EmptyString;
         job_request := job_request;
         job_artifacts := [] |}.

(** * Lemmas *)

Lemma first_missing_None body fields :
  first_missing_string body fields = None -> Forall (fun f => HasNonEmptyString body f = true) fields.
Proof.
  induction fields as [|f fields IH]; cbn; [done|].
  destruct (HasNonEmptyString body f) eqn:E; cbn; [|done]. intros H. by constructor; auto.
Qed.

(** What a request that passed validation looks like. *)
Lemma ValidateSubmit_None request :
  ValidateSubmitJobRequest request = None ->
  exists t u w a jr,
    j_lookup request "tenant_id" = Some (JString t) /\ t <> EmptyString
    /\ j_lookup request "user_id" = Some (JString u) /\ u <> EmptyString
    /\ j_lookup request "workspace_id" = Some (JString w) /\ w <> EmptyString
    /\ j_lookup request "action" = Some (JString a) /\ IsAction a = true
    /\ j_lookup request "job_request" = Some (JObject jr)
    /\ is_object request = true /\ ValidateCloudBuildRequest (JObject jr) = None.
Proof.
  unfold ValidateSubmitJobRequest. destruct (is_object request); [|done].
  cbn [negb]. destruct (first_missing_string _ _) eqn:E; [done|].
  apply first_missing_None in E.
  repeat (apply Forall_cons in E as [?%HasNonEmptyString_lookup E]). destruct_and?.
  destruct H as (t & Ht & ?), H0 as (u & Hu & ?), H1 as (w & Hw & ?), H2 as (a & Ha & ?).
  unfold string_at. rewrite Ha. destruct (IsAction a) eqn:Ea; [|done]. cbn [negb].
  destruct (j_lookup request "job_request") as [[]|] eqn:Ej; try done.
  intros. by exists t, u, w, a, m.
Qed.

Lemma BuildQueued_inv request config id job :
  BuildQueuedJobRecord request config id = inr job ->
  job_id job = id /\ fresh_job job = true /\ job_status job = "queued"%string
  /\ job_artifacts job = [] /\ job_worker_pool_key job = WorkerPoolFromRequest request
  /\ j_lookup request "tenant_id" = Some (JString (job_tenant_id job))
  /\ j_lookup request "user_id" = Some (JString (job_user_id job))
  /\ j_lookup request "workspace_id" = Some (JString (job_workspace_id job))
  /\ j_lookup request "action" = Some (JString (job_action job))
  /\ j_lookup request "job_request" = Some (job_request job)
  /\ value_string request "region" (config_region config) = inr (job_region job)
  /\ job_worker_id job = EmptyString /\ job_finished_at job = EmptyString
  /\ job_created_at job = default_created_at.
Proof.
  unfold BuildQueuedJobRecord, field_string, r_bind.
  assert (Hf : forall key v, (match at_key request key with
      | inl e => inl e | inr a => get_string a end) = inr v ->
      j_lookup request key = Some (JString v)).
  { intros key v. destruct (at_key request key) as [|j] eqn:E; [done|].
    apply at_key_inr in E. destruct j; try done. by intros [= <-]. }
  repeat match goal with
         | |- context [match ?m with inl _ => _ | inr _ => _ end] =>
             lazymatch m with
             | match _ with _ => _ end => destruct m eqn:?; [done|]
             | value_string _ _ _ => destruct m eqn:?; [done|]
             | at_key request "job_request" => destruct m eqn:?; [done|]
             end
         end.
  intros [= <-]. cbn. split_and!; try done; first [by apply Hf|by apply at_key_inr].
Qed.
