(* ===== verification/Workspace.v ===== *)
(** The developer-workspace handlers of the router
    ([PlatformCloud/DeveloperWorkspace/WorkspaceControlPlane.cpp],
    [WorkspaceControlPlaneSupport.hpp]): job submission, lookup, cancellation,
    claim, heartbeat and completion, worker and compile-container registration
    and workspace switching, on the memory store and on a PostgreSQL store. *)
From stdpp Require Import base list gmap strings.
From Stdlib Require Import ZArith Lia Ascii String.
From S2P Require Import Prelude Json StateRecords MemoryStateStore Http Config RouterSupport JobQueue.
From S2P Require Import Demo.

Definition ValidateCompileContainerRegistration `{JsonLib} (body : json) : exn + option string :=
  if negb (is_object body) then inr (Some "request body must be an object")
  else
    match first_missing_string body
            ["container_id"; "worker_id"; "tenant_id"; "user_id"; "workspace_id"; "region";
             "worker_pool_key"] with
    | Some error => inr (Some error)
    | None =>
        capacity <-? value_int body "capacity" 0 ;;
        if capacity <? 1 then inr (Some "capacity must be positive")
        else
          match j_lookup body "status" with
          | Some status =>
              if negb (equals_string status "active") && negb (equals_string status "draining")
              then inr (Some "status must be active or draining when present")
              else inr None
          | None => inr None
          end
    end.

Definition ValidateCompileContainerSwitch (body : json) : option string :=
  if negb (is_object body) then Some "request body must be an object"
  else
    match first_missing_string body ["worker_id"; "workspace_id"] with
    | Some error => Some error
    | None => ValidateOptionalStringFields body ["tenant_id"; "user_id"; "reason"]
    end.

(** The field loop at the top of worker registration and job claim: the first of
    [fields] that is absent or not a string. *)
Fixpoint first_non_string (body : json) (fields : list string) : option string :=
  match fields with
  | [] => None
  | field :: rest =>
      match j_lookup body field with
      | Some (JString _) => first_non_string body rest
      | _ => Some field
      end
  end.

Definition has_string (body : json) (field : string) : bool :=
  match j_lookup body field with Some v => is_string v | None => false end.

(** The loop that reads ["artifacts"]. *)
Fixpoint read_artifacts (l : list json) : exn + list ArtifactRecord :=
  match l with
  | [] => inr []
  | artifact :: rest =>
      id <-? value_string artifact "artifact_id" "artifact" ;;
      key <-? value_string artifact "object_key" "" ;;
      kind <-? value_string artifact "kind" "artifact" ;;
      artifacts <-? read_artifacts rest ;;
      inr (mkArtifact id key kind :: artifacts)
  end.
Definition body_artifacts (body : json) : exn + list ArtifactRecord :=
  match j_lookup body "artifacts" with
  | Some (JArray l) => read_artifacts l
  | _ => inr []
  end.

Definition is_final_status (status : string) : bool :=
  (status =s "succeeded") || (status =s "failed") || (status =s "cancelled").

Section Handlers.
Context {DB : Type} `{JsonLib} `{PostgresStore DB} (config : PlatformConfig).

Definition ok (message : string) (payload : json) : RouterM DB HttpResponse :=
  m_ret (JsonResponse 200 (SuccessEnvelope message payload)).

Definition reject (status : Z) (message detail category operation : string) (returncode : Z)
  : RouterM DB HttpResponse :=
  m_ret (JsonResponse status (FailureEnvelope message detail category operation returncode)).

(** [catch (const std::exception &error) { return FailureResponse(503, ...); }] *)
Definition or_postgres_error (message operation : string) (m : RouterM DB HttpResponse)
  : RouterM DB HttpResponse :=
  catch_std m (fun e =>
    m_ret (FailureResponse 503 message (what e) "PostgresError" operation 17)).

Definition HandleSubmitJob (request : HttpRequest) : RouterM DB HttpResponse :=
  match ValidateSubmitJobRequest (req_body request) with
  | Some error => reject 400 "job submission rejected" error "ValidationError" "submitJob" 2
  | None =>
      if_postgres
        (id <- catch_std (id <- on_postgres pg_NextJobId ;; m_ret (inr id))
                 (fun e => m_ret (inl (FailureResponse 503 "job submission failed" (what e)
                                        "PostgresError" "submitJob" 17))) ;;
         match (id : HttpResponse + string) with
         | inl response => m_ret response
         | inr id =>
             job <- lift (BuildQueuedJobRecord (req_body request) config id) ;;
             or_postgres_error "job submission failed" "submitJob"
               (on_postgres (pg_SubmitJob job) ;;;
                ok "queued platform job" (SerializeJobRecord job))
         end)
        (id <- on_memory NextJobId ;;
         job <- lift (BuildQueuedJobRecord (req_body request) config id) ;;
         on_memory (SubmitJob job) ;;;
         ok "queued platform job" (SerializeJobRecord job))
  end.

Definition HandleGetJob (m : RouteMatch) : RouterM DB HttpResponse :=
  let respond (job : option PlatformJobRecord) :=
    match job with
    | None => reject 404 "job lookup failed" "job not found" "NotFound" "getJob" 17
    | Some job => ok "loaded platform job" (SerializeJobRecord job)
    end in
  if_postgres
    (or_postgres_error "job lookup failed" "getJob"
       (id <- lift (parameter m "job_id") ;;
        job <- on_postgres (pg_GetJob id) ;;
        respond job))
    (id <- lift (parameter m "job_id") ;;
     job <- on_memory (gets (GetJob id)) ;;
     respond job).

Definition job_events_payload (id : string) (events : list JobEventRecord) : json :=
  obj [("job_id", JString id); ("events", JArray (map SerializeJobEvent events))].

Definition HandleGetJobEvents (m : RouteMatch) : RouterM DB HttpResponse :=
  let missing :=
    reject 404 "job event lookup failed" "job not found" "NotFound" "getJobEvents" 17 in
  id <- lift (parameter m "job_id") ;;
  if_postgres
    (or_postgres_error "job event lookup failed" "getJobEvents"
       (job <- on_postgres (pg_GetJob id) ;;
        match job with
        | None => missing
        | Some _ =>
            events <- on_postgres (pg_GetJobEvents id) ;;
            ok "loaded platform job events" (job_events_payload id events)
        end))
    (job <- on_memory (gets (GetJob id)) ;;
     match job with
     | None => missing
     | Some _ =>
         events <- on_memory (gets (GetJobEvents id)) ;;
         ok "loaded platform job events" (job_events_payload id events)
     end).

Definition HandleCancelJob (m : RouteMatch) (request : HttpRequest) : RouterM DB HttpResponse :=
  let body := req_body request in
  if negb (is_object body) || negb (has_string body "reason")
  then reject 400 "job cancellation failed" "reason is required" "ValidationError" "cancelJob" 2
  else
    let reason := string_at body "reason" in
    if_postgres
      (or_postgres_error "job cancellation failed" "cancelJob"
         (id <- lift (parameter m "job_id") ;;
          job <- on_postgres (pg_CancelJob id reason) ;;
          match job with
          | None => reject 404 "job cancellation failed" "job not found or already completed"
                      "NotFound" "cancelJob" 17
          | Some job => ok "cancelled platform job" (SerializeJobRecord job)
          end))
      (id <- lift (parameter m "job_id") ;;
       job <- on_memory (CancelJob id reason) ;;
       match job with
       | None => reject 404 "job cancellation failed" "job not found" "NotFound" "cancelJob" 17
       | Some job => ok "cancelled platform job" (SerializeJobRecord job)
       end).

Definition HandleRegisterWorker (request : HttpRequest) : RouterM DB HttpResponse :=
  let body := req_body request in
  match first_non_string body ["worker_id"; "region"; "worker_pool_key"] with
  | Some field => reject 400 "worker registration rejected" (field +:+ " is required")
                    "ValidationError" "registerWorker" 2
  | None =>
      capacity <- lift (value_int body "capacity" 0) ;;
      if capacity <? 1
      then reject 400 "worker registration rejected" "capacity must be positive"
             "ValidationError" "registerWorker" 2
      else
        let worker := obj [("worker_id", JString (string_at body "worker_id"));
                           ("region", JString (string_at body "region"));
                           ("worker_pool_key", JString (string_at body "worker_pool_key"));
                           ("capacity", JInt capacity); ("status", JString "registered")] in
        if_postgres
          (or_postgres_error "worker registration failed" "registerWorker"
             (payload <- on_postgres (pg_RegisterWorker worker) ;;
              ok "registered platform worker" payload))
          (payload <- on_memory (RegisterWorker worker) ;;
           ok "registered platform worker" payload)
  end.

Definition HandleRegisterCompileContainer (request : HttpRequest) : RouterM DB HttpResponse :=
  let rejected := "compile container registration rejected"%string in
  let operation := "registerCompileContainer"%string in
  error <- lift (ValidateCompileContainerRegistration (req_body request)) ;;
  match (error : option string) with
  | Some error => reject 400 rejected error "ValidationError" operation 2
  | None =>
      container <- lift (CreateFromRegistration (req_body request)) ;;
      if_postgres
        (catch_postgres
           (stored <- on_postgres (pg_RegisterCompileContainer container) ;;
            ok "registered compile container" (SerializeCompileContainerRecord stored))
           (fun detail =>
              if str_contains detail "worker is not registered"
              then reject 403 rejected "worker is not registered" "WorkerError" operation 17
              else if str_contains detail "user binding mismatch"
              then reject 409 rejected "compile container user binding mismatch" "BindingError"
                     operation 2
              else if str_contains detail "worker owner mismatch"
              then reject 409 rejected "compile container worker owner mismatch" "BindingError"
                     operation 2
              else m_ret (FailureResponse 503 "compile container registration failed" detail
                            "PostgresError" operation 17)))
        (catch_memory
           (stored <- on_memory (RegisterCompileContainer container) ;;
            ok "registered compile container" (SerializeCompileContainerRecord stored))
           (fun detail =>
              if str_contains detail "worker is not registered"
                 || str_contains detail "worker region or pool"
              then reject 403 rejected detail "WorkerError" operation 17
              else if str_contains detail "user binding mismatch"
              then reject 409 rejected "compile container user binding mismatch" "BindingError"
                     operation 2
              else if str_contains detail "worker owner mismatch"
              then reject 409 rejected "compile container worker owner mismatch" "BindingError"
                     operation 2
              else m_ret (FailureResponse 503 "compile container registration failed" detail
                            "MemoryStateError" operation 17)))
  end.

Definition HandleGetCompileContainer (m : RouteMatch) : RouterM DB HttpResponse :=
  let respond (container : option CompileContainerRecord) :=
    match container with
    | None => reject 404 "compile container lookup failed" "compile container not found"
                "NotFound" "getCompileContainer" 17
    | Some container => ok "loaded compile container" (SerializeCompileContainerRecord container)
    end in
  id <- lift (parameter m "container_id") ;;
  if_postgres
    (or_postgres_error "compile container lookup failed" "getCompileContainer"
       (container <- on_postgres (pg_GetCompileContainer id) ;; respond container))
    (container <- on_memory (gets (GetCompileContainer id)) ;; respond container).

(** The checks both branches of the workspace switch make on the current record;
    [k] is the rest. *)
Definition check_switch (body : json) (worker_id : string)
    (current : option CompileContainerRecord) (k : RouterM DB HttpResponse)
  : RouterM DB HttpResponse :=
  let rejected := "compile container workspace switch rejected"%string in
  let operation := "switchCompileContainerWorkspace"%string in
  match current with
  | None => reject 404 "compile container workspace switch failed" "compile container not found"
              "NotFound" operation 17
  | Some current =>
      if container_worker_id current <>s worker_id
      then reject 403 rejected "worker does not own compile container" "WorkerError" operation 17
      else if contains body "tenant_id"
              && (string_at body "tenant_id" <>s container_tenant_id current)
      then reject 403 rejected "tenant binding mismatch" "BindingError" operation 2
      else if contains body "user_id" && (string_at body "user_id" <>s container_user_id current)
      then reject 403 rejected "user binding mismatch" "BindingError" operation 2
      else k
  end.

Definition switched_response (switched : option CompileContainerRecord)
  : RouterM DB HttpResponse :=
  match switched with
  | None => reject 403 "compile container workspace switch rejected"
              "compile container is not active" "StateError" "switchCompileContainerWorkspace" 17
  | Some container => ok "switched compile container workspace"
                        (SerializeCompileContainerRecord container)
  end.

Definition HandleSwitchCompileContainerWorkspace (m : RouteMatch) (request : HttpRequest)
  : RouterM DB HttpResponse :=
  let body := req_body request in
  let operation := "switchCompileContainerWorkspace"%string in
  match ValidateCompileContainerSwitch body with
  | Some error => reject 400 "compile container workspace switch rejected" error
                    "ValidationError" operation 2
  | None =>
      id <- lift (parameter m "container_id") ;;
      worker_id <- lift (field_string body "worker_id") ;;
      workspace_id <- lift (field_string body "workspace_id") ;;
      reason <- lift (value_string body "reason" "manual switch") ;;
      if_postgres
        (or_postgres_error "compile container workspace switch failed" operation
           (current <- on_postgres (pg_GetCompileContainer id) ;;
            check_switch body worker_id current
              (switched <- on_postgres
                 (pg_SwitchCompileContainerWorkspace id worker_id workspace_id reason) ;;
               switched_response switched)))
        (current <- on_memory (gets (GetCompileContainer id)) ;;
         check_switch body worker_id current
           (catch_memory
              (switched <- on_memory
                 (SwitchCompileContainerWorkspace id worker_id workspace_id reason) ;;
               switched_response switched)
              (fun error => reject 403 "compile container workspace switch rejected" error
                              "WorkerError" operation 17)))
  end.

Definition claim_response (job : option PlatformJobRecord) (has_container : bool)
    (get_container : RouterM DB (option CompileContainerRecord)) : RouterM DB HttpResponse :=
  match job with
  | None => ok "no platform job available" (obj [("claimed", JBool false)])
  | Some job =>
      let payload := obj [("claimed", JBool true); ("job", SerializeJobRecord job)] in
      if has_container then
        container <- get_container ;;
        match container with
        | Some c => ok "claimed platform job"
                      (j_set payload "compile_container" (SerializeCompileContainerRecord c))
        | None => ok "claimed platform job" payload
        end
      else ok "claimed platform job" payload
  end.

Definition claim_failed (status : Z) (detail : string) : RouterM DB HttpResponse :=
  reject status "job claim failed" detail "WorkerError" "claimJob" 17.

Definition HandleClaimJob (request : HttpRequest) : RouterM DB HttpResponse :=
  let body := req_body request in
  match first_non_string body ["worker_id"; "region"; "worker_pool_key"] with
  | Some field => reject 400 "job claim failed" (field +:+ " is required") "ValidationError"
                    "claimJob" 2
  | None =>
      let worker_id := string_at body "worker_id" in
      let region := string_at body "region" in
      let pool := string_at body "worker_pool_key" in
      if contains body "compile_container_id"
         && negb (HasNonEmptyString body "compile_container_id")
      then reject 400 "job claim failed"
             "compile_container_id must be a non-empty string when present" "ValidationError"
             "claimJob" 2
      else
        let with_container := contains body "compile_container_id" in
        let container_id := string_at body "compile_container_id" in
        if_postgres
          (catch_postgres
             (job <- (if with_container
                      then on_postgres
                             (pg_ClaimJobForCompileContainer worker_id region pool container_id)
                      else on_postgres (pg_ClaimJob worker_id region pool)) ;;
              claim_response job with_container
                (on_postgres (pg_GetCompileContainer container_id)))
             (fun detail =>
                if str_contains detail "worker is not registered"
                then claim_failed 403 "worker is not registered"
                else if str_contains detail "compile container is not registered"
                then claim_failed 403 "compile container is not registered"
                else m_ret (FailureResponse 503 "job claim failed" detail "PostgresError"
                              "claimJob" 17)))
          (catch_memory
             (job <- (if with_container
                      then on_memory
                             (ClaimJobForCompileContainer worker_id region pool container_id)
                      else on_memory (ClaimJob worker_id region pool)) ;;
              claim_response job with_container
                (on_memory (gets (GetCompileContainer container_id))))
             (fun detail =>
                if str_contains detail "worker is not registered"
                then claim_failed 403 "worker is not registered"
                else if str_contains detail "compile container is not registered"
                then claim_failed 403 "compile container is not registered"
                else if str_contains detail "compile container is not available"
                then claim_failed 403 "compile container is not available for this worker"
                else m_ret (FailureResponse 503 "job claim failed" detail "MemoryStateError"
                              "claimJob" 17)))
  end.

(** The body's worker is not the one the job names. *)
Definition not_owner (body : json) (job : PlatformJobRecord) : bool :=
  match j_lookup body "worker_id" with
  | None => true
  | Some v => negb (equals_string v (job_worker_id job))
  end.

Definition HandleHeartbeatJob (m : RouteMatch) (request : HttpRequest) : RouterM DB HttpResponse :=
  let body := req_body request in
  let failed := "job heartbeat failed"%string in
  if_postgres
    (if negb (has_string body "worker_id")
     then reject 400 failed "worker_id is required" "ValidationError" "heartbeatJob" 2
     else
       or_postgres_error failed "heartbeatJob"
         (id <- lift (parameter m "job_id") ;;
          message <- lift (value_string body "message" "worker heartbeat") ;;
          job <- on_postgres (pg_HeartbeatJob id (string_at body "worker_id") message) ;;
          match job with
          | None => reject 403 failed "worker does not own job" "WorkerError" "heartbeatJob" 17
          | Some job => ok "recorded platform job heartbeat" (SerializeJobRecord job)
          end))
    (id <- lift (parameter m "job_id") ;;
     existing <- on_memory (gets (GetJob id)) ;;
     match existing with
     | None => reject 404 failed "job not found" "NotFound" "heartbeatJob" 17
     | Some existing =>
         if not_owner body existing
         then reject 403 failed "worker does not own job" "WorkerError" "heartbeatJob" 17
         else
           worker_id <- lift (field_string body "worker_id") ;;
           message <- lift (value_string body "message" "worker heartbeat") ;;
           job <- on_memory (HeartbeatJob id worker_id message) ;;
           match job with
           | Some job => ok "recorded platform job heartbeat" (SerializeJobRecord job)
           | None => throw UndefinedBehaviour
           end
     end).

Definition HandleCompleteJob (m : RouteMatch) (request : HttpRequest) : RouterM DB HttpResponse :=
  let body := req_body request in
  let failed := "job completion failed"%string in
  let bad_status := reject 400 failed "status must be succeeded, failed, or cancelled"
                      "ValidationError" "completeJob" 2 in
  if_postgres
    (if negb (has_string body "worker_id")
     then reject 400 failed "worker_id is required" "ValidationError" "completeJob" 2
     else
       status <- lift (value_string body "status" "") ;;
       if negb (is_final_status status) then bad_status
       else
         artifacts <- lift (body_artifacts body) ;;
         or_postgres_error failed "completeJob"
           (id <- lift (parameter m "job_id") ;;
            message <- lift (value_string body "message" "job completed") ;;
            result <- lift (value_json body "result" (obj [])) ;;
            job <- on_postgres
              (pg_CompleteJob id (string_at body "worker_id") status message artifacts result) ;;
            match job with
            | None => reject 403 failed "worker does not own job" "WorkerError" "completeJob" 17
            | Some job => ok "completed platform job" (SerializeJobRecord job)
            end))
    (id <- lift (parameter m "job_id") ;;
     existing <- on_memory (gets (GetJob id)) ;;
     match existing with
     | None => reject 404 failed "job not found" "NotFound" "completeJob" 17
     | Some existing =>
         if not_owner body existing
         then reject 403 failed "worker does not own job" "WorkerError" "completeJob" 17
         else
           status <- lift (value_string body "status" "") ;;
           if negb (is_final_status status) then bad_status
           else
             artifacts <- lift (body_artifacts body) ;;
             worker_id <- lift (field_string body "worker_id") ;;
             message <- lift (value_string body "message" "job completed") ;;
             result <- lift (value_json body "result" (obj [])) ;;
             job <- on_memory (CompleteJob id worker_id status message artifacts result) ;;
             match job with
             | Some job => ok "completed platform job" (SerializeJobRecord job)
             | None => throw UndefinedBehaviour
             end
     end).
End Handlers.

(** ** The operations of the component *)

Inductive workspace_op :=
| OpSubmitJob | OpGetJob | OpGetJobEvents | OpCancelJob | OpRegisterWorker
| OpRegisterCompileContainer | OpGetCompileContainer | OpSwitchWorkspace | OpClaimJob
| OpHeartbeatJob | OpCompleteJob.

Definition run_workspace {DB} `{JsonLib} `{PostgresStore DB} (config : PlatformConfig)
    (op : workspace_op) (m : RouteMatch) (request : HttpRequest) : RouterM DB HttpResponse :=
  match op with
  | OpSubmitJob => HandleSubmitJob config request
  | OpGetJob => HandleGetJob m
  | OpGetJobEvents => HandleGetJobEvents m
  | OpCancelJob => HandleCancelJob m request
  | OpRegisterWorker => HandleRegisterWorker request
  | OpRegisterCompileContainer => HandleRegisterCompileContainer request
  | OpGetCompileContainer => HandleGetCompileContainer m
  | OpSwitchWorkspace => HandleSwitchCompileContainerWorkspace m request
  | OpClaimJob => HandleClaimJob request
  | OpHeartbeatJob => HandleHeartbeatJob m request
  | OpCompleteJob => HandleCompleteJob m request
  end.

(** The path parameter an operation looks up. *)
Definition op_parameter (op : workspace_op) : option string :=
  match op with
  | OpGetJob | OpGetJobEvents | OpCancelJob | OpHeartbeatJob | OpCompleteJob =>
      Some "job_id"%string
  | OpGetCompileContainer | OpSwitchWorkspace => Some "container_id"%string
  | _ => None
  end.

Definition is_type_error (e : exn) : Prop := exists id j, e = JsonTypeError id j.

(** The statuses the memory store can lead to: never 503, never 500. *)
Definition expected_status (response : HttpResponse) : Prop :=
  status_code response ∈ [200; 400; 403; 404; 409].

(** [m], run on the memory store, stays on it, throws only what [E] admits and
    returns only what [P] admits. *)
Definition outcome {DB A} (E : exn -> Prop) (P : A -> Prop) (m : RouterM DB A) : Prop :=
  forall r, postgres_ r = None ->
    match m r with
    | (inl e, r') => E e /\ postgres_ r' = None
    | (inr a, r') => P a /\ postgres_ r' = None
    end.

(** The same for a computation on the store. *)
Definition store_throws {A} (E : exn -> Prop) (m : M exn MemoryStateStore A) : Prop :=
  forall s, match (m s).1 with inl e => E e | inr _ => True end.

Definition memory_error_in (texts : list string) (e : exn) : Prop :=
  is_type_error e \/ exists w, e = MemoryStateStoreError w /\ w ∈ texts.

(** * Lemmas *)

Lemma outcome_ret {DB A} E (P : A -> Prop) a : P a -> @outcome DB A E P (m_ret a).
Proof. by intros ? r. Qed.

Lemma outcome_throw {DB A} (E : exn -> Prop) (P : A -> Prop) e :
  E e -> @outcome DB A E P (throw e).
Proof. by intros ? r. Qed.

Lemma outcome_bind {DB A B} E (Q : A -> Prop) (P : B -> Prop) (m : RouterM DB A) k :
  outcome E Q m -> (forall a, Q a -> outcome E P (k a)) -> outcome E P (m_bind m k).
Proof.
  intros Hm Hk r Hr. specialize (Hm r Hr). unfold m_bind.
  destruct (m r) as [[e|a] r']; destruct Hm; [done|]. by apply Hk.
Qed.

Lemma outcome_lift {DB A} (E : exn -> Prop) (v : exn + A) :
  (forall e, v = inl e -> E e) -> @outcome DB A E (fun a => v = inr a) (lift v).
Proof. intros H r Hr. unfold lift. destruct v; auto. Qed.

Lemma outcome_memory {DB A} E (m : M exn MemoryStateStore A) :
  store_throws E m -> @outcome DB A E (fun _ => True) (on_memory m).
Proof.
  intros H r Hr. specialize (H (memory_ r)). unfold on_memory, zoom.
  destruct (m (memory_ r)) as [[e|a] s]; auto.
Qed.

Lemma outcome_if_postgres {DB A} E (P : A -> Prop) (p m : RouterM DB A) :
  outcome E P m -> outcome E P (if_postgres p m).
Proof. intros H r Hr. unfold if_postgres. rewrite Hr. by apply H. Qed.

Lemma outcome_catch_memory {DB A} texts (P : A -> Prop) (m : RouterM DB A) h :
  outcome (memory_error_in texts) P m ->
  (forall w, w ∈ texts -> outcome is_type_error P (h w)) ->
  outcome is_type_error P (catch_memory m h).
Proof.
  intros Hm Hh r Hr. specialize (Hm r Hr). unfold catch_memory, catch.
  destruct (m r) as [[e|a] r']; [|done]. destruct Hm as [[Ht|(w & -> & Hw)] Hr'].
  - destruct Ht as (id & j & ->). split; [|done]. by eexists _, _.
  - by apply Hh.
Qed.

Lemma outcome_weaken {DB A} (E E' : exn -> Prop) (P P' : A -> Prop) (m : RouterM DB A) :
  (forall e, E e -> E' e) -> (forall a, P a -> P' a) -> outcome E P m -> outcome E' P' m.
Proof.
  intros HE HP Hm r Hr. specialize (Hm r Hr). destruct (m r) as [[e|a] r']; naive_solver.
Qed.

Lemma get_string_error j e : get_string j = inl e -> is_type_error e.
Proof. destruct j; cbn; intros; simplify_eq; by eexists _, _. Qed.

Lemma get_int_error `{JsonLib} j e : get_int j = inl e -> is_type_error e.
Proof. destruct j; cbn; intros; simplify_eq; by eexists _, _. Qed.

Lemma value_or_error {A} (get : json -> exn + A) j key d e :
  (forall v e, get v = inl e -> is_type_error e) ->
  value_or get j key d = inl e -> is_type_error e.
Proof.
  intros Hg. unfold value_or. destruct j; try by intros [= <-]; eexists _, _.
  destruct (m !! key); [apply Hg|done].
Qed.

Lemma value_string_error j key d e : value_string j key d = inl e -> is_type_error e.
Proof. apply value_or_error, get_string_error. Qed.

Lemma value_int_error `{JsonLib} j key d e : value_int j key d = inl e -> is_type_error e.
Proof. apply value_or_error, get_int_error. Qed.

Lemma value_json_error j key d e : value_json j key d = inl e -> is_type_error e.
Proof. by apply value_or_error. Qed.

Lemma field_string_error j key e v :
  j_lookup j key = Some v -> field_string j key = inl e -> is_type_error e.
Proof.
  intros Hv. unfold field_string. rewrite (at_key_lookup _ _ _ Hv). apply get_string_error.
Qed.

Lemma read_artifacts_error l e : read_artifacts l = inl e -> is_type_error e.
Proof.
  revert e. induction l as [|a l IH]; intros e; cbn; [done|]. unfold r_bind.
  destruct (value_string a "artifact_id" _) eqn:?; [intros [= <-]; by eapply value_string_error|].
  destruct (value_string a "object_key" _) eqn:?; [intros [= <-]; by eapply value_string_error|].
  destruct (value_string a "kind" _) eqn:?; [intros [= <-]; by eapply value_string_error|].
  destruct (read_artifacts l); intros [= <-]. by apply IH.
Qed.

Lemma body_artifacts_error body e : body_artifacts body = inl e -> is_type_error e.
Proof.
  unfold body_artifacts. destruct (j_lookup body "artifacts") as [[]|]; try done.
  apply read_artifacts_error.
Qed.

Lemma parameter_bound m name : is_Some (parameters m !! name) -> exists v, parameter m name = inr v.
Proof. intros [v Hv]. unfold parameter. rewrite Hv. by exists v. Qed.

#[export] Hint Resolve value_string_error value_int_error value_json_error body_artifacts_error
  : platform.

Ltac status_ok := unfold expected_status; cbn; set_solver.

Lemma outcome_reject {DB} E status message detail category operation rc :
  status ∈ [200; 400; 403; 404; 409] ->
  @outcome DB _ E expected_status (reject status message detail category operation rc).
Proof. intros H. by apply outcome_ret. Qed.

Lemma outcome_ok {DB} E message payload : @outcome DB _ E expected_status (ok message payload).
Proof. apply outcome_ret. status_ok. Qed.

Ltac outcome_leaf :=
  first [apply outcome_ok | apply outcome_reject; set_solver].

(** ** The store operations *)

Lemma throws_gets {A} E (f : MemoryStateStore -> A) : store_throws E (gets f).
Proof. by intros s. Qed.

Ltac store_throws_tac :=
  intros s; store_unfold; cbn; store_split; cbn; try done.

Lemma throws_NextJobId E : store_throws E NextJobId.
Proof. by intros s. Qed.
Lemma throws_SubmitJob E job : store_throws E (SubmitJob job).
Proof. by intros s. Qed.
Lemma throws_CancelJob E id reason : store_throws E (CancelJob id reason).
Proof. unfold CancelJob. store_throws_tac. Qed.

Definition worker_texts : list string :=
  ["worker is not registered"; "compile container is not registered";
   "compile container is not available for this worker"].
Definition container_texts : list string :=
  ["worker is not registered"; "worker region or pool does not match container";
   "compile container user binding mismatch"; "compile container worker owner mismatch"].

Lemma memory_error_intro texts w : w ∈ texts -> memory_error_in texts (MemoryStateStoreError w).
Proof. intros H. right. by exists w. Qed.

Ltac memory_error_tac :=
  first [ apply memory_error_intro; set_solver
        | left; eauto with platform; eapply get_string_error; eassumption ].

Lemma throws_ClaimJob w region pool :
  store_throws (memory_error_in worker_texts) (ClaimJob w region pool).
Proof.
  unfold ClaimJob, RequireWorker. store_throws_tac. memory_error_tac.
Qed.

Lemma throws_ClaimJobForCompileContainer w region pool id :
  store_throws (memory_error_in worker_texts) (ClaimJobForCompileContainer w region pool id).
Proof.
  unfold ClaimJobForCompileContainer, RequireWorker. store_throws_tac; memory_error_tac.
Qed.

Lemma throws_RegisterCompileContainer c :
  store_throws (memory_error_in container_texts) (RegisterCompileContainer c).
Proof.
  unfold RegisterCompileContainer. store_throws_tac; memory_error_tac.
Qed.

Lemma throws_Switch id w ws reason :
  store_throws (memory_error_in ["worker does not own compile container"])
    (SwitchCompileContainerWorkspace id w ws reason).
Proof. unfold SwitchCompileContainerWorkspace. store_throws_tac; memory_error_tac. Qed.

(** ** The handlers *)

Section Outcomes.
Context {DB : Type} `{JsonLib} `{PostgresStore DB} (config : PlatformConfig).

#[local] Abbreviation safe := (@outcome DB _ is_type_error expected_status).

Lemma safe_parameter m name k :
  is_Some (parameters m !! name) -> (forall v, safe (k v)) ->
  safe (m_bind (lift (parameter m name)) k).
Proof.
  intros (v & Hv)%parameter_bound Hk. eapply outcome_bind.
  - apply outcome_lift. rewrite Hv. done.
  - intros a _. apply Hk.
Qed.

Lemma safe_lift {A} (v : exn + A) k :
  (forall e, v = inl e -> is_type_error e) -> (forall a, v = inr a -> safe (k a)) ->
  safe (m_bind (lift v) k).
Proof. intros Hv Hk. eapply outcome_bind; [by apply outcome_lift|]. auto. Qed.

Lemma safe_memory {A} (m : M exn MemoryStateStore A) k :
  store_throws is_type_error m -> (forall a, safe (k a)) -> safe (m_bind (on_memory m) k).
Proof. intros Hm Hk. eapply outcome_bind; [by apply outcome_memory|]. auto. Qed.

Lemma safe_SubmitJob request : safe (HandleSubmitJob config request).
Proof.
  unfold HandleSubmitJob. destruct (ValidateSubmitJobRequest _) eqn:Hv; [outcome_leaf|].
  apply outcome_if_postgres. apply safe_memory; [apply throws_NextJobId|]. intros id.
  apply safe_lift.
  - intros e. apply ValidateSubmit_None in Hv as (t & u & w & a & jr & Hv). destruct_and!.
    unfold BuildQueuedJobRecord.
    read_fields. cbn.
    destruct (value_string _ _ _) eqn:E; cbn; [intros [= <-]; eauto with platform|].
    by erewrite at_key_lookup by done.
  - intros job _. apply safe_memory; [apply throws_SubmitJob|]. intros _. outcome_leaf.
Qed.

Lemma safe_GetJob m : is_Some (parameters m !! "job_id") -> safe (HandleGetJob m).
Proof.
  intros Hm. unfold HandleGetJob. apply outcome_if_postgres, safe_parameter; [done|].
  intros id. apply safe_memory; [apply throws_gets|]. intros []; outcome_leaf.
Qed.

Lemma safe_GetJobEvents m : is_Some (parameters m !! "job_id") -> safe (HandleGetJobEvents m).
Proof.
  intros Hm. unfold HandleGetJobEvents. apply safe_parameter; [done|]. intros id.
  apply outcome_if_postgres, safe_memory; [apply throws_gets|]. intros []; [|outcome_leaf].
  apply safe_memory; [apply throws_gets|]. intros events. outcome_leaf.
Qed.

Lemma safe_CancelJob m request :
  is_Some (parameters m !! "job_id") -> safe (HandleCancelJob m request).
Proof.
  intros Hm. unfold HandleCancelJob. destruct (_ || _); [outcome_leaf|].
  apply outcome_if_postgres, safe_parameter; [done|]. intros id.
  apply safe_memory; [apply throws_CancelJob|]. intros []; outcome_leaf.
Qed.

Lemma safe_RegisterWorker request : safe (HandleRegisterWorker request).
Proof.
  unfold HandleRegisterWorker. destruct (first_non_string _ _); [outcome_leaf|].
  apply safe_lift; [eauto with platform|]. intros capacity _.
  destruct (capacity <? 1); [outcome_leaf|]. apply outcome_if_postgres, safe_memory.
  - intros s. done.
  - intros payload. outcome_leaf.
Qed.

Lemma validate_container_error body e :
  ValidateCompileContainerRegistration body = inl e -> is_type_error e.
Proof.
  unfold ValidateCompileContainerRegistration. destruct (negb _); [done|].
  destruct (first_missing_string _ _); [done|]. unfold r_bind.
  destruct (value_int _ _ _) eqn:E; [intros [= <-]; eauto with platform|].
  destruct (_ <? _); [done|]. destruct (j_lookup _ _); [|done]. by destruct (_ && _).
Qed.

Lemma container_fields body :
  ValidateCompileContainerRegistration body = inr None ->
  Forall (fun f => HasNonEmptyString body f = true)
    ["container_id"; "worker_id"; "tenant_id"; "user_id"; "workspace_id"; "region";
     "worker_pool_key"].
Proof.
  unfold ValidateCompileContainerRegistration. destruct (negb _); [done|].
  destruct (first_missing_string _ _) eqn:E; [done|]. intros _. by apply first_missing_None.
Qed.

Lemma create_container_error body e :
  ValidateCompileContainerRegistration body = inr None ->
  CreateFromRegistration body = inl e -> is_type_error e.
Proof.
  intros Hv%container_fields. unfold CreateFromRegistration.
  repeat (apply Forall_cons in Hv as [(? & ? & _)%HasNonEmptyString_lookup Hv]).
  read_fields. cbn. unfold r_bind.
  destruct (value_string _ _ _) eqn:E1; [intros [= <-]; eauto with platform|].
  destruct (value_int _ _ _) eqn:E2; [intros [= <-]; eauto with platform|]. done.
Qed.

Lemma safe_RegisterCompileContainer request : safe (HandleRegisterCompileContainer request).
Proof.
  unfold HandleRegisterCompileContainer. apply safe_lift; [apply validate_container_error|].
  intros [error|] Hv; [outcome_leaf|].
  apply safe_lift; [intros e; by apply create_container_error|]. intros c _.
  apply outcome_if_postgres, (outcome_catch_memory container_texts).
  - eapply outcome_bind; [apply outcome_memory, throws_RegisterCompileContainer|].
    intros stored _. outcome_leaf.
  - intros w Hw. repeat (apply elem_of_cons in Hw as [->|Hw]; [vm_compute str_contains; cbn iota; cbn [orb]; outcome_leaf|]).
    by apply elem_of_nil in Hw.
Qed.

Lemma safe_GetCompileContainer m :
  is_Some (parameters m !! "container_id") -> safe (HandleGetCompileContainer m).
Proof.
  intros Hm. unfold HandleGetCompileContainer. apply safe_parameter; [done|]. intros id.
  apply outcome_if_postgres, safe_memory; [apply throws_gets|]. intros []; outcome_leaf.
Qed.

Lemma switch_fields body :
  ValidateCompileContainerSwitch body = None ->
  Forall (fun f => HasNonEmptyString body f = true) ["worker_id"; "workspace_id"].
Proof.
  unfold ValidateCompileContainerSwitch. destruct (negb _); [done|].
  destruct (first_missing_string _ _) eqn:E; [done|]. intros _. by apply first_missing_None.
Qed.

Lemma safe_Switch m request :
  is_Some (parameters m !! "container_id") ->
  safe (HandleSwitchCompileContainerWorkspace m request).
Proof.
  intros Hm. unfold HandleSwitchCompileContainerWorkspace.
  destruct (ValidateCompileContainerSwitch _) eqn:Hv; [outcome_leaf|].
  apply switch_fields in Hv.
  repeat (apply Forall_cons in Hv as [(? & ? & _)%HasNonEmptyString_lookup Hv]).
  apply safe_parameter; [done|]. intros id.
  apply safe_lift; [intros e; by eapply field_string_error|]. intros w _.
  apply safe_lift; [intros e; by eapply field_string_error|]. intros ws _.
  apply safe_lift; [eauto with platform|]. intros reason _.
  apply outcome_if_postgres, safe_memory; [apply throws_gets|]. intros [c|]; [|outcome_leaf].
  unfold check_switch. destruct (_ <>s w); [outcome_leaf|].
  destruct (_ && _); [outcome_leaf|]. destruct (_ && _); [outcome_leaf|].
  eapply outcome_catch_memory.
  - eapply outcome_bind; [apply outcome_memory, throws_Switch|].
    intros [] _; [outcome_leaf|unfold switched_response; outcome_leaf].
  - intros error _. outcome_leaf.
Qed.

Lemma safe_ClaimJob request : safe (HandleClaimJob request).
Proof.
  unfold HandleClaimJob. destruct (first_non_string _ _); [outcome_leaf|].
  destruct (_ && _); [outcome_leaf|].
  apply outcome_if_postgres, (outcome_catch_memory worker_texts).
  - apply (outcome_bind _ (fun _ => True)).
    + destruct (contains _ _); apply outcome_memory;
        [apply throws_ClaimJobForCompileContainer|apply throws_ClaimJob].
    + intros [job|] _; [|outcome_leaf]. unfold claim_response.
      destruct (contains _ _); [|outcome_leaf].
      eapply outcome_bind; [apply outcome_memory, throws_gets|]. intros [] _; outcome_leaf.
  - intros w Hw. unfold claim_failed. repeat (apply elem_of_cons in Hw as [->|Hw]; [vm_compute str_contains; cbn iota; outcome_leaf|]).
    by apply elem_of_nil in Hw.
Qed.

(** The owner check of heartbeat and completion, and what it gives. *)
Lemma not_owner_false body job :
  not_owner body job = false -> field_string body "worker_id" = inr (job_worker_id job).
Proof.
  unfold not_owner. destruct (j_lookup body "worker_id") as [[]|] eqn:E; try done.
  cbn. intros ->%negb_false_iff%str_eqb_iff. by apply field_string_lookup.
Qed.

Lemma safe_HeartbeatJob m request :
  is_Some (parameters m !! "job_id") -> safe (HandleHeartbeatJob m request).
Proof.
  intros Hm. unfold HandleHeartbeatJob. apply outcome_if_postgres, safe_parameter; [done|].
  intros id r Hr. unfold m_bind at 1, on_memory at 1, zoom, gets. cbn.
  destruct (GetJob id (memory_ r)) as [job|] eqn:Ej; [|by split; [status_ok|]].
  destruct (not_owner _ _) eqn:Ho; [by split; [status_ok|]|].
  apply not_owner_false in Ho. unfold m_bind, lift. rewrite Ho.
  destruct (value_string _ _ _) eqn:Em; [split; [eauto with platform|done]|].
  unfold on_memory, zoom, HeartbeatJob, m_bind, gets. cbn. unfold GetJob in Ej. rewrite Ej.
  rewrite str_eqb_refl. cbn. by split; [status_ok|].
Qed.

Lemma safe_CompleteJob m request :
  is_Some (parameters m !! "job_id") -> safe (HandleCompleteJob m request).
Proof.
  intros Hm. unfold HandleCompleteJob. apply outcome_if_postgres, safe_parameter; [done|].
  intros id r Hr. unfold m_bind at 1, on_memory at 1, zoom, gets. cbn.
  destruct (GetJob id (memory_ r)) as [job|] eqn:Ej; [|by split; [status_ok|]].
  destruct (not_owner _ _) eqn:Ho; [by split; [status_ok|]|].
  apply not_owner_false in Ho. unfold m_bind, lift.
  destruct (value_string _ "status" _) eqn:Es; [split; [eauto with platform|done]|].
  destruct (negb (is_final_status _)); [by split; [status_ok|]|].
  destruct (body_artifacts _) eqn:Ea; [split; [eauto with platform|done]|]. rewrite Ho.
  destruct (value_string _ "message" _) eqn:Em; [split; [eauto with platform|done]|].
  destruct (value_json _ _ _) eqn:Er; [split; [eauto with platform|done]|].
  unfold on_memory, zoom, CompleteJob, m_bind, gets. cbn. unfold GetJob in Ej. rewrite Ej.
  rewrite str_eqb_refl. cbn. by split; [status_ok|].
Qed.

Lemma safe_workspace op m request :
  (forall name, op_parameter op = Some name -> is_Some (parameters m !! name)) ->
  safe (run_workspace config op m request).
Proof.
  intros Hm. destruct op; cbn in *;
    eauto using safe_SubmitJob, safe_GetJob, safe_GetJobEvents, safe_CancelJob,
      safe_RegisterWorker, safe_RegisterCompileContainer, safe_GetCompileContainer, safe_Switch,
      safe_ClaimJob, safe_HeartbeatJob, safe_CompleteJob.
Qed.

(** ** What the handlers do *)

Lemma on_memory_gets {A} (f : MemoryStateStore -> A) (r : PlatformRouter DB) :
  on_memory (gets f) r = (inr (f (memory_ r)), r).
Proof. by destruct r. Qed.

Definition with_store (s : MemoryStateStore) (r : PlatformRouter DB) : PlatformRouter DB :=
  mkRouter s (postgres_ r) (rate_limiter_ r) (metrics_ r) (clock_readings r) (random_draws r)
    (files_ r) (curl_calls r).

(** The job a valid submission becomes, field by field: what the request says, the
    region of the platform where it names none, and nothing of a worker yet. *)
Definition submitted (request : json) (id : string) (job : PlatformJobRecord) : Prop :=
  job_id job = id /\ job_status job = "queued"%string
  /\ j_lookup request "tenant_id" = Some (JString (job_tenant_id job))
  /\ j_lookup request "user_id" = Some (JString (job_user_id job))
  /\ j_lookup request "workspace_id" = Some (JString (job_workspace_id job))
  /\ j_lookup request "action" = Some (JString (job_action job))
  /\ j_lookup request "job_request" = Some (job_request job)
  /\ match j_lookup request "region" with
     | Some region => region = JString (job_region job)
     | None => job_region job = config_region config
     end
  /\ job_worker_pool_key job = WorkerPoolFromRequest request
  /\ job_created_at job = default_created_at /\ job_worker_id job = EmptyString
  /\ job_finished_at job = EmptyString /\ job_artifacts job = [].

(** The store with a job queued under a new number: the job, one event more in its log,
    the next number, and everything else as it was. *)
Definition with_submission (job : PlatformJobRecord) (s : MemoryStateStore) : MemoryStateStore :=
  mkStore (<[job_id job := job]> (jobs_ s))
    (<[job_id job := GetJobEvents (job_id job) s
         ++ [mkEvent "event-queued" (job_id job) "queued" "job queued" default_created_at]]> (events_ s))
    (workers_ s) (compile_containers_ s) (workgroups_ s) (mirrors_ s) (published_releases_ s)
    (registry_packages_ s) (registry_releases_ s) (registry_owners_ s) (registry_tokens_ s)
    (registry_repositories_ s) (registry_repository_versions_ s) (registry_publications_ s)
    (registry_distributions_ s) (registry_audit_events_ s) (u64 (next_job_sequence_ s + 1))
    (next_registry_token_sequence_ s) (next_registry_audit_sequence_ s).

Lemma region_of_request request region :
  value_string request "region" (config_region config) = inr region ->
  match j_lookup request "region" with
  | Some value => value = JString region
  | None => region = config_region config
  end.
Proof.
  unfold value_string, value_or, j_lookup. destruct request as [| | | | | |m]; try done.
  destruct (m !! "region"%string) as [[]|]; cbn; congruence.
Qed.

Lemma HandleSubmitJob_cases request r :
  postgres_ r = None ->
  match HandleSubmitJob config request r with
  | (inr response, r') =>
      (status_code response = 400 /\ r' = r)
      \/ exists id job s1 s2,
          NextJobId (memory_ r) = (inr id, s1) /\ SubmitJob job s1 = (inr tt, s2)
          /\ submitted (req_body request) id job /\ r' = with_store s2 r
          /\ response = JsonResponse 200 (SuccessEnvelope "queued platform job"
                           (SerializeJobRecord job))
  | (inl e, r') =>
      r' = with_store (set_next_job_sequence_ (u64 (next_job_sequence_ (memory_ r) + 1))
                         (memory_ r)) r
  end.
Proof.
  intros Hr. unfold HandleSubmitJob. destruct (ValidateSubmitJobRequest _) eqn:Hv; [by left|].
  unfold if_postgres. rewrite Hr. unfold m_bind, lift, on_memory, zoom.
  unfold NextJobId at 1, m_bind, gets, modify, m_ret.
  destruct (BuildQueuedJobRecord _ _ _) as [e|job] eqn:Eb; [done|]. right.
  apply BuildQueued_inv in Eb. destruct_and!.
  eexists _, job, _, _. split; [done|]. split; [done|]. split; [|done].
  unfold submitted. split_and!; try done. by apply region_of_request.
Qed.
End Outcomes.

(** * Properties *)

#[local] Existing Instances demo_json_lib demo_postgres.
Definition demo_submission (region : json) : json :=
  obj [("tenant_id", JString "t1"); ("user_id", JString "u1"); ("workspace_id", JString "ws1");
       ("action", JString "build"); ("region", region);
       ("job_request", obj [("schema_version", JInt 1); ("manifest_path", JString "spio.toml");
          ("source", obj [("origin", JString "https://example.org/repo.git")])])].

(** On the memory store no workspace handler ever dereferences an empty
    optional or misses a path parameter, whatever the request body and the
    state: it returns one of 200, 400, 403, 404 and 409 (never the store's
    fallback 503), or a JSON type error escapes it, and it stays on the memory
    store. *)
Theorem workspace_handlers_are_total {DB} `{JsonLib} `{PostgresStore DB}
    (config : PlatformConfig) op m request (r : PlatformRouter DB) :
  postgres_ r = None ->
  (forall name, op_parameter op = Some name -> is_Some (parameters m !! name)) ->
  match run_workspace config op m request r with
  | (inl e, r') => (exists id j, e = JsonTypeError id j) /\ postgres_ r' = None
  | (inr response, r') => status_code response ∈ [200; 400; 403; 404; 409] /\ postgres_ r' = None
  end.
Proof. intros Hr Hm. exact (safe_workspace config op m request Hm r Hr). Qed.

Lemma workspace_handlers_are_total_witness :
  match run_workspace default_config OpCompleteJob (demo_match "job_id" "job-1")
          (demo_request (obj [("worker_id", JString "w1"); ("status", JString "failed")]))
          (demo_router (store_step demo_store (CallClaimJob "w1" "eu" "p"))) with
  | (inl e, r') => (exists id j, e = JsonTypeError id j) /\ postgres_ r' = None
  | (inr response, r') => status_code response ∈ [200; 400; 403; 404; 409] /\ postgres_ r' = None
  end.
Proof.
  apply (workspace_handlers_are_total (DB := unit) default_config OpCompleteJob).
  - reflexivity.
  - intros name [= <-]. by exists "job-1"%string.
Defined.

(** C32. A submission that is accepted can be looked up: when [HandleSubmitJob]
    answers 200, the job it answers with is stored queued under a new id, the
    lookup of that id answers 200 with the same payload, the last event of its
    log says "queued", and no other job of the store changed.  The job says what the
    request says in every field, and the whole platform is otherwise as it was: the
    store differs by this job, its event and the next number only. *)
Theorem submitted_job_is_retrievable {DB} `{JsonLib} `{PostgresStore DB}
    (config : PlatformConfig) request (r r' : PlatformRouter DB) response :
  postgres_ r = None ->
  HandleSubmitJob config request r = (inr response, r') -> status_code response = 200 ->
  exists job, submitted config (req_body request) (job_id job) job
    /\ (NextJobId (memory_ r)).1 = inr (job_id job)
    /\ resp_body response = SuccessEnvelope "queued platform job" (SerializeJobRecord job)
    /\ (forall m, parameters m !! "job_id" = Some (job_id job) ->
          HandleGetJob m r'
          = (inr (JsonResponse 200 (SuccessEnvelope "loaded platform job"
                    (SerializeJobRecord job))), r'))
    /\ (exists e, last (GetJobEvents (job_id job) (memory_ r')) = Some e
          /\ event_status e = "queued"%string)
    /\ (forall k, k <> job_id job -> GetJob k (memory_ r') = GetJob k (memory_ r))
    /\ r' = with_store (with_submission job (memory_ r)) r.
Proof.
  intros Hr Hsub Hst. pose proof (HandleSubmitJob_cases config request r Hr) as Hc.
  rewrite Hsub in Hc. destruct Hc as [[Hc _]|(id & job & s1 & s2 & Hid & Hs & Hj & -> & ->)];
    [by rewrite Hc in Hst|].
  assert (Hjid : job_id job = id) by (by destruct Hj). subst id.
  pose proof (f_equal fst Hid) as Hfst. injection Hid as Hid <-.
  unfold SubmitJob, m_bind, modify in Hs. injection Hs as <-.
  exists job. split_and!; [done|done|done| | | |reflexivity].
  - intros m Hm. unfold HandleGetJob, if_postgres. cbn. rewrite Hr. unfold m_bind, lift, parameter.
    rewrite Hm. unfold on_memory, zoom, gets, GetJob. cbn. rewrite lookup_insert_eq.
    unfold with_store. by rewrite Hr.
  - eexists. split; [unfold GetJobEvents; cbn; rewrite lookup_insert_eq; by rewrite last_snoc|].
    done.
  - intros k Hk. unfold GetJob. cbn. by rewrite lookup_insert_ne.
Qed.

Lemma submitted_job_is_retrievable_witness :
  let request := demo_request (demo_submission (JString "eu")) in
  let r := demo_router initial_store in
  let r' := (HandleSubmitJob default_config request r).2 in
  exists job, submitted default_config (req_body request) (job_id job) job
    /\ (NextJobId (memory_ r)).1 = inr (job_id job)
    /\ SuccessEnvelope "queued platform job" (SerializeJobRecord
          (mkJob "job-000000000001" "t1" "u1" "ws1" "build" "queued" "eu" default_worker_pool
             default_created_at "" "" (default JNull (j_lookup (req_body request) "job_request"))
             []))
       = SuccessEnvelope "queued platform job" (SerializeJobRecord job)
    /\ (forall m, parameters m !! "job_id" = Some (job_id job) ->
          HandleGetJob m r'
          = (inr (JsonResponse 200 (SuccessEnvelope "loaded platform job"
                    (SerializeJobRecord job))), r'))
    /\ (exists e, last (GetJobEvents (job_id job) (memory_ r')) = Some e
          /\ event_status e = "queued"%string)
    /\ (forall k, k <> job_id job -> GetJob k (memory_ r') = GetJob k (memory_ r))
    /\ r' = with_store (with_submission job (memory_ r)) r.
Proof.
  apply (submitted_job_is_retrievable (DB := unit) default_config
           (demo_request (demo_submission (JString "eu"))) (demo_router initial_store) _
           (JsonResponse 200 _)).
  - reflexivity.
  - vm_compute. reflexivity.
  - reflexivity.
Defined.

(** C33. Only the owner moves a job or a container on the memory store: a
    heartbeat or completion whose body does not name the job's worker, and a
    workspace switch whose body does not name the container's worker or names
    another tenant or user, answer 4xx (or throw a type error before the
    store is touched) and leave the whole platform state as it was. *)
Theorem workspace_ownership_is_enforced {DB} `{JsonLib} `{PostgresStore DB}
    (config : PlatformConfig) m request (r : PlatformRouter DB) id :
  postgres_ r = None ->
  (parameters m !! "job_id" = Some id ->
   (forall job, GetJob id (memory_ r) = Some job ->
      j_lookup (req_body request) "worker_id" <> Some (JString (job_worker_id job))) ->
   (HandleHeartbeatJob m request r).2 = r /\ (HandleCompleteJob m request r).2 = r)
  /\ (parameters m !! "container_id" = Some id ->
      (forall c, GetCompileContainer id (memory_ r) = Some c ->
         j_lookup (req_body request) "worker_id" <> Some (JString (container_worker_id c))
         \/ (contains (req_body request) "tenant_id" = true
             /\ string_at (req_body request) "tenant_id" <> container_tenant_id c)
         \/ (contains (req_body request) "user_id" = true
             /\ string_at (req_body request) "user_id" <> container_user_id c)) ->
      (HandleSwitchCompileContainerWorkspace m request r).2 = r).
Proof.
  intros Hr. split; intros Hid Hno.
  - assert (Hown : forall job, GetJob id (memory_ r) = Some job ->
              not_owner (req_body request) job = true).
    { intros job Hj. specialize (Hno job Hj). unfold not_owner.
      destruct (j_lookup _ _) as [[]|]; try done. cbn. apply negb_true_iff, str_eqb_false.
      congruence. }
    unfold HandleHeartbeatJob, HandleCompleteJob, if_postgres. rewrite Hr.
    unfold m_bind, lift, parameter. rewrite Hid, !on_memory_gets.
    destruct (GetJob id (memory_ r)) as [job|]; [|done]. by rewrite Hown.
  - unfold HandleSwitchCompileContainerWorkspace.
    destruct (ValidateCompileContainerSwitch _) eqn:Hv; [done|].
    unfold m_bind, lift, parameter. rewrite Hid.
    destruct (field_string _ "worker_id") as [|w] eqn:Hw; [done|].
    destruct (field_string _ "workspace_id"); [done|]. destruct (value_string _ _ _); [done|].
    unfold if_postgres. rewrite Hr, on_memory_gets.
    destruct (GetCompileContainer id (memory_ r)) as [c|]; [|done]. unfold check_switch.
    assert (Hlw : j_lookup (req_body request) "worker_id" = Some (JString w)).
    { unfold field_string, r_bind in Hw. destruct (at_key _ _) as [|j] eqn:Ej; [done|].
      apply at_key_inr in Ej. destruct j; try done. by simplify_eq/=. }
    destruct (container_worker_id c <>s w) eqn:Ew; [done|].
    apply negb_false_iff, str_eqb_iff in Ew. specialize (Hno c eq_refl).
    destruct Hno as [Hno|[[-> Hne]|[Hu Hne]]]; [congruence| |];
      apply str_eqb_false in Hne; rewrite Hne; [done|].
    destruct (_ && _); [done|]. by rewrite Hu.
Qed.

Lemma workspace_ownership_is_enforced_witness :
  let r := demo_router (store_step demo_store (CallClaimJob "w1" "eu" "p")) in
  let request := demo_request (obj [("worker_id", JString "w2"); ("status", JString "failed");
                                    ("workspace_id", JString "ws9")]) in
  ((HandleHeartbeatJob (demo_match "job_id" "job-1") request r).2 = r
   /\ (HandleCompleteJob (demo_match "job_id" "job-1") request r).2 = r)
  /\ (HandleSwitchCompileContainerWorkspace (demo_match "container_id" "c1") request r).2 = r.
Proof.
  cbv zeta. split.
  - apply (workspace_ownership_is_enforced (DB := unit) default_config (demo_match "job_id" "job-1")
             _ _ "job-1"); [reflexivity|reflexivity|].
    intros job Hj. vm_compute in Hj. injection Hj as <-. vm_compute. discriminate.
  - apply (workspace_ownership_is_enforced (DB := unit) default_config
             (demo_match "container_id" "c1") _ _ "c1"); [reflexivity|reflexivity|].
    intros c Hc. vm_compute in Hc. injection Hc as <-. left. vm_compute. discriminate.
Defined.

(** A submission that passes validation but whose "region" is not a string
    is not answered: a JSON type error escapes [HandleSubmitJob], after a job id
    was already consumed. *)
Theorem submit_type_error_escapes {DB} `{JsonLib} `{PostgresStore DB}
    (config : PlatformConfig) request (r : PlatformRouter DB) region :
  postgres_ r = None -> ValidateSubmitJobRequest (req_body request) = None ->
  j_lookup (req_body request) "region" = Some region -> is_string region = false ->
  HandleSubmitJob config request r
  = (inl (JsonTypeError 302 region),
     with_store (set_next_job_sequence_ (u64 (next_job_sequence_ (memory_ r) + 1)) (memory_ r)) r).
Proof.
  intros Hr Hv Hreg Hns. unfold HandleSubmitJob. rewrite Hv. unfold if_postgres. rewrite Hr.
  apply ValidateSubmit_None in Hv as (t & u & w & a & jr & Hv). destruct_and!.
  unfold m_bind, lift, on_memory, zoom, NextJobId, m_bind, gets, modify, m_ret.
  unfold BuildQueuedJobRecord. read_fields. cbn.
  assert (value_string (req_body request) "region" (config_region config)
          = inl (JsonTypeError 302 region)) as ->; [|done].
  destruct (req_body request); try done. unfold value_string, value_or.
  cbn in Hreg. rewrite Hreg. by destruct region.
Qed.

Lemma submit_type_error_escapes_witness :
  let r := demo_router initial_store in
  HandleSubmitJob default_config (demo_request (demo_submission (JInt 7))) r
  = (inl (JsonTypeError 302 (JInt 7)),
     with_store (set_next_job_sequence_ (u64 (next_job_sequence_ (memory_ r) + 1)) (memory_ r)) r).
Proof. apply (submit_type_error_escapes (DB := unit)); vm_compute; reflexivity. Defined.

(** The memory store does not hold a job to its lifecycle: cancelling a job
    answers 200 and overwrites its status and finishing time whatever they
    were, and a job nobody claimed, whose worker is the empty text, is
    completed by a body whose "worker_id" is the empty text. *)
Theorem memory_store_ignores_job_status {DB} `{JsonLib} `{PostgresStore DB}
    m request (r : PlatformRouter DB) id job :
  postgres_ r = None -> parameters m !! "job_id" = Some id -> GetJob id (memory_ r) = Some job ->
  (is_object (req_body request) && has_string (req_body request) "reason" = true ->
   exists response r', HandleCancelJob m request r = (inr response, r')
     /\ status_code response = 200
     /\ GetJob id (memory_ r')
        = Some (with_finished "2026-04-24T00:01:00Z" (with_status "cancelled" job)))
  /\ (job_worker_id job = EmptyString ->
      req_body request = obj [("worker_id", JString ""); ("status", JString "succeeded")] ->
      exists response r', HandleCompleteJob m request r = (inr response, r')
        /\ status_code response = 200
        /\ exists done, GetJob id (memory_ r') = Some done
             /\ job_status done = "succeeded"%string).
Proof.
  intros Hr Hid Hj. pose proof Hj as Hj'. unfold GetJob in Hj'. split.
  - intros [Ho Hs]%andb_true_iff. unfold HandleCancelJob. rewrite Ho, Hs. cbn [negb orb].
    unfold if_postgres. rewrite Hr. unfold m_bind, lift, parameter. rewrite Hid.
    unfold on_memory, zoom, CancelJob, m_bind, gets. rewrite Hj'. cbn.
    eexists _, _. split_and!; [done|done|]. unfold GetJob. cbn. by rewrite lookup_insert_eq.
  - intros Hw Hb. unfold HandleCompleteJob, if_postgres. rewrite Hr.
    unfold m_bind, lift, parameter. rewrite Hid, on_memory_gets, Hj, Hb. clear Hb.
    set (body := obj _).
    assert (not_owner body job = false) as -> by (unfold not_owner; by rewrite Hw).
    change (value_string body "status" "") with (inr "succeeded" : exn + string)%string.
    change (body_artifacts body) with (inr [] : exn + list ArtifactRecord).
    change (field_string body "worker_id") with (inr "" : exn + string)%string.
    change (value_string body "message" "job completed") with
      (inr "job completed" : exn + string)%string.
    change (value_json body "result" (obj [])) with (inr (obj []) : exn + json).
    cbv beta iota. assert (is_final_status "succeeded" = true) as -> by reflexivity. cbn [negb].
    unfold on_memory, zoom, CompleteJob, m_bind, gets. rewrite Hj', Hw. cbn.
    eexists _, _. split_and!; [done|done|]. eexists. unfold GetJob. cbn.
    rewrite lookup_insert_eq. split; [done|]. done.
Qed.

Lemma memory_store_ignores_job_status_witness :
  let request := demo_request (obj [("worker_id", JString ""); ("status", JString "succeeded")]) in
  exists response r', HandleCompleteJob (demo_match "job_id" "job-1") request
      (demo_router demo_store) = (inr response, r')
    /\ status_code response = 200
    /\ exists done, GetJob "job-1" (memory_ r') = Some done
         /\ job_status done = "succeeded"%string.
Proof.
  apply (memory_store_ignores_job_status (DB := unit) (demo_match "job_id" "job-1")
    (demo_request (obj [("worker_id", JString ""); ("status", JString "succeeded")]))
    (demo_router demo_store) "job-1" (demo_job "job-1" "u1" "ws1")); vm_compute; reflexivity.
Defined.
