(* ===== verification/ObjectStore.v ===== *)
(** Object keys, S3 addressing and request signing, and the object operations
    ([PlatformStorage/PlatformPersistence/ObjectStore.cpp]). *)
From stdpp Require Import base list gmap strings.
From Stdlib Require Import ZArith Lia Ascii String.
From S2P Require Import Prelude Json Config FileSystem Process RouterSupport.

Inductive ObjectStoreProvider := S3 | Gcs | Azure | Filesystem | Memory.

#[export] Instance provider_eq_dec : EqDecision ObjectStoreProvider.
Proof. solve_decision. Defined.

(** What the file takes from its host: OpenSSL's HMAC, the clock and the [curl]
    process.  [R] is the state of the remote store; [run_curl args input upload]
    is the run of the process, [upload] being the file it is told to upload. *)
Class CurlHost (R : Type) := {
  openssl_HMAC_SHA256 : list Z -> string -> list Z;
  AmzTimestamp : R -> string;
  run_curl : list string -> string -> option string -> M exn R ProcessResult;
}.

Definition key_char (ch : ascii) : bool :=
  is_lower ch || is_upper ch || is_digit ch || Ascii.eqb ch "-" || Ascii.eqb ch "_"
  || Ascii.eqb ch ".".

Definition SanitizeKeyPart (value : string) : string :=
  let result := str_map (fun ch => if key_char ch then ch else "_"%char) value in
  if is_empty result then "unset" else result.

Definition Sha256Hex `{Host} (value : string) : string := HexBytes (openssl_SHA256 value).

Definition HmacSha256 {R} `{CurlHost R} (key : list Z) (message : string) : list Z :=
  openssl_HMAC_SHA256 key message.
Definition string_bytes (s : string) : list Z := map char_code (chars s).

Definition upper_hex_digit (z : Z) : ascii :=
  default "0"%char (chars "0123456789ABCDEF" !! Z.to_nat z).

Definition url_safe (encode_slash : bool) (ch : ascii) : bool :=
  is_alnum ch || Ascii.eqb ch "-" || Ascii.eqb ch "_" || Ascii.eqb ch "." || Ascii.eqb ch "~"
  || (negb encode_slash && Ascii.eqb ch "/").

Definition url_char (encode_slash : bool) (ch : ascii) : list ascii :=
  if url_safe encode_slash ch then [ch]
  else ["%"%char; upper_hex_digit (char_code ch / 16); upper_hex_digit (char_code ch mod 16)].

Definition UrlEncode (value : string) (encode_slash : bool) : string :=
  of_chars (flat_map (url_char encode_slash) (chars value)).

Definition is_slash (c : ascii) : bool := Ascii.eqb c "/".

Definition strip_leading_slashes (value : string) : string :=
  of_chars (drop_while is_slash (chars value)).

Definition TrimSlashes (value : string) : string :=
  of_chars (drop_while_end is_slash (drop_while is_slash (chars value))).

Definition ApplyPrefix (config : ObjectStoreConfig) (key : string) : string :=
  let prefix := TrimSlashes (prefix config) in
  if is_empty prefix then key else prefix +:+ "/" +:+ key.

Definition StripPrefix (config : ObjectStoreConfig) (key : string) : string :=
  let prefix := TrimSlashes (prefix config) in
  if is_empty prefix then key
  else
    let marker := prefix +:+ "/" in
    if key =s prefix then EmptyString
    else if str_starts_with key marker then str_drop (str_length marker) key
    else key.

Definition bad_part (part : string) : bool := is_empty part || (part =s ".") || (part =s "..").

Definition NormalizeObjectPrefix (p : string) : exn + string :=
  let value := strip_leading_slashes p in
  if is_empty value then inr value
  else if str_contains_char value "\"
  then inl (RuntimeError "object prefix must be a POSIX relative path")
  else if existsb bad_part (getline_all "/" value)
  then inl (RuntimeError "object prefix must be canonical and stay inside the object root")
  else inr value.

Record S3Endpoint := mkEndpoint { scheme : string; host : string; base_path : string }.

Definition ParseEndpoint (config : ObjectStoreConfig) : exn + S3Endpoint :=
  if is_empty (endpoint config)
  then inl (RuntimeError "S3 object store requires STYIO_PLATFORM_OBJECT_STORE_ENDPOINT")
  else
    match str_find "://" (endpoint config) with
    | None => inl (RuntimeError "S3 endpoint must include http:// or https://")
    | Some scheme_end =>
        let rest := str_drop (scheme_end + 3) (endpoint config) in
        let result :=
          match find_char "/" (chars rest) with
          | None => mkEndpoint (str_take scheme_end (endpoint config)) rest EmptyString
          | Some slash => mkEndpoint (str_take scheme_end (endpoint config)) (str_take slash rest)
                            (TrimSlashes (str_drop (slash + 1) rest))
          end in
        if is_empty (host result) then inl (RuntimeError "S3 endpoint host is empty")
        else inr result
    end.

Fixpoint join_with (sep : string) (parts : list string) : string :=
  match parts with
  | [] => EmptyString
  | [p] => p
  | p :: rest => p +:+ sep +:+ join_with sep rest
  end.

Definition S3CanonicalPath (config : ObjectStoreConfig) (key : string) : exn + string :=
  endpoint <-? ParseEndpoint config ;;
  let parts := (if is_empty (base_path endpoint) then [] else [base_path endpoint])
               ++ (if path_style config then [bucket config] else []) ++ [key] in
  inr ("/" +:+ join_with "/" (map (fun part => UrlEncode part false) parts)).

Definition s3_host (config : ObjectStoreConfig) (endpoint : S3Endpoint) : string :=
  if path_style config then host endpoint else bucket config +:+ "." +:+ host endpoint.

Definition S3Url (config : ObjectStoreConfig) (key query : string) : exn + string :=
  endpoint <-? ParseEndpoint config ;;
  path <-? S3CanonicalPath config key ;;
  let url := scheme endpoint +:+ "://" +:+ s3_host config endpoint +:+ path in
  inr (if is_empty query then url else url +:+ "?" +:+ query).

Definition DateFromAmzTimestamp (timestamp : string) : string := str_take 8 timestamp.

Definition S3SigningKey {R} `{CurlHost R} (config : ObjectStoreConfig) (date : string) : list Z :=
  let k_date := HmacSha256 (string_bytes ("AWS4" +:+ secret_access_key config)) date in
  let k_region := HmacSha256 k_date (store_region config) in
  let k_service := HmacSha256 k_region "s3" in
  HmacSha256 k_service "aws4_request".

Definition newline : string := String "010" EmptyString.

Definition S3SignedHeaders {R} `{Host} `{CurlHost R} (config : ObjectStoreConfig)
    (method key payload_hash query timestamp : string) : exn + list string :=
  if is_empty (bucket config) || is_empty (access_key_id config)
     || is_empty (secret_access_key config)
  then inl (RuntimeError "S3 object store requires bucket, access key id, and secret access key")
  else
    endpoint <-? ParseEndpoint config ;;
    let host := s3_host config endpoint in
    let date := DateFromAmzTimestamp timestamp in
    let has_token := negb (is_empty (session_token config)) in
    let canonical_headers :=
      "host:" +:+ host +:+ newline +:+ "x-amz-content-sha256:" +:+ payload_hash +:+ newline
      +:+ "x-amz-date:" +:+ timestamp +:+ newline
      +:+ (if has_token then "x-amz-security-token:" +:+ session_token config +:+ newline
           else EmptyString) in
    let signed_headers :=
      "host;x-amz-content-sha256;x-amz-date"
      +:+ (if has_token then ";x-amz-security-token" else EmptyString) in
    path <-? S3CanonicalPath config key ;;
    let canonical_request :=
      method +:+ newline +:+ path +:+ newline +:+ query +:+ newline +:+ canonical_headers
      +:+ newline +:+ signed_headers +:+ newline +:+ payload_hash in
    let scope := date +:+ "/" +:+ store_region config +:+ "/s3/aws4_request" in
    let string_to_sign :=
      "AWS4-HMAC-SHA256" +:+ newline +:+ timestamp +:+ newline +:+ scope +:+ newline
      +:+ Sha256Hex canonical_request in
    let signature := HexBytes (HmacSha256 (S3SigningKey config date) string_to_sign) in
    inr (["Host: " +:+ host;
          "x-amz-content-sha256: " +:+ payload_hash;
          "x-amz-date: " +:+ timestamp;
          "Authorization: AWS4-HMAC-SHA256 Credential=" +:+ access_key_id config +:+ "/" +:+ scope
          +:+ ", SignedHeaders=" +:+ signed_headers +:+ ", Signature=" +:+ signature]
         ++ (if has_token then ["x-amz-security-token: " +:+ session_token config] else [])).

Definition RunCurl {R} `{CurlHost R} (args : list string) (stdin_text : string)
    (upload : option string) : M exn R string :=
  result <- run_curl args stdin_text upload ;;
  if negb (exit_code result =? 0)
  then throw (RuntimeError ("curl S3 request failed: " +:+ DescribeProcessFailure result))
  else m_ret (stdout_text result).

Definition AppendHeaders (args headers : list string) : list string :=
  args ++ flat_map (fun header => ["-H"; header]) headers.

(** The scan of [ExtractXmlKeys]; every round consumes input, so the length of
    the text is enough fuel. *)
Fixpoint extract_keys (fuel : nat) (xml : string) : list string :=
  match fuel with
  | O => []
  | S fuel =>
      match str_find "<Key>" xml with
      | None => []
      | Some b =>
          let from := str_drop b xml in
          match str_find "</Key>" from with
          | None => []
          | Some e => str_take (e - 5) (str_drop 5 from) :: extract_keys fuel (str_drop (e + 6) from)
          end
      end
  end.
Definition ExtractXmlKeys (xml : string) : list string := extract_keys (S (str_length xml)) xml.

Definition ParseObjectStoreProvider (value : string) : ObjectStoreProvider :=
  if value =s "gcs" then Gcs
  else if value =s "azure" then Azure
  else if value =s "filesystem" then Filesystem
  else if value =s "memory" then Memory
  else S3.

Definition ProviderToString (provider : ObjectStoreProvider) : string :=
  match provider with
  | S3 => "s3" | Gcs => "gcs" | Azure => "azure" | Filesystem => "filesystem" | Memory => "memory"
  end.

Definition IsObjectStoreProviderImplemented (provider : ObjectStoreProvider) : bool :=
  match provider with S3 | Filesystem | Memory => true | _ => false end.

Definition BuildArtifactObjectKey (tenant_id workspace_id job_id artifact_name : string) : string :=
  "tenants/" +:+ SanitizeKeyPart tenant_id +:+ "/workspaces/" +:+ SanitizeKeyPart workspace_id
  +:+ "/jobs/" +:+ SanitizeKeyPart job_id +:+ "/artifacts/" +:+ SanitizeKeyPart artifact_name.

Definition NormalizeObjectKey (key : string) : exn + string :=
  let value := strip_leading_slashes key in
  if is_empty value || str_ends_with value "/" || str_contains_char value "\"
  then inl (RuntimeError "object key must be a non-empty POSIX relative path")
  else if existsb bad_part (getline_all "/" value)
  then inl (RuntimeError "object key must be canonical and stay inside the object root")
  else inr value.

Definition requires_s3 {S} (config : ObjectStoreConfig) (operation : string) : M exn S unit :=
  if bool_decide (ParseObjectStoreProvider (provider config) = S3) then m_ret tt
  else throw (RuntimeError (operation +:+ " currently requires the S3 object store provider")).

Definition PutObjectBytes {R} `{Host} `{CurlHost R} (config : ObjectStoreConfig)
    (key payload content_type : string) : M exn R unit :=
  normalized <- lift (NormalizeObjectKey key) ;;
  let object_key := ApplyPrefix config normalized in
  requires_s3 config "PutObjectBytes" ;;;
  let payload_hash := Sha256Hex payload in
  url <- lift (S3Url config object_key "") ;;
  timestamp <- gets AmzTimestamp ;;
  headers <- lift (S3SignedHeaders config "PUT" object_key payload_hash "" timestamp) ;;
  RunCurl (AppendHeaders ["-sS"; "-X"; "PUT"; "--upload-file"; "-"; url] headers
           ++ ["-H"; "Content-Type: " +:+ content_type]) payload None ;;;
  m_ret tt.

Definition PutObjectFile {R} `{Host} `{CurlHost R} (files : FileTree) (config : ObjectStoreConfig)
    (key path content_type : string) : M exn R unit :=
  normalized <- lift (NormalizeObjectKey key) ;;
  let object_key := ApplyPrefix config normalized in
  requires_s3 config "PutObjectFile" ;;;
  payload_hash <- lift (Sha256File files path) ;;
  url <- lift (S3Url config object_key "") ;;
  timestamp <- gets AmzTimestamp ;;
  headers <- lift (S3SignedHeaders config "PUT" object_key payload_hash "" timestamp) ;;
  RunCurl (AppendHeaders ["-sS"; "-X"; "PUT"; "--upload-file"; path; url] headers
           ++ ["-H"; "Content-Type: " +:+ content_type]) EmptyString (open_in files path) ;;;
  m_ret tt.

Definition GetObjectText {R} `{Host} `{CurlHost R} (config : ObjectStoreConfig) (key : string)
  : M exn R (option string) :=
  normalized <- lift (NormalizeObjectKey key) ;;
  let object_key := ApplyPrefix config normalized in
  requires_s3 config "GetObjectText" ;;;
  url <- lift (S3Url config object_key "") ;;
  timestamp <- gets AmzTimestamp ;;
  headers <- lift (S3SignedHeaders config "GET" object_key "UNSIGNED-PAYLOAD" "" timestamp) ;;
  catch_std (text <- RunCurl (AppendHeaders ["-sS"; "-f"; url] headers) EmptyString None ;;
             m_ret (Some text))
    (fun _ => m_ret None).

Definition ObjectExists {R} `{Host} `{CurlHost R} (config : ObjectStoreConfig) (key : string)
  : M exn R bool :=
  normalized <- lift (NormalizeObjectKey key) ;;
  let object_key := ApplyPrefix config normalized in
  requires_s3 config "ObjectExists" ;;;
  url <- lift (S3Url config object_key "") ;;
  timestamp <- gets AmzTimestamp ;;
  headers <- lift (S3SignedHeaders config "HEAD" object_key "UNSIGNED-PAYLOAD" "" timestamp) ;;
  text <- RunCurl (AppendHeaders
            ["-sS"; "-o"; "/dev/null"; "-w"; "%{http_code}"; "-I"; url] headers) EmptyString None ;;
  m_ret (str_starts_with text "2").

Definition ListObjectKeys {R} `{Host} `{CurlHost R} (config : ObjectStoreConfig) (p : string)
  : M exn R (list string) :=
  normalized <- lift (NormalizeObjectPrefix p) ;;
  let normalized_prefix := if is_empty normalized then TrimSlashes (prefix config)
                           else ApplyPrefix config normalized in
  let query := "list-type=2&prefix=" +:+ UrlEncode normalized_prefix true in
  url <- lift (S3Url config "" query) ;;
  timestamp <- gets AmzTimestamp ;;
  headers <- lift (S3SignedHeaders config "GET" "" "UNSIGNED-PAYLOAD" query timestamp) ;;
  text <- RunCurl (AppendHeaders ["-sS"; url] headers) EmptyString None ;;
  m_ret (List.filter (fun key => negb (is_empty key))
           (map (StripPrefix config) (ExtractXmlKeys text))).

Definition DescribeObjectStore (config : ObjectStoreConfig) : json :=
  let p := ParseObjectStoreProvider (provider config) in
  obj [("provider", JString (ProviderToString p));
       ("implemented", JBool (IsObjectStoreProviderImplemented p));
       ("bucket_configured", configured (bucket config));
       ("endpoint_configured", configured (endpoint config));
       ("access_key_configured", configured (access_key_id config));
       ("secret_configured", configured (secret_access_key config));
       ("prefix_configured", configured (prefix config));
       ("path_style", JBool (path_style config));
       ("region", JString (store_region config))].

(** ** What a canonical key is *)

(** A relative path that cannot leave the directory it is resolved in. *)
Definition canonical_key (key : string) : bool :=
  forallb (fun part => negb (bad_part part)) (components key)
  && negb (str_contains_char key "\").

(** Decoding of percent escapes, the inverse [UrlEncode] promises. *)
Definition hex_value (c : ascii) : Z :=
  if is_digit c then char_code c - 48 else char_code c - 55.
Fixpoint url_decode (fuel : nat) (l : list ascii) : list ascii :=
  match fuel with
  | O => []
  | S fuel =>
      match l with
      | c :: r =>
          if Ascii.eqb c "%" then
            match r with
            | a :: b :: r => ascii_of_N (Z.to_N (hex_value a * 16 + hex_value b)) :: url_decode fuel r
            | _ => []
            end
          else c :: url_decode fuel r
      | [] => []
      end
  end.

(** * Lemmas *)

Lemma split_all_getline sep acc l :
  split_all sep acc l
  = getline_all_aux sep acc l
    ++ (if match last l with Some c => Ascii.eqb c sep | None => match acc with [] => true | _ => false end end
        then [EmptyString] else []).
Proof.
  revert acc. induction l as [|c l IH]; intros acc; cbn [split_all getline_all_aux].
  - by destruct acc.
  - destruct (Ascii.eqb c sep) eqn:E.
    + rewrite IH. cbn [app]. f_equal. f_equal.
      destruct l as [|a l]; [cbn; by rewrite E|]. rewrite last_cons_cons.
      by destruct (last (a :: l)) eqn:L; [|apply last_None in L].
    + rewrite IH. f_equal. destruct l as [|a l]; [cbn; by rewrite E|]. rewrite last_cons_cons.
      by destruct (last (a :: l)) eqn:L; [|apply last_None in L].
Qed.

Lemma drop_while_head {A} (p : A -> bool) l :
  match drop_while p l with [] => True | c :: _ => p c = false end.
Proof. induction l as [|a l IH]; cbn; [done|]. by destruct (p a) eqn:E. Qed.

Lemma drop_while_id {A} (p : A -> bool) l :
  match l with [] => True | c :: _ => p c = false end -> drop_while p l = l.
Proof. destruct l; cbn; [done|]. by intros ->. Qed.

Lemma strip_leading_idem key :
  strip_leading_slashes (strip_leading_slashes key) = strip_leading_slashes key.
Proof.
  unfold strip_leading_slashes. rewrite chars_of_chars. f_equal.
  apply drop_while_id, drop_while_head.
Qed.

Lemma str_ends_with_last s c :
  str_ends_with s (String c EmptyString)
  = match last (chars s) with Some d => Ascii.eqb d c | None => false end.
Proof.
  unfold str_ends_with. rewrite (str_length_chars s). change (str_length (String c "")) with 1%nat.
  destruct (chars s) as [|d l _] eqn:E using rev_ind.
  - cbn. apply (f_equal of_chars) in E. rewrite of_chars_chars in E. by subst.
  - rewrite last_snoc, List.length_app. cbn [List.length].
    assert ((1 <=? List.length l + 1)%nat = true) as -> by (apply Nat.leb_le; lia). cbn [andb].
    unfold str_drop. rewrite E. replace (List.length l + 1 - 1)%nat with (List.length l) by lia.
    rewrite drop_app_length. cbn. by destruct (Ascii.eqb d c).
Qed.

(** When the guard passes, [std::getline] sees every component. *)
Lemma getline_components s :
  is_empty s = false -> str_ends_with s "/" = false -> getline_all "/" s = components s.
Proof.
  rewrite str_ends_with_last. intros He Hl. unfold components, getline_all.
  rewrite split_all_getline. destruct (last (chars s)) as [c|] eqn:E; [by rewrite Hl, app_nil_r|].
  apply last_None, (f_equal of_chars) in E. rewrite of_chars_chars in E. by rewrite E in He.
Qed.

Lemma canonical_guard s :
  canonical_key s = true ->
  is_empty s = false /\ str_ends_with s "/" = false /\ str_contains_char s "\" = false.
Proof.
  unfold canonical_key. intros [Hf Hb%negb_true_iff]%andb_true_iff. split_and!; [..|done].
  - by destruct s.
  - rewrite str_ends_with_last. unfold components in Hf. rewrite split_all_getline in Hf.
    rewrite forallb_app in Hf. apply andb_true_iff in Hf as [_ Hf].
    destruct (last (chars s)) as [c|]; [|done]. by destruct (Ascii.eqb c "/").
Qed.

Lemma NormalizeObjectKey_cases key :
  let s := strip_leading_slashes key in
  NormalizeObjectKey key
  = if is_empty s || str_ends_with s "/" || str_contains_char s "\"
    then inl (RuntimeError "object key must be a non-empty POSIX relative path")
    else if canonical_key s then inr s
    else inl (RuntimeError "object key must be canonical and stay inside the object root").
Proof.
  intros s. unfold NormalizeObjectKey. fold s.
  destruct (is_empty s || str_ends_with s "/" || str_contains_char s "\") eqn:Hg; [done|].
  rewrite !orb_false_iff in Hg. destruct Hg as [[He Hl] Hb].
  rewrite (getline_components s He Hl), existsb_forallb. unfold canonical_key. rewrite Hb.
  by destruct (forallb _ _).
Qed.

Lemma NormalizeObjectKey_inr key v :
  NormalizeObjectKey key = inr v <->
  v = strip_leading_slashes key /\ canonical_key v = true.
Proof.
  rewrite NormalizeObjectKey_cases. set (s := strip_leading_slashes key). split.
  - destruct (_ || _); [done|]. destruct (canonical_key s) eqn:Hc; [|done]. by intros [= <-].
  - intros [-> Hc]. destruct (canonical_guard _ Hc) as (-> & -> & ->). by rewrite Hc.
Qed.

Lemma str_starts_with_app p s : str_starts_with (p +:+ s) p = true.
Proof.
  unfold str_starts_with. induction p as [|c p IH]; [by destruct s|].
  change (String c p +:+ s) with (String c (p +:+ s)). cbn [String.prefix].
  destruct (Ascii.ascii_dec c c) as [_|Hne]; [exact IH|by destruct Hne].
Qed.

Lemma StripPrefix_ApplyPrefix config key : StripPrefix config (ApplyPrefix config key) = key.
Proof.
  unfold StripPrefix, ApplyPrefix. set (p := TrimSlashes _). destruct (is_empty p); [done|].
  destruct (_ =s p) eqn:E.
  { apply str_eqb_iff, (f_equal (fun s => List.length (chars s))) in E.
    rewrite !chars_app, !List.length_app in E. cbn in E. lia. }
  rewrite <- str_app_assoc, str_starts_with_app. apply str_drop_all.
Qed.

Lemma nat_below_16 (P : nat -> Prop) :
  Forall P (seq 0 16) -> forall n, (n < 16)%nat -> P n.
Proof. rewrite Forall_forall. intros H n Hn. apply H, elem_of_seq. lia. Qed.

Lemma hex_value_upper z :
  0 <= z < 16 -> hex_value (upper_hex_digit z) = z.
Proof.
  intros Hz. rewrite <- (Z2Nat.id z) by lia. generalize (Z.to_nat z), (Z2Nat.inj_lt z 16).
  intros n Hn. apply (nat_below_16 (fun n => hex_value (upper_hex_digit (Z.of_nat n)) = Z.of_nat n));
    [|lia]. by repeat constructor.
Qed.

Lemma char_code_bound c : 0 <= char_code c < 256.
Proof. unfold char_code. pose proof (N_ascii_bounded c). lia. Qed.

Lemma char_code_decode c : ascii_of_N (Z.to_N (char_code c)) = c.
Proof. unfold char_code. rewrite N2Z.id. apply ascii_N_embedding. Qed.

Lemma url_decode_encode slash l fuel :
  (List.length (flat_map (url_char slash) l) < fuel)%nat ->
  url_decode fuel (flat_map (url_char slash) l) = l.
Proof.
  revert fuel. induction l as [|c l IH]; intros [|fuel] Hf; cbn in *; try done; [lia|].
  unfold url_char in *. destruct (url_safe slash c) eqn:E.
  - cbn in *. assert (Ascii.eqb c "%" = false) as ->.
    { apply Ascii.eqb_neq. intros ->. by destruct slash. }
    f_equal. apply IH. lia.
  - cbn in *. destruct fuel as [|fuel]; [lia|]. pose proof (char_code_bound c) as Hc.
    rewrite !hex_value_upper.
    + replace (char_code c / 16 * 16 + char_code c mod 16) with (char_code c)
        by (pose proof (Z.div_mod (char_code c) 16); lia).
      rewrite char_code_decode. f_equal. apply IH. lia.
    + apply Z.mod_pos_bound. lia.
    + split; [apply Z.div_pos; lia|apply Z.div_lt_upper_bound; lia].
Qed.

(** Components of a joined path. *)
Lemma split_all_join sep acc a b :
  forallb (fun c => negb (Ascii.eqb c sep)) a = true ->
  split_all sep acc (a ++ sep :: b) = of_chars (rev acc ++ a) :: split_all sep [] b.
Proof.
  revert acc. induction a as [|c a IH]; intros acc; cbn.
  - intros _. by rewrite Ascii.eqb_refl, app_nil_r.
  - intros [Hc Ha]%andb_true_iff. apply negb_true_iff in Hc. rewrite Hc, IH by done. cbn.
    by rewrite <- (assoc_L (++)).
Qed.

Lemma split_all_single sep acc a :
  forallb (fun c => negb (Ascii.eqb c sep)) a = true ->
  split_all sep acc a = [of_chars (rev acc ++ a)].
Proof.
  revert acc. induction a as [|c a IH]; intros acc; cbn; [by rewrite app_nil_r|].
  intros [Hc Ha]%andb_true_iff. apply negb_true_iff in Hc. rewrite Hc, IH by done. cbn.
  by rewrite <- (assoc_L (++)).
Qed.

Lemma key_char_safe c : key_char c = true -> Ascii.eqb c "/" = false /\ Ascii.eqb "\" c = false.
Proof.
  intros H. split; apply Ascii.eqb_neq; [intros ->|intros <-]; by vm_compute in H.
Qed.

Lemma SanitizeKeyPart_chars v : forallb key_char (chars (SanitizeKeyPart v)) = true.
Proof.
  unfold SanitizeKeyPart. destruct (is_empty _); [done|]. unfold str_map. rewrite chars_of_chars.
  apply forallb_forall. intros c (d & <- & _)%in_map_iff. by destruct (key_char d) eqn:E.
Qed.

Lemma sanitized_no_slash v :
  forallb (fun c => negb (Ascii.eqb c "/")) (chars (SanitizeKeyPart v)) = true.
Proof.
  pose proof (SanitizeKeyPart_chars v) as H. rewrite forallb_forall in *.
  intros c Hc%H. by destruct (key_char_safe c Hc) as [-> _].
Qed.

Lemma sanitized_no_backslash v : str_contains_char (SanitizeKeyPart v) "\" = false.
Proof.
  unfold str_contains_char, char_in. rewrite existsb_forallb. apply negb_false_iff.
  pose proof (SanitizeKeyPart_chars v) as H. rewrite forallb_forall in *.
  intros c Hc%H. by destruct (key_char_safe c Hc) as [_ ->].
Qed.

Lemma contains_char_app a b c :
  str_contains_char (a +:+ b) c = str_contains_char a c || str_contains_char b c.
Proof. unfold str_contains_char, char_in. by rewrite chars_app, existsb_app. Qed.

(** The eight pieces of an artifact key. *)
Lemma artifact_components t w j a :
  components (BuildArtifactObjectKey t w j a)
  = ["tenants"; SanitizeKeyPart t; "workspaces"; SanitizeKeyPart w; "jobs"; SanitizeKeyPart j;
     "artifacts"; SanitizeKeyPart a]%string.
Proof.
  unfold components, BuildArtifactObjectKey. rewrite !chars_app.
  change (chars "tenants/") with (chars "tenants" ++ ["/"%char]).
  change (chars "/workspaces/") with ("/"%char :: chars "workspaces" ++ ["/"%char]).
  change (chars "/jobs/") with ("/"%char :: chars "jobs" ++ ["/"%char]).
  change (chars "/artifacts/") with ("/"%char :: chars "artifacts" ++ ["/"%char]).
  repeat (rewrite <- !(assoc_L (++)) || rewrite <- !app_comm_cons). cbn [app].
  do 7 (rewrite split_all_join by (apply sanitized_no_slash || reflexivity); cbn [rev app];
        rewrite of_chars_chars; f_equal).
  rewrite split_all_single by apply sanitized_no_slash. cbn [rev app]. by rewrite of_chars_chars.
Qed.

Lemma artifact_no_backslash t w j a :
  str_contains_char (BuildArtifactObjectKey t w j a) "\" = false.
Proof.
  unfold BuildArtifactObjectKey. by rewrite !contains_char_app, !sanitized_no_backslash.
Qed.

Lemma SanitizeKeyPart_nonempty v : is_empty (SanitizeKeyPart v) = false.
Proof.
  unfold SanitizeKeyPart. destruct (is_empty (str_map _ _)) eqn:E; [reflexivity|exact E].
Qed.

Definition dot_name (v : string) : bool :=
  (SanitizeKeyPart v =s ".") || (SanitizeKeyPart v =s "..").

Lemma artifact_canonical t w j a :
  canonical_key (BuildArtifactObjectKey t w j a)
  = negb (dot_name t || dot_name w || dot_name j || dot_name a).
Proof.
  unfold canonical_key. rewrite artifact_components, artifact_no_backslash.
  assert (Hb : forall v, bad_part (SanitizeKeyPart v) = dot_name v).
  { intros v. unfold bad_part, dot_name. by rewrite SanitizeKeyPart_nonempty. }
  cbn [forallb]. rewrite !Hb. cbn [bad_part is_empty orb negb andb].
  by destruct (dot_name t), (dot_name w), (dot_name j), (dot_name a).
Qed.

Lemma artifact_guard t w j a :
  let key := BuildArtifactObjectKey t w j a in
  is_empty key || str_ends_with key "/" || str_contains_char key "\" = false.
Proof.
  intros key. unfold key. rewrite artifact_no_backslash, orb_false_r.
  rewrite str_ends_with_last. unfold BuildArtifactObjectKey. rewrite !chars_app, !last_app.
  destruct (last (chars (SanitizeKeyPart a))) as [c|] eqn:El.
  - cbn [orb]. pose proof (sanitized_no_slash a) as Hsl. rewrite forallb_forall in Hsl.
    apply last_Some in El as [l El].
    specialize (Hsl c). rewrite El, in_app_iff in Hsl.
    apply negb_true_iff, Hsl. right. by left.
  - apply last_None, (f_equal of_chars) in El. rewrite of_chars_chars in El.
    pose proof (SanitizeKeyPart_nonempty a) as Hne. by rewrite El in Hne.
Qed.

(** * Properties *)

(** [NormalizeObjectKey] lets through exactly the canonical keys, less their
    leading slashes: whatever it returns is a relative path whose every
    component is non-empty and neither "." nor "..", without a backslash, and
    normalizing it again changes nothing, so a stored object can never lie
    outside the object root. *)
Theorem normalized_keys_are_canonical key :
  (forall v, NormalizeObjectKey key = inr v <->
     v = strip_leading_slashes key /\ canonical_key v = true)
  /\ (forall v, NormalizeObjectKey key = inr v -> NormalizeObjectKey v = inr v).
Proof.
  split; [apply NormalizeObjectKey_inr|]. intros v [-> Hc]%NormalizeObjectKey_inr.
  apply NormalizeObjectKey_inr. by rewrite strip_leading_idem.
Qed.

(** An artifact key is accepted by [NormalizeObjectKey] exactly when none of
    the tenant, workspace, job and artifact names sanitizes to "." or "..": the
    sanitizer keeps dots, so those names, and only those, give a key that steps
    out of its directory. *)
Theorem artifact_key_is_canonical_iff t w j a :
  let key := BuildArtifactObjectKey t w j a in
  let dots := fun v => (SanitizeKeyPart v =s ".") || (SanitizeKeyPart v =s "..") in
  NormalizeObjectKey key
  = (if dots t || dots w || dots j || dots a
     then inl (RuntimeError "object key must be canonical and stay inside the object root")
     else inr key).
Proof.
  intros key dots. assert (Hs : strip_leading_slashes key = key).
  { unfold strip_leading_slashes. rewrite drop_while_id; [apply of_chars_chars|].
    unfold key, BuildArtifactObjectKey. rewrite chars_app. exact eq_refl. }
  rewrite NormalizeObjectKey_cases, Hs. unfold key at 1 2 3 4.
  rewrite artifact_guard, artifact_canonical. fold key. unfold dots. by destruct (_ || _).
Qed.

(** Percent-encoding loses nothing: the decoder of percent escapes gives
    back every value [UrlEncode] encoded, slashes encoded or not, so two
    different keys or prefixes never share a URL. *)
Theorem url_encode_roundtrip value slash :
  of_chars (url_decode (S (str_length (UrlEncode value slash))) (chars (UrlEncode value slash)))
  = value.
Proof.
  unfold UrlEncode. rewrite str_length_chars, !chars_of_chars, url_decode_encode by lia.
  apply of_chars_chars.
Qed.

(** The configured prefix is transparent: the key that listing reports for
    an object stored under a key is that key. *)
Theorem prefix_roundtrip config key : StripPrefix config (ApplyPrefix config key) = key.
Proof. apply StripPrefix_ApplyPrefix. Qed.
