(* ===== verification/Governance.v ===== *)
(** Documentation governance and ecosystem release planning
    ([PlatformCloud/DocumentationGovernance/DocumentationGovernance.cpp],
    [DocumentationGovernanceRoutes.cpp],
    [PlatformCloud/EcosystemManagement/EcosystemManager.cpp]). *)
From stdpp Require Import base list gmap sets strings.
From Stdlib Require Import ZArith Lia Ascii String.
From S2P Require Import Prelude Json Http RouterSupport.

Record DocumentationCollection := mkCollection {
  col_id : string;
  col_path : string;
  col_owner : string;
  col_classification : string;
  col_purposes : list string;
  col_gates : list string;
}.

Definition CollectionJson (c : DocumentationCollection) : json :=
  obj [("id", JString (col_id c)); ("path", JString (col_path c));
       ("owner", JString (col_owner c)); ("classification", JString (col_classification c));
       ("purposes", strings (col_purposes c)); ("required_gates", strings (col_gates c))].

Definition CollectionList : list DocumentationCollection :=
  [
   mkCollection "governance" "docs/governance" "control-plane" "normative"
     ["service-boundary policy"; "control-plane rules"; "workspace compile model"]
     ["docs-index"; "docs-audit"; "team-docs-gate"; "contract-gate"];
   mkCollection "registry" "docs/registry" "control-plane" "normative"
     ["package registry contracts"; "mirror synchronization"; "static read-plane policy"]
     ["docs-index"; "docs-audit"; "team-docs-gate"; "registry-contract-gate"];
   mkCollection "operations" "docs/operations" "control-plane" "operational"
     ["regional node operations"; "registry server deployment"; "compile stress operation"]
     ["docs-index"; "docs-audit"; "team-docs-gate"; "smoke-gate"];
   mkCollection "security" "docs/security" "platform-security" "normative"
     ["trust boundaries"; "hosted workspace security"; "registry security"]
     ["docs-index"; "docs-audit"; "security-review"];
   mkCollection "specs" "docs/specs" "docs-delivery" "normative"
     ["technology inventory"; "post-commit checks"; "audit checklist"]
     ["docs-index"; "docs-audit"; "repo-hygiene-gate"];
   mkCollection "adr" "docs/adr" "architecture" "decision-record"
     ["architecture decisions"; "migration rationale"]
     ["docs-index"; "docs-audit"];
   mkCollection "planning" "docs/plan" "platform-kernel" "planning"
     ["migration plans"; "roadmap items"]
     ["docs-index"; "docs-audit"];
   mkCollection "external" "docs/external" "docs-delivery" "handoff"
     ["downstream handoff"; "cross-repository alignment"]
     ["docs-index"; "docs-audit"];
   mkCollection "assets" "docs/assets" "docs-delivery" "workflow-asset"
     ["reusable workflow assets"; "gate descriptions"; "templates"]
     ["docs-index"; "docs-audit"];
   mkCollection "teams" "docs/teams" "docs-delivery" "ownership-runbook"
     ["team ownership"; "handoff policy"; "runbook statistics"]
     ["team-docs-gate"; "docs-audit"];
   mkCollection "audit" "docs/audit" "docs-delivery" "audit-evidence"
     ["public audit summaries"; "transient defect inventory boundary"]
     ["docs-index"; "docs-audit"; "audit-gate"]].

Definition DocsBoundary (repository_id documentation_owner : string) (primary_topics : list string)
  : json :=
  obj [("repository_id", JString repository_id);
       ("documentation_owner", JString documentation_owner);
       ("primary_topics", strings primary_topics)].

Definition EcosystemDocsBoundaries : list json :=
  [DocsBoundary "styio" "language-and-compiler"
     ["language reference"; "compiler behavior"; "standard library"];
   DocsBoundary "styio-spio" "package-manager"
     ["CLI usage"; "package resolution"; "registry client behavior"];
   DocsBoundary "styio-view" "product-experience"
     ["hosted workspace UX"; "control console flows"; "frontend contract usage"];
   DocsBoundary "styio-platform" "platform-foundation"
     ["control-plane contracts"; "package registry"; "cloud workspaces"; "operations"];
   DocsBoundary "styio-community" "community" ["tutorials"; "examples"; "public ecosystem guides"]].

(** The loop that keeps the collection with the longest path containing [path]. *)
Definition best_collection (path : string) (collections : list DocumentationCollection)
  : string * nat :=
  fold_left (fun '(best, best_size) c =>
    if ((path =s col_path c) || str_starts_with path (col_path c +:+ "/"))
       && (best_size <? str_length (col_path c))%nat
    then (col_id c, str_length (col_path c)) else (best, best_size))
    collections (EmptyString, 0%nat).

Definition CollectionForPath (path : string) : string :=
  let best := (best_collection path CollectionList).1 in
  if negb (is_empty best) then best
  else if str_starts_with path "contracts/" then "contracts"
  else if str_starts_with path "manifests/" then "business-manifests"
  else if str_starts_with path "scripts/" && str_contains path "docs" then "docs-automation"
  else "unclassified".

Definition GatesForCollection (collection_id : string) : list string :=
  match List.find (fun c => col_id c =s collection_id) CollectionList with
  | Some c => col_gates c
  | None =>
      if collection_id =s "contracts" then ["contract-gate"; "docs-audit"; "team-docs-gate"]
      else if collection_id =s "business-manifests"
      then ["manifest-review"; "docs-audit"; "team-docs-gate"]
      else if collection_id =s "docs-automation"
      then ["docs-index"; "docs-audit"; "team-docs-gate"; "repo-hygiene-gate"]
      else ["docs-audit"; "repo-hygiene-gate"]
  end.

(** The elements of a [std::set<std::string>] in iteration order. *)
Definition SortedVector (values : gset string) : list string := (items (gset_to_gmap tt values)).*1.

Definition insert_if (b : bool) (value : string) (s : gset string) : gset string :=
  if b then {[ value ]} ∪ s else s.

Definition runbook_set (path : string) : gset string :=
  insert_if (str_starts_with path "src/" || str_starts_with path "tests/native/"
             || str_starts_with path "manifests/" || (path =s "CMakeLists.txt"))
    "docs/teams/PLATFORM-KERNEL-RUNBOOK.md"
    (insert_if (str_starts_with path "contracts/" || str_starts_with path "docs/governance/"
                || str_starts_with path "docs/registry/" || str_starts_with path "docs/operations/"
                || str_starts_with path "tests/interop/")
       "docs/teams/CONTROL-PLANE-RUNBOOK.md"
       (insert_if (str_starts_with path "docs/" || str_starts_with path "scripts/docs"
                   || (path =s "README.md"))
          "docs/teams/DOCS-DELIVERY-RUNBOOK.md" ∅)).

Definition RunbooksForPath (path : string) : list string := SortedVector (runbook_set path).

Definition DefaultDocumentationGovernance : json :=
  obj [("governance_id", JString "styio-docs");
       ("branch_policy", obj [("single_branch", JString "stable");
                              ("docs_changes_follow_code_changes", JBool true)]);
       ("single_sources_of_truth",
        strings ["native JSON contracts"; "business manifests"; "generated docs indexes";
                 "team runbooks"]);
       ("collections", JArray (map CollectionJson CollectionList));
       ("ecosystem_boundaries", JArray EcosystemDocsBoundaries);
       ("invariants",
        strings
          ["every public behavior change has a contract, governance doc, or runbook owner";
           "generated INDEX.md files are derived artifacts and never own policy";
           "team runbooks record ownership while DOC-STATS records their review footprint";
           "documentation gates run before claiming release or audit closure"])].

(** What the planning loop accumulates. *)
Record change_plan := mkPlan {
  touched_collections : gset string;
  required_gates : gset string;
  required_runbooks : gset string;
  path_impacts : list json;
}.

Definition path_impact (path : string) : json :=
  let collection_id := CollectionForPath path in
  obj [("path", JString path); ("collection_id", JString collection_id);
       ("required_gates", strings (GatesForCollection collection_id));
       ("required_runbooks", strings (RunbooksForPath path))].

Definition plan_path (path : string) (plan : change_plan) : change_plan :=
  let collection_id := CollectionForPath path in
  mkPlan ({[ collection_id ]} ∪ touched_collections plan)
    (list_to_set (GatesForCollection collection_id) ∪ required_gates plan)
    (list_to_set (RunbooksForPath path) ∪ required_runbooks plan)
    (path_impacts plan ++ [path_impact path]).

(** The loop over ["changed_paths"]. *)
Fixpoint plan_paths (entries : list json) (plan : change_plan) : exn + change_plan :=
  match entries with
  | [] => inr plan
  | entry :: rest =>
      match entry with
      | JString path =>
          if is_empty path
          then inl (InvalidArgument "changed_paths entries must be non-empty strings")
          else if str_contains path ".." || str_starts_with path "/"
          then inl (InvalidArgument "changed_paths entries must be repository-relative paths")
          else plan_paths rest (plan_path path plan)
      | _ => inl (InvalidArgument "changed_paths entries must be non-empty strings")
      end
  end.

(** The insertions after the loop. *)
Definition close_plan (plan : change_plan) : change_plan :=
  let any := negb (bool_decide (required_runbooks plan = ∅)) in
  mkPlan (touched_collections plan)
    ({[ "git-diff-check"%string ]} ∪ insert_if any "team-docs-gate" (required_gates plan))
    (insert_if any "docs/teams/DOC-STATS.md" (required_runbooks plan))
    (path_impacts plan).

Definition plan_payload (repository_id change_kind : string) (plan : change_plan) : json :=
  obj [("governance_id", JString "styio-docs");
       ("repository_id", JString repository_id);
       ("change_kind", JString change_kind);
       ("branch", JString "stable");
       ("path_impacts", JArray (path_impacts plan));
       ("touched_collections", strings (SortedVector (touched_collections plan)));
       ("required_runbooks", strings (SortedVector (required_runbooks plan)));
       ("required_gates", strings (SortedVector (required_gates plan)));
       ("review_policy",
        obj [("generated_indexes",
              JString "refresh with python3 scripts/docs-index.py --write");
             ("runbook_stats",
              JString "refresh docs/teams/DOC-STATS.md when team runbooks change");
             ("contracts",
              JString "update native JSON contract examples before route docs claim closure")])].

Definition BuildDocumentationChangePlan (request : json) : exn + json :=
  if negb (is_object request) then inl (InvalidArgument "request body must be an object")
  else
    match j_lookup request "changed_paths" with
    | Some (JArray entries) =>
        plan <-? plan_paths entries (mkPlan ∅ ∅ ∅ []) ;;
        let plan := close_plan plan in
        repository_id <-? value_string request "repository_id" "styio-platform" ;;
        change_kind <-? value_string request "change_kind" "documentation" ;;
        inr (plan_payload repository_id change_kind plan)
    | _ => inl (InvalidArgument "changed_paths must be an array")
    end.

(** ** Ecosystem *)

Definition Repository (id origin runtime_kind adapter : string)
    (artifacts contracts gates : list string) : json :=
  obj [("id", JString id); ("branch", JString "stable"); ("origin", JString origin);
       ("runtime", obj [("kind", JString runtime_kind); ("adapter", JString adapter)]);
       ("artifacts", strings artifacts); ("contracts", strings contracts);
       ("required_gates", strings gates)].

Definition RepositoryList : list json :=
  [
   Repository "styio" "https://github.com/eBioRing/Styio.git"
     "native-toolchain" "cmake-native"
     ["styio-compiler"; "styio-stdlib"] ["compile-plan/v1"]
     ["build"; "native-test"; "compiler-smoke"];
   Repository "styio-spio" "https://github.com/eBioRing/styio-spio.git"
     "native-cli" "cmake-native"
     ["spio-cli"; "package-manager-archive"] ["registry-v2/v1"; "compile-plan/v1"]
     ["build"; "native-test"; "registry-interop"];
   Repository "styio-view" "https://github.com/eBioRing/styio-view.git"
     "frontend" "node-web"
     ["web-console-bundle"; "desktop-shell-bundle"] ["hosted-control-plane/v1"; "platform-control-plane/v1"]
     ["install"; "lint"; "test"; "web-build"];
   Repository "styio-platform" "https://github.com/eBioRing/styio-platform.git"
     "server" "cmake-server"
     ["styio-platformd"; "registry-server-bundle"; "helm-chart"] ["platform-control-plane/v1"; "registry-control-plane/v1"; "registry-v2/v1"]
     ["build"; "ctest"; "docs-gate"; "contract-gate"];
   Repository "styio-community" "https://github.com/eBioRing/styio-community.git"
     "docs-site" "static-docs"
     ["community-site"; "examples-index"] ["community-governance/v1"]
     ["link-check"; "docs-build"; "examples-smoke"]].

Definition RepositoryMap : exn + gmap string json :=
  fold_left (fun acc repo =>
    repos <-? acc ;;
    id <-? j_at repo "id" ;; id <-? get_string id ;;
    inr match repos !! id with Some _ => repos | None => <[id := repo]> repos end)
    RepositoryList (inr ∅).

Definition RefForRepository (request : json) (repo_id : string) : exn + string :=
  let fallback :=
    match j_lookup request "version" with
    | Some (JString version) => if is_empty version then inr "stable"%string else inr version
    | _ => inr "stable"%string
    end in
  match j_lookup request "components" with
  | Some (JObject components) =>
      match components !! repo_id with
      | Some (JString ref) =>
          if is_empty ref
          then inl (InvalidArgument ("component ref must be a non-empty string: " +:+ repo_id))
          else inr ref
      | Some _ => inl (InvalidArgument ("component ref must be a non-empty string: " +:+ repo_id))
      | None => fallback
      end
  | _ => fallback
  end.

Definition DefaultEcosystemRepositories : json :=
  obj [("ecosystem_id", JString "styio");
       ("branch_policy", obj [("single_branch", JString "stable");
                              ("release_refs", JString "tags-or-stable-ref")]);
       ("repositories", JArray RepositoryList)].

(** The first component the repository map does not hold. *)
Definition unknown_component (repos : gmap string json) (components : gmap string json)
  : option string :=
  fst <$> List.find (fun '(repo_id, _) => negb (map_has repos repo_id)) (items components).

Fixpoint plan_repositories (request : json) (repositories : list json) (step : Z)
  : exn + list (json * json) :=
  match repositories with
  | [] => inr []
  | repo :: rest =>
      id <-? j_at repo "id" ;; repo_id <-? get_string id ;;
      ref <-? RefForRepository request repo_id ;;
      origin <-? j_at repo "origin" ;;
      branch <-? j_at repo "branch" ;;
      runtime <-? j_at repo "runtime" ;; adapter <-? j_at runtime "adapter" ;;
      artifacts <-? j_at repo "artifacts" ;;
      gates <-? j_at repo "required_gates" ;;
      others <-? plan_repositories request rest (step + 1) ;;
      inr ((obj [("repository_id", JString repo_id); ("origin", origin); ("branch", branch);
                 ("ref", JString ref); ("adapter", adapter); ("artifacts", artifacts)],
            obj [("step", JInt step); ("repository_id", JString repo_id); ("adapter", adapter);
                 ("fetch", obj [("origin", origin); ("ref", JString ref)]); ("gates", gates);
                 ("publish_artifacts", artifacts)]) :: others)
  end.

Definition BuildEcosystemReleasePlan (request : json) : exn + json :=
  if negb (is_object request) then inl (InvalidArgument "request body must be an object")
  else
    let go :=
      version <-? value_string request "version" "stable" ;;
      release_id <-? value_string request "release_id" version ;;
      planned <-? plan_repositories request RepositoryList 1 ;;
      inr (obj [("ecosystem_id", JString "styio");
                ("release_id", JString release_id);
                ("branch", JString "stable");
                ("components", JArray planned.*1);
                ("execution_plan", JArray planned.*2);
                ("invariants",
                 strings
                   ["all repositories use stable as the only long-lived branch";
                    "release refs are immutable tags or the stable ref for unreleased integration";
                    "runtime adapters are selected per repository and never force one shared runtime"])]) in
    match j_lookup request "components" with
    | Some (JObject components) =>
        repos <-? RepositoryMap ;;
        match unknown_component repos components with
        | Some repo_id => inl (InvalidArgument ("unknown ecosystem repository: " +:+ repo_id))
        | None => go
        end
    | Some _ => inl (InvalidArgument "components must be an object when present")
    | None => go
    end.

(** ** Routes *)

Definition HandleListDocumentationGovernance {DB} : RouterM DB HttpResponse :=
  m_ret (JsonResponse 200
    (SuccessEnvelope "loaded documentation governance" DefaultDocumentationGovernance)).

Definition HandlePlanDocumentationChange {DB} `{JsonLib} (request : HttpRequest)
  : RouterM DB HttpResponse :=
  catch_std
    (plan <- lift (BuildDocumentationChangePlan (req_body request)) ;;
     m_ret (JsonResponse 200 (SuccessEnvelope "planned documentation change" plan)))
    (fun error => m_ret (JsonResponse 400
       (FailureEnvelope "documentation change planning failed" (what error) "ValidationError"
          "planDocumentationChange" 2))).

Definition HandleListEcosystemRepositories {DB} : RouterM DB HttpResponse :=
  m_ret (JsonResponse 200
    (SuccessEnvelope "loaded ecosystem repositories" DefaultEcosystemRepositories)).

Definition HandlePlanEcosystemRelease {DB} `{JsonLib} (request : HttpRequest)
  : RouterM DB HttpResponse :=
  catch_std
    (plan <- lift (BuildEcosystemReleasePlan (req_body request)) ;;
     m_ret (JsonResponse 200 (SuccessEnvelope "planned ecosystem release" plan)))
    (fun error => m_ret (JsonResponse 400
       (FailureEnvelope "ecosystem release planning failed" (what error) "ValidationError"
          "planEcosystemRelease" 2))).

(** * Lemmas *)

Lemma elem_of_SortedVector v s : v ∈ SortedVector s <-> v ∈ s.
Proof.
  unfold SortedVector. rewrite list_elem_of_fmap. split.
  - intros ([k []] & -> & Hk%elem_of_items). by apply lookup_gset_to_gmap_Some in Hk as [? _].
  - intros Hv. exists (v, tt). split; [done|]. apply elem_of_items.
    by apply lookup_gset_to_gmap_Some.
Qed.

Lemma SortedVector_NoDup s : NoDup (SortedVector s).
Proof. apply items_keys_NoDup. Qed.

(** A path the planning loop accepts. *)
Definition plannable (path : string) : Prop :=
  path <> EmptyString /\ str_contains path ".." = false /\ str_starts_with path "/" = false.

Lemma plan_paths_inr entries plan p :
  plan_paths entries plan = inr p ->
  exists paths, entries = map JString paths /\ Forall plannable paths
    /\ (forall g, g ∈ required_gates p <-> g ∈ required_gates plan
          \/ exists q, q ∈ paths /\ g ∈ GatesForCollection (CollectionForPath q))
    /\ (forall b, b ∈ required_runbooks p <-> b ∈ required_runbooks plan
          \/ exists q, q ∈ paths /\ b ∈ RunbooksForPath q).
Proof.
  revert plan. induction entries as [|e entries IH]; intros plan; cbn -[CollectionForPath GatesForCollection RunbooksForPath].
  { intros [= ->]. exists []. split_and!; [done|constructor|set_solver|set_solver]. }
  destruct e; try done. destruct (is_empty s) eqn:He; [done|].
  destruct (str_contains s ".." || str_starts_with s "/") eqn:Hp; [done|].
  intros (paths & -> & Hall & Hg & Hb)%IH. apply orb_false_iff in Hp.
  exists (s :: paths). split_and!; [done| | |].
  - constructor; [|done]. split; [by apply is_empty_false|done].
  - intros g. rewrite Hg. cbn -[CollectionForPath GatesForCollection].
    rewrite elem_of_union, elem_of_list_to_set. setoid_rewrite elem_of_cons. naive_solver.
  - intros b. rewrite Hb. cbn -[RunbooksForPath].
    rewrite elem_of_union, elem_of_list_to_set. setoid_rewrite elem_of_cons. naive_solver.
Qed.

Lemma elem_of_insert_if b v s w : w ∈ insert_if b v s <-> w ∈ s \/ (b = true /\ w = v).
Proof. unfold insert_if. destruct b; set_solver. Qed.

(** * Properties *)

(** A documentation change plan asks for exactly the right gates, whatever
    the order or repetition of the changed paths: every path it accepts is
    non-empty, relative and free of "..", and its gates, listed once each in
    order, are those of the collections the paths fall in, "git-diff-check"
    always, and "team-docs-gate" when some path has a team runbook. *)
Theorem change_plan_gates_exact request payload :
  BuildDocumentationChangePlan request = inr payload ->
  exists paths gates,
    j_lookup request "changed_paths" = Some (strings paths) /\ Forall plannable paths
    /\ j_lookup payload "required_gates" = Some (strings gates) /\ NoDup gates
    /\ forall g, g ∈ gates <->
         g = "git-diff-check"%string
         \/ (exists q, q ∈ paths /\ g ∈ GatesForCollection (CollectionForPath q))
         \/ (g = "team-docs-gate"%string /\ exists q b, q ∈ paths /\ b ∈ RunbooksForPath q).
Proof.
  unfold BuildDocumentationChangePlan. destruct (is_object request); [|done]. cbn [negb].
  destruct (j_lookup request "changed_paths") as [[]|] eqn:El; try done. unfold r_bind.
  destruct (plan_paths l _) as [|p] eqn:Ep; [done|].
  destruct (value_string _ "repository_id" _); [done|].
  destruct (value_string _ "change_kind" _); [done|]. intros [= <-].
  apply plan_paths_inr in Ep as (paths & -> & Hall & Hg & Hb).
  exists paths, (SortedVector (required_gates (close_plan p))). split_and!; try done.
  - apply SortedVector_NoDup.
  - intros g. rewrite elem_of_SortedVector. unfold close_plan. cbn [required_gates].
    rewrite elem_of_union, elem_of_singleton, elem_of_insert_if, Hg, negb_true_iff,
      bool_decide_eq_false. cbn.
    assert (Hne : required_runbooks p ≠ ∅ <-> exists q b, q ∈ paths /\ b ∈ RunbooksForPath q).
    { split.
      - intros [b Hb']%set_choose_L. apply Hb in Hb' as [?|(q & ? & ?)]; [set_solver|]. by exists q, b.
      - intros (q & b & Hq & Hbq) He. assert (b ∈ required_runbooks p) as Hin by (apply Hb; eauto).
        rewrite He in Hin. set_solver. }
    rewrite Hne. set_solver.
Qed.

Lemma change_plan_gates_exact_witness :
  let request := obj [("changed_paths", strings ["src/main.cpp"; "docs/security/TRUST.md"])] in
  let payload := plan_payload "styio-platform" "documentation"
    (close_plan (plan_path "docs/security/TRUST.md" (plan_path "src/main.cpp" (mkPlan ∅ ∅ ∅ [])))) in
  exists paths gates,
    j_lookup request "changed_paths" = Some (strings paths) /\ Forall plannable paths
    /\ j_lookup payload "required_gates" = Some (strings gates) /\ NoDup gates
    /\ forall g, g ∈ gates <->
         g = "git-diff-check"%string
         \/ (exists q, q ∈ paths /\ g ∈ GatesForCollection (CollectionForPath q))
         \/ (g = "team-docs-gate"%string /\ exists q b, q ∈ paths /\ b ∈ RunbooksForPath q).
Proof. apply change_plan_gates_exact. reflexivity. Defined.
