(* ===== verification/ExternalIdentity.v ===== *)
(** External identity exchange
    ([PlatformSecurity/ExternalIdentity/ExternalIdentity.cpp]). *)
From stdpp Require Import base list gmap strings.
From Stdlib Require Import ZArith Lia Ascii String.
From S2P Require Import Prelude Json Identity RouterSupport.

Record ExternalIdentityRecord := mkExternal {
  ext_provider : string;
  ext_subject : string;
  ext_email : string;
  ext_tenant_id : string;
  ext_actor_id : string;
  ext_roles : json;
  ext_claims : json;
}.

Definition kProviders : list string := ["microsoft"; "google"; "apple"; "telegram"].

Definition SupportedProvider (provider : string) : bool := string_in provider kProviders.

Definition RequireString (payload : json) (field : string) : exn + string :=
  if HasNonEmptyString payload field then inr (string_at payload field)
  else inl (RuntimeError (field +:+ " is required")).

(** The subject and email a provider's claims name. *)
Definition subject_and_email `{JsonLib} (provider : string) (claims : json)
  : exn + (string * string) :=
  if provider =s "telegram" then
    subject <-? match j_lookup claims "telegram_id" with
                | Some v => get_string v
                | None => match j_lookup claims "id" with
                          | Some v => n <-? get_int64 v ;; inr (decimal n)
                          | None => inr EmptyString
                          end
                end ;;
    email <-? value_string claims "username" "" ;;
    inr (subject, email)
  else
    subject <-? value_string claims "sub" "" ;;
    email <-? value_string claims "email" "" ;;
    inr (subject, email).

Definition actor_id_of (provider subject : string) : string :=
  "external:" +:+ provider +:+ ":" +:+ subject.

Definition NormalizeExternalIdentity `{JsonLib} (request : json)
  : exn + ExternalIdentityRecord :=
  if negb (is_object request) then inl (RuntimeError "request body must be an object")
  else
    provider <-? RequireString request "provider" ;;
    if negb (SupportedProvider provider)
    then inl (RuntimeError "unsupported external identity provider")
    else
      claims <-? value_json request "claims" (obj []) ;;
      if negb (is_object claims) then inl (RuntimeError "claims must be an object")
      else
        subject_email <-? subject_and_email provider claims ;;
        if is_empty subject_email.1 then inl (RuntimeError "external subject is required")
        else
          tenant_id <-? value_string request "tenant_id" provider ;;
          roles <-? value_json request "roles" (JArray []) ;;
          if negb (is_array roles) then inl (RuntimeError "roles must be an array")
          else inr {| ext_provider := provider; ext_subject := subject_email.1;
                      ext_email := subject_email.2; ext_tenant_id := tenant_id;
                      ext_actor_id := actor_id_of provider subject_email.1;
                      ext_roles := roles; ext_claims := claims |}.

Definition SerializeExternalIdentityRecord (record : ExternalIdentityRecord) : json :=
  obj [("provider", JString (ext_provider record)); ("subject", JString (ext_subject record));
       ("email", JString (ext_email record)); ("tenant_id", JString (ext_tenant_id record));
       ("actor_id", JString (ext_actor_id record)); ("roles", ext_roles record);
       ("claims", ext_claims record); ("verification_mode", JString "claims-normalized")].

(** * Lemmas *)

Lemma supported_no_colon p : SupportedProvider p = true -> str_contains_char p ":" = false.
Proof.
  intros H. apply string_in_iff in H.
  repeat (apply elem_of_cons in H as [->|H]; [reflexivity|]). by apply elem_of_nil in H.
Qed.

Lemma normalized_shape `{JsonLib} request record :
  NormalizeExternalIdentity request = inr record ->
  SupportedProvider (ext_provider record) = true /\ ext_subject record <> EmptyString
  /\ ext_actor_id record = actor_id_of (ext_provider record) (ext_subject record).
Proof.
  unfold NormalizeExternalIdentity, r_bind. destruct (negb _); [done|].
  destruct (RequireString _ _); [done|]. destruct (SupportedProvider s) eqn:Es; [|done].
  cbn [negb]. destruct (value_json _ "claims" _); [done|]. destruct (negb _); [done|].
  destruct (subject_and_email _ _) as [|[sub email]]; [done|]. cbn [fst snd].
  destruct (is_empty sub) eqn:Ee; [done|]. destruct (value_string _ _ _); [done|].
  destruct (value_json _ "roles" _); [done|]. destruct (negb _); [done|]. intros [= <-].
  split_and!; [done| |done]. by apply is_empty_false.
Qed.

(** * Properties *)

(** The actor id of a normalized external identity identifies its provider
    and subject: two identities that share an actor id come from the same
    provider and name the same, non-empty subject, so no provider can produce
    another provider's actors. *)
Theorem actor_ids_identify_subjects `{JsonLib} r1 r2 i1 i2 :
  NormalizeExternalIdentity r1 = inr i1 -> NormalizeExternalIdentity r2 = inr i2 ->
  ext_actor_id i1 = ext_actor_id i2 ->
  ext_provider i1 = ext_provider i2 /\ ext_subject i1 = ext_subject i2
  /\ ext_subject i1 <> EmptyString.
Proof.
  intros (Hp1 & Hs1 & ->)%normalized_shape (Hp2 & _ & ->)%normalized_shape Heq.
  unfold actor_id_of in Heq. apply str_app_inv_head in Heq.
  by apply (join_char_inj ":") in Heq as [? ?]; [|apply supported_no_colon..].
Qed.

#[local] Instance demo_lib : JsonLib :=
  {| json_parse := fun _ => None; json_dump := fun _ => inr EmptyString;
     json_dump_indented := fun _ => inr EmptyString;
     library_what := fun _ => EmptyString; float_to_Z := fun _ => 0;
     numbers_equal := fun _ _ => false |}.
Definition demo_google : json :=
  obj [("provider", JString "google"); ("claims", obj [("sub", JString "42")])].

Lemma actor_ids_identify_subjects_witness :
  let i := mkExternal "google" "42" "" "google" "external:google:42" (JArray [])
             (obj [("sub", JString "42")]) in
  ext_provider i = ext_provider i /\ ext_subject i = ext_subject i /\ ext_subject i <> EmptyString.
Proof. apply (actor_ids_identify_subjects demo_google demo_google); reflexivity. Defined.
