(* ===== verification/ResolvedGraph.v ===== *)
(** The result of a resolution ([PlatformCore/Resolve/Resolver.hpp]): the packages of
    a graph and the lockfile that records them. *)
From stdpp Require Import base list strings.
From Stdlib Require Import ZArith String.
From S2P Require Import Prelude Json Manifest Lockfile.

Record ResolveOptions := mkOptions { resolve_offline : bool; resolve_vendor_root : option string }.

Record ResolvedPackage := mkResolved {
  resolved_manifest_path : string;
  root_dir : string;
  package : PackageConfig;
  package_id : string;
  source_kind : string;
  resolved_git : option string;
  resolved_rev : option string;
  resolved_registry : option string;
  resolved_sha256 : option string;
  resolved_repo_hash : option string;
  resolved_snapshot_root : option string;
  dependencies : list string;
  dependency_aliases : list (string * string);
}.
Record ResolvedGraphResult := mkGraph {
  graph_manifest_path : string;
  graph_lockfile_path : string;
  root_ids : list string;
  packages : list ResolvedPackage;
  graph_lockfile : LockfileDocument;
}.
Record LockGenerationResult := mkLockResult {
  lock_manifest_path : string;
  lock_lockfile_path : string;
  lock_root_ids : list string;
  lock_document : LockfileDocument;
}.
