(* ===== verification/CompilePlan.v ===== *)
(** Compile plans ([SpioPlatformProtocols/CompilePlan.cpp]): the entry package
    and target, the order of the packages, the source hash and the plan itself,
    computed from a resolved graph and a read-only view of the file tree. *)
From stdpp Require Import base list gmap strings sorting.
From Stdlib Require Import ZArith Lia Ascii String.
From S2P Require Import Prelude Json SourceFetch Paths Manifest Lockfile ResolvedGraph.

(** What the plan throws: [PlanError], or the error of [fs::absolute]. *)
Inductive plan_error := PlanError (what : string) | FilesystemError.

Record BuildPlanRequest := mkPlanRequest {
  request_manifest_path : string;
  intent : string;
  request_package_name : option string;
  bin_name : option string;
  test_name : option string;
  select_lib : bool;
  profile : string;
  build_mode : string;
  compiler_version : option string;
  request_offline : bool;
  request_vendor_root : option string;
}.

Inductive VisitState := kUnseen | kActive | kDone.
#[export] Instance VisitState_eq_dec : EqDecision VisitState.
Proof. solve_decision. Defined.

Record ProfileConfig := mkProfile {
  profile_name : string;
  opt_level : Z;
  debug : bool;
  lto : bool;
}.
Record SelectedTarget := mkSelected { kind : string; selected_name : string; selected_file : string }.

Definition ValidateIntent (intent : string) : plan_error + unit :=
  if (intent <>s "build") && (intent <>s "run") && (intent <>s "test")
  then inl (PlanError ("unsupported compile-plan intent for the current native core: " +:+ intent))
  else inr tt.

Definition CanonicalAbsolutePath (v : FileView) (path : string) : plan_error + string :=
  match absolute v path with
  | Some p => inr (lexically_normal p)
  | None => inl FilesystemError
  end.

(** [Hex64] of this file: no padding. *)
Definition Hex64 (value : Z) : string := hex_text value.

Definition ReadFile (v : FileView) (path : string) : plan_error + string :=
  match file_at v path with
  | Some (RegularFile contents) => inr contents
  | _ => inl (PlanError ("failed to read file required for compile-plan: " +:+ path))
  end.

Definition Join (parts : list string) (separator : string) : string := String.concat separator parts.

Definition AbsoluteTargetPath (v : FileView) (p : ResolvedPackage) (relative_path : string)
  : plan_error + string :=
  CanonicalAbsolutePath v (path_join (root_dir p) relative_path).

Definition RequireExistingSourceFile (v : FileView) (path context : string) : plan_error + unit :=
  if negb (view_exists v path)
  then inl (PlanError (context +:+ " source file not found: " +:+ path))
  else if negb (view_is_regular v path)
  then inl (PlanError (context +:+ " source path is not a file: " +:+ path))
  else inr tt.

(** [packages_by_id.emplace] keeps the first package of an id. *)
Definition emplace_package (m : gmap string ResolvedPackage) (p : ResolvedPackage)
  : gmap string ResolvedPackage :=
  match m !! package_id p with Some _ => m | None => <[package_id p := p]> m end.
Definition packages_by_id (graph : ResolvedGraphResult) : gmap string ResolvedPackage :=
  fold_left emplace_package (packages graph) ∅.

Definition RequirePackageById (by_id : gmap string ResolvedPackage) (id : string)
  : plan_error + ResolvedPackage :=
  match by_id !! id with
  | None => inl (PlanError ("resolver graph references unknown package id: " +:+ id))
  | Some p => inr p
  end.

Definition id_le (left right : ResolvedPackage) : Prop :=
  str_le (package_id left) (package_id right).
#[export] Instance id_le_dec left right : Decision (id_le left right) := bool_eq_dec _ _.

Definition CollectRootPackages (graph : ResolvedGraphResult) : plan_error + list ResolvedPackage :=
  roots <-? traverse (RequirePackageById (packages_by_id graph)) (root_ids graph) ;;
  inr (merge_sort id_le roots).

Definition ResolveEntryPackage (request : BuildPlanRequest) (graph : ResolvedGraphResult)
  : plan_error + ResolvedPackage :=
  roots <-? CollectRootPackages graph ;;
  match roots with
  | [] => inl (PlanError "compile-plan generation requires at least one root package")
  | first :: others =>
      match request_package_name request with
      | Some name =>
          match List.filter (fun candidate => package_name (package candidate) =s name) roots with
          | [] => inl (PlanError ("selected package is not a root package of the active manifest: "
                                  +:+ name))
          | candidate :: _ => inr candidate
          end
      | None =>
          match List.find (fun candidate =>
                  path_eqb (resolved_manifest_path candidate) (graph_manifest_path graph)) roots with
          | Some candidate => inr candidate
          | None =>
              match others with
              | [] => inr first
              | _ => inl (PlanError
                  "workspace build is ambiguous; select a root package with --package <namespace/name>")
              end
          end
      end
  end.

(** A text between double quotes. *)
Definition quoted (s : string) : string :=
  String (Ascii.ascii_of_N 34) (s +:+ String (Ascii.ascii_of_N 34) EmptyString).

(** The target a branch returns once its file is known to exist. *)
Definition selected (v : FileView) (p : ResolvedPackage) (kind name path context : string)
  : plan_error + SelectedTarget :=
  file <-? AbsoluteTargetPath v p path ;;
  _ <-? RequireExistingSourceFile v file context ;;
  inr (mkSelected kind name file).

Definition ResolveEntryTarget (v : FileView) (request : BuildPlanRequest) (p : ResolvedPackage)
  : plan_error + SelectedTarget :=
  let name := package_name (package p) in
  let require_binary := intent request =s "run" in
  let require_test := intent request =s "test" in
  let has {A} (o : option A) := match o with Some _ => true | None => false end in
  if select_lib request && has (bin_name request)
  then inl (PlanError (intent request +:+ " target selection cannot combine --lib and --bin"))
  else if select_lib request && has (test_name request)
  then inl (PlanError (intent request +:+ " target selection cannot combine --lib and --test"))
  else if has (bin_name request) && has (test_name request)
  then inl (PlanError (intent request +:+ " target selection cannot combine --bin and --test"))
  else if select_lib request then
    if require_binary
    then inl (PlanError "run requires a binary target and does not accept --lib")
    else if require_test
    then inl (PlanError "test requires an explicit [[test]] target and does not accept --lib")
    else match lib (package p) with
         | None => inl (PlanError ("selected package does not define [lib]: " +:+ name))
         | Some path => selected v p "lib" name path "library"
         end
  else match bin_name request with
  | Some bin =>
      match List.find (fun b => target_name b =s bin) (bins (package p)) with
      | Some b => selected v p "bin" (target_name b) (target_path b) "binary"
      | None => inl (PlanError ("selected package does not define [[bin]].name = " +:+ quoted bin))
      end
  | None =>
  match test_name request with
  | Some test =>
      match List.find (fun t => target_name t =s test) (tests (package p)) with
      | Some t => selected v p "test" (target_name t) (target_path t) "test"
      | None => inl (PlanError ("selected package does not define [[test]].name = " +:+ quoted test))
      end
  | None =>
      if require_test then
        match tests (package p) with
        | [t] => selected v p "test" (target_name t) (target_path t) "test"
        | [] => inl (PlanError ("selected package does not define any [[test]] target: " +:+ name))
        | _ => inl (PlanError ("test target is ambiguous for package '" +:+ name
                               +:+ "'; select --test <name>"))
        end
      else if require_binary then
        match bins (package p) with
        | [b] => selected v p "bin" (target_name b) (target_path b) "binary"
        | [] => inl (PlanError ("selected package does not define any [[bin]] target: " +:+ name))
        | _ => inl (PlanError ("run target is ambiguous for package '" +:+ name
                               +:+ "'; select --bin <name>"))
        end
      else
        match lib (package p), bins (package p) with
        | Some path, [] => selected v p "lib" name path "library"
        | None, [b] => selected v p "bin" (target_name b) (target_path b) "binary"
        | _, _ => inl (PlanError ("build target is ambiguous for package '" +:+ name
                                  +:+ "'; select --lib or --bin <name>"))
        end
  end end.

Definition ResolveProfile (profile_name : string) : plan_error + ProfileConfig :=
  if profile_name =s "dev" then inr (mkProfile "dev" 0 true false)
  else if profile_name =s "release" then inr (mkProfile "release" 3 false true)
  else inl (PlanError ("unsupported build profile: " +:+ profile_name)).

Fixpoint uniform_with (baseline : ResolvedPackage) (l : list ResolvedPackage) : plan_error + unit :=
  match l with
  | [] => inr tt
  | p :: l =>
      if edition (package p) <>s edition (package baseline)
      then inl (PlanError
        "compile-plan v1 requires a uniform package.edition across the resolved graph")
      else if channel (toolchain (package p)) <>s channel (toolchain (package baseline))
      then inl (PlanError
        "compile-plan v1 requires a uniform [toolchain].channel across the resolved graph")
      else if negb (Bool.eqb (implicit_std (toolchain (package p)))
                             (implicit_std (toolchain (package baseline))))
      then inl (PlanError
        "compile-plan v1 requires a uniform [toolchain].implicit-std across the resolved graph")
      else uniform_with baseline l
  end.
Definition ValidateUniformToolchain (graph : ResolvedGraphResult) : plan_error + unit :=
  match packages graph with
  | [] => inl (PlanError "compile-plan generation requires at least one resolved package")
  | baseline :: _ => uniform_with baseline (packages graph)
  end.

Definition BuildStdPackageId (entry_package : ResolvedPackage) : string :=
  (if implicit_std (toolchain (package entry_package)) then "builtin:std@" else "builtin:std-disabled@")
  +:+ channel (toolchain (package entry_package)) +:+ "/" +:+ edition (package entry_package).

(** ** The package order *)

(** The variables the lambda [visit] captures. *)
Record Visiting := mkVisiting {
  visit_state : gmap string VisitState;
  order : list string;
  stack : list string;
}.
Definition state_of (s : Visiting) (id : string) : VisitState := default kUnseen (visit_state s !! id).

(** [std::vector<std::string> cycle(std::find(stack, id), stack.end())]. *)
Fixpoint from_first (id : string) (l : list string) : list string :=
  match l with
  | [] => []
  | a :: r => if a =s id then l else from_first id r
  end.

Definition cycle_error (s : Visiting) (id : string) : plan_error :=
  PlanError ("compile-plan requires an acyclic package graph: "
             +:+ Join (from_first id (stack s) ++ [id]) " -> ").

(** A loop of visits; [None] when a visit runs out of fuel. *)
Fixpoint visit_each (visit : string -> Visiting -> option (plan_error + Visiting))
    (ids : list string) (s : Visiting) : option (plan_error + Visiting) :=
  match ids with
  | [] => Some (inr s)
  | id :: ids =>
      match visit id s with
      | Some (inr s) => visit_each visit ids s
      | r => r
      end
  end.

Fixpoint visit (by_id : gmap string ResolvedPackage) (fuel : nat) (id : string) (s : Visiting)
  : option (plan_error + Visiting) :=
  match fuel with
  | O => None
  | S fuel =>
      match state_of s id with
      | kDone => Some (inr s)
      | kActive => Some (inl (cycle_error s id))
      | kUnseen =>
          let s := mkVisiting (<[id := kActive]> (visit_state s)) (order s) (stack s ++ [id]) in
          match RequirePackageById by_id id with
          | inl e => Some (inl e)
          | inr p =>
              match visit_each (visit by_id fuel) (dependencies p) s with
              | Some (inr s) =>
                  Some (inr (mkVisiting (<[id := kDone]> (visit_state s)) (order s ++ [id])
                               (removelast (stack s))))
              | r => r
              end
          end
      end
  end.

Definition BuildPackageOrder (graph : ResolvedGraphResult) : option (plan_error + list string) :=
  let package_ids := sort_strings (map package_id (packages graph)) in
  let fuel := S (List.length package_ids) in
  match visit_each (visit (packages_by_id graph) fuel) package_ids (mkVisiting ∅ [] []) with
  | Some (inr s) => Some (inr (order s))
  | Some (inl e) => Some (inl e)
  | None => None
  end.

(** ** The source hash and the plan *)

(** The files of a package that the hash covers. *)
Definition package_files (v : FileView) (p : ResolvedPackage) : plan_error + list string :=
  lib_files <-? match lib (package p) with
                | Some path => file <-? AbsoluteTargetPath v p path ;; inr [file]
                | None => inr []
                end ;;
  bin_files <-? traverse (fun b => AbsoluteTargetPath v p (target_path b)) (bins (package p)) ;;
  test_files <-? traverse (fun t => AbsoluteTargetPath v p (target_path t)) (tests (package p)) ;;
  inr (resolved_manifest_path p :: lib_files ++ bin_files ++ test_files).

Definition digest_piece (v : FileView) (path : string) : plan_error + string :=
  _ <-? RequireExistingSourceFile v path "compile-plan" ;;
  contents <-? ReadFile v path ;;
  inr (path +:+ String "000" (contents +:+ String "000" EmptyString)).

Definition BuildSourceHash (v : FileView) (graph : ResolvedGraphResult) : plan_error + string :=
  files <-? traverse (package_files v) (packages graph) ;;
  pieces <-? traverse (digest_piece v) (unique_paths (sort_paths (List.concat files))) ;;
  inr (Hex64 (Fnv1a64 (String.concat "" pieces))).

Definition name_le (left right : NamedTarget) : Prop :=
  str_le (target_name left) (target_name right).
#[export] Instance name_le_dec left right : Decision (name_le left right) := bool_eq_dec _ _.

(** The targets in the order of their names. *)
Definition targets_json (v : FileView) (p : ResolvedPackage) (context : string)
    (targets : list NamedTarget) : plan_error + list json :=
  traverse (fun t =>
      absolute_path <-? AbsoluteTargetPath v p (target_path t) ;;
      _ <-? RequireExistingSourceFile v absolute_path context ;;
      inr (obj [("name", JString (target_name t)); ("path", JString absolute_path)]))
    (merge_sort name_le targets).

Definition BuildTargetsJson (v : FileView) (p : ResolvedPackage) : plan_error + json :=
  bins <-? targets_json v p "binary" (bins (package p)) ;;
  tests <-? targets_json v p "test" (tests (package p)) ;;
  let targets := obj [("lib", JNull); ("bins", JArray bins)] in
  let targets := match tests with [] => targets | _ => j_set targets "tests" (JArray tests) end in
  match lib (package p) with
  | None => inr targets
  | Some path =>
      absolute_path <-? AbsoluteTargetPath v p path ;;
      _ <-? RequireExistingSourceFile v absolute_path "library" ;;
      inr (j_set targets "lib" (JString absolute_path))
  end.

Definition BuildPackageJson (v : FileView) (p : ResolvedPackage) : plan_error + json :=
  targets <-? BuildTargetsJson v p ;;
  inr (obj [("id", JString (package_id p));
            ("name", JString (package_name (package p)));
            ("version", JString (package_version (package p)));
            ("root_dir", JString (root_dir p));
            ("manifest_path", JString (resolved_manifest_path p));
            ("source_kind", JString (source_kind p));
            ("targets", targets);
            ("dependency_aliases",
             fold_left (fun aliases '(alias, id) => j_set aliases alias (JString id))
               (dependency_aliases p) (obj []))]).

(** The fields of [BuildPlanResult] that the plan computes; [PlanWriter.v] adds those
    of the file that is written. *)
Record BuildPlanResult := mkPlanResult {
  workspace_root : string;
  build_root : string;
  artifact_dir : string;
  diag_dir : string;
  plan_path : string;
  cache_key : string;
  plan : json;
  entry_package_id : string;
  entry_target : SelectedTarget;
  entry_profile : ProfileConfig;
}.

Definition cache_material (request : BuildPlanRequest) (entry_package : ResolvedPackage)
    (entry_target : SelectedTarget) (profile : ProfileConfig) (source_hash : string) : string :=
  "compiler=" +:+ default "unbound"%string (compiler_version request)
  +:+ ";compile-plan=1"
  +:+ ";intent=" +:+ intent request
  +:+ ";edition=" +:+ edition (package entry_package)
  +:+ ";build-mode=" +:+ build_mode request
  +:+ ";profile=" +:+ profile_name profile
  +:+ ";target=" +:+ package_id entry_package +:+ ":" +:+ kind entry_target +:+ ":"
  +:+ selected_name entry_target
  +:+ ";source=" +:+ source_hash.

(** [WriteBuildCompilePlan] from the resolved graph on; [version] is the build's
    [kVersion].  [None] when the package order runs out of fuel. *)
Definition BuildCompilePlan (v : FileView) (version : string) (request : BuildPlanRequest)
    (graph : ResolvedGraphResult) : option (plan_error + BuildPlanResult) :=
  match ValidateUniformToolchain graph with inl e => Some (inl e) | inr _ =>
  match ResolveEntryPackage request graph with inl e => Some (inl e) | inr entry_package =>
  match ResolveEntryTarget v request entry_package with inl e => Some (inl e) | inr entry_target =>
  match ResolveProfile (profile request) with inl e => Some (inl e) | inr profile =>
  match BuildPackageOrder graph with
  | None => None
  | Some (inl e) => Some (inl e)
  | Some (inr package_order) => Some (
      source_hash <-? BuildSourceHash v graph ;;
      let cache_key := Hex64 (Fnv1a64
            (cache_material request entry_package entry_target profile source_hash)) in
      workspace_root <-? CanonicalAbsolutePath v (parent_path (graph_manifest_path graph)) ;;
      let build_root := path_join (path_join (path_join workspace_root ".spio") "build") cache_key in
      let artifact_dir := path_join build_root "artifacts" in
      let diag_dir := path_join build_root "diag" in
      packages <-? traverse (BuildPackageJson v) (packages graph) ;;
      let plan :=
        obj [("plan_version", JInt 1);
             ("generated_by", obj [("tool", JString "spio"); ("version", JString version)]);
             ("intent", JString (intent request));
             ("workspace_root", JString workspace_root);
             ("entry", obj [("package_id", JString (package_id entry_package));
                            ("target_kind", JString (kind entry_target));
                            ("target_name", JString (selected_name entry_target));
                            ("file", JString (selected_file entry_target))]);
             ("toolchain", obj [("channel", JString (channel (toolchain (package entry_package))));
                                ("edition", JString (edition (package entry_package)));
                                ("implicit_std",
                                 JBool (implicit_std (toolchain (package entry_package))));
                                ("std_package_id", JString (BuildStdPackageId entry_package))]);
             ("profile", obj [("name", JString (profile_name profile));
                              ("build_mode", JString (build_mode request));
                              ("opt_level", JInt (opt_level profile));
                              ("debug", JBool (debug profile));
                              ("lto", JBool (lto profile))]);
             ("packages", JArray packages);
             ("resolution", obj [("resolver", JString "single-version-v1");
                                 ("package_order", strings package_order)]);
             ("outputs", obj [("build_root", JString build_root);
                              ("artifact_dir", JString artifact_dir);
                              ("diag_dir", JString diag_dir)]);
             ("emit", obj [("error_format", JString "jsonl"); ("ast", JBool false);
                           ("styio_ir", JBool false); ("llvm_ir", JBool false)])] in
      inr (mkPlanResult workspace_root build_root artifact_dir diag_dir
             (path_join build_root "plan.json") cache_key plan (package_id entry_package)
             entry_target profile))
  end end end end end.

(** ** What the order promises *)

(** The package an id denotes: the first of that id. *)
Definition package_of (graph : ResolvedGraphResult) (id : string) : option ResolvedPackage :=
  List.find (fun p => package_id p =s id) (packages graph).
Definition known (graph : ResolvedGraphResult) (id : string) : Prop :=
  is_Some (package_of graph id).
Definition edge (graph : ResolvedGraphResult) (a b : string) : Prop :=
  exists p, package_of graph a = Some p /\ b ∈ dependencies p.

(** Consecutive members are joined by edges. *)
Definition chained (graph : ResolvedGraphResult) (l : list string) : Prop :=
  forall i a b, l !! i = Some a -> l !! S i = Some b -> edge graph a b.
Definition is_cycle (graph : ResolvedGraphResult) (l : list string) : Prop :=
  chained graph l /\ (2 <= List.length l)%nat /\ head l = last l.

(** Every dependency stands before its dependents. *)
Definition dependencies_first (graph : ResolvedGraphResult) (l : list string) : Prop :=
  forall i id dependency, l !! i = Some id -> edge graph id dependency ->
  exists j, (j < i)%nat /\ l !! j = Some dependency.

(** An order of exactly the packages of the graph, each once. *)
Definition build_order (graph : ResolvedGraphResult) (l : list string) : Prop :=
  NoDup l /\ (forall id, id ∈ l <-> known graph id) /\ dependencies_first graph l.

(** Why there is none: a dependency without a package, or a cycle. *)
Definition unbuildable (graph : ResolvedGraphResult) (e : plan_error) : Prop :=
  (exists a b, edge graph a b /\ ~ known graph b
    /\ e = PlanError ("resolver graph references unknown package id: " +:+ b))
  \/ (exists c, is_cycle graph c
    /\ e = PlanError ("compile-plan requires an acyclic package graph: " +:+ Join c " -> ")).

(** The targets a package declares: kind, name and path. *)
Definition declared_targets (p : ResolvedPackage) : list (string * string * string) :=
  match lib (package p) with
  | Some path => [("lib", package_name (package p), path)]
  | None => []
  end%string
  ++ map (fun b => ("bin"%string, target_name b, target_path b)) (bins (package p))
  ++ map (fun t => ("test"%string, target_name t, target_path t)) (tests (package p)).

(** What the flags and the intent of a request ask for. *)
Definition asked_for (request : BuildPlanRequest) (kind name : string) : Prop :=
  (select_lib request = true ->
   kind = "lib"%string /\ intent request <> "run"%string /\ intent request <> "test"%string)
  /\ (forall n, bin_name request = Some n -> kind = "bin"%string /\ name = n)
  /\ (forall n, test_name request = Some n -> kind = "test"%string /\ name = n)
  /\ (select_lib request = false -> bin_name request = None -> test_name request = None ->
      (intent request = "run"%string -> kind = "bin"%string)
      /\ (intent request = "test"%string -> kind = "test"%string)).

(** * Lemmas *)

Lemma selected_inv v p k n path context t :
  selected v p k n path context = inr t ->
  kind t = k /\ selected_name t = n /\ AbsoluteTargetPath v p path = inr (selected_file t)
  /\ exists contents, file_at v (selected_file t) = Some (RegularFile contents).
Proof.
  unfold selected, r_bind, RequireExistingSourceFile, view_exists, view_is_regular.
  destruct (AbsoluteTargetPath v p path) as [e|file]; [done|].
  destruct (file_at v file) as [[contents|]|] eqn:E; cbn; intros H; simplify_eq.
  split_and!; eauto.
Qed.

Lemma declared_lib p path :
  lib (package p) = Some path -> ("lib"%string, package_name (package p), path) ∈ declared_targets p.
Proof. intros H. unfold declared_targets. rewrite H. apply list_elem_of_here. Qed.
Lemma declared_bin p b :
  In b (bins (package p)) -> ("bin"%string, target_name b, target_path b) ∈ declared_targets p.
Proof.
  intros H. unfold declared_targets. rewrite !elem_of_app, !list_elem_of_In. right. left.
  by apply (in_map (fun b => ("bin"%string, target_name b, target_path b))).
Qed.
Lemma declared_test p t :
  In t (tests (package p)) -> ("test"%string, target_name t, target_path t) ∈ declared_targets p.
Proof.
  intros H. unfold declared_targets. rewrite !elem_of_app, !list_elem_of_In. right. right.
  by apply (in_map (fun t => ("test"%string, target_name t, target_path t))).
Qed.
Lemma find_named l n t :
  List.find (fun t => target_name t =s n) l = Some t -> In t l /\ target_name t = n.
Proof. intros H. apply List.find_some in H as [Hin Hn%str_eqb_iff]. done. Qed.

Lemma packages_by_id_lookup graph id : packages_by_id graph !! id = package_of graph id.
Proof.
  unfold packages_by_id, package_of.
  cut (forall m, fold_left emplace_package (packages graph) m !! id
         = match m !! id with
           | Some p => Some p
           | None => List.find (fun p => package_id p =s id) (packages graph)
           end).
  { intros H. by rewrite H, lookup_empty. }
  induction (packages graph) as [|p l IH]; intros m; cbn [fold_left List.find].
  { by destruct (m !! id). }
  rewrite IH. unfold emplace_package.
  destruct (String.eqb_spec (package_id p) id) as [<-|Hne].
  - destruct (m !! package_id p) eqn:E; rewrite ?E; [done|]. by rewrite lookup_insert_eq.
  - destruct (m !! package_id p) eqn:E; [done|]. by rewrite lookup_insert_ne.
Qed.

Lemma known_ids graph id : known graph id <-> id ∈ map package_id (packages graph).
Proof.
  unfold known, package_of. split.
  - intros [p Hp]. apply List.find_some in Hp as [Hin Heq%str_eqb_iff]. subst id.
    apply list_elem_of_In. by apply in_map.
  - intros H. apply list_elem_of_In, in_map_iff in H as (p & <- & Hin).
    destruct (List.find _ _) eqn:E; [done|].
    apply (List.find_none _ _ E) in Hin. by rewrite str_eqb_refl in Hin.
Qed.

Lemma chained_snoc graph l a :
  chained graph l -> (forall b, last l = Some b -> edge graph b a) -> chained graph (l ++ [a]).
Proof.
  intros Hc Hl i x y Hx Hy.
  destruct (Nat.lt_ge_cases (S i) (List.length l)) as [Hi|Hi].
  - rewrite lookup_app_l in Hx, Hy by lia. by eapply Hc.
  - rewrite lookup_app_r in Hy by lia.
    destruct (S i - List.length l)%nat as [|k] eqn:E; [|done]. cbn in Hy. simplify_eq.
    rewrite lookup_app_l in Hx by lia. apply Hl. rewrite last_lookup.
    by replace (Init.Nat.pred (List.length l)) with i by lia.
Qed.

Lemma from_first_suffix id l :
  id ∈ l -> exists before, l = before ++ from_first id l /\ head (from_first id l) = Some id.
Proof.
  induction l as [|a l IH]; [by intros ?%not_elem_of_nil|]. intros Hin. cbn.
  destruct (String.eqb_spec a id) as [->|Hne]; [by exists []|].
  apply elem_of_cons in Hin as [->|Hin]; [done|]. destruct (IH Hin) as (b & Hb & Hh).
  exists (a :: b). split; [cbn; by f_equal|done].
Qed.

Lemma chained_suffix graph before l : chained graph (before ++ l) -> chained graph l.
Proof.
  intros Hc i a b Ha Hb. apply (Hc (List.length before + i)%nat).
  - rewrite lookup_app_r by lia. by replace (_ + i - _)%nat with i by lia.
  - rewrite lookup_app_r by lia. by replace (S (_ + i) - _)%nat with (S i) by lia.
Qed.

(** The stack from the first occurrence of an id on, closed by that id. *)
Lemma stack_cycle graph l id :
  chained graph l -> id ∈ l -> (forall b, last l = Some b -> edge graph b id) ->
  is_cycle graph (from_first id l ++ [id]).
Proof.
  intros Hc Hin Hl. destruct (from_first_suffix id l Hin) as (before & Hl' & Hh).
  destruct (from_first id l) as [|x r] eqn:E; [done|]. injection Hh as ->.
  split_and!.
  - apply chained_snoc; [rewrite Hl' in Hc; by eapply chained_suffix|].
    intros b Hb. apply Hl. rewrite Hl', last_app. by rewrite Hb.
  - rewrite length_app. cbn. lia.
  - by rewrite last_snoc.
Qed.

Lemma dependencies_first_snoc graph l id :
  dependencies_first graph l -> (forall d, edge graph id d -> d ∈ l) ->
  dependencies_first graph (l ++ [id]).
Proof.
  intros Hd Hid i a d Ha He.
  destruct (Nat.lt_ge_cases i (List.length l)) as [Hi|Hi].
  - rewrite lookup_app_l in Ha by lia. destruct (Hd i a d Ha He) as (j & Hj & Hdj).
    exists j. split; [done|]. by rewrite lookup_app_l by lia.
  - rewrite lookup_app_r in Ha by lia.
    destruct (i - List.length l)%nat as [|k] eqn:E; [|done]. cbn in Ha. simplify_eq.
    apply Hid, list_elem_of_lookup in He as [j Hj]. exists j.
    pose proof (lookup_lt_Some _ _ _ Hj). split; [lia|]. by rewrite lookup_app_l by lia.
Qed.

(** ** The visit *)

Section Visit.
Context (graph : ResolvedGraphResult).

(** What holds between visits. *)
Record visiting (s : Visiting) : Prop := {
  stack_chained : chained graph (stack s);
  stack_NoDup : NoDup (stack s);
  active_iff : forall id, state_of s id = kActive <-> id ∈ stack s;
  done_iff : forall id, state_of s id = kDone <-> id ∈ order s;
  order_NoDup : NoDup (order s);
  order_dependencies : dependencies_first graph (order s);
  stack_known : forall id, id ∈ stack s -> known graph id;
  order_known : forall id, id ∈ order s -> known graph id;
}.

(** [id] is a package of the graph or a dependency of the package on top. *)
Definition may_visit (stack : list string) (id : string) : Prop :=
  match last stack with Some a => edge graph a id | None => known graph id end.

Definition visited (s : Visiting) (ids : list string) (r : option (plan_error + Visiting)) : Prop :=
  match r with
  | None => False
  | Some (inl e) => unbuildable graph e
  | Some (inr s') => visiting s' /\ stack s' = stack s
                     /\ (forall id, id ∈ order s -> id ∈ order s')
                     /\ forall id, id ∈ ids -> id ∈ order s'
  end.

Definition package_count : nat := List.length (packages graph).

Lemma stack_room s : visiting s -> (List.length (stack s) <= package_count)%nat.
Proof.
  intros Hs. unfold package_count. rewrite <- (length_map package_id).
  apply NoDup_incl_length; [by apply NoDup_ListNoDup, Hs|].
  intros id Hid%list_elem_of_In. by apply list_elem_of_In, known_ids, Hs.
Qed.

Lemma visit_each_visited fuel :
  (forall id s, visiting s -> may_visit (stack s) id ->
     (package_count < fuel + List.length (stack s))%nat ->
     visited s [id] (visit (packages_by_id graph) fuel id s)) ->
  forall ids s, visiting s -> (forall id, id ∈ ids -> may_visit (stack s) id) ->
  (package_count < fuel + List.length (stack s))%nat ->
  visited s ids (visit_each (visit (packages_by_id graph) fuel) ids s).
Proof.
  intros Hvisit ids. induction ids as [|id ids IH]; intros s Hs Hids Hfuel; cbn [visit_each].
  - split_and!; [done|done|done|]. by intros id ?%not_elem_of_nil.
  - pose proof (Hvisit id s Hs (Hids id (list_elem_of_here _ _)) Hfuel) as H1.
    destruct (visit _ _ _ _) as [[e|s1]|]; [done| |done].
    destruct H1 as (Hs1 & Hst1 & Hm1 & Hin1).
    pose proof (IH s1 Hs1) as H2. rewrite Hst1 in H2.
    specialize (H2 (fun x Hx => Hids x (list_elem_of_further _ _ _ Hx)) Hfuel).
    destruct (visit_each _ _ _) as [[e|s2]|]; [done| |done].
    destruct H2 as (Hs2 & Hst2 & Hm2 & Hin2). split_and!; [done|congruence|auto|].
    intros x [->|Hx]%elem_of_cons; [|auto]. apply Hm2, Hin1, list_elem_of_here.
Qed.

Lemma push_visiting s id :
  visiting s -> state_of s id = kUnseen -> known graph id -> may_visit (stack s) id ->
  visiting (mkVisiting (<[id := kActive]> (visit_state s)) (order s) (stack s ++ [id])).
Proof.
  intros Hs Hun Hk Hmay.
  assert (Hst : id ∉ stack s) by (intros Hin%(active_iff s Hs); congruence).
  assert (Hor : id ∉ order s) by (intros Hin%(done_iff s Hs); congruence).
  split; cbn [visit_state order stack]; try by apply Hs.
  - apply chained_snoc; [apply Hs|]. unfold may_visit in Hmay.
    intros b Hb. by rewrite Hb in Hmay.
  - apply NoDup_app. split_and!; [apply Hs| |apply NoDup_singleton].
    intros x Hx ->%list_elem_of_singleton. done.
  - intros x. unfold state_of. cbn. rewrite elem_of_app, list_elem_of_singleton.
    destruct (decide (x = id)) as [->|Hne].
    + rewrite lookup_insert_eq. naive_solver.
    + rewrite lookup_insert_ne by done. rewrite <- (active_iff s Hs). naive_solver.
  - intros x. unfold state_of. cbn. destruct (decide (x = id)) as [->|Hne].
    + rewrite lookup_insert_eq. naive_solver.
    + rewrite lookup_insert_ne by done. apply (done_iff s Hs).
  - intros x [Hx| ->%list_elem_of_singleton]%elem_of_app;
      [by apply (stack_known s Hs)|done].
Qed.

Lemma pop_visiting s base id :
  visiting s -> stack s = base ++ [id] -> (forall d, edge graph id d -> d ∈ order s) ->
  visiting (mkVisiting (<[id := kDone]> (visit_state s)) (order s ++ [id]) (removelast (stack s))).
Proof.
  intros Hs Hst Hdeps.
  assert (Hrl : removelast (stack s) = base) by (rewrite Hst; apply removelast_last).
  assert (Hin : id ∈ stack s) by (rewrite Hst; apply elem_of_app; right; apply list_elem_of_here).
  assert (Hor : id ∉ order s).
  { intros Ho. apply (done_iff s Hs) in Ho. apply (active_iff s Hs) in Hin. congruence. }
  pose proof (stack_NoDup s Hs) as Hnd. rewrite Hst in Hnd.
  apply NoDup_app in Hnd as (Hnd & Hdis & _).
  rewrite Hrl. split; cbn [visit_state order stack].
  - intros i a b Ha Hb. apply (stack_chained s Hs i); rewrite Hst; by apply lookup_app_l_Some.
  - done.
  - intros x. unfold state_of. cbn. destruct (decide (x = id)) as [->|Hne].
    + rewrite lookup_insert_eq. split; [done|]. intros Hx. exfalso.
      apply (Hdis id Hx). apply list_elem_of_here.
    + rewrite lookup_insert_ne by done. rewrite (active_iff s Hs x), Hst, elem_of_app, list_elem_of_singleton.
      naive_solver.
  - intros x. unfold state_of. cbn. rewrite elem_of_app, list_elem_of_singleton.
    destruct (decide (x = id)) as [->|Hne].
    + rewrite lookup_insert_eq. naive_solver.
    + rewrite lookup_insert_ne by done. rewrite <- (done_iff s Hs). naive_solver.
  - apply NoDup_app. split_and!; [apply Hs| |apply NoDup_singleton].
    intros x Hx ->%list_elem_of_singleton. done.
  - apply dependencies_first_snoc; [apply Hs|done].
  - intros x Hx. apply (stack_known s Hs). rewrite Hst. apply elem_of_app. by left.
  - intros x [Hx| ->%list_elem_of_singleton]%elem_of_app; [by apply (order_known s Hs)|].
    by apply (stack_known s Hs).
Qed.

Lemma visit_visited fuel id s :
  visiting s -> may_visit (stack s) id -> (package_count < fuel + List.length (stack s))%nat ->
  visited s [id] (visit (packages_by_id graph) fuel id s).
Proof.
  revert id s. induction fuel as [|fuel IH]; intros id s Hs Hmay Hfuel.
  { pose proof (stack_room s Hs). lia. }
  cbn [visit]. destruct (state_of s id) eqn:Hst.
  - unfold RequirePackageById. rewrite packages_by_id_lookup.
    destruct (package_of graph id) as [p|] eqn:Hp.
    + set (s1 := mkVisiting _ _ _).
      assert (Hs1 : visiting s1) by (apply push_visiting; [done|done|by exists p|done]).
      assert (Hmay1 : forall d, d ∈ dependencies p -> may_visit (stack s1) d).
      { intros d Hd. unfold may_visit, s1. cbn [stack]. rewrite last_snoc. by exists p. }
      pose proof (visit_each_visited fuel IH (dependencies p) s1 Hs1 Hmay1) as Hv.
      assert (Hl : List.length (stack s1) = S (List.length (stack s)))
        by (unfold s1; cbn [stack]; rewrite length_app; cbn; lia).
      specialize (Hv ltac:(lia)).
      destruct (visit_each _ _ _) as [[e|s2]|]; [done| |done].
      destruct Hv as (Hs2 & Hst2 & Hm2 & Hin2). split_and!; cbn [stack order].
      * apply (pop_visiting s2 (stack s) id); [done|by rewrite Hst2|].
        intros d (p' & Hp' & Hd). apply Hin2. congruence.
      * rewrite Hst2. apply removelast_last.
      * intros x Hx. apply elem_of_app. left. by apply Hm2.
      * intros x ->%list_elem_of_singleton. apply elem_of_app. right. apply list_elem_of_here.
    + left. unfold may_visit in Hmay. destruct (last (stack s)) as [a|].
      * exists a, id. split_and!; [done| |done]. unfold known. rewrite Hp. by intros [].
      * destruct Hmay as [? Hk]. congruence.
  - right. exists (from_first id (stack s) ++ [id]). split; [|done].
    apply (active_iff s Hs) in Hst.
    apply stack_cycle; [apply Hs|done|]. intros b Hb. unfold may_visit in Hmay. by rewrite Hb in Hmay.
  - split_and!; [done|done|done|]. intros x ->%list_elem_of_singleton. by apply (done_iff s Hs).
Qed.

Lemma start_visiting : visiting (mkVisiting ∅ [] []).
Proof.
  split; cbn; try (by intros ? ?%not_elem_of_nil); try apply NoDup_nil_2; try by intros [].
  - intros id. unfold state_of. cbn. rewrite lookup_empty. cbn. split; [done|by intros ?%not_elem_of_nil].
  - intros id. unfold state_of. cbn. rewrite lookup_empty. cbn. split; [done|by intros ?%not_elem_of_nil].
Qed.
End Visit.

(** Membership in the one-element list an equation gives. *)
Ltac find_in := match goal with E : ?l = [_] |- In _ ?l => rewrite E; by left end.

(** * Properties *)

(** The statement of the property, shared with the plans that are written. *)
Lemma package_order_sorted (graph : ResolvedGraphResult) :
  match BuildPackageOrder graph with
  | Some (inr order) => build_order graph order
  | Some (inl e) => unbuildable graph e
  | None => False
  end.
Proof.
  unfold BuildPackageOrder. set (ids := sort_strings _).
  assert (Hids : forall id, id ∈ ids <-> known graph id).
  { intros id. unfold ids. by rewrite sort_strings_permutation, known_ids. }
  assert (Hlen : List.length ids = package_count graph).
  { unfold ids. rewrite sort_strings_permutation. apply length_map. }
  pose proof (visit_each_visited graph (S (List.length ids))
    (visit_visited graph (S (List.length ids))) ids (mkVisiting ∅ [] [])
    (start_visiting graph)) as Hv.
  assert (Hroots : forall id, id ∈ ids -> may_visit graph [] id) by (intros id; apply Hids).
  specialize (Hv Hroots). rewrite Hlen in Hv at 1. specialize (Hv ltac:(cbn; lia)).
  destruct (visit_each _ _ _) as [[e|s]|]; [done| |done].
  destruct Hv as (Hs & _ & _ & Hin). split_and!; [apply Hs| |apply Hs].
  intros id. split; [apply (order_known graph s Hs)|]. intros Hk. by apply Hin, Hids.
Qed.

(** C11. [BuildPackageOrder] is a complete topological sort. It always ends, with
    recursion no deeper than the number of packages; an order it returns lists
    exactly the packages of the graph, each once and after all its
    dependencies; and when it throws, the message names a dependency that no
    package has or spells out a cycle of the graph, so an acyclic graph without
    missing packages always gets an order. *)
Theorem package_order_is_topological (graph : ResolvedGraphResult) :
  match BuildPackageOrder graph with
  | Some (inr order) => build_order graph order
  | Some (inl e) => unbuildable graph e
  | None => False
  end.
Proof. exact (package_order_sorted graph). Qed.

(** The entry target is one the package declares: a target that
    [ResolveEntryTarget] returns has the kind, the name and the path of a
    declared one, resolved against the package's directory to a regular file
    that exists; it is the one the flags name ("run" and "test" accept no
    library), and without flags a run gets a binary and a test run a test. *)
Theorem entry_target_is_declared v request p t :
  ResolveEntryTarget v request p = inr t ->
  (exists path contents, (kind t, selected_name t, path) ∈ declared_targets p
     /\ AbsoluteTargetPath v p path = inr (selected_file t)
     /\ file_at v (selected_file t) = Some (RegularFile contents))
  /\ asked_for request (kind t) (selected_name t).
Proof.
  unfold ResolveEntryTarget, asked_for.
  destruct (String.eqb_spec (intent request) "run"), (String.eqb_spec (intent request) "test");
  destruct (select_lib request), (bin_name request) as [bin|], (test_name request) as [test|];
    cbn [andb]; try done.
  all: repeat match goal with
    | |- context [match lib ?x with _ => _ end] => destruct (lib x) eqn:?
    | |- context [match List.find ?f ?l with _ => _ end] => destruct (List.find f l) eqn:?
    | |- context [match bins ?x with _ => _ end] => destruct (bins x) as [|? [|]] eqn:?
    | |- context [match tests ?x with _ => _ end] => destruct (tests x) as [|? [|]] eqn:?
    end; try done.
  all: repeat match goal with H : List.find _ _ = Some _ |- _ => apply find_named in H as [? ?] end.
  all: intros (Hk & Hn & Hf & contents & Hc)%selected_inv; rewrite Hk, Hn.
  all: split; [|split_and!; intros; split_and?; intros; first [done|congruence]].
  all: eexists _, contents; split_and!; [|exact Hf|exact Hc].
  all: first [by apply declared_lib|by apply declared_bin|by apply declared_test
             |by apply declared_bin; find_in|by apply declared_test; find_in].
Qed.

(** A package with one binary, in a tree that has its source. *)
Definition demo_package (id : string) (dependencies : list string) : ResolvedPackage :=
  mkResolved "/w/spio.toml" "/w"
    (mkPackageConfig "ns/app" "1.0.0" "2026" false (mkToolchain "stable" true) None
       [mkTarget "app" "src/main.styio"] [] [] []) id "path" None None None None None None dependencies [].
Definition demo_graph (packages : list ResolvedPackage) : ResolvedGraphResult :=
  mkGraph "" "" [] packages (mkLockfile "" "" []).
Definition demo_view : FileView :=
  mkView "/w" (fun p => if p =s "/w/src/main.styio" then Some (RegularFile "main") else None).

Lemma entry_target_is_declared_witness :
  let request := mkPlanRequest "spio.toml" "run" None None None false "dev" "minimal" None true None in
  let t := mkSelected "bin" "app" "/w/src/main.styio" in
  ResolveEntryTarget demo_view request (demo_package "app@1" []) = inr t
  /\ asked_for request (kind t) (selected_name t).
Proof.
  cbv zeta. split; [vm_compute; reflexivity|].
  apply (entry_target_is_declared demo_view _ (demo_package "app@1" [])).
  vm_compute. reflexivity.
Defined.

Example order_of_a_diamond :
  BuildPackageOrder (demo_graph [demo_package "a" ["c"; "b"]; demo_package "b" ["d"];
                                    demo_package "c" ["d"]; demo_package "d" []])
  = Some (inr ["d"; "c"; "b"; "a"]%string).
Proof. vm_compute. reflexivity. Qed.
Example cycle_is_reported :
  BuildPackageOrder (demo_graph [demo_package "a" ["b"]; demo_package "b" ["c"];
                                    demo_package "c" ["b"]])
  = Some (inl (PlanError "compile-plan requires an acyclic package graph: b -> c -> b")).
Proof. vm_compute. reflexivity. Qed.
