(* ===== verification/CloudExecution.v ===== *)
(** Cloud execution of a project's builds ([SpioPlatformProtocols/Execution.cpp],
    [Contract.cpp], [Job.cpp]): the policy a tool chain state resolves to, the payloads
    that describe it, and the build job a client asks the control plane for. *)
From stdpp Require Import base list gmap strings.
From Stdlib Require Import ZArith Lia Ascii String.
From S2P Require Import Prelude CompilePlan Json Paths FileSystem Process CachePaths Toolchain.

Record SharedCachePolicy := mkCachePolicy {
  shared_toolchain_read_only : bool;
  shared_source_read_only : bool;
  shared_registry_read_only : bool;
  worker_local_reuse : bool;
  shared_cache_promotion_eligible : bool;
  promotion_policy : string;
}.
Record WorkerPoolKey := mkPoolKey {
  pool_platform : string;
  pool_architecture : string;
  pool_execution_lane : string;
  pool_trust_tier : string;
  pool_toolchain_mode : string;
  pool_channel : string;
  pool_build_mode : string;
  compiler_fingerprint : string;
  base_image_revision : string;
}.
Record CloudExecutionPolicy := mkPolicy {
  policy_risk_class : string;
  requested_execution_lane : string;
  policy_execution_lane : string;
  worker_trust_tier : string;
  requested_security_profile : string;
  policy_security_profile : string;
  fallback_applied : bool;
  platform_protection_priority : bool;
  tenant_isolation_priority : bool;
  network_egress_default_deny : bool;
  requires_container_sandbox : bool;
  routing_reason : string;
  cache_policy : SharedCachePolicy;
  worker_pool : WorkerPoolKey;
}.

(** The system and the processor the program was compiled for. *)
Inductive system := Linux | Windows | MacOs | OtherSystem.
Inductive processor := Aarch64 | X86_64 | Arm | OtherProcessor.
Class BuildTarget := { target_system : system; target_processor : processor }.

(** ** The policy *)

Definition DefaultSecurityProfile (risk_class execution_lane : string) : string :=
  if execution_lane =s kExecutionLaneWarmShared then kSecurityProfileTrustedWarm
  else if risk_class =s kRiskClassPartnerControlled then kSecurityProfilePartnerRestricted
  else kSecurityProfileSandboxDefault.
Definition DefaultWorkerTrustTier (risk_class execution_lane : string) : string :=
  if execution_lane =s kExecutionLaneWarmShared then "internal-warm"
  else if risk_class =s kRiskClassTrustedInternal then "trusted-isolated"
  else if risk_class =s kRiskClassPartnerControlled then "partner-isolated"
  else "untrusted-isolated".
Definition CompilerFingerprintForState (state : ProjectToolchainState) : string :=
  if state_mode state =s kToolchainModeBuild
  then default "source-revision-unset"%string (source_revision state)
  else "published-" +:+ state_channel state +:+ "-" +:+ state_build_mode state.

Definition DetectCloudPlatform `{BuildTarget} : string :=
  match target_system with
  | Linux => "linux" | Windows => "windows" | MacOs => "macos" | OtherSystem => "unknown"
  end.
Definition DetectCloudArchitecture `{BuildTarget} : string :=
  match target_processor with
  | Aarch64 => "aarch64" | X86_64 => "x86_64" | Arm => "arm" | OtherProcessor => "unknown"
  end.
Definition DetectCloudBaseImageRevision `{ProgramHost} : string :=
  default "dev-unset"%string (non_empty_env "SPIO_CLOUD_BASE_IMAGE_REVISION").

(** What the routing decides: the risk class, the lane, whether it fell back and why. *)
Record routing := mkRouting {
  routed_risk : string;
  routed_lane : string;
  fell_back : bool;
  reason : string;
}.
Definition check_risk_class (r : routing) : routing :=
  if negb (IsSupportedCloudRiskClass (routed_risk r))
  then mkRouting kRiskClassUntrustedUser (routed_lane r) true
         "unknown risk class fell back to untrusted-user"
  else r.
Definition check_execution_lane (r : routing) : routing :=
  if negb (IsSupportedCloudExecutionLane (routed_lane r))
  then mkRouting (routed_risk r) kExecutionLaneIsolated true
         "unknown execution lane fell back to isolated"
  else r.
Definition route (r : routing) : routing :=
  if (routed_risk r =s kRiskClassUntrustedUser) && (routed_lane r <>s kExecutionLaneIsolated)
  then mkRouting (routed_risk r) kExecutionLaneIsolated true
         "untrusted-user jobs require isolated execution"
  else if (routed_risk r =s kRiskClassPartnerControlled) && (routed_lane r =s kExecutionLaneWarmShared)
  then mkRouting (routed_risk r) kExecutionLaneIsolated true
         "partner-controlled jobs require explicit allowlist before warm-shared execution"
  else if is_empty (reason r)
  then mkRouting (routed_risk r) (routed_lane r) (fell_back r)
         (if routed_lane r =s kExecutionLaneWarmShared
          then "trusted internal workload is eligible for warm-shared execution"
          else "default isolated execution protects the platform before enabling warm-shared reuse")
  else r.
Definition route_state (state : ProjectToolchainState) : routing :=
  route (check_execution_lane (check_risk_class
    (mkRouting (risk_class state) (preferred_execution_lane state) false EmptyString))).

Definition ResolveCloudExecutionPolicy `{BuildTarget} `{ProgramHost} (state : ProjectToolchainState)
  : CloudExecutionPolicy :=
  let r := route_state state in
  let expected_security := DefaultSecurityProfile (routed_risk r) (routed_lane r) in
  let replaced := negb (IsSupportedCloudSecurityProfile (security_profile state))
                  || (security_profile state <>s expected_security) in
  let tier := DefaultWorkerTrustTier (routed_risk r) (routed_lane r) in
  mkPolicy (routed_risk r) (preferred_execution_lane state) (routed_lane r) tier
    (security_profile state) (if replaced then expected_security else security_profile state)
    (fell_back r || replaced) true true true true (reason r)
    (mkCachePolicy true true true (routed_lane r =s kExecutionLaneWarmShared)
       (routed_risk r =s kRiskClassTrustedInternal) "verified-only")
    (mkPoolKey DetectCloudPlatform DetectCloudArchitecture (routed_lane r) tier (state_mode state)
       (state_channel state) (state_build_mode state) (CompilerFingerprintForState state)
       DetectCloudBaseImageRevision).

(** ** Payloads *)

Definition SerializeSupportedValues (values : list string) : json := JArray (map JString values).
Definition SerializeSharedCachePolicy (policy : SharedCachePolicy) : json :=
  obj [("shared_toolchain_read_only", JBool (shared_toolchain_read_only policy));
       ("shared_source_read_only", JBool (shared_source_read_only policy));
       ("shared_registry_read_only", JBool (shared_registry_read_only policy));
       ("worker_local_reuse", JBool (worker_local_reuse policy));
       ("shared_cache_promotion_eligible", JBool (shared_cache_promotion_eligible policy));
       ("promotion_policy", JString (promotion_policy policy))]%string.
Definition SerializeWorkerPoolKey (key : WorkerPoolKey) : json :=
  obj [("platform", JString (pool_platform key)); ("architecture", JString (pool_architecture key));
       ("execution_lane", JString (pool_execution_lane key));
       ("worker_trust_tier", JString (pool_trust_tier key));
       ("toolchain_mode", JString (pool_toolchain_mode key)); ("channel", JString (pool_channel key));
       ("build_mode", JString (pool_build_mode key));
       ("compiler_fingerprint", JString (compiler_fingerprint key));
       ("base_image_revision", JString (base_image_revision key))]%string.
Definition SerializeCloudExecutionPolicy (policy : CloudExecutionPolicy) : json :=
  obj [("contract_version", JInt 1); ("risk_class", JString (policy_risk_class policy));
       ("requested_execution_lane", JString (requested_execution_lane policy));
       ("execution_lane", JString (policy_execution_lane policy));
       ("worker_trust_tier", JString (worker_trust_tier policy));
       ("requested_security_profile", JString (requested_security_profile policy));
       ("security_profile", JString (policy_security_profile policy));
       ("fallback_applied", JBool (fallback_applied policy));
       ("platform_protection_priority", JBool (platform_protection_priority policy));
       ("tenant_isolation_priority", JBool (tenant_isolation_priority policy));
       ("network_egress_default_deny", JBool (network_egress_default_deny policy));
       ("requires_container_sandbox", JBool (requires_container_sandbox policy));
       ("routing_reason", JString (routing_reason policy));
       ("cache_policy", SerializeSharedCachePolicy (cache_policy policy));
       ("worker_pool_key", SerializeWorkerPoolKey (worker_pool policy))]%string.
Definition SerializeProjectToolchainState (state : ProjectToolchainState) : json :=
  let payload :=
    obj [("path", JString (state_path state)); ("exists", JBool (state_file_exists state));
         ("mode", JString (state_mode state)); ("channel", JString (state_channel state));
         ("build_mode", JString (state_build_mode state)); ("risk_class", JString (risk_class state));
         ("preferred_execution_lane", JString (preferred_execution_lane state));
         ("security_profile", JString (security_profile state))]%string in
  match source_revision state with
  | Some revision => j_set payload "source_revision" (JString revision)
  | None => payload
  end.
Definition BuildCloudStatusPayload (state : ProjectToolchainState) (policy : CloudExecutionPolicy) : json :=
  obj [("command", JString "cloud status");
       ("message", JString ("resolved cloud execution policy for " +:+ state_manifest_path state));
       ("manifest_path", JString (state_manifest_path state));
       ("toolchain_state_path", JString (state_path state));
       ("toolchain_mode", JString (state_mode state)); ("channel", JString (state_channel state));
       ("build_mode", JString (state_build_mode state)); ("risk_class", JString (risk_class state));
       ("preferred_execution_lane", JString (preferred_execution_lane state));
       ("security_profile", JString (security_profile state));
       ("supported_execution_lanes", SerializeSupportedValues kSupportedCloudExecutionLanes);
       ("supported_risk_classes", SerializeSupportedValues kSupportedCloudRiskClasses);
       ("supported_security_profiles", SerializeSupportedValues kSupportedCloudSecurityProfiles);
       ("cloud", SerializeCloudExecutionPolicy policy)]%string.

(** ** Build jobs *)

Record CloudJobTargetSelection := mkJobTarget {
  target_package_name : option string;
  target_bin_name : option string;
  target_test_name : option string;
  target_select_lib : bool;
}.
Record CloudJobSourceSelection := mkJobSource {
  source_origin : string;
  explicit_source_root : option string;
  requested_revision : option string;
  resolved_revision : option string;
  source_allow_fetch : bool;
  source_assume_yes : bool;
  source_non_interactive : bool;
  source_offline : bool;
}.
Record WorkflowInvocationOptions := mkInvocation {
  locked : bool;
  invocation_offline : bool;
  option_styio_bin : option string;
  allow_fetch : bool;
  assume_yes : bool;
  non_interactive : bool;
  option_source_root : option string;
  option_source_revision : option string;
}.
Record CloudBuildJobRequest := mkBuildJob {
  schema_version : Z;
  api_path : string;
  action : string;
  build_manifest_path : string;
  build_toolchain_mode : string;
  build_channel : string;
  build_build_mode : string;
  build_profile : string;
  build_locked : bool;
  build_offline : bool;
  build_target : CloudJobTargetSelection;
  build_source : CloudJobSourceSelection;
  cloud_policy : CloudExecutionPolicy;
}.

Definition present {A} (o : option A) : bool := match o with Some _ => true | None => false end.

(** The build mode asked for, or the project's. *)
Definition effective_build_mode (request : BuildPlanRequest) (state : ProjectToolchainState) : string :=
  if is_empty (build_mode request) then state_build_mode state else build_mode request.

Definition ValidateWorkflowInvocationImpl (action : string) (request : BuildPlanRequest)
    (toolchain_state : ProjectToolchainState) (options : WorkflowInvocationOptions) : option string :=
  let mode := effective_build_mode request toolchain_state in
  let has_source_options :=
    assume_yes options || negb (allow_fetch options) || non_interactive options
    || present (option_source_root options) || present (option_source_revision options) in
  if (action <>s "build") && (action <>s "run") && (action <>s "test")
  then Some "workflow action must be one of: build, run, test"
  else if is_empty mode || negb (IsSupportedBuildMode mode)
  then Some "build currently supports only the 'minimal' mode"
  else if (state_mode toolchain_state =s kToolchainModeBinary) && has_source_options
  then Some "source-build options require 'spio use build'"
  else if (state_mode toolchain_state =s kToolchainModeBuild) && present (option_styio_bin options)
  then Some "--styio-bin is only valid when the project toolchain mode is 'binary'"
  else if (action =s "run") && select_lib request then Some "run does not accept --lib"
  else if (action =s "run") && present (test_name request) then Some "run does not accept --test"
  else if (action =s "test") && select_lib request then Some "test does not accept --lib"
  else if (action =s "test") && present (bin_name request) then Some "test does not accept --bin"
  else if (action =s "build") && present (test_name request) then Some "build does not accept --test"
  else None.

Definition ResolveSourceOriginBaseline `{ProgramHost} : string :=
  default "https://github.com/eBioRing/Styio.git"%string (non_empty_env "SPIO_STYIO_SOURCE_ORIGIN").

Definition BuildCloudBuildJobRequest `{ProgramHost} (action : string) (request : BuildPlanRequest)
    (toolchain_state : ProjectToolchainState) (options : WorkflowInvocationOptions)
    (cloud_policy : CloudExecutionPolicy) : exn + CloudBuildJobRequest :=
  match ValidateWorkflowInvocationImpl action request toolchain_state options with
  | Some error => inl (ValidationError error)
  | None =>
      let build_mode := effective_build_mode request toolchain_state in
      inr (mkBuildJob 1 "/api/styio-platform/v1/jobs" action (request_manifest_path request)
             (state_mode toolchain_state) (state_channel toolchain_state)
             (if is_empty build_mode then kBuildModeMinimal else build_mode) (profile request)
             (locked options) (invocation_offline options)
             (mkJobTarget (request_package_name request) (bin_name request) (test_name request)
                (select_lib request))
             (mkJobSource ResolveSourceOriginBaseline (option_source_root options)
                (option_source_revision options) (source_revision toolchain_state)
                (allow_fetch options) (assume_yes options) (non_interactive options)
                (invocation_offline options))
             cloud_policy)
  end.

(** [fs::absolute(path).string()]. *)
Definition absolute_path `{FileHost} (path : string) : exn + string :=
  if is_empty path then inl (FilesystemError "cannot make absolute path" path)
  else inr (if is_absolute path then path
            else path_join (absolute_text FileSystem.working_directory false) path).

Definition optional_string (value : option string) : json :=
  match value with Some text => JString text | None => JNull end.
Definition set_optional (key : string) (value : option string) (payload : json) : json :=
  match value with Some text => j_set payload key (JString text) | None => payload end.

Definition BuildCloudBuildJobRequestPayload `{FileHost} (request : CloudBuildJobRequest) : exn + json :=
  let target := build_target request in
  let source := build_source request in
  manifest_path <-? absolute_path (build_manifest_path request) ;;
  explicit_root <-? match explicit_source_root source with
                    | Some root => path <-? absolute_path root ;; inr (Some path)
                    | None => inr None
                    end ;;
  inr (obj
    [("schema_version", JInt (schema_version request)); ("api_path", JString (api_path request));
     ("action", JString (action request)); ("manifest_path", JString manifest_path);
     ("toolchain", obj [("mode", JString (build_toolchain_mode request));
                        ("channel", JString (build_channel request));
                        ("build_mode", JString (build_build_mode request))]);
     ("profile", JString (build_profile request));
     ("workflow", obj [("locked", JBool (build_locked request));
                       ("offline", JBool (build_offline request))]);
     ("target", obj [("package", optional_string (target_package_name target));
                     ("bin", optional_string (target_bin_name target));
                     ("test", optional_string (target_test_name target));
                     ("lib", JBool (target_select_lib target))]);
     ("source", set_optional "resolved_revision" (resolved_revision source)
                  (set_optional "requested_revision" (requested_revision source)
                     (set_optional "explicit_root" explicit_root
                        (obj [("origin", JString (source_origin source));
                              ("allow_fetch", JBool (source_allow_fetch source));
                              ("assume_yes", JBool (source_assume_yes source));
                              ("non_interactive", JBool (source_non_interactive source));
                              ("offline", JBool (source_offline source))]))));
     ("cloud", SerializeCloudExecutionPolicy (cloud_policy request))])%string.
