(* ===== verification/Resolver.v ===== *)
(** Resolution of a package and its dependencies to one version each
    ([PlatformCore/Resolve/Resolver.cpp]). *)
From stdpp Require Import base list gmap strings sorting.
From Stdlib Require Import ZArith Lia Ascii String.
From S2P Require Import Prelude Json Paths FileSystem Toml Manifest Lockfile SourceFetch.
From S2P Require Import CachePaths GitFetcher RegistryClient ResolvedGraph.

Inductive SourceKind := kWorkspaceSource | kPathSource | kGitSource | kRegistrySource.
#[export] Instance SourceKind_eq_dec : EqDecision SourceKind.
Proof. solve_decision. Defined.

Record SourceOrigin := mkOrigin {
  origin_kind : SourceKind;
  git_source : option string;
  git_rev : option string;
  registry_root : option string;
  registry_version : option string;
  registry_sha256 : option string;
  origin_repo_hash : option string;
  origin_snapshot_root : option string;
}.
Definition plain_origin (kind : SourceKind) : SourceOrigin :=
  mkOrigin kind None None None None None None None.
Definition with_kind (kind : SourceKind) (o : SourceOrigin) : SourceOrigin :=
  mkOrigin kind (git_source o) (git_rev o) (registry_root o) (registry_version o)
    (registry_sha256 o) (origin_repo_hash o) (origin_snapshot_root o).

Record ManifestSelection := mkSelection { selected_manifest : string; selected_origin : SourceOrigin }.

Record Node := mkNode {
  node_manifest_path : string;
  package_dir : string;
  node_package : PackageConfig;
  node_origin : SourceOrigin;
  source_fingerprint : string;
  node_id : string;
  node_dependencies : list string;
  node_aliases : list (string * string);
}.

(** What the constructor computes. *)
Record ResolverSetup := mkSetup {
  root_manifest_path_ : string;
  root_manifest_ : ManifestDocument;
  options_ : ResolveOptions;
  root_seeds_ : list ManifestSelection;
  top_level_workspace_dirs_ : list string;
}.
(** What resolution changes. *)
Record ResolverState := mkResolverState {
  resolver_world : ClientWorld;
  nodes_ : list Node;
  node_by_source_fingerprint_ : gmap string nat;
  node_by_package_name_ : gmap string nat;
}.
Definition set_world (w : ClientWorld) (s : ResolverState) : ResolverState :=
  mkResolverState w (nodes_ s) (node_by_source_fingerprint_ s) (node_by_package_name_ s).
Definition set_nodes (nodes : list Node) (s : ResolverState) : ResolverState :=
  mkResolverState (resolver_world s) nodes (node_by_source_fingerprint_ s) (node_by_package_name_ s).

Definition SourceKindString (kind : SourceKind) : string :=
  match kind with
  | kWorkspaceSource => "workspace"
  | kPathSource => "path"
  | kGitSource => "git"
  | kRegistrySource => "registry"
  end.

(** [optional.value()]. *)
Definition value_of {A} (o : option A) : exn + A :=
  match o with Some a => inr a | None => inl (RuntimeError "bad optional access") end.

Section Resolver.
Context `{JsonLib} `{FileHost} `{ProgramHost} `{TomlLib}.

Definition PathKey (path : string) : exn + string := CanonicalAbsolutePath path.

Definition PathIsWithin (candidate root : string) : exn + bool :=
  candidate <-? CanonicalAbsolutePath candidate ;;
  root <-? CanonicalAbsolutePath root ;;
  let relative := lexically_relative candidate root in
  inr (negb (is_empty relative) && negb (relative =s "..") && negb (str_starts_with relative "../")).

Definition SnapshotRelativeKey (origin : SourceOrigin) (package_dir : string) : exn + string :=
  root <-? value_of (origin_snapshot_root origin) ;;
  snapshot_root <-? CanonicalAbsolutePath root ;;
  directory <-? CanonicalAbsolutePath package_dir ;;
  let key := lexically_relative directory snapshot_root in
  inr (if is_empty key then "."%string else key).

Definition BuildSourceFingerprint (origin : SourceOrigin) (package_dir : string) : exn + string :=
  let pinned prefix source pin :=
    source <-? value_of source ;;
    pin <-? value_of pin ;;
    key <-? SnapshotRelativeKey origin package_dir ;;
    inr (prefix +:+ source +:+ "#" +:+ pin +:+ ":" +:+ key) in
  match origin_kind origin with
  | kGitSource => pinned "git:"%string (git_source origin) (git_rev origin)
  | kRegistrySource => pinned "registry:"%string (registry_root origin) (registry_sha256 origin)
  | kind => key <-? PathKey package_dir ;; inr (SourceKindString kind +:+ ":" +:+ key)
  end.

Definition BuildLockId (origin : SourceOrigin) (package : PackageConfig) : exn + string :=
  let id := SourceKindString (origin_kind origin) +:+ ":" +:+ package_name package +:+ "@"
            +:+ package_version package in
  match origin_kind origin with
  | kGitSource => pin <-? value_of (git_rev origin) ;; inr (id +:+ "#" +:+ pin)
  | kRegistrySource => pin <-? value_of (registry_sha256 origin) ;; inr (id +:+ "#" +:+ pin)
  | _ => inr id
  end.

Definition CollectDependencies (package : PackageConfig) : list Dependency :=
  sort_by alias (package_dependencies package ++ dev_dependencies package).

(** [std::sort] and [std::unique] on strings. *)
Fixpoint unique_strings (l : list string) : list string :=
  match l with
  | a :: ((b :: _) as rest) => if a =s b then unique_strings rest else a :: unique_strings rest
  | _ => l
  end.
Definition sorted_unique (l : list string) : list string := unique_strings (sort_strings l).

(** ** The constructor *)

Definition NormalizeOptions (manifest_path : string) (options : ResolveOptions) (t : FileTree)
  : exn + ResolveOptions :=
  match resolve_vendor_root options with
  | None =>
      default_vendor_root <-? ProjectVendorRootForManifest manifest_path ;;
      inr (if exists_ t default_vendor_root
           then mkOptions (resolve_offline options) (Some default_vendor_root) else options)
  | Some vendor_root =>
      path <-? CanonicalAbsolutePath vendor_root ;;
      inr (mkOptions (resolve_offline options) (Some path))
  end.

Definition member_manifest_path (root_manifest_path member : string) : exn + string :=
  CanonicalAbsolutePath (path_join (path_join (parent_path root_manifest_path) member) "spio.toml").

(** The seed of one workspace member, and the key of its directory. *)
Definition member_seed (root_manifest_path : string) (excluded : list string) (t : FileTree)
    (member : string) : exn + (ManifestSelection * string) :=
  if string_in member excluded
  then inl (WorkspaceError ("workspace member is also excluded: " +:+ member))
  else
    member_manifest <-? member_manifest_path root_manifest_path member ;;
    if negb (exists_ t member_manifest)
    then inl (WorkspaceError ("workspace member manifest not found: " +:+ member_manifest))
    else
      member_doc <-? LoadManifest member_manifest t ;;
      match manifest_package member_doc with
      | None => inl (WorkspaceError ("workspace member manifest must define [package]: "
                                     +:+ member_manifest))
      | Some _ =>
          key <-? PathKey (parent_path member_manifest) ;;
          inr (mkSelection member_manifest (plain_origin kWorkspaceSource), key)
      end.

Definition selection_le (a b : ManifestSelection) : Prop :=
  path_le (selected_manifest a) (selected_manifest b).
#[local] Instance selection_le_dec a b : Decision (selection_le a b) := path_le_dec _ _.
Fixpoint unique_selections (l : list ManifestSelection) : list ManifestSelection :=
  match l with
  | a :: rest =>
      a :: match unique_selections rest with
           | b :: rest' => if path_eqb (selected_manifest a) (selected_manifest b) then rest'
                           else b :: rest'
           | [] => []
           end
  | [] => []
  end.

Definition BuildRootSeeds (root_manifest_path : string) (root_manifest : ManifestDocument) (t : FileTree)
  : exn + (list ManifestSelection * list string) :=
  own <-? match manifest_package root_manifest with
          | Some _ =>
              key <-? PathKey (parent_path root_manifest_path) ;;
              inr [(mkSelection root_manifest_path (plain_origin kWorkspaceSource), key)]
          | None => inr []
          end ;;
  match manifest_workspace root_manifest with
  | None => inr (map fst own, map snd own)
  | Some workspace =>
      found <-? traverse (member_seed root_manifest_path (exclude workspace) t)
                  (sort_strings (members workspace)) ;;
      let all := (own ++ found)%list in
      inr (unique_selections (merge_sort selection_le (map fst all)), map snd all)
  end.

Definition new_resolver (manifest_path : string) (options : ResolveOptions) (t : FileTree)
  : exn + ResolverSetup :=
  path <-? CanonicalAbsolutePath manifest_path ;;
  manifest <-? LoadManifest path t ;;
  normalized <-? NormalizeOptions path options t ;;
  seeds <-? BuildRootSeeds path manifest t ;;
  inr (mkSetup path manifest normalized seeds.1 seeds.2).
End Resolver.

(** ** Resolution *)

(** A run that throws, [inl (Some e)], or needs more fuel, [inl None]. *)
Abbreviation ResolveM := (M (option exn) ResolverState).
Definition or_throws {A} (r : exn + A) : option exn + A :=
  match r with inl e => inl (Some e) | inr a => inr a end.
Definition throws {A} (e : exn) : ResolveM A := throw (Some e).
Definition pure {A} (r : exn + A) : ResolveM A := lift (or_throws r).
Definition on_world {A} (m : ClientM A) : ResolveM A :=
  fun s => let '(r, w) := m (resolver_world s) in (or_throws r, set_world w s).
Definition reads_files {A} (f : FileTree -> exn + A) : ResolveM A := on_world (looks_at f).

(** [nodes_.at(index)]. *)
Definition node_at_index (index : nat) : ResolveM Node :=
  nodes <- gets nodes_ ;;
  match nodes !! index with Some node => m_ret node | None => throws OutOfRange end.

Section Resolution.
Context `{JsonLib} `{FileHost} `{ProgramHost} `{TomlLib} (setup : ResolverSetup).

Abbreviation root_manifest_path := (root_manifest_path_ setup).

(** The manifests below a workspace root that are the expected package. *)
Fixpoint member_matches (root_path expected : string) (excluded members : list string) (t : FileTree)
  : exn + list string :=
  match members with
  | [] => inr []
  | member :: members =>
      if string_in member excluded then member_matches root_path expected excluded members t
      else
        member_manifest <-? member_manifest_path root_path member ;;
        if negb (exists_ t member_manifest)
        then inl (ResolutionError ("dependency workspace member manifest not found: "
                                   +:+ member_manifest))
        else
          member_doc <-? LoadManifest member_manifest t ;;
          match manifest_package member_doc with
          | None => inl (ResolutionError ("dependency workspace member manifest must define [package]: "
                                          +:+ member_manifest))
          | Some package =>
              rest <-? member_matches root_path expected excluded members t ;;
              inr (if package_name package =s expected then member_manifest :: rest else rest)
          end
  end.

Definition load_manifest_at (path : string) (t : FileTree) : exn + ManifestDocument :=
  if path_eqb path root_manifest_path then inr (root_manifest_ setup) else LoadManifest path t.

Definition expected_here (expected : option string) (package : PackageConfig) : bool :=
  match expected with None => true | Some name => package_name package =s name end.

Definition manifest_matches (root_path : string) (expected : option string) (t : FileTree)
  : exn + list string :=
  root_doc <-? load_manifest_at root_path t ;;
  let own := match manifest_package root_doc with
             | Some package => if expected_here expected package then [root_path] else []
             | None => []
             end in
  match manifest_workspace root_doc, expected with
  | None, _ => inr own
  | Some _, None =>
      match manifest_package root_doc with
      | Some _ => inr own
      | None => inl (ResolutionError ("dependency target is a workspace root and requires an explicit "
                                      +:+ "package: " +:+ root_path))
      end
  | Some workspace, Some name =>
      found <-? member_matches root_path name (exclude workspace) (sort_strings (members workspace)) t ;;
      inr (own ++ found)%list
  end.

Definition SelectPackageManifestFromRoot (root_path : string) (origin_hint : SourceOrigin)
    (expected : option string) (t : FileTree) : exn + ManifestSelection :=
  matches <-? manifest_matches root_path expected t ;;
  match matches, expected with
  | [], Some name => inl (ResolutionError ("dependency target package '" +:+ name
                                           +:+ "' was not found under " +:+ root_path))
  | [], None => inl (ResolutionError ("dependency target manifest does not define [package]: "
                                      +:+ root_path))
  | _ :: _ :: _, _ => inl (ResolutionError ("dependency target package is ambiguous under " +:+ root_path))
  | [found], _ =>
      selected_kind <-? match origin_kind origin_hint with
                        | kWorkspaceSource | kPathSource =>
                            directory <-? PathKey (parent_path found) ;;
                            inr (if string_in directory (top_level_workspace_dirs_ setup)
                                 then kWorkspaceSource else kPathSource)
                        | kind => inr kind
                        end ;;
      inr (mkSelection found (with_kind selected_kind origin_hint))
  end.

Definition ResolvePathDependency (parent : Node) (dependency : Dependency) (t : FileTree)
  : exn + ManifestSelection :=
  dependency_root <-? CanonicalAbsolutePath
      (path_join (path_join (package_dir parent) (dependency_source dependency)) "spio.toml") ;;
  if negb (exists_ t dependency_root)
  then inl (ResolutionError ("path dependency manifest not found: " +:+ dependency_root))
  else if bool_decide (origin_kind (node_origin parent) = kGitSource) then
    snapshot <-? value_of (origin_snapshot_root (node_origin parent)) ;;
    within <-? PathIsWithin (parent_path dependency_root) snapshot ;;
    here <-? CanonicalAbsolutePath (parent_path dependency_root) ;;
    top <-? CanonicalAbsolutePath snapshot ;;
    if negb within && negb (path_eqb here top)
    then inl (ResolutionError ("git-sourced path dependency escapes its pinned snapshot: "
                               +:+ dependency_root))
    else SelectPackageManifestFromRoot dependency_root (node_origin parent)
           (dependency_package dependency) t
  else SelectPackageManifestFromRoot dependency_root (plain_origin kPathSource)
         (dependency_package dependency) t.

(** The manifest at the top of a snapshot. *)
Definition select_in_snapshot (what : string) (origin : SourceOrigin) (snapshot_root : string)
    (dependency : Dependency) (t : FileTree) : exn + ManifestSelection :=
  let root_manifest := path_join snapshot_root "spio.toml" in
  if negb (exists_ t root_manifest)
  then inl (ResolutionError (what +:+ " dependency snapshot does not contain spio.toml: "
                             +:+ root_manifest))
  else SelectPackageManifestFromRoot root_manifest origin (dependency_package dependency) t.

Definition ResolveGitDependency (parent : Node) (dependency : Dependency) : ClientM ManifestSelection :=
  normalized_source <- lift (NormalizeGitSource (dependency_source dependency) (package_dir parent)) ;;
  spio_home <- lift ResolveSpioHome ;;
  revision <- lift (value_of (rev dependency)) ;;
  snapshot <- MaterializeSnapshot
                (mkSnapshotFetch spio_home (resolve_vendor_root (options_ setup)) normalized_source
                   revision (resolve_offline (options_ setup)) TrustedGitSourcePolicy
                   "resolver process") ;;
  let origin := mkOrigin kGitSource (Some normalized_source) (Some revision) None None None
                  (Some (repo_hash snapshot)) (Some (snapshot_root snapshot)) in
  looks_at (select_in_snapshot "git" origin (snapshot_root snapshot) dependency).

Definition ResolveRegistryDependency (dependency : Dependency) : ClientM ManifestSelection :=
  match dependency_package dependency, dependency_version dependency with
  | None, _ => throw (ResolutionError ("registry dependency '" +:+ alias dependency
                        +:+ "' must declare package = " +:+ quote_mark +:+ "namespace/name"
                        +:+ quote_mark))
  | Some _, None => throw (ResolutionError ("registry dependency '" +:+ alias dependency
                             +:+ "' must declare version = " +:+ quote_mark +:+ "x.y.z"
                             +:+ quote_mark))
  | Some name, Some version =>
      materialized <- MaterializeRegistryPackage (dependency_source dependency) name version
                        (resolve_offline (options_ setup)) ;;
      let origin := mkOrigin kRegistrySource None None (Some (mr_registry_root materialized))
                      (Some (mr_version materialized)) (Some (mr_sha256 materialized)) None
                      (Some (mr_snapshot_root materialized)) in
      looks_at (select_in_snapshot "registry" origin (mr_snapshot_root materialized) dependency)
  end.

Definition select_dependency (parent : Node) (dependency : Dependency) : ClientM ManifestSelection :=
  match dependency_kind dependency with
  | kPath => looks_at (ResolvePathDependency parent dependency)
  | kGit => ResolveGitDependency parent dependency
  | kRegistry => ResolveRegistryDependency dependency
  end.

Definition require_package (manifest : ManifestDocument) (origin : SourceOrigin) (path : string)
  : exn + PackageConfig :=
  match manifest_package manifest with
  | Some package => inr package
  | None =>
      if bool_decide (origin_kind origin = kWorkspaceSource)
      then inl (WorkspaceError ("workspace package manifest must define [package]: " +:+ path))
      else inl (ResolutionError ("resolved manifest must define [package]: " +:+ path))
  end.

(** The node of a package that is there under its name. *)
Definition same_package (other node : Node) : exn + unit :=
  let name := package_name (node_package node) in
  if package_version (node_package other) <>s package_version (node_package node)
  then inl (ResolutionError ("single-version-v1 conflict for package '" +:+ name +:+ "': versions '"
              +:+ package_version (node_package other) +:+ "' and '"
              +:+ package_version (node_package node) +:+ "'"))
  else if source_fingerprint other <>s source_fingerprint node
  then inl (ResolutionError ("single-version-v1 source conflict for package '" +:+ name +:+ "'"))
  else inr tt.

(** The two checks on a dependency that was resolved. *)
Definition check_dependency (node dependency_node : Node) (dependency : Dependency) : exn + unit :=
  let found := package_name (node_package dependency_node) in
  if match dependency_package dependency with Some name => name <>s found | None => false end
  then inl (ResolutionError ("dependency '" +:+ alias dependency +:+ "' expected package '"
              +:+ default EmptyString (dependency_package dependency) +:+ "' but found '"
              +:+ found +:+ "'"))
  else if source_fingerprint dependency_node =s source_fingerprint node
  then inl (ResolutionError ("package '" +:+ package_name (node_package node)
                             +:+ "' cannot depend on itself"))
  else inr tt.

(** The loop over the dependencies of a node; their ids and aliases. *)
Fixpoint resolve_dependencies (resolve : string -> SourceOrigin -> ResolveM nat) (index : nat)
    (node : Node) (l : list Dependency) : ResolveM (list (string * string)) :=
  match l with
  | [] => m_ret []
  | dependency :: l =>
      parent <- node_at_index index ;;
      selected <- on_world (select_dependency parent dependency) ;;
      dependency_index <- resolve (selected_manifest selected) (selected_origin selected) ;;
      dependency_node <- node_at_index dependency_index ;;
      pure (check_dependency node dependency_node dependency) ;;;
      rest <- resolve_dependencies resolve index node l ;;
      m_ret ((alias dependency, node_id dependency_node) :: rest)
  end.

(** [nodes_.push_back(node)] and the two maps. *)
Definition add_node (node : Node) (s : ResolverState) : ResolverState :=
  let index := List.length (nodes_ s) in
  mkResolverState (resolver_world s) (nodes_ s ++ [node])
    (<[source_fingerprint node := index]> (node_by_source_fingerprint_ s))
    (<[package_name (node_package node) := index]> (node_by_package_name_ s)).

Definition set_dependencies (found : list (string * string)) (node : Node) : Node :=
  mkNode (node_manifest_path node) (package_dir node) (node_package node) (node_origin node)
    (source_fingerprint node) (node_id node) (sorted_unique (map snd found)) (sort_by fst found).

Fixpoint ResolveNode (fuel : nat) (manifest_path : string) (origin : SourceOrigin) : ResolveM nat :=
  match fuel with
  | O => throw None
  | S fuel =>
      path <- pure (CanonicalAbsolutePath manifest_path) ;;
      let package_dir := parent_path path in
      fingerprint <- pure (BuildSourceFingerprint origin package_dir) ;;
      existing <- gets (fun s => node_by_source_fingerprint_ s !! fingerprint) ;;
      match existing with
      | Some index => m_ret index
      | None =>
          manifest <- reads_files (load_manifest_at path) ;;
          package <- pure (require_package manifest origin path) ;;
          id <- pure (BuildLockId origin package) ;;
          let node := mkNode path package_dir package origin fingerprint id [] [] in
          existing <- gets (fun s => node_by_package_name_ s !! package_name package) ;;
          match existing with
          | Some index =>
              other <- node_at_index index ;;
              pure (same_package other node) ;;;
              m_ret index
          | None =>
              index <- gets (fun s => List.length (nodes_ s)) ;;
              modify (add_node node) ;;;
              found <- resolve_dependencies (ResolveNode fuel) index node (CollectDependencies package) ;;
              modify (fun s => set_nodes (alter (set_dependencies found) index (nodes_ s)) s) ;;;
              m_ret index
          end
      end
  end.

(** [ResolveGraph]'s loop over the seeds. *)
Definition resolve_seed (fuel : nat) (seed : ManifestSelection) : ResolveM string :=
  index <- ResolveNode fuel (selected_manifest seed) (selected_origin seed) ;;
  node <- node_at_index index ;;
  m_ret (node_id node).

Definition resolved_package (node : Node) : ResolvedPackage :=
  let origin := node_origin node in
  mkResolved (node_manifest_path node) (package_dir node) (node_package node) (node_id node)
    (SourceKindString (origin_kind origin)) (git_source origin) (git_rev origin)
    (registry_root origin) (registry_sha256 origin) (origin_repo_hash origin)
    (origin_snapshot_root origin) (node_dependencies node) (node_aliases node).
Definition lock_package (p : ResolvedPackage) : LockPackage :=
  mkLockPackage (package_id p) (package_name (package p)) (package_version (package p))
    (source_kind p) (resolved_git p) (resolved_rev p) (resolved_registry p) (resolved_sha256 p)
    (dependencies p).

Definition ResolveGraph (version : string) (fuel : nat) : ResolveM ResolvedGraphResult :=
  ids <- traverse_m (resolve_seed fuel) (root_seeds_ setup) ;;
  nodes <- gets nodes_ ;;
  let packages := sort_by package_id (map resolved_package nodes) in
  m_ret (mkGraph root_manifest_path (path_join (parent_path root_manifest_path) "spio.lock")
           (sorted_unique ids) packages
           (mkLockfile ("spio " +:+ version) "single-version-v1" (map lock_package packages))).

Definition Resolve (version : string) (fuel : nat) : ResolveM LockGenerationResult :=
  graph <- ResolveGraph version fuel ;;
  m_ret (mkLockResult (graph_manifest_path graph) (graph_lockfile_path graph) (root_ids graph)
           (graph_lockfile graph)).
End Resolution.

(** The two entry points. *)
Section EntryPoints.
Context `{JsonLib} `{FileHost} `{ProgramHost} `{TomlLib} (version : string) (fuel : nat).

Definition initial_state (w : ClientWorld) : ResolverState := mkResolverState w [] ∅ ∅.
Definition run_resolver {A} (m : ResolverSetup -> ResolveM A) (manifest_path : string)
    (options : ResolveOptions) (w : ClientWorld) : (option exn + A) * ClientWorld :=
  match new_resolver manifest_path options (world_files w) with
  | inl e => (inl (Some e), w)
  | inr setup => let '(r, s) := m setup (initial_state w) in (r, resolver_world s)
  end.
Definition ResolveSingleVersionGraph (manifest_path : string) (options : ResolveOptions)
  : ClientWorld -> (option exn + ResolvedGraphResult) * ClientWorld :=
  run_resolver (fun setup => ResolveGraph setup version fuel) manifest_path options.
Definition ResolveSingleVersionLockfile (manifest_path : string) (options : ResolveOptions)
  : ClientWorld -> (option exn + LockGenerationResult) * ClientWorld :=
  run_resolver (fun setup => Resolve setup version fuel) manifest_path options.
End EntryPoints.
