(* ===== verification/RegistryIdentifiers.v ===== *)
(** Package names, index paths, versions and publish-token scopes
    ([PlatformCloud/PackageRegistry/ControlPlane/RegistryIdentifiers.hpp]). *)
From stdpp Require Import base list gmap strings sorting.
From Stdlib Require Import ZArith Lia Ascii String.
From S2P Require Import Prelude Json StateRecords Identity Http Config RouterSupport.
From S2P Require Import Sha256 ObjectStore Paths.

Definition path_char (ch : ascii) : bool :=
  is_alnum ch || Ascii.eqb ch "-" || Ascii.eqb ch "_" || Ascii.eqb ch ".".

Definition SanitizePathSegment (value : string) : string :=
  let out := str_map (fun ch => if path_char ch then ch else "_"%char) value in
  if is_empty out || (out =s ".") || (out =s "..") then "_" else out.

Definition SplitPackageName (package : string) : list string :=
  map SanitizePathSegment (List.filter (fun item => negb (is_empty item)) (getline_all "/" package)).

(** [JoinPathParts(parts, begin, end)] on the parts from [begin] to [end]. *)
Definition JoinPathParts (parts : list string) (first last : nat) : string :=
  String.concat "/" (take (last - first) (drop first parts)).

Definition ValidatePackageName (package : string) : option string :=
  match find_char "/" (chars package), rfind_char "/" (chars package) with
  | Some slash, Some last_slash =>
      if negb (Nat.eqb slash last_slash) then Some "package must use namespace/name form"
      else if negb (IsSafeLowercaseIdentifier (str_take slash package))
              || negb (IsSafeLowercaseIdentifier (str_drop (S slash) package))
      then Some "package must use lowercase namespace/name segments"
      else None
  | _, _ => Some "package must use namespace/name form"
  end%string.

(** [FileUrlForPath]; [None] where [fs::absolute] throws. *)
Definition FileUrlForPath (v : FileView) (path : string) : option string :=
  (fun p => "file://" +:+ lexically_normal p) <$> absolute v path.

Definition strip_trailing_slashes (value : string) : string :=
  of_chars (drop_while_end is_slash (chars value)).

Definition RegistryReadRootUrl (v : FileView) (config : PlatformConfig) : option string :=
  if negb (is_empty (read_root_url (registry config))) then Some (read_root_url (registry config))
  else
    let store := object_store config in
    if bool_decide (ParseObjectStoreProvider (provider store) = S3)
       && negb (is_empty (endpoint store)) && negb (is_empty (bucket store)) && path_style store
    then
      let root := strip_trailing_slashes (endpoint store) +:+ "/" +:+ bucket store in
      let prefix := strip_trailing_slashes (strip_leading_slashes (prefix store)) in
      Some (if is_empty prefix then root else root +:+ "/" +:+ prefix)
    else FileUrlForPath v (registry_root (registry config)).

Definition RegistryControlPlaneBaseUrl (config : PlatformConfig) : string :=
  if negb (is_empty (control_plane_base_url (registry config)))
  then control_plane_base_url (registry config)
  else "/api/spio-registry-control/v1".

(** [parts.size() - 1] and [parts.back()] need a part. *)
Definition RegistryIndexPathForPackage (package : string) : exn + string :=
  let parts := SplitPackageName package in
  match last parts with
  | None => inl UndefinedBehaviour
  | Some name =>
      inr ("index/" +:+ JoinPathParts parts 0 (List.length parts - 1) +:+ "/" +:+ name +:+ ".jsonl")
  end.

Definition RegistryReleaseKey (package version : string) : string := package +:+ "@" +:+ version.
Definition RegistryPackageId (package : string) : string := package.

Definition RegistryPackageFromRoute (m : RouteMatch) : exn + string :=
  namespace <-? parameter m "namespace" ;;
  name <-? parameter m "name" ;;
  inr (namespace +:+ "/" +:+ name).

Definition RegistryActorId `{Host} (request : HttpRequest) : string :=
  match req_identity request with
  | Some identity => node_id identity
  | None =>
      match RegistryTokenFromHeaders (req_headers request) with
      | Some token => "token:" +:+ str_take 12 (Sha256Bytes token)
      | None => "anonymous"
      end
  end.

(** The loop over [body.at(field)]: the elements of an array, the values of an
    object, nothing for [null], the value itself otherwise. *)
Definition json_elements (j : json) : list json :=
  match j with
  | JArray l => l
  | JObject m => (items m).*2
  | JNull => []
  | _ => [j]
  end.
Definition JsonStringArray (body : json) (field : string) (fallback : list string)
  : exn + list string :=
  match j_lookup body field with
  | None => inr fallback
  | Some value => get_string_list (json_elements value)
  end.

Definition PackagePatternMatches (pattern package : string) : bool :=
  if pattern =s "*" then true
  else if str_ends_with pattern "/*"
  then str_starts_with package (str_take (str_length pattern - 1) pattern)
  else pattern =s package.

Definition TokenHasScope (token : RegistryPublishTokenRecord) (scope : string) : bool :=
  string_in scope (tok_scopes token).
Definition TokenMatchesPackage (token : RegistryPublishTokenRecord) (package : string) : bool :=
  if is_empty package then true
  else existsb (fun pattern => PackagePatternMatches pattern package) (tok_package_patterns token).

(** The lambda [parse] of [VersionLess]: the loop reads up to three pieces; it
    ends early where [std::stoi] throws, and [exhausted] tells whether the
    stream is still good once a further piece was tried. *)
Record version_numbers := mkVersion { major : Z; minor : Z; patch : Z; version_suffix : string }.

Fixpoint version_pieces (count : nat) (pieces : list string) : list Z * bool :=
  match count, pieces with
  | S count, piece :: pieces =>
      match stoi piece with
      | Some n => let '(numbers, complete) := version_pieces count pieces in
                  (n :: numbers, complete)
      | None => ([], false)
      end
  | _, _ => ([], true)
  end.

(** After three numbers one more piece is read: the stream stays good exactly
    when that piece is followed by a separator. *)
Definition stream_good (version : string) : bool :=
  (4 <? List.length (split_all "." [] (chars version)))%nat.

Definition parse_version (version : string) : version_numbers :=
  let '(numbers, complete) := version_pieces 3 (getline_all "." version) in
  let suffix := if negb complete || negb (Nat.eqb (List.length numbers) 3) || stream_good version
                then version else EmptyString in
  mkVersion (nth 0 numbers 0) (nth 1 numbers 0) (nth 2 numbers 0) suffix.

(** [operator<] on the tuples. *)
Definition version_ltb (a b : version_numbers) : bool :=
  (major a <? major b)
  || ((major a =? major b)
      && ((minor a <? minor b)
          || ((minor a =? minor b)
              && ((patch a <? patch b)
                  || ((patch a =? patch b) && str_ltb (version_suffix a) (version_suffix b)))))).
Definition VersionLess (left right : string) : bool :=
  version_ltb (parse_version left) (parse_version right).

(** Plain release versions: three decimal numbers. *)
Definition dotted (a b c : Z) : string := decimal a +:+ "." +:+ decimal b +:+ "." +:+ decimal c.

Example version_suffix_is_dropped :
  parse_version "1.2.3" = mkVersion 1 2 3 ""
  /\ parse_version "1.2.3-alpha" = mkVersion 1 2 3 ""
  /\ parse_version "1.2.3.4" = mkVersion 1 2 3 ""
  /\ parse_version "1.2" = mkVersion 1 2 0 "1.2"
  /\ parse_version "1.x.3" = mkVersion 1 0 0 "1.x.3".
Proof. vm_compute. done. Qed.

(** Lexicographic order on three numbers. *)
Definition numbers_ltb (a b c d e f : Z) : bool :=
  (a <? d) || ((a =? d) && ((b <? e) || ((b =? e) && (c <? f)))).

(** A package name of the form the registry accepts. *)
Definition package_name_of (namespace name : string) : string := namespace +:+ "/" +:+ name.

(** * Lemmas *)

Lemma str_ltb_spec a b : str_ltb a b = true <-> String.compare a b = Lt.
Proof. unfold str_ltb, String.ltb. by destruct (String.compare a b). Qed.

Lemma str_ltb_irrefl a : str_ltb a a = false.
Proof. unfold str_ltb, String.ltb. by rewrite str_compare_refl. Qed.

Lemma str_ltb_trans a b c : str_ltb a b = true -> str_ltb b c = true -> str_ltb a c = true.
Proof. rewrite !str_ltb_spec. apply str_lt_trans. Qed.

Lemma str_ltb_total a b : str_ltb a b = false -> str_ltb b a = false -> a = b.
Proof.
  unfold str_ltb, String.ltb. rewrite (String.compare_antisym b a).
  destruct (String.compare a b) eqn:E; try done. intros _ _. by apply String.compare_eq_iff.
Qed.

Definition version_lt (a b : version_numbers) : Prop :=
  major a < major b
  \/ major a = major b
     /\ (minor a < minor b
         \/ minor a = minor b
            /\ (patch a < patch b
                \/ patch a = patch b /\ str_ltb (version_suffix a) (version_suffix b) = true)).

Lemma version_ltb_spec a b : version_ltb a b = true <-> version_lt a b.
Proof.
  unfold version_ltb, version_lt.
  by rewrite !orb_true_iff, !andb_true_iff, !orb_true_iff, !andb_true_iff, !orb_true_iff,
    !andb_true_iff, !Z.ltb_lt, !Z.eqb_eq.
Qed.

Lemma version_lt_irrefl a : ~ version_lt a a.
Proof. unfold version_lt. rewrite str_ltb_irrefl. intuition (try lia; try done). Qed.

Lemma version_lt_trans a b c : version_lt a b -> version_lt b c -> version_lt a c.
Proof.
  unfold version_lt.
  intros [H1|(E1&[H1|(F1&[H1|(G1&H1)])])] [H2|(E2&[H2|(F2&[H2|(G2&H2)])])]; try lia.
  right. split; [lia|]. right. split; [lia|]. right. split; [lia|]. by eapply str_ltb_trans.
Qed.

Lemma version_lt_total a b : ~ version_lt a b -> ~ version_lt b a -> a = b.
Proof.
  destruct a as [a1 a2 a3 s], b as [b1 b2 b3 t]. unfold version_lt. cbn. intros H1 H2.
  assert (a1 = b1) by lia. subst. assert (a2 = b2) by lia. subst. assert (a3 = b3) by lia. subst.
  f_equal. apply str_ltb_total; apply not_true_iff_false; intuition.
Qed.

Lemma take_digits_value l acc :
  forallb is_digit l = true -> 0 <= acc ->
  take_digits acc l = Z.of_N (decimal_value (Z.to_N acc) l).
Proof.
  unfold decimal_value. revert acc.
  induction l as [|c l IH]; intros acc; cbn [take_digits forallb fold_left].
  - intros _ H. lia.
  - intros [Hc Hl]%andb_true_iff Hacc. rewrite Hc.
    unfold is_digit in Hc. apply andb_true_iff in Hc as [H1%Z.leb_le H2%Z.leb_le].
    unfold char_code in *. rewrite IH by (done || lia).
    assert (Z.to_N (acc * 10 + (Z.of_N (N_of_ascii c) - 48))
            = (Z.to_N acc * 10 + (N_of_ascii c - 48))%N) as -> by lia. done.
Qed.

Lemma digit_not_space c : is_digit c = true ->
  is_space c = false /\ Ascii.eqb c "-" = false /\ Ascii.eqb c "+" = false /\ Ascii.eqb c "." = false.
Proof.
  intros H. split_and!.
  - unfold is_digit, is_space in *. apply andb_true_iff in H as [H1%Z.leb_le H2%Z.leb_le].
    apply orb_false_iff. split; [apply Z.eqb_neq; lia|].
    apply andb_false_iff. right. apply Z.leb_gt. lia.
  - apply Ascii.eqb_neq. by intros ->.
  - apply Ascii.eqb_neq. by intros ->.
  - apply Ascii.eqb_neq. by intros ->.
Qed.

Lemma stoi_decimal z : 0 <= z < 2 ^ 31 -> stoi (decimal z) = Some z.
Proof.
  intros Hz. destruct (decimal_digits z ltac:(lia)) as [Hd Hne]. unfold stoi.
  pose proof (decimal_value_pretty z ltac:(lia)) as Hv.
  destruct (chars (decimal z)) as [|c l] eqn:E.
  { destruct Hne. by apply chars_inj. }
  pose proof Hd as Hall. cbn in Hd. apply andb_true_iff in Hd as [Hc _].
  destruct (digit_not_space c Hc) as (Hs & Hm & Hp & _).
  cbn [drop_while]. rewrite Hs, Hm, Hp. cbv iota beta. rewrite Hc, take_digits_value by done.
  change (Z.to_N 0) with 0%N. rewrite Hv.
  assert ((- 2 ^ 31 <=? 1 * Z.of_N (Z.to_N z)) && (1 * Z.of_N (Z.to_N z) <? 2 ^ 31) = true) as ->.
  { apply andb_true_iff. split; [apply Z.leb_le|apply Z.ltb_lt]; lia. }
  f_equal. lia.
Qed.

Lemma decimal_no_dot z :
  0 <= z -> forallb (fun c => negb (Ascii.eqb c ".")) (chars (decimal z)) = true.
Proof.
  intros Hz. destruct (decimal_digits z Hz) as [Hd _]. apply forallb_forall. intros c Hc.
  rewrite forallb_forall in Hd. apply Hd, digit_not_space in Hc as (_ & _ & _ & ->). done.
Qed.

Lemma chars_dotted a b c :
  chars (dotted a b c)
  = chars (decimal a) ++ "."%char :: chars (decimal b) ++ "."%char :: chars (decimal c).
Proof. unfold dotted. rewrite !chars_app. done. Qed.

Lemma parse_dotted a b c :
  0 <= a < 2 ^ 31 -> 0 <= b < 2 ^ 31 -> 0 <= c < 2 ^ 31 ->
  parse_version (dotted a b c) = mkVersion a b c "".
Proof.
  intros Ha Hb Hc. unfold parse_version, getline_all, stream_good. rewrite chars_dotted.
  rewrite !getline_join, getline_single by
    (try (intros H; apply app_eq_nil in H as [_ H]; apply (decimal_digits c ltac:(lia));
          by apply chars_inj); apply decimal_no_dot; lia).
  rewrite !split_all_join, split_all_single by (apply decimal_no_dot; lia).
  cbn [rev app]. rewrite !of_chars_chars. cbn [version_pieces].
  rewrite !stoi_decimal by done. reflexivity.
Qed.

(** ** Package names *)

Lemma safe_identifier_chars s :
  IsSafeLowercaseIdentifier s = true ->
  s <> EmptyString /\ forallb path_char (chars s) = true
  /\ forallb (fun c => negb (Ascii.eqb c "/")) (chars s) = true
  /\ str_contains_char s "." = false.
Proof.
  unfold IsSafeLowercaseIdentifier. intros H. split; [by intros ->|].
  destruct (chars s) as [|c l] eqn:E; [done|]. apply andb_true_iff in H as [_ H].
  assert (Hc : forall d, In d (c :: l) ->
            path_char d = true /\ Ascii.eqb d "/" = false /\ Ascii.eqb "." d = false).
  { intros d Hd. rewrite forallb_forall in H. specialize (H d Hd). split_and!.
    - unfold path_char, is_alnum. destruct (is_lower d), (is_digit d), (Ascii.eqb d "-"),
        (Ascii.eqb d "_"); try discriminate H; rewrite ?orb_true_r; done.
    - apply Ascii.eqb_neq. intros ->. by vm_compute in H.
    - apply Ascii.eqb_neq. intros <-. by vm_compute in H. }
  unfold str_contains_char, char_in. rewrite E. split_and!.
  - apply forallb_forall. intros d Hd. by apply Hc.
  - apply forallb_forall. intros d Hd. destruct (Hc d Hd) as (_ & -> & _). done.
  - rewrite existsb_forallb. apply negb_false_iff, forallb_forall. intros d Hd.
    destruct (Hc d Hd) as (_ & _ & ->). done.
Qed.

Lemma package_name_chars namespace name :
  chars (package_name_of namespace name) = chars namespace ++ "/"%char :: chars name.
Proof. unfold package_name_of. rewrite !chars_app. done. Qed.

Lemma ValidatePackageName_iff package :
  ValidatePackageName package = None
  <-> exists namespace name, package = package_name_of namespace name
        /\ IsSafeLowercaseIdentifier namespace = true /\ IsSafeLowercaseIdentifier name = true.
Proof.
  unfold ValidatePackageName. split.
  - destruct (find_char "/" (chars package)) as [i|] eqn:Ef; [|done].
    destruct (rfind_char "/" (chars package)) as [j|] eqn:Er; [|done].
    destruct (Nat.eqb_spec i j) as [<-|]; [|done]. cbn [negb].
    destruct (find_rfind_once _ _ _ Ef Er) as (a & b & Hl & -> & _ & _).
    unfold str_take, str_drop. rewrite Hl, take_app_length.
    replace (drop (S (List.length a)) (a ++ "/"%char :: b)) with b
      by (rewrite <- Nat.add_1_r, <- drop_drop, drop_app_length; done).
    destruct (IsSafeLowercaseIdentifier (of_chars a)) eqn:Ha,
      (IsSafeLowercaseIdentifier (of_chars b)) eqn:Hb; try done.
    intros _. exists (of_chars a), (of_chars b). split_and!; [|done|done].
    apply chars_inj. by rewrite package_name_chars, !chars_of_chars.
  - intros (ns & name & -> & Hns & Hname).
    destruct (safe_identifier_chars ns Hns) as (_ & _ & Hs1 & _).
    destruct (safe_identifier_chars name Hname) as (_ & _ & Hs2 & _).
    unfold str_take, str_drop. rewrite package_name_chars.
    rewrite find_char_at, rfind_char_at, Nat.eqb_refl by done. cbn [negb].
    rewrite take_app_length, of_chars_chars.
    replace (drop (S (List.length (chars ns))) (chars ns ++ "/"%char :: chars name)) with (chars name)
      by (rewrite <- Nat.add_1_r, <- drop_drop, drop_app_length; done).
    by rewrite of_chars_chars, Hns, Hname.
Qed.

Lemma SanitizePathSegment_safe s : IsSafeLowercaseIdentifier s = true -> SanitizePathSegment s = s.
Proof.
  intros H. destruct (safe_identifier_chars s H) as (Hne & Hc & _ & Hdot).
  unfold SanitizePathSegment, str_map.
  assert (map (fun ch => if path_char ch then ch else "_"%char) (chars s) = chars s) as ->.
  { clear Hne Hdot H. induction (chars s) as [|c l IH]; [done|]. cbn in Hc |- *.
    apply andb_true_iff in Hc as [-> Hl]. by rewrite IH. }
  rewrite of_chars_chars. apply is_empty_false in Hne as ->. cbn [orb].
  destruct (String.eqb_spec s ".") as [->|]; [done|].
  destruct (String.eqb_spec s "..") as [->|]; [done|]. done.
Qed.

Lemma index_path_valid namespace name :
  IsSafeLowercaseIdentifier namespace = true -> IsSafeLowercaseIdentifier name = true ->
  RegistryIndexPathForPackage (package_name_of namespace name)
  = inr ("index/" +:+ namespace +:+ "/" +:+ name +:+ ".jsonl").
Proof.
  intros Hns Hname.
  destruct (safe_identifier_chars namespace Hns) as (Hne1 & _ & Hs1 & _).
  destruct (safe_identifier_chars name Hname) as (Hne2 & _ & Hs2 & _).
  unfold RegistryIndexPathForPackage, SplitPackageName, getline_all. rewrite package_name_chars.
  rewrite getline_join, getline_single by
    (done || by (cbn; intros Hc; apply Hne2, chars_inj)).
  cbn [rev app]. rewrite !of_chars_chars. cbn [List.filter].
  apply is_empty_false in Hne1 as ->. apply is_empty_false in Hne2 as ->. cbn [negb map].
  by rewrite !SanitizePathSegment_safe by done.
Qed.

Lemma safe_identifier_no_slash s :
  IsSafeLowercaseIdentifier s = true -> char_in "/" (chars s) = false.
Proof.
  intros H. destruct (safe_identifier_chars s H) as (_ & _ & Hs & _). unfold char_in.
  rewrite existsb_forallb. apply negb_false_iff, forallb_forall. intros c Hc.
  rewrite forallb_forall in Hs. rewrite Ascii.eqb_sym. by apply Hs.
Qed.

(** What splits a valid name at a separator. *)
Lemma package_name_split namespace name x y :
  IsSafeLowercaseIdentifier namespace = true -> IsSafeLowercaseIdentifier name = true ->
  package_name_of namespace name = x +:+ "/" +:+ y -> x = namespace /\ y = name.
Proof.
  intros Hns Hname H. apply (f_equal chars) in H. rewrite package_name_chars, !chars_app in H.
  destruct (split_once "/" (chars namespace) (chars name) (chars x) (chars y)) as [E1 E2];
    [by apply safe_identifier_no_slash|by apply safe_identifier_no_slash|exact H|].
  split; by apply chars_inj.
Qed.

(** A pattern grants a valid package in three ways only. *)
Lemma pattern_matches_iff pattern namespace name :
  IsSafeLowercaseIdentifier namespace = true -> IsSafeLowercaseIdentifier name = true ->
  PackagePatternMatches pattern (package_name_of namespace name) = true
  <-> pattern = "*"%string \/ pattern = (namespace +:+ "/*")%string
      \/ pattern = package_name_of namespace name.
Proof.
  intros Hns Hname. unfold PackagePatternMatches.
  destruct (String.eqb_spec pattern "*") as [->|Hstar]; [tauto|].
  destruct (str_ends_with pattern "/*") eqn:E.
  - apply str_ends_with_iff in E as [x ->].
    assert (str_take (str_length (x +:+ "/*") - 1) (x +:+ "/*") = x +:+ "/") as ->.
    { apply chars_inj. unfold str_take. rewrite chars_of_chars, str_length_chars, !chars_app.
      change (chars "/*") with (["/"; "*"]%char). change (chars "/") with (["/"]%char).
      rewrite length_app. cbn [List.length].
      replace (List.length (chars x) + 2 - 1)%nat with (List.length (chars x) + 1)%nat by lia.
      by rewrite take_app_add. }
    rewrite str_starts_with_iff. split.
    + intros [rest H]. right. left. rewrite str_app_assoc in H.
      by apply package_name_split in H as [-> _].
    + intros [?|[H|H]]; [done| |].
      * apply (f_equal chars) in H. rewrite !chars_app in H. apply app_inv_tail in H.
        apply chars_inj in H as ->. exists name. by rewrite str_app_assoc.
      * symmetry in H. change "/*"%string with ("/" +:+ "*")%string in H.
        apply package_name_split in H as [_ <-]; [|done|done]. by vm_compute in Hname.
  - rewrite str_eqb_iff. split; [by auto|]. intros [?|[->|?]]; [done| |done].
    exfalso. apply not_true_iff_false in E. apply E, str_ends_with_iff. by exists namespace.
Qed.

Lemma valid_parts namespace name :
  ValidatePackageName (package_name_of namespace name) = None ->
  IsSafeLowercaseIdentifier namespace = true /\ IsSafeLowercaseIdentifier name = true.
Proof.
  intros (ns & n & H & Hns & Hn)%ValidatePackageName_iff.
  symmetry in H. apply package_name_split in H as [-> ->]; done.
Qed.

Lemma index_path_inj ns1 n1 ns2 n2 :
  IsSafeLowercaseIdentifier ns1 = true -> IsSafeLowercaseIdentifier n1 = true ->
  IsSafeLowercaseIdentifier ns2 = true -> IsSafeLowercaseIdentifier n2 = true ->
  ("index/" +:+ ns1 +:+ "/" +:+ n1 +:+ ".jsonl")%string
  = ("index/" +:+ ns2 +:+ "/" +:+ n2 +:+ ".jsonl")%string -> ns1 = ns2 /\ n1 = n2.
Proof.
  intros H1 H2 H3 H4 H. apply str_app_inv_head in H.
  apply (f_equal chars) in H. rewrite !chars_app in H.
  destruct (split_once "/" (chars ns1) (chars n1 ++ chars ".jsonl") (chars ns2)
              (chars n2 ++ chars ".jsonl")) as [E1 E2]; [by apply safe_identifier_no_slash| |exact H|].
  - unfold char_in. rewrite existsb_app.
    pose proof (safe_identifier_no_slash n1 H2) as Hn. unfold char_in in Hn. by rewrite Hn.
  - apply app_inv_tail in E2. split; by apply chars_inj.
Qed.

(** * Properties *)

(** Versions are compared by a strict weak order, as [std::sort] needs: the
    comparison is irreflexive and transitive, and two versions are equivalent
    exactly when they parse to the same numbers and suffix.  On plain versions
    of three [int]s it is the order of the numbers, not of the texts. *)
Theorem versions_are_ordered :
  (forall a, VersionLess a a = false)
  /\ (forall a b c, VersionLess a b = true -> VersionLess b c = true -> VersionLess a c = true)
  /\ (forall a b, VersionLess a b = false /\ VersionLess b a = false
                  <-> parse_version a = parse_version b)
  /\ (forall a b c d e f,
        Forall (fun n => 0 <= n < 2 ^ 31) [a; b; c; d; e; f] ->
        VersionLess (dotted a b c) (dotted d e f) = numbers_ltb a b c d e f).
Proof.
  unfold VersionLess. split_and!.
  - intros a. apply not_true_iff_false. rewrite version_ltb_spec. apply version_lt_irrefl.
  - intros a b c. rewrite !version_ltb_spec. apply version_lt_trans.
  - intros a b. rewrite <- !not_true_iff_false, !version_ltb_spec. split.
    + intros [H1 H2]. by apply version_lt_total.
    + intros ->. split; apply version_lt_irrefl.
  - intros a b c d e f H.
    repeat match goal with H : Forall _ (_ :: _) |- _ => apply Forall_cons in H as [? ?] end.
    rewrite !parse_dotted by done. unfold version_ltb, numbers_ltb. cbn.
    by rewrite andb_false_r, orb_false_r.
Qed.

(** The package names the registry accepts are the lower-case
    "namespace/name" pairs; each has its index file "index/namespace/name.jsonl"
    inside the index directory, no two of them the same; and a publish-token
    pattern covers such a package only as "*", as its namespace followed by
    "/*", or as the package itself. *)
Theorem package_names_index_and_scope :
  (forall package, ValidatePackageName package = None
     <-> exists namespace name, package = package_name_of namespace name
           /\ IsSafeLowercaseIdentifier namespace = true /\ IsSafeLowercaseIdentifier name = true)
  /\ (forall namespace name,
        ValidatePackageName (package_name_of namespace name) = None ->
        RegistryIndexPathForPackage (package_name_of namespace name)
        = inr ("index/" +:+ namespace +:+ "/" +:+ name +:+ ".jsonl"))
  /\ (forall p q, ValidatePackageName p = None -> ValidatePackageName q = None ->
        RegistryIndexPathForPackage p = RegistryIndexPathForPackage q -> p = q)
  /\ (forall pattern namespace name,
        ValidatePackageName (package_name_of namespace name) = None ->
        PackagePatternMatches pattern (package_name_of namespace name) = true
        <-> pattern = "*"%string \/ pattern = (namespace +:+ "/*")%string
            \/ pattern = package_name_of namespace name).
Proof.
  split_and!.
  - intros package. apply ValidatePackageName_iff.
  - intros namespace name [Hns Hn]%valid_parts. by apply index_path_valid.
  - intros p q (ns1 & n1 & -> & H1 & H2)%ValidatePackageName_iff
      (ns2 & n2 & -> & H3 & H4)%ValidatePackageName_iff.
    rewrite !index_path_valid by done. intros H%(inj inr).
    destruct (index_path_inj ns1 n1 ns2 n2) as [-> ->]; done.
  - intros pattern namespace name [Hns Hn]%valid_parts. by apply pattern_matches_iff.
Qed.
