(* ===== verification/RegistryIndexStore.v ===== *)
(** The files of the static registry: package index files, canonical JSON,
    directory digests and the read plane
    ([PlatformCloud/PackageRegistry/ControlPlane/RegistryIndexStore.hpp]). *)
From stdpp Require Import base list gmap strings sorting.
From Stdlib Require Import ZArith Lia Ascii String.
From S2P Require Import Prelude Json StateRecords Config Http Paths FileSystem RouterSupport.
From S2P Require Import RegistryIdentifiers.

Definition newline_char : ascii := "010".

(** [while (std::getline(in, line))]. *)
Definition text_lines (contents : string) : list string := getline_all newline_char contents.

(** [nlohmann::json::parse(text)]. *)
Definition parse_json `{JsonLib} (text : string) : exn + json :=
  match json_parse text with Some j => inr j | None => inl (JsonParseError text) end.

(** [record.value(key, "")], [record.at(k1).at(k2).get<std::string>()]. *)
Definition at_string (j : json) (key : string) : exn + string :=
  v <-? j_at j key ;; get_string v.
Definition at_at_string (j : json) (key1 key2 : string) : exn + string :=
  v <-? j_at j key1 ;; at_string v key2.

Definition CanonicalJson `{JsonLib} (payload : json) : exn + string := json_dump payload.
Definition JsonText `{JsonLib} (payload : json) : exn + string :=
  text <-? json_dump_indented payload ;; inr (text +:+ newline_text).

(** An exception of the standard library is caught, the rest goes on. *)
Definition or_else {A} (r : exn + A) (d : A) : exn + A :=
  match r with
  | inl UndefinedBehaviour => inl UndefinedBehaviour
  | inl _ => inr d
  | inr a => inr a
  end.

Definition JsonLineHasRelease `{JsonLib} (line package version : string) : exn + bool :=
  or_else (entry <-? parse_json line ;;
           p <-? value_string entry "package" "" ;;
           if p =s package
           then v <-? value_string entry "version" "" ;; inr (v =s version)
           else inr false) false.

Fixpoint has_release `{JsonLib} (lines : list string) (package version : string) : exn + bool :=
  match lines with
  | [] => inr false
  | line :: lines =>
      found <-? JsonLineHasRelease line package version ;;
      if found then inr true else has_release lines package version
  end.

Section RegistryIndexStore.
Context `{JsonLib} `{Host}.

Definition index_file (registry_root package : string) : exn + string :=
  index_path <-? RegistryIndexPathForPackage package ;; inr (path_join registry_root index_path).

Definition ReleaseExistsOnDisk (registry_root package version : string) (t : FileTree)
  : exn + bool :=
  index_path <-? index_file registry_root package ;;
  match open_in t index_path with
  | None => inr false
  | Some contents => has_release (text_lines contents) package version
  end.

(** The records of the non-empty lines. *)
Definition index_records (contents : string) : exn + list json :=
  traverse parse_json (List.filter (fun line => negb (is_empty line)) (text_lines contents)).

Definition ReadPackageIndexRecords (registry_root package : string) (t : FileTree)
  : exn + list json :=
  index_path <-? index_file registry_root package ;;
  match open_in t index_path with
  | None => inr []
  | Some contents => index_records contents
  end.

Definition json_lines (records : list json) : exn + string :=
  lines <-? traverse json_dump records ;;
  inr (String.concat "" (map (fun line => line +:+ newline_text) lines)).

(** Lines written before a record that cannot be dumped stay in the file. *)
Fixpoint append_lines (path : string) (records : list json) : M exn FileTree unit :=
  match records with
  | [] => m_ret tt
  | record :: records =>
      line <- lift (json_dump record) ;;
      modify (append_stream path (line +:+ newline_text)) ;;;
      append_lines path records
  end.

Definition WritePackageIndexRecords (registry_root package : string) (records : list json)
  : M exn FileTree unit :=
  index_path <- lift (index_file registry_root package) ;;
  create_directories (parent_path index_path) ;;;
  modify (write_stream index_path EmptyString) ;;;
  append_lines index_path records.

Definition version_le (a b : string) : Prop := VersionLess b a = false.
#[export] Instance version_le_dec a b : Decision (version_le a b) := bool_eq_dec _ _.
(** [std::sort(versions, VersionLess)]. *)
Definition sort_versions (l : list string) : list string := merge_sort version_le l.

Definition release_summary (record : json) : exn + (string * json) :=
  version <-? at_string record "version" ;;
  publisher_id <-? value_string record "publisher_id" "" ;;
  published_at <-? value_string record "published_at" "" ;;
  yanked <-? value_bool record "yanked" false ;;
  sha256 <-? at_at_string record "source_artifact" "sha256" ;;
  path <-? at_at_string record "source_artifact" "path" ;;
  inr (version, obj [("version", JString version); ("publisher_id", JString publisher_id);
                     ("published_at", JString published_at); ("yanked", JBool yanked);
                     ("source_artifact_sha256", JString sha256);
                     ("source_artifact_path", JString path)]).

(** [package.find('/')] is there in the names the callers validated. *)
Definition PackagePayloadFromIndex (registry_root package : string) (t : FileTree)
  : exn + json :=
  records <-? ReadPackageIndexRecords registry_root package t ;;
  match records, find_char "/" (chars package) with
  | [], _ => inl (RuntimeError "package is not found")
  | _, None => inl UndefinedBehaviour
  | _, Some slash =>
      releases <-? traverse release_summary records ;;
      inr (obj [("package_id", JString package);
                ("namespace", JString (str_take slash package));
                ("name", JString (str_drop (S slash) package));
                ("visibility", JString "public");
                ("latest_version",
                 JString (default EmptyString (last (sort_versions releases.*1))));
                ("release_count", JInt (Z.of_nat (List.length records)));
                ("releases", JArray releases.*2)])
  end.

Fixpoint find_version (records : list json) (version : string) : exn + option json :=
  match records with
  | [] => inr None
  | record :: records =>
      v <-? value_string record "version" "" ;;
      if v =s version then inr (Some record) else find_version records version
  end.
Definition PackageReleasePayloadFromIndex (registry_root package version : string) (t : FileTree)
  : exn + option json :=
  records <-? ReadPackageIndexRecords registry_root package t ;; find_version records version.

Definition CountRegularFiles (root : string) (t : FileTree) : nat :=
  if negb (exists_ t root) then 0
  else List.length (List.filter (is_regular_file t) (recursive_directory_iterator t root)).

Definition non_empty_lines (t : FileTree) (p : string) : nat :=
  match open_in t p with
  | Some contents =>
      List.length (List.filter (fun line => negb (is_empty line)) (text_lines contents))
  | None => 0
  end.
Definition CountIndexReleases (index_root : string) (t : FileTree) : nat :=
  if negb (exists_ t index_root) then 0
  else list_sum (map (non_empty_lines t)
         (List.filter (fun p => is_regular_file t p && (extension p =s ".jsonl"))
            (recursive_directory_iterator t index_root))).

Definition CountNamespaces (index_root : string) (t : FileTree) : nat :=
  if negb (exists_ t index_root) then 0
  else List.length (List.filter (is_directory t) (directory_iterator t index_root)).

Definition WriteJsonFileIfMissing (path : string) (payload : json) : M exn FileTree unit :=
  present <- gets (fun t => exists_ t path) ;;
  if present then m_ret tt
  else
    create_directories (parent_path path) ;;;
    modify (write_stream path EmptyString) ;;;
    text <- lift (JsonText payload) ;;
    modify (append_stream path text).

Definition AppendJsonLine (path : string) (payload : json) : M exn FileTree unit :=
  create_directories (parent_path path) ;;;
  modify (append_stream path EmptyString) ;;;
  append_lines path [payload].

Definition ReadFileBytes (path : string) (t : FileTree) : exn + string :=
  match open_in t path with
  | Some contents => inr contents
  | None => inl (RuntimeError ("failed to read file: " +:+ path))
  end.

Definition digest_entry (t : FileTree) (root path : string) : exn + json :=
  sha256 <-? Sha256File t path ;;
  inr (obj [("path", JString (relative t path root)); ("sha256", JString sha256)]).

Definition DirectoryDigest (root : string) (t : FileTree) : exn + string :=
  files <-? (if negb (exists_ t root) then inr []
             else traverse (digest_entry t root)
                    (sort_paths (List.filter (is_regular_file t)
                                   (recursive_directory_iterator t root)))) ;;
  text <-? CanonicalJson (JArray files) ;;
  inr ("sha256:" +:+ Sha256Bytes text).

(** [std::stoul]: like [std::stoi], on 64 bits, a minus sign negating modulo
    [2^64]. *)
Definition stoul (s : string) : option Z :=
  let l := drop_while is_space (chars s) in
  let '(sign, l) := match l with
                    | c :: r => if Ascii.eqb c "-" then (-1, r)
                                else if Ascii.eqb c "+" then (1, r) else (1, l)
                    | [] => (1, l)
                    end in
  match l with
  | c :: _ => if is_digit c
              then let z := take_digits 0 l in
                   if z <? 2 ^ 64 then Some (u64 (sign * z)) else None
              else None
  | [] => None
  end.

Definition publication_sequence (path : string) : Z :=
  if str_starts_with (filename path) "pub-"
  then match stoul (str_drop 4 (filename path)) with Some n => u64 (n + 1) | None => 1 end
  else 1.
Definition NextPublicationSequenceOnDisk (registry_root : string) (t : FileTree) : Z :=
  let publications_root := path_join registry_root "_publications" in
  if negb (exists_ t publications_root) then 1
  else fold_left Z.max
         (map publication_sequence
            (List.filter (is_directory t) (directory_iterator t publications_root))) 1.

(** ** The read plane *)

(** [ec.message()] of a failed call. *)
Definition ec_message (operation path : string) : string :=
  library_what (FilesystemError operation path).

Definition read_plane : list string := ["index"; "artifacts"; "trust"; "log"].

Fixpoint copy_entries (registry_root dest : string) (entries : list string)
  : M exn FileTree unit :=
  match entries with
  | [] => m_ret tt
  | entry :: entries =>
      let source := path_join registry_root entry in
      present <- gets (fun t => exists_ t source) ;;
      (if present then
         copied <- (fun t => let '(ok, t') := copy_recursive source (path_join dest entry) t in
                             (inr ok, t')) ;;
         if negb copied then throw (RuntimeError ("failed to copy registry publication tree: "
                                        +:+ ec_message "copy" source))
         else m_ret tt
       else m_ret tt) ;;;
      copy_entries registry_root dest entries
  end.

(** A call that reports failure through an error code. *)
Definition or_throw (message : string) (f : FileTree -> option FileTree) : M exn FileTree unit :=
  fun t => match f t with
           | Some t' => (inr tt, t')
           | None => (inl (RuntimeError message), t)
           end.

Definition CopyRegistryReadPlaneTo (registry_root dest : string) : M exn FileTree unit :=
  create_directories dest ;;;
  copy_entries registry_root dest read_plane ;;;
  let config := path_join registry_root "config.json" in
  or_throw ("failed to copy registry publication config: " +:+ ec_message "copy_file" config)
    (copy_file true config (path_join dest "config.json")).

Definition MaterializePublicationToRoot (registry_root publication_root : string)
  : M exn FileTree unit :=
  modify (remove (path_join registry_root "config.json")) ;;;
  modify (fun t => fold_left (fun t entry => remove_all (path_join registry_root entry) t)
                     read_plane t) ;;;
  CopyRegistryReadPlaneTo publication_root registry_root.

Definition CurrentDistributionPointer (registry_root distribution_id : string) (t : FileTree)
  : exn + option json :=
  let pointer := path_join (path_join (path_join registry_root "_distributions") distribution_id)
                   "current.json" in
  if negb (exists_ t pointer) then inr None
  else text <-? ReadFileBytes pointer t ;; j <-? parse_json text ;; inr (Some j).

Definition WriteTextFile (path payload : string) : M exn FileTree unit :=
  create_directories (parent_path path) ;;;
  modify (write_stream path payload).
End RegistryIndexStore.
