(* ===== verification/Postgres.v ===== *)
(** The PostgreSQL store ([PlatformStorage/PlatformPersistence/PostgresStore.cpp]):
    connections, statements with parameters, rows read into records, and every
    operation of the class as the statements it sends.  libpq and the server behind it
    are parameters. *)
From stdpp Require Import base list gmap strings.
From Stdlib Require Import ZArith Lia Ascii String.
From S2P Require Import Prelude Json StateRecords MemoryStateStore Config RouterSupport.
From S2P Require Import PostgresSql RegistryIndexStore.

(** A [PGresult] with rows: its column names and its cells, [None] for NULL. *)
Record pg_result := mkPgResult { columns : list string; rows : list (list (option string)) }.

(** libpq: a connection, and a statement run on it, give a value or the error message.
    [server_at] is the server a DSN reaches when a store is made for it. *)
Class LibPq (Server : Type) := {
  HAS_LIBPQ : bool;
  PGconn : Type;
  server_at : string -> Server;
  PQconnectdb : string -> Server -> (string + PGconn) * Server;
  PQexec : PGconn -> string -> Server -> (string + pg_result) * Server;
  PQexecParams : PGconn -> string -> list string -> Server -> (string + pg_result) * Server;
  PQfinish : PGconn -> Server -> Server;
}.

(** [value.c_str()] as libpq reads it: up to the first NUL. *)
Fixpoint c_str (s : string) : string :=
  match s with
  | EmptyString => EmptyString
  | String c s => if Ascii.eqb c "000" then EmptyString else String c (c_str s)
  end.

(** A [PostgresStore], with the server behind its DSN. *)
Record PgStore (Server : Type) := mkPgStore { dsn_ : string; server_ : Server }.
Arguments mkPgStore {Server}.
Arguments dsn_ {Server}.
Arguments server_ {Server}.

Record SqlMigration := mkMigration { migration_id : string; migration_sql : string }.
Definition CloudKernelMigrations : list SqlMigration :=
  [mkMigration "001_cloud_kernel" cloud_kernel;
   mkMigration "002_user_bound_compile_containers" user_bound_compile_containers;
   mkMigration "003_package_registry_repository_model" package_registry_repository_model].

Definition pg_failed (what : string) : exn := PostgresStateStoreError what.

Section Postgres.
Context {Server : Type} `{JsonLib} `{LibPq Server}.

Abbreviation ServerM := (M exn Server).
Abbreviation StoreM := (M exn (PgStore Server)).

(** ** Connections and statements *)

Definition succeeded {A} (call : Server -> (string + A) * Server) (failure : string) : ServerM A :=
  fun s => let '(outcome, s) := call s in
           (match outcome with
            | inl detail => inl (pg_failed (failure +:+ detail))
            | inr a => inr a
            end, s).
Definition Exec (c : PGconn) (sql : string) : ServerM unit :=
  succeeded (PQexec c (c_str sql)) "postgres command failed: " ;;; m_ret tt.
Definition ExecParams (c : PGconn) (sql : string) (params : list string) : ServerM pg_result :=
  succeeded (PQexecParams c (c_str sql) (map c_str params)) "postgres command failed: ".

(** [PgConnection connection(dsn_); ...]: the destructor finishes the connection on
    every way out. *)
Definition connected {A} (body : PGconn -> StoreM A) : StoreM A :=
  fun store =>
    match succeeded (PQconnectdb (c_str (dsn_ store))) "postgres connection failed: " (server_ store) with
    | (inl e, s) => (inl e, mkPgStore (dsn_ store) s)
    | (inr c, s) =>
        let '(r, store) := body c (mkPgStore (dsn_ store) s) in
        (r, mkPgStore (dsn_ store) (PQfinish c (server_ store)))
    end.
Definition on_server {A} (m : ServerM A) : StoreM A :=
  zoom server_ (fun s store => mkPgStore (dsn_ store) s) m.
(** A method in a build with or without libpq. *)
Definition with_driver {A} (m : StoreM A) : StoreM A :=
  if HAS_LIBPQ then m
  else throw (pg_failed "postgres driver is not available; install libpq development headers").
Definition connection {A} (body : PGconn -> ServerM A) : StoreM A :=
  with_driver (connected (fun c => on_server (body c))).

(** [connection.Exec("BEGIN"); try { ... } catch (...) { connection.Exec("ROLLBACK"); throw; }]. *)
Definition in_transaction {A} (c : PGconn) (body : ServerM A) : ServerM A :=
  Exec c "BEGIN" ;;;
  catch body (fun e => Exec c "ROLLBACK" ;;; throw e).

(** ** Results *)

Definition PQntuples (result : pg_result) : nat := List.length (rows result).
Definition no_rows (result : pg_result) : bool := Nat.eqb (PQntuples result) 0.

Fixpoint index_of (name : string) (l : list string) : option nat :=
  match l with
  | [] => None
  | column :: l => if column =s name then Some 0%nat else S <$> index_of name l
  end.
Definition ColumnIndex (result : pg_result) (name : string) : exn + nat :=
  match index_of name (columns result) with
  | Some index => inr index
  | None => inl (pg_failed ("postgres result missing column: " +:+ name))
  end.
(** A row or cell that is not there is NULL. *)
Definition ColumnText (result : pg_result) (row : nat) (name : string) : exn + string :=
  column <-? ColumnIndex result name ;;
  inr (default EmptyString (cells ← rows result !! row; mjoin (cells !! column))).
Definition ColumnJson (result : pg_result) (row : nat) (name : string) : exn + json :=
  text <-? ColumnText result row name ;;
  if is_empty text then inr (JObject ∅) else parse_json text.

(** [nlohmann::json::parse(ColumnText(...))] and [std::stoi(ColumnText(...))]. *)
Definition ColumnParsed (result : pg_result) (row : nat) (name : string) : exn + json :=
  text <-? ColumnText result row name ;; parse_json text.
Definition number_start (text : string) : bool :=
  match drop_while is_space (chars text) with
  | c :: r => is_digit c || ((Ascii.eqb c "-" || Ascii.eqb c "+")
                             && match r with d :: _ => is_digit d | [] => false end)
  | [] => false
  end.
Definition parsed_number (what text : string) (value : option Z) : exn + Z :=
  match value with
  | Some z => inr z
  | None => inl (if number_start text then OutOfRange else InvalidArgument what)
  end.
Definition stoi_text (text : string) : exn + Z := parsed_number "stoi" text (stoi text).
Definition ColumnInt (result : pg_result) (row : nat) (name : string) : exn + Z :=
  text <-? ColumnText result row name ;; stoi_text text.
Definition ColumnBool (result : pg_result) (row : nat) (name : string) : exn + bool :=
  text <-? ColumnText result row name ;; inr ((text =s "true") || (text =s "t")).
Definition ColumnStrings (result : pg_result) (row : nat) (name : string) : exn + list string :=
  value <-? ColumnParsed result row name ;; get_strings value.

(** The loop over the rows. *)
Definition all_rows {A} (load : pg_result -> nat -> exn + A) (result : pg_result) : exn + list A :=
  traverse (load result) (seq 0 (PQntuples result)).
Definition first_row {A} (load : pg_result -> nat -> exn + A) (result : pg_result) : exn + option A :=
  if no_rows result then inr None else record <-? load result 0%nat ;; inr (Some record).

(** ** Rows *)

Definition LoadJobRow (result : pg_result) (row : nat) : exn + PlatformJobRecord :=
  let text := ColumnText result row in
  job_id <-? text "job_id" ;;
  tenant_id <-? text "tenant_id" ;;
  user_id <-? text "user_id" ;;
  workspace_id <-? text "workspace_id" ;;
  action <-? text "action" ;;
  status <-? text "status" ;;
  region <-? text "region" ;;
  worker_pool_key <-? text "worker_pool_key" ;;
  worker_id <-? text "worker_id" ;;
  created_at <-? text "created_at_text" ;;
  finished_at <-? text "finished_at_text" ;;
  request <-? ColumnJson result row "request_text" ;;
  inr (mkJob job_id tenant_id user_id workspace_id action status region worker_pool_key created_at
         worker_id finished_at request []).

Definition LoadArtifactRow (result : pg_result) (row : nat) : exn + ArtifactRecord :=
  let text := ColumnText result row in
  artifact_id <-? text "artifact_id" ;;
  object_key <-? text "object_key" ;;
  kind <-? text "kind" ;;
  inr (mkArtifact artifact_id object_key kind).

Definition with_artifacts (artifacts : list ArtifactRecord) (job : PlatformJobRecord) : PlatformJobRecord :=
  mkJob (job_id job) (job_tenant_id job) (job_user_id job) (job_workspace_id job) (job_action job)
    (job_status job) (job_region job) (job_worker_pool_key job) (job_created_at job)
    (job_worker_id job) (job_finished_at job) (job_request job) (job_artifacts job ++ artifacts).
Definition LoadArtifacts (c : PGconn) (job : PlatformJobRecord) : ServerM PlatformJobRecord :=
  result <- ExecParams c sql_artifacts [job_id job] ;;
  artifacts <- lift (all_rows LoadArtifactRow result) ;;
  m_ret (with_artifacts artifacts job).

Definition LoadEventRow (result : pg_result) (row : nat) : exn + JobEventRecord :=
  let text := ColumnText result row in
  event_id <-? text "event_id" ;;
  job_id <-? text "job_id" ;;
  status <-? text "status" ;;
  message <-? text "message" ;;
  created_at <-? text "created_at_text" ;;
  inr (mkEvent event_id job_id status message created_at).

Definition LoadCompileContainerRow (result : pg_result) (row : nat) : exn + CompileContainerRecord :=
  let text := ColumnText result row in
  container_id <-? text "container_id" ;;
  worker_id <-? text "worker_id" ;;
  tenant_id <-? text "tenant_id" ;;
  user_id <-? text "user_id" ;;
  current_workspace_id <-? text "current_workspace_id" ;;
  region <-? text "region" ;;
  worker_pool_key <-? text "worker_pool_key" ;;
  status <-? text "status" ;;
  capacity <-? ColumnInt result row "capacity" ;;
  workspace_generation <-? ColumnInt result row "workspace_generation" ;;
  created_at <-? text "created_at_text" ;;
  last_switched_at <-? text "last_switched_at_text" ;;
  last_switch_reason <-? text "last_switch_reason" ;;
  inr (mkContainer container_id worker_id tenant_id user_id current_workspace_id region
         worker_pool_key status capacity workspace_generation created_at last_switched_at
         last_switch_reason).

Definition LoadMirrorRow (result : pg_result) (row : nat) : exn + MirrorCursorRecord :=
  let text := ColumnText result row in
  mirror_id <-? text "mirror_id" ;;
  region <-? text "region" ;;
  origin <-? text "origin" ;;
  freshness <-? text "freshness" ;;
  replay_cursor <-? text "replay_cursor" ;;
  publication_id <-? text "publication_id" ;;
  repository_version_id <-? text "repository_version_id" ;;
  synced_at <-? text "synced_at_text" ;;
  tree_size <-? ColumnInt result row "tree_size" ;;
  inr (mkMirror mirror_id region origin freshness replay_cursor publication_id repository_version_id
         synced_at tree_size).

Definition LoadRegistryPackageRow (result : pg_result) (row : nat) : exn + RegistryPackageRecord :=
  let text := ColumnText result row in
  package_id <-? text "package_id" ;;
  namespace <-? text "namespace" ;;
  name <-? text "name" ;;
  created_at <-? text "created_at_text" ;;
  created_by <-? text "created_by" ;;
  visibility <-? text "visibility" ;;
  inr (mkPackage package_id namespace name created_at created_by visibility).

Definition LoadRegistryPackageReleaseRow (result : pg_result) (row : nat)
  : exn + RegistryPackageReleaseRecord :=
  let text := ColumnText result row in
  package_id <-? text "package_id" ;;
  version <-? text "version" ;;
  edition <-? text "edition" ;;
  manifest_sha256 <-? text "manifest_sha256" ;;
  source_artifact_sha256 <-? text "source_artifact_sha256" ;;
  dependencies <-? ColumnParsed result row "dependencies_text" ;;
  publisher_id <-? text "publisher_id" ;;
  published_at <-? text "published_at_text" ;;
  yanked <-? ColumnBool result row "yanked" ;;
  yanked_reason <-? text "yanked_reason" ;;
  inr (mkRelease package_id version edition manifest_sha256 source_artifact_sha256 dependencies
         publisher_id published_at yanked yanked_reason).

Definition LoadRegistryPackageOwnerRow (result : pg_result) (row : nat)
  : exn + RegistryPackageOwnerRecord :=
  let text := ColumnText result row in
  package_id <-? text "package_id" ;;
  owner_id <-? text "owner_id" ;;
  owner_kind <-? text "owner_kind" ;;
  role <-? text "role" ;;
  added_by <-? text "added_by" ;;
  added_at <-? text "added_at_text" ;;
  inr (mkOwner package_id owner_id owner_kind role added_by added_at).

Definition LoadRegistryPublishTokenRow (result : pg_result) (row : nat)
  : exn + RegistryPublishTokenRecord :=
  let text := ColumnText result row in
  token_id <-? text "token_id" ;;
  token_hash <-? text "token_hash" ;;
  owner_id <-? text "owner_id" ;;
  scopes <-? ColumnStrings result row "scopes_text" ;;
  package_patterns <-? ColumnStrings result row "package_patterns_text" ;;
  expires_at <-? text "expires_at_text" ;;
  revoked_at <-? text "revoked_at_text" ;;
  created_at <-? text "created_at_text" ;;
  inr (mkToken token_id token_hash owner_id scopes package_patterns expires_at revoked_at created_at).

Definition LoadRegistryRepositoryRow (result : pg_result) (row : nat) : exn + RegistryRepositoryRecord :=
  let text := ColumnText result row in
  repository_id <-? text "repository_id" ;;
  name <-? text "name" ;;
  tenant_id <-? text "tenant_id" ;;
  policy <-? ColumnParsed result row "policy_text" ;;
  created_at <-? text "created_at_text" ;;
  inr (mkRepository repository_id name tenant_id policy created_at).

Definition LoadRegistryRepositoryVersionRow (result : pg_result) (row : nat)
  : exn + RegistryRepositoryVersionRecord :=
  let text := ColumnText result row in
  repository_version_id <-? text "repository_version_id" ;;
  repository_id <-? text "repository_id" ;;
  sequence <-? ColumnInt result row "sequence" ;;
  change_kind <-? text "change_kind" ;;
  change_ref <-? text "change_ref" ;;
  created_at <-? text "created_at_text" ;;
  inr (mkRepositoryVersion repository_version_id repository_id sequence change_kind change_ref
         created_at).

Definition LoadRegistryPublicationRow (result : pg_result) (row : nat)
  : exn + RegistryPublicationRecord :=
  let text := ColumnText result row in
  publication_id <-? text "publication_id" ;;
  repository_version_id <-? text "repository_version_id" ;;
  layout_version <-? ColumnInt result row "layout_version" ;;
  root_path <-? text "root_path" ;;
  manifest_sha256 <-? text "manifest_sha256" ;;
  tree_size <-? ColumnInt result row "tree_size" ;;
  created_at <-? text "created_at_text" ;;
  verified <-? ColumnBool result row "verified" ;;
  inr (mkPublication publication_id repository_version_id layout_version root_path manifest_sha256
         tree_size created_at verified).

Definition LoadRegistryDistributionRow (result : pg_result) (row : nat)
  : exn + RegistryDistributionRecord :=
  let text := ColumnText result row in
  distribution_id <-? text "distribution_id" ;;
  repository_id <-? text "repository_id" ;;
  name <-? text "name" ;;
  base_url <-? text "base_url" ;;
  current_publication_id <-? text "current_publication_id" ;;
  previous_publication_id <-? text "previous_publication_id" ;;
  updated_at <-? text "updated_at_text" ;;
  inr (mkDistribution distribution_id repository_id name base_url current_publication_id
         previous_publication_id updated_at).

Definition LoadRegistryAuditEventRow (result : pg_result) (row : nat) : exn + RegistryAuditEventRecord :=
  let text := ColumnText result row in
  event_id <-? text "event_id" ;;
  actor_id <-? text "actor_id" ;;
  operation <-? text "operation" ;;
  target <-? ColumnParsed result row "target_text" ;;
  request_id <-? text "request_id" ;;
  result_text <-? text "result" ;;
  created_at <-? text "created_at_text" ;;
  inr (mkAuditEvent event_id actor_id operation target request_id result_text created_at).

(** ** The operations *)

Definition JsonText (value : json) : exn + string := json_dump value.
Definition bool_text (b : bool) : string := if b then "true" else "false".

Definition ApplyMigrations : StoreM unit :=
  connection (fun c => traverse_m (fun m => Exec c (migration_sql m)) CloudKernelMigrations ;;; m_ret tt).

(** A statement whose result is not read. *)
Definition execute (c : PGconn) (sql : string) (params : list string) : ServerM unit :=
  ExecParams c sql params ;;; m_ret tt.

Definition UpsertNode (config : PlatformConfig) : StoreM unit :=
  connection (fun c =>
    roles_text <- lift (JsonText (strings (roles config))) ;;
    execute c sql_upsert_node [config_node_id config; config_region config; roles_text]).

Definition NextJobId : StoreM string :=
  connection (fun c =>
    result <- ExecParams c sql_next_job [] ;;
    if no_rows result then throw (pg_failed "postgres did not return a job id sequence value")
    else value <- lift (ColumnText result 0 "job_id_seq") ;;
         m_ret ("job-" +:+ pad_left "0" 12 value)).

Definition insert_event (c : PGconn) (job_id status message : string) : ServerM unit :=
  execute c sql_insert_event [job_id; status; message].

Definition SubmitJob (job : PlatformJobRecord) : StoreM unit :=
  connection (fun c => in_transaction c (
    execute c sql_insert_tenant [job_tenant_id job] ;;;
    request_text <- lift (JsonText (job_request job)) ;;
    execute c sql_insert_job
      [job_id job; job_tenant_id job; job_user_id job; job_workspace_id job; job_action job;
       job_status job; job_region job; job_worker_pool_key job; request_text] ;;;
    insert_event c (job_id job) "queued" "job queued" ;;;
    Exec c "COMMIT")).

Definition GetJob (job_id : string) : StoreM (option PlatformJobRecord) :=
  connection (fun c =>
    result <- ExecParams c (JobSelectSql "WHERE job_id = $1") [job_id] ;;
    if no_rows result then m_ret None
    else job <- lift (LoadJobRow result 0) ;;
         job <- LoadArtifacts c job ;;
         m_ret (Some job)).

Definition GetJobEvents (job_id : string) : StoreM (list JobEventRecord) :=
  connection (fun c =>
    result <- ExecParams c sql_job_events [job_id] ;;
    lift (all_rows LoadEventRow result)).

(** A transaction and, where it went through, the job read back while the connection
    of the transaction is still open. *)
Definition then_get_job (body : PGconn -> ServerM (option string)) : StoreM (option PlatformJobRecord) :=
  with_driver (connected (fun c =>
    done <- on_server (in_transaction c (body c)) ;;
    match done with
    | Some job_id => GetJob job_id
    | None => m_ret None
    end)).

Definition CancelJob (job_id reason : string) : StoreM (option PlatformJobRecord) :=
  then_get_job (fun c =>
    updated <- ExecParams c sql_cancel_job [job_id] ;;
    if no_rows updated then Exec c "ROLLBACK" ;;; m_ret None
    else
      insert_event c job_id "cancelled" reason ;;;
      Exec c "COMMIT" ;;;
      m_ret (Some job_id)).

Definition RegisterWorker (worker : json) : StoreM json :=
  connection (fun c =>
    worker_id <- lift (at_string worker "worker_id") ;;
    region <- lift (at_string worker "region") ;;
    worker_pool_key <- lift (at_string worker "worker_pool_key") ;;
    status <- lift (value_string worker "status" "registered") ;;
    capacity <- lift (value_int worker "capacity" 1) ;;
    execute c sql_upsert_worker [worker_id; region; worker_pool_key; status; decimal capacity] ;;;
    m_ret worker).

Definition GetCompileContainer (container_id : string) : StoreM (option CompileContainerRecord) :=
  connection (fun c =>
    result <- ExecParams c (CompileContainerSelectSql "WHERE container_id = $1") [container_id] ;;
    lift (first_row LoadCompileContainerRow result)).

(** The worker must be registered for the region and pool. *)
Definition require_worker (c : PGconn) (worker_id region worker_pool_key : string) : ServerM unit :=
  registered <- ExecParams c sql_registered_worker [worker_id; region; worker_pool_key] ;;
  if no_rows registered then throw (pg_failed "worker is not registered") else m_ret tt.

(** The binding of a container that is there already. *)
Definition check_binding (existing : pg_result) (container : CompileContainerRecord) : exn + unit :=
  if no_rows existing then inr tt
  else
    tenant_id <-? ColumnText existing 0 "tenant_id" ;;
    mismatch <-? (if tenant_id <>s container_tenant_id container then inr true
                  else user_id <-? ColumnText existing 0 "user_id" ;;
                       inr (user_id <>s container_user_id container)) ;;
    if mismatch then inl (pg_failed "compile container user binding mismatch")
    else
      worker_id <-? ColumnText existing 0 "worker_id" ;;
      if worker_id <>s container_worker_id container
      then inl (pg_failed "compile container worker owner mismatch") else inr tt.

Definition RegisterCompileContainer (container : CompileContainerRecord) : StoreM CompileContainerRecord :=
  with_driver (connected (fun c =>
    on_server (in_transaction c (
      require_worker c (container_worker_id container) (container_region container)
        (container_worker_pool_key container) ;;;
      existing <- ExecParams c sql_lock_container [container_id container] ;;
      lift (check_binding existing container) ;;;
      execute c sql_insert_tenant [container_tenant_id container] ;;;
      execute c sql_upsert_container
        [container_id container; container_worker_id container; container_tenant_id container;
         container_user_id container; current_workspace_id container; container_region container;
         container_worker_pool_key container; container_status container;
         decimal (container_capacity container)] ;;;
      Exec c "COMMIT")) ;;;
    saved <- GetCompileContainer (container_id container) ;;
    match saved with
    | Some saved => m_ret saved
    | None => throw (pg_failed "compile container registration did not return a row")
    end)).

Definition SwitchCompileContainerWorkspace (container_id worker_id workspace_id reason : string)
  : StoreM (option CompileContainerRecord) :=
  with_driver (connected (fun c =>
    result <- on_server (ExecParams c sql_switch_container [container_id; worker_id; workspace_id; reason]) ;;
    if no_rows result then m_ret None else GetCompileContainer container_id)).

Definition ClaimJob (worker_id region worker_pool_key : string) : StoreM (option PlatformJobRecord) :=
  then_get_job (fun c =>
    require_worker c worker_id region worker_pool_key ;;;
    claimed <- ExecParams c ClaimJobSql [region; worker_pool_key; worker_id] ;;
    if no_rows claimed then Exec c "COMMIT" ;;; m_ret None
    else
      job_id <- lift (ColumnText claimed 0 "job_id") ;;
      insert_event c job_id "running" "job claimed by worker" ;;;
      Exec c "COMMIT" ;;;
      m_ret (Some job_id)).

Definition active_container_clause : string :=
  "WHERE container_id = $1 AND worker_id = $2 AND region = $3 AND worker_pool_key = $4 AND status = 'active' FOR UPDATE".

Definition ClaimJobForCompileContainer (worker_id region worker_pool_key container_id : string)
  : StoreM (option PlatformJobRecord) :=
  then_get_job (fun c =>
    require_worker c worker_id region worker_pool_key ;;;
    found <- ExecParams c (CompileContainerSelectSql active_container_clause)
               [container_id; worker_id; region; worker_pool_key] ;;
    if no_rows found then throw (pg_failed "compile container is not registered")
    else
      container <- lift (LoadCompileContainerRow found 0) ;;
      claimed <- ExecParams c sql_claim_for_container
                   [region; worker_pool_key; worker_id; container_tenant_id container;
                    container_user_id container] ;;
      if no_rows claimed then Exec c "COMMIT" ;;; m_ret None
      else
        job_id <- lift (ColumnText claimed 0 "job_id") ;;
        workspace_id <- lift (ColumnText claimed 0 "workspace_id") ;;
        when (workspace_id <>s current_workspace_id container)
          (execute c sql_follow_job [container_id; worker_id; workspace_id] ;;;
           insert_event c job_id "running" "compile container switched workspace") ;;;
        insert_event c job_id "running" "job claimed by compile container" ;;;
        Exec c "COMMIT" ;;;
        m_ret (Some job_id)).

Definition HeartbeatJob (job_id worker_id message : string) : StoreM (option PlatformJobRecord) :=
  with_driver (connected (fun c =>
    owned <- on_server (ExecParams c sql_heartbeat [job_id; worker_id]) ;;
    if no_rows owned then m_ret None
    else on_server (insert_event c job_id "running" message) ;;; GetJob job_id)).

Definition CompleteJob (job_id worker_id status message : string) (artifacts : list ArtifactRecord)
    (result : json) : StoreM (option PlatformJobRecord) :=
  then_get_job (fun c =>
    result_text <- lift (JsonText result) ;;
    updated <- ExecParams c CompleteJobSql [job_id; status; result_text; worker_id] ;;
    if no_rows updated then Exec c "ROLLBACK" ;;; m_ret None
    else
      execute c sql_delete_artifacts [job_id] ;;;
      traverse_m (fun artifact => execute c sql_insert_artifact
          [artifact_id artifact; job_id; artifact_object_key artifact; artifact_kind artifact]) artifacts ;;;
      insert_event c job_id status message ;;;
      Exec c "COMMIT" ;;;
      m_ret (Some job_id)).

Definition RegisterWorkgroupCluster (workgroup_id : string) (cluster : json) : StoreM json :=
  connection (fun c =>
    cluster_id <- lift (at_string cluster "cluster_id") ;;
    region <- lift (at_string cluster "region") ;;
    node_id <- lift (at_string cluster "node_id") ;;
    control_plane_endpoint <- lift (at_string cluster "control_plane_endpoint") ;;
    registry_endpoint <- lift (value_string cluster "registry_endpoint" "") ;;
    mirror_endpoint <- lift (value_string cluster "mirror_endpoint" "") ;;
    internal_endpoint <- lift (value_string cluster "internal_control_plane_endpoint" "") ;;
    roles <- lift (j_at cluster "roles") ;;
    roles_text <- lift (JsonText roles) ;;
    labels <- lift (value_json cluster "labels" (JObject ∅)) ;;
    labels_text <- lift (JsonText labels) ;;
    trust_domain <- lift (at_string cluster "trust_domain") ;;
    registration_policy <- lift (at_string cluster "registration_policy") ;;
    status <- lift (value_string cluster "status" "registered") ;;
    registered_by <- lift (value_json cluster "registered_by" (JObject ∅)) ;;
    registered_by_text <- lift (JsonText registered_by) ;;
    execute c sql_upsert_cluster
      [workgroup_id; cluster_id; region; node_id; control_plane_endpoint; registry_endpoint;
       mirror_endpoint; internal_endpoint; roles_text; labels_text; trust_domain;
       registration_policy; status; registered_by_text] ;;;
    m_ret cluster).

(** The three endpoints a cluster may leave out. *)
Definition set_endpoint (result : pg_result) (row : nat) (cluster : exn + json) (field : string)
  : exn + json :=
  cluster <-? cluster ;;
  value <-? ColumnText result row field ;;
  inr (j_set_if (negb (is_empty value)) field (JString value) cluster).
Definition LoadClusterRow (result : pg_result) (row : nat) : exn + json :=
  let text := ColumnText result row in
  workgroup_id <-? text "workgroup_id" ;;
  cluster_id <-? text "cluster_id" ;;
  region <-? text "region" ;;
  node_id <-? text "node_id" ;;
  control_plane_endpoint <-? text "control_plane_endpoint" ;;
  roles <-? ColumnParsed result row "roles_text" ;;
  labels <-? ColumnParsed result row "labels_text" ;;
  trust_domain <-? text "trust_domain" ;;
  registration_policy <-? text "registration_policy" ;;
  status <-? text "status" ;;
  registered_by <-? ColumnParsed result row "registered_by_text" ;;
  updated_at <-? text "updated_at_text" ;;
  fold_left (set_endpoint result row)
    ["registry_endpoint"; "mirror_endpoint"; "internal_control_plane_endpoint"]%string
    (inr (obj [("workgroup_id", JString workgroup_id); ("cluster_id", JString cluster_id);
               ("region", JString region); ("node_id", JString node_id);
               ("control_plane_endpoint", JString control_plane_endpoint); ("roles", roles);
               ("labels", labels); ("trust_domain", JString trust_domain);
               ("registration_policy", JString registration_policy); ("status", JString status);
               ("registered_by", registered_by); ("updated_at", JString updated_at)]%string)).
Definition ListWorkgroupClusters (workgroup_id : string) : StoreM json :=
  connection (fun c =>
    result <- ExecParams c sql_clusters [workgroup_id] ;;
    clusters <- lift (all_rows LoadClusterRow result) ;;
    m_ret (JArray clusters)).

Definition RecordMirrorState (mirror_id region origin freshness replay_cursor publication_id
    repository_version_id synced_at : string) (tree_size : Z) : StoreM unit :=
  connection (fun c => execute c sql_upsert_mirror
    [mirror_id; region; origin; freshness; replay_cursor; publication_id; repository_version_id;
     synced_at; decimal tree_size]).
Definition GetMirrorState (mirror_id : string) : StoreM (option MirrorCursorRecord) :=
  connection (fun c =>
    result <- ExecParams c sql_mirror [mirror_id] ;;
    lift (first_row LoadMirrorRow result)).

(** *** The registry *)

(** A query answered by its first row, by whether there is one, and by all rows as
    JSON. *)
Definition query_first {A} (sql : string) (params : list string) (load : pg_result -> nat -> exn + A)
  : StoreM (option A) :=
  connection (fun c =>
    result <- ExecParams c sql params ;;
    lift (first_row load result)).
Definition query_any (sql : string) (params : list string) : StoreM bool :=
  connection (fun c =>
    result <- ExecParams c sql params ;;
    m_ret (negb (no_rows result))).
Definition query_all {A} (sql : string) (params : list string) (load : pg_result -> nat -> exn + A)
    (serialize : A -> json) : StoreM json :=
  connection (fun c =>
    result <- ExecParams c sql params ;;
    records <- lift (all_rows load result) ;;
    m_ret (JArray (map serialize records))).

Definition UpsertRegistryPackage (record : RegistryPackageRecord) : StoreM unit :=
  connection (fun c => execute c sql_upsert_package
    [pkg_package_id record; pkg_namespace record; pkg_name record; pkg_created_at record;
     pkg_created_by record; pkg_visibility record]).
Definition GetRegistryPackage (package_id : string) : StoreM (option RegistryPackageRecord) :=
  query_first (RegistryPackageSelectSql "WHERE package_id = $1") [package_id] LoadRegistryPackageRow.
Definition ListRegistryPackages : StoreM json :=
  query_all (RegistryPackageSelectSql "ORDER BY namespace, name") [] LoadRegistryPackageRow
    SerializeRegistryPackageRecord.

Definition UpsertRegistryPackageRelease (record : RegistryPackageReleaseRecord) : StoreM unit :=
  connection (fun c =>
    dependencies_text <- lift (JsonText (rel_dependencies record)) ;;
    execute c sql_upsert_release
      [rel_package_id record; rel_version record; rel_edition record; rel_manifest_sha256 record;
       rel_source_artifact_sha256 record; dependencies_text; rel_publisher_id record;
       rel_published_at record; bool_text (rel_yanked record); rel_yanked_reason record]).
Definition GetRegistryPackageRelease (package_id version : string)
  : StoreM (option RegistryPackageReleaseRecord) :=
  query_first (RegistryReleaseSelectSql "WHERE package_id = $1 AND version = $2") [package_id; version]
    LoadRegistryPackageReleaseRow.
Definition ListRegistryPackageReleases (package_id : string) : StoreM json :=
  query_all (RegistryReleaseSelectSql "WHERE package_id = $1 ORDER BY published_at ASC, version ASC")
    [package_id] LoadRegistryPackageReleaseRow SerializeRegistryPackageReleaseRecord.
Definition SetRegistryPackageReleaseYanked (package_id version : string) (yanked : bool) (reason : string)
  : StoreM bool :=
  query_any sql_yank_release [package_id; version; bool_text yanked; reason].

Definition AddRegistryPackageOwner (record : RegistryPackageOwnerRecord) : StoreM unit :=
  connection (fun c => execute c sql_upsert_owner
    [own_package_id record; own_owner_id record; own_owner_kind record; own_role record;
     own_added_by record; own_added_at record]).
Definition RemoveRegistryPackageOwner (package_id owner_id : string) : StoreM bool :=
  query_any sql_delete_owner [package_id; owner_id].
Definition HasRegistryPackageOwner (package_id owner_id : string) : StoreM bool :=
  query_any sql_has_owner [package_id; owner_id].
Definition ListRegistryPackageOwners (package_id : string) : StoreM json :=
  query_all sql_owners [package_id] LoadRegistryPackageOwnerRow SerializeRegistryPackageOwnerRecord.

(** [out << prefix << std::setw(12) << std::setfill('0') << std::stoull(...)]. *)
Definition sequence_id (prefix sql column : string) : StoreM string :=
  connection (fun c =>
    result <- ExecParams c sql [] ;;
    text <- lift (ColumnText result 0 column) ;;
    value <- lift (parsed_number "stoull" text (stoul text)) ;;
    m_ret (prefix +:+ pad_left "0" 12 (decimal value))).
Definition NextRegistryTokenId : StoreM string := sequence_id "tok-" sql_next_token "token_sequence".

Definition UpsertRegistryPublishToken (record : RegistryPublishTokenRecord) : StoreM unit :=
  connection (fun c =>
    scopes_text <- lift (JsonText (strings (tok_scopes record))) ;;
    patterns_text <- lift (JsonText (strings (tok_package_patterns record))) ;;
    execute c sql_upsert_token
      [tok_token_id record; tok_token_hash record; tok_owner_id record; scopes_text; patterns_text;
       tok_expires_at record; tok_revoked_at record; tok_created_at record]).
Definition GetRegistryPublishToken (token_id : string) : StoreM (option RegistryPublishTokenRecord) :=
  query_first (RegistryTokenSelectSql "WHERE token_id = $1") [token_id] LoadRegistryPublishTokenRow.
Definition FindRegistryPublishTokenByHash (token_hash : string)
  : StoreM (option RegistryPublishTokenRecord) :=
  query_first (RegistryTokenSelectSql "WHERE token_hash = $1") [token_hash] LoadRegistryPublishTokenRow.
Definition ListRegistryPublishTokens (owner_id : string) : StoreM json :=
  let serialize record := SerializeRegistryPublishTokenRecord record false in
  if is_empty owner_id
  then query_all (RegistryTokenSelectSql "ORDER BY created_at DESC, token_id ASC") []
         LoadRegistryPublishTokenRow serialize
  else query_all (RegistryTokenSelectSql "WHERE owner_id = $1 ORDER BY created_at DESC, token_id ASC")
         [owner_id] LoadRegistryPublishTokenRow serialize.
Definition RevokeRegistryPublishToken (token_id revoked_at : string) : StoreM bool :=
  query_any sql_revoke_token [token_id; revoked_at].

Definition NextRepositoryVersionSequence (repository_id : string) : StoreM Z :=
  connection (fun c =>
    result <- ExecParams c sql_next_version [repository_id] ;;
    value <- lift (ColumnInt result 0 "max_sequence") ;;
    m_ret (i32 (value + 1))).
Definition UpsertRegistryRepository (record : RegistryRepositoryRecord) : StoreM unit :=
  connection (fun c =>
    policy_text <- lift (JsonText (repo_policy record)) ;;
    execute c sql_upsert_repository
      [repo_repository_id record; repo_name record; repo_tenant_id record; policy_text;
       repo_created_at record]).
Definition ListRegistryRepositories : StoreM json :=
  query_all sql_repositories [] LoadRegistryRepositoryRow SerializeRegistryRepositoryRecord.
Definition RecordRegistryRepositoryVersion (record : RegistryRepositoryVersionRecord) : StoreM unit :=
  connection (fun c => execute c sql_insert_version
    [ver_repository_version_id record; ver_repository_id record; decimal (ver_sequence record);
     ver_change_kind record; ver_change_ref record; ver_created_at record]).
Definition ListRegistryRepositoryVersions (repository_id : string) : StoreM json :=
  query_all sql_versions [repository_id] LoadRegistryRepositoryVersionRow
    SerializeRegistryRepositoryVersionRecord.
Definition RecordRegistryPublication (record : RegistryPublicationRecord) : StoreM unit :=
  connection (fun c => execute c sql_upsert_publication
    [pub_publication_id record; pub_repository_version_id record; decimal (pub_layout_version record);
     pub_root_path record; pub_manifest_sha256 record; decimal (pub_tree_size record);
     pub_created_at record; bool_text (pub_verified record)]).
Definition GetRegistryPublication (publication_id : string) : StoreM (option RegistryPublicationRecord) :=
  query_first sql_publication [publication_id] LoadRegistryPublicationRow.
Definition ListRegistryPublications : StoreM json :=
  query_all sql_publications [] LoadRegistryPublicationRow SerializeRegistryPublicationRecord.
Definition UpsertRegistryDistribution (record : RegistryDistributionRecord) : StoreM unit :=
  connection (fun c => execute c sql_upsert_distribution
    [dist_distribution_id record; dist_repository_id record; dist_name record; dist_base_url record;
     dist_current_publication_id record; dist_previous_publication_id record; dist_updated_at record]).
Definition GetRegistryDistribution (distribution_id : string)
  : StoreM (option RegistryDistributionRecord) :=
  query_first sql_distribution [distribution_id] LoadRegistryDistributionRow.
Definition ListRegistryDistributions : StoreM json :=
  query_all sql_distributions [] LoadRegistryDistributionRow SerializeRegistryDistributionRecord.

Definition NextRegistryAuditEventId : StoreM string :=
  sequence_id "audit-" sql_next_audit "audit_sequence".
Definition RecordRegistryAuditEvent (record : RegistryAuditEventRecord) : StoreM unit :=
  connection (fun c =>
    target_text <- lift (JsonText (aud_target record)) ;;
    execute c sql_insert_audit
      [aud_event_id record; aud_actor_id record; aud_operation record; target_text;
       aud_request_id record; aud_result record; aud_created_at record]).
Definition ListRegistryAuditEvents : StoreM json :=
  query_all sql_audit_events [] LoadRegistryAuditEventRow SerializeRegistryAuditEventRecord.
End Postgres.

(** The store behind the router's interface. *)
#[export] Instance libpq_store {Server} `{JsonLib} `{LibPq Server} : PostgresStore (PgStore Server) :=
  {| PostgresDriverAvailable := HAS_LIBPQ;
     pg_connect := fun dsn => mkPgStore dsn (server_at dsn);
     pg_NextJobId := NextJobId; pg_SubmitJob := SubmitJob; pg_GetJob := GetJob;
     pg_GetJobEvents := GetJobEvents; pg_CancelJob := CancelJob; pg_RegisterWorker := RegisterWorker;
     pg_RegisterCompileContainer := RegisterCompileContainer;
     pg_GetCompileContainer := GetCompileContainer;
     pg_SwitchCompileContainerWorkspace := SwitchCompileContainerWorkspace;
     pg_ClaimJob := ClaimJob; pg_ClaimJobForCompileContainer := ClaimJobForCompileContainer;
     pg_HeartbeatJob := HeartbeatJob; pg_CompleteJob := CompleteJob;
     pg_RegisterWorkgroupCluster := RegisterWorkgroupCluster;
     pg_ListWorkgroupClusters := ListWorkgroupClusters;
     pg_ListRegistryAuditEvents := ListRegistryAuditEvents; pg_GetMirrorState := GetMirrorState;
     pg_GetRegistryPackage := GetRegistryPackage;
     pg_ListRegistryPackageReleases := ListRegistryPackageReleases;
     pg_GetRegistryPackageRelease := GetRegistryPackageRelease;
     pg_AddRegistryPackageOwner := AddRegistryPackageOwner;
     pg_RemoveRegistryPackageOwner := RemoveRegistryPackageOwner;
     pg_HasRegistryPackageOwner := HasRegistryPackageOwner;
     pg_ListRegistryPackageOwners := ListRegistryPackageOwners;
     pg_NextRegistryTokenId := NextRegistryTokenId;
     pg_UpsertRegistryPublishToken := UpsertRegistryPublishToken;
     pg_GetRegistryPublishToken := GetRegistryPublishToken;
     pg_FindRegistryPublishTokenByHash := FindRegistryPublishTokenByHash;
     pg_ListRegistryPublishTokens := ListRegistryPublishTokens;
     pg_RevokeRegistryPublishToken := RevokeRegistryPublishToken;
     pg_ListRegistryRepositories := ListRegistryRepositories;
     pg_ListRegistryRepositoryVersions := ListRegistryRepositoryVersions;
     pg_GetRegistryPublication := GetRegistryPublication;
     pg_ListRegistryDistributions := ListRegistryDistributions;
     pg_RecordMirrorState := RecordMirrorState; pg_UpsertRegistryPackage := UpsertRegistryPackage;
     pg_UpsertRegistryPackageRelease := UpsertRegistryPackageRelease;
     pg_SetRegistryPackageReleaseYanked := SetRegistryPackageReleaseYanked;
     pg_NextRepositoryVersionSequence := NextRepositoryVersionSequence;
     pg_UpsertRegistryRepository := UpsertRegistryRepository;
     pg_RecordRegistryRepositoryVersion := RecordRegistryRepositoryVersion;
     pg_RecordRegistryPublication := RecordRegistryPublication;
     pg_UpsertRegistryDistribution := UpsertRegistryDistribution;
     pg_NextRegistryAuditEventId := NextRegistryAuditEventId;
     pg_RecordRegistryAuditEvent := RecordRegistryAuditEvent |}.
