(* ===== verification/RegistryAccess.v ===== *)
(** Who may write to the registry, and the handlers of package owners and publish
    tokens ([RegistryWriteAuthorized] and [RecordRegistryAudit] of
    [PlatformCloud/PackageRegistry/ControlPlane/RegistryControlPlane.cpp], and
    [RegistryOwnerTokenHandlers.cpp]). *)
From stdpp Require Import base list gmap strings.
From Stdlib Require Import ZArith Lia Ascii String.
From S2P Require Import Prelude Json StateRecords MemoryStateStore Identity Http Config.
From S2P Require Import FileSystem RouterSupport RegistryIdentifiers RegistryIndexStore Demo.

Section RegistryAccess.
Context {DB : Type} `{JsonLib} `{Host} `{PostgresStore DB} (config : PlatformConfig).

(** A method of both stores, on the one in use. *)
Definition on_stores {A} (p : M exn DB A) (m : M exn MemoryStateStore A) : RouterM DB A :=
  if_postgres (on_postgres p) (on_memory m).
(** A write to both stores. *)
Definition on_both (p : M exn DB unit) (m : M exn MemoryStateStore unit) : RouterM DB unit :=
  if_postgres (on_postgres p) (m_ret tt) ;;;
  on_memory m.

Definition owner_scopes : list string := ["package:publish"; "package:yank"; "package:owner"].

(** The first part of [RegistryWriteAuthorized]: what the certificate grants. *)
Definition identity_grants (identity : MtlsIdentity) (scope package_id : string)
  : RouterM DB bool :=
  if role identity =s "operator" then m_ret true
  else if (scope =s "package:publish") && (role identity =s "registry-writer") then m_ret true
  else if string_in scope owner_scopes && negb (is_empty package_id) then
    in_postgres <- if_postgres
                     (on_postgres (pg_HasRegistryPackageOwner package_id (node_id identity)))
                     (m_ret false) ;;
    if in_postgres then m_ret true
    else on_memory (gets (HasRegistryPackageOwner package_id (node_id identity)))
  else m_ret false.

Definition token_active (now : string) (token : RegistryPublishTokenRecord) : bool :=
  negb (negb (is_empty (tok_revoked_at token))
        || (negb (is_empty (tok_expires_at token)) && str_ltb (tok_expires_at token) now)).

Definition FindToken (token_hash : string) : RouterM DB (option RegistryPublishTokenRecord) :=
  on_stores (pg_FindRegistryPublishTokenByHash token_hash)
    (gets (FindRegistryPublishTokenByHash token_hash)).

Definition RegistryWriteAuthorized (request : HttpRequest) (scope package_id : string)
  : RouterM DB bool :=
  granted <- match req_identity request with
             | Some identity => identity_grants identity scope package_id
             | None => m_ret false
             end ;;
  if granted then m_ret true
  else
    match RegistryTokenFromHeaders (req_headers request) with
    | None => m_ret false
    | Some clear_token =>
        token <- FindToken (Sha256Bytes clear_token) ;;
        match token with
        | None => m_ret false
        | Some token =>
            now <- UtcTimestampNow ;;
            m_ret (token_active now token && TokenHasScope token scope
                   && TokenMatchesPackage token package_id)
        end
    end.

Definition RecordRegistryAudit (request : HttpRequest) (operation : string) (target : json)
    (result : string) : RouterM DB unit :=
  event_id <- on_stores pg_NextRegistryAuditEventId NextRegistryAuditEventId ;;
  now <- UtcTimestampNow ;;
  let record := mkAuditEvent event_id (RegistryActorId request) operation target
                  (default EmptyString (req_headers request !! "x-request-id")) result now in
  on_both (pg_RecordRegistryAuditEvent record) (RecordRegistryAuditEvent record).

Definition fail_response (status : Z) (message detail category operation : string) (rc : Z)
  : RouterM DB HttpResponse :=
  m_ret (FailureResponse status message detail category operation rc).

Definition ok_response (message : string) (payload : json) : RouterM DB HttpResponse :=
  m_ret (JsonResponse 200 (SuccessEnvelope message payload)).

Definition read_index (package : string) : RouterM DB (list json) :=
  t <- gets files_ ;;
  lift (ReadPackageIndexRecords (registry_root (registry config)) package t).

Definition HandleListPackageOwners (m : RouteMatch) : RouterM DB HttpResponse :=
  package <- lift (RegistryPackageFromRoute m) ;;
  match ValidatePackageName package with
  | Some error => fail_response 400 "package owner lookup rejected" error "ValidationError"
                    "listPackageOwners" 2
  | None =>
      releases <- read_index package ;;
      match releases with
      | [] => fail_response 404 "package owner lookup failed" "package is not found" "NotFound"
                "listPackageOwners" 17
      | release :: _ =>
          owners <- on_stores (pg_ListRegistryPackageOwners (RegistryPackageId package))
                      (gets (ListRegistryPackageOwners (RegistryPackageId package))) ;;
          owners <- (if j_empty owners then
                       publisher_id <- lift (value_string release "publisher_id" "") ;;
                       published_at <- lift (value_string release "published_at" "") ;;
                       lift (j_push_back owners
                         (obj [("package_id", JString package);
                               ("owner_id", JString publisher_id); ("owner_kind", JString "user");
                               ("role", JString "owner"); ("added_by", JString "registry-index");
                               ("added_at", JString published_at)]))
                     else m_ret owners) ;;
          ok_response "loaded package owners"
            (obj [("package_id", JString package); ("owners", owners)])
      end
  end.

(** The target of an owner mutation in the audit log. *)
Definition owner_target (package owner_id : string) : json :=
  obj [("package_id", JString package); ("owner_id", JString owner_id)].

Definition HandleAddPackageOwner (m : RouteMatch) (request : HttpRequest)
  : RouterM DB HttpResponse :=
  let op := "addPackageOwner" in
  package <- lift (RegistryPackageFromRoute m) ;;
  match ValidatePackageName package with
  | Some error => fail_response 400 "package owner mutation rejected" error "ValidationError" op 2
  | None =>
      if negb (is_object (req_body request))
         || negb (HasNonEmptyString (req_body request) "owner_id")
      then fail_response 400 "package owner mutation rejected" "owner_id is required" "ValidationError"
             op 2
      else
        authorized <- RegistryWriteAuthorized request "package:owner" (RegistryPackageId package) ;;
        owner_id <- lift (value_string (req_body request) "owner_id" "") ;;
        if negb authorized then
          RecordRegistryAudit request op (owner_target package owner_id) "denied" ;;;
          fail_response 403 "package owner mutation denied" "token or identity lacks package:owner"
            "AuthError" op 2
        else
          releases <- read_index package ;;
          match releases with
          | [] =>
              RecordRegistryAudit request op (owner_target package owner_id) "not_found" ;;;
              fail_response 404 "package owner mutation failed" "package is not found" "NotFound" op 17
          | _ =>
              owner_kind <- lift (value_string (req_body request) "owner_kind" "user") ;;
              owner_role <- lift (value_string (req_body request) "role" "owner") ;;
              added_at <- UtcTimestampNow ;;
              let owner := mkOwner package owner_id owner_kind owner_role
                             (RegistryActorId request) added_at in
              on_both (pg_AddRegistryPackageOwner owner) (AddRegistryPackageOwner owner) ;;;
              RecordRegistryAudit request op (owner_target package owner_id) "success" ;;;
              ok_response "added package owner" (SerializeRegistryPackageOwnerRecord owner)
          end
  end.

Definition HandleRemovePackageOwner (m : RouteMatch) (request : HttpRequest)
  : RouterM DB HttpResponse :=
  let op := "removePackageOwner" in
  package <- lift (RegistryPackageFromRoute m) ;;
  owner_id <- lift (parameter m "owner_id") ;;
  match ValidatePackageName package with
  | Some error => fail_response 400 "package owner mutation rejected" error "ValidationError" op 2
  | None =>
      authorized <- RegistryWriteAuthorized request "package:owner" (RegistryPackageId package) ;;
      if negb authorized then
        RecordRegistryAudit request op (owner_target package owner_id) "denied" ;;;
        fail_response 403 "package owner mutation denied" "token or identity lacks package:owner"
          "AuthError" op 2
      else
        removed <- on_stores (pg_RemoveRegistryPackageOwner (RegistryPackageId package) owner_id)
                     (RemoveRegistryPackageOwner (RegistryPackageId package) owner_id) ;;
        (if removed
         then on_memory (RemoveRegistryPackageOwner (RegistryPackageId package) owner_id) ;;;
              m_ret tt
         else m_ret tt) ;;;
        if negb removed then
          RecordRegistryAudit request op (owner_target package owner_id) "not_found" ;;;
          fail_response 404 "package owner mutation failed" "package owner is not found" "NotFound" op 17
        else
          RecordRegistryAudit request op (owner_target package owner_id) "success" ;;;
          ok_response "removed package owner" (owner_target package owner_id)
  end.

(** [SecureRandomHex]
    ([PlatformCloud/PackageRegistry/ControlPlane/RegistryTrustMetadata.hpp]). *)
Definition SecureRandomHex (bytes : nat) : RouterM DB string :=
  random <- RAND_bytes bytes ;;
  match random with
  | Some random => m_ret (HexBytes random)
  | None => throw (RuntimeError "secure random generation failed")
  end.

Definition caller_is_operator (request : HttpRequest) : bool :=
  match req_identity request with
  | Some identity => role identity =s "operator"
  | None => false
  end.
(** The guard of the two token mutations. *)
Definition may_manage (request : HttpRequest) (owner_id : string) : bool :=
  match req_identity request with
  | None => false
  | Some identity => (role identity =s "operator") || (owner_id =s RegistryActorId request)
  end.

Definition HandleCreatePublishToken (request : HttpRequest) : RouterM DB HttpResponse :=
  let op := "createPublishToken" in
  let body := req_body request in
  let refuse detail := fail_response 400 "publish token creation rejected" detail "ValidationError" op 2 in
  if negb (is_object body) then refuse "request body must be an object"
  else
    match ValidateStringArray body "scopes", ValidateStringArray body "package_patterns" with
    | Some error, _ | None, Some error => refuse error
    | None, None =>
        let actor := RegistryActorId request in
        owner_id <- lift (value_string body "owner_id" actor) ;;
        if negb (may_manage request owner_id) then
          RecordRegistryAudit request op (obj [("owner_id", JString owner_id)]) "denied" ;;;
          fail_response 403 "publish token creation denied" "token owner must match caller" "AuthError"
            op 2
        else
          token_id <- on_stores pg_NextRegistryTokenId NextRegistryTokenId ;;
          random <- SecureRandomHex 24 ;;
          let clear_token := "styio_pat_" +:+ token_id +:+ "_" +:+ random in
          scopes <- lift (JsonStringArray body "scopes" ["package:publish"]) ;;
          package_patterns <- lift (JsonStringArray body "package_patterns" ["*"]) ;;
          expires_at <- lift (value_string body "expires_at" "") ;;
          created_at <- UtcTimestampNow ;;
          let token := mkToken token_id (Sha256Bytes clear_token) owner_id scopes package_patterns
                         expires_at "" created_at in
          on_both (pg_UpsertRegistryPublishToken token) (UpsertRegistryPublishToken token) ;;;
          RecordRegistryAudit request op
            (obj [("token_id", JString token_id); ("owner_id", JString owner_id)]) "success" ;;;
          ok_response "created publish token"
            (j_set (SerializeRegistryPublishTokenRecord token false) "token" (JString clear_token))
    end.

Definition HandleListPublishTokens (request : HttpRequest) : RouterM DB HttpResponse :=
  let owner_filter := if caller_is_operator request then EmptyString
                      else RegistryActorId request in
  tokens <- on_stores (pg_ListRegistryPublishTokens owner_filter)
              (gets (ListRegistryPublishTokens owner_filter)) ;;
  ok_response "loaded publish tokens" (obj [("tokens", tokens)]).

Definition HandleRevokePublishToken (m : RouteMatch) (request : HttpRequest)
  : RouterM DB HttpResponse :=
  let op := "revokePublishToken" in
  token_id <- lift (parameter m "token_id") ;;
  let target := obj [("token_id", JString token_id)] in
  token <- on_stores (pg_GetRegistryPublishToken token_id)
             (gets (GetRegistryPublishToken token_id)) ;;
  match token with
  | None =>
      RecordRegistryAudit request op target "not_found" ;;;
      fail_response 404 "publish token revocation failed" "token is not found" "NotFound" op 17
  | Some token =>
      if negb (may_manage request (tok_owner_id token)) then
        RecordRegistryAudit request op target "denied" ;;;
        fail_response 403 "publish token revocation denied" "token owner must match caller" "AuthError"
          op 2
      else
        revoked_at <- UtcTimestampNow ;;
        if_postgres (on_postgres (pg_RevokeRegistryPublishToken token_id revoked_at))
          (m_ret true) ;;;
        on_memory (RevokeRegistryPublishToken token_id revoked_at) ;;;
        RecordRegistryAudit request op target "success" ;;;
        ok_response "revoked publish token"
          (obj [("token_id", JString token_id); ("revoked", JBool true)])
  end.
End RegistryAccess.

(** ** The contract of the access operations *)

Inductive access_op := AddOwner | RemoveOwner | CreateToken | RevokeToken.
Definition access_operation (op : access_op) : string :=
  match op with
  | AddOwner => "addPackageOwner"
  | RemoveOwner => "removePackageOwner"
  | CreateToken => "createPublishToken"
  | RevokeToken => "revokePublishToken"
  end.
Definition run_access {DB} `{JsonLib} `{Host} `{PostgresStore DB} (config : PlatformConfig)
    (op : access_op) (m : RouteMatch) (request : HttpRequest) : RouterM DB HttpResponse :=
  match op with
  | AddOwner => HandleAddPackageOwner config m request
  | RemoveOwner => HandleRemovePackageOwner m request
  | CreateToken => HandleCreatePublishToken request
  | RevokeToken => HandleRevokePublishToken m request
  end.

(** What a request may write, by the certificate and by the token it presents. *)
Definition certificate_allows (request : HttpRequest) (scope package_id : string)
    (s : MemoryStateStore) : bool :=
  match req_identity request with
  | None => false
  | Some identity =>
      (role identity =s "operator")
      || ((scope =s "package:publish") && (role identity =s "registry-writer"))
      || (string_in scope owner_scopes && negb (is_empty package_id)
          && HasRegistryPackageOwner package_id (node_id identity) s)
  end.
Definition presented_token `{Host} (request : HttpRequest) (s : MemoryStateStore)
  : option RegistryPublishTokenRecord :=
  clear_token ← RegistryTokenFromHeaders (req_headers request);
  FindRegistryPublishTokenByHash (Sha256Bytes clear_token) s.
Definition token_allows (now scope package_id : string) (token : RegistryPublishTokenRecord)
  : bool :=
  token_active now token && TokenHasScope token scope && TokenMatchesPackage token package_id.
Definition write_allowed `{Host} (now : string) (request : HttpRequest)
    (scope package_id : string) (s : MemoryStateStore) : bool :=
  certificate_allows request scope package_id s
  || match presented_token request s with
     | Some token => token_allows now scope package_id token
     | None => false
     end.

(** The time the next reading of the clock gives. *)
Definition now_of {DB} `{Host} (r : PlatformRouter DB) : string :=
  clock_utc_timestamp (clock_readings r) 0.

(** The audit result that goes with an answer. *)
Definition audit_result (status : Z) : string :=
  if status =? 200 then "success" else if status =? 403 then "denied" else "not_found".

(** The clear token in an answer. *)
Definition answered_token (response : HttpResponse) : option string :=
  match j_lookup (resp_body response) "payload" with
  | Some payload => match j_lookup payload "token" with Some (JString s) => Some s | _ => None end
  | None => None
  end.

(** The owners and tokens an accepted operation leaves, and what allowed it. *)
Definition access_effect {DB} `{Host} (op : access_op) (m : RouteMatch) (request : HttpRequest)
    (response : HttpResponse) (r r' : PlatformRouter DB) : Prop :=
  let s := memory_ r in let s' := memory_ r' in
  match op with
  | AddOwner =>
      exists package owner, RegistryPackageFromRoute m = inr package
        /\ ValidatePackageName package = None
        /\ write_allowed (now_of r) request "package:owner" package s = true
        /\ own_package_id owner = package
        /\ j_lookup (req_body request) "owner_id" = Some (JString (own_owner_id owner))
        /\ registry_owners_ s' = <[owner_store_key package (own_owner_id owner) := owner]>
                                   (registry_owners_ s)
        /\ registry_tokens_ s' = registry_tokens_ s
  | RemoveOwner =>
      exists package owner_id, RegistryPackageFromRoute m = inr package
        /\ parameter m "owner_id" = inr owner_id
        /\ write_allowed (now_of r) request "package:owner" package s = true
        /\ HasRegistryPackageOwner package owner_id s = true
        /\ registry_owners_ s' = delete (owner_store_key package owner_id) (registry_owners_ s)
        /\ registry_tokens_ s' = registry_tokens_ s
  | CreateToken =>
      exists token clear_token, tok_token_hash token = Sha256Bytes clear_token
        /\ tok_revoked_at token = EmptyString
        /\ JsonStringArray (req_body request) "scopes" ["package:publish"] = inr (tok_scopes token)
        /\ JsonStringArray (req_body request) "package_patterns" ["*"]
           = inr (tok_package_patterns token)
        /\ value_string (req_body request) "expires_at" "" = inr (tok_expires_at token)
        /\ answered_token response = Some clear_token
        /\ may_manage request (tok_owner_id token) = true
        /\ registry_tokens_ s' = <[tok_token_id token := token]> (registry_tokens_ s)
        /\ registry_owners_ s' = registry_owners_ s
  | RevokeToken =>
      exists token_id token, parameter m "token_id" = inr token_id
        /\ registry_tokens_ s !! token_id = Some token
        /\ may_manage request (tok_owner_id token) = true
        /\ registry_tokens_ s' = <[token_id := set_revoked (now_of r) token]> (registry_tokens_ s)
        /\ registry_owners_ s' = registry_owners_ s
  end.

(** * Lemmas *)

(** The router after [n] readings of the clock. *)
Definition tick {DB} (n : nat) (r : PlatformRouter DB) : PlatformRouter DB :=
  mkRouter (memory_ r) (postgres_ r) (rate_limiter_ r) (metrics_ r)
    (n + clock_readings r) (random_draws r) (files_ r) (curl_calls r).
Definition set_memory {DB} (s : MemoryStateStore) (r : PlatformRouter DB) : PlatformRouter DB :=
  mkRouter s (postgres_ r) (rate_limiter_ r) (metrics_ r)
    (clock_readings r) (random_draws r) (files_ r) (curl_calls r).

Section MemoryAccess.
Context {DB : Type} `{JsonLib} `{Host} `{PostgresStore DB} (config : PlatformConfig).
Implicit Types r : PlatformRouter DB.

Lemma on_stores_memory {A} (p : M exn DB A) m r :
  postgres_ r = None ->
  on_stores p m r = let '(res, s) := m (memory_ r) in (res, set_memory s r).
Proof. intros Hr. unfold on_stores, if_postgres. by rewrite Hr. Qed.

Lemma on_both_memory (p : M exn DB unit) m r :
  postgres_ r = None ->
  on_both p m r = let '(res, s) := m (memory_ r) in (res, set_memory s r).
Proof. intros Hr. unfold on_both, if_postgres, m_bind. by rewrite Hr. Qed.

Lemma set_memory_same r : set_memory (memory_ r) r = r.
Proof. by destruct r. Qed.
Lemma tick_0 r : tick 0 r = r.
Proof. by destruct r. Qed.

(** Authorization on the memory store reads the clock at most once. *)
Lemma authorized_memory request scope package_id r :
  postgres_ r = None ->
  exists n, RegistryWriteAuthorized request scope package_id r
            = (inr (write_allowed (now_of r) request scope package_id (memory_ r)), tick n r).
Proof.
  intros Hr. unfold RegistryWriteAuthorized, write_allowed, certificate_allows, identity_grants.
  assert (Htoken : exists n,
    match RegistryTokenFromHeaders (req_headers request) with
    | None => m_ret false
    | Some clear_token =>
        token <- FindToken (Sha256Bytes clear_token) ;;
        match token with
        | None => m_ret false
        | Some token =>
            now <- UtcTimestampNow ;;
            m_ret (token_active now token && TokenHasScope token scope
                   && TokenMatchesPackage token package_id)
        end
    end r
    = (inr match presented_token request (memory_ r) with
           | Some token => token_allows (now_of r) scope package_id token
           | None => false
           end, tick n r)).
  { unfold presented_token. destruct (RegistryTokenFromHeaders _) as [clear|]; cbn.
    - unfold m_bind, FindToken. rewrite (on_stores_memory _ _ _ Hr). cbn. rewrite set_memory_same.
      destruct (FindRegistryPublishTokenByHash _ _); [by exists 1%nat|].
      exists 0%nat. by rewrite tick_0.
    - exists 0%nat. by rewrite tick_0. }
  assert (H0t : forall b, exists n, (m_ret b : RouterM DB bool) r = (inr b, tick n r)).
  { intros b. exists 0%nat. by rewrite tick_0. }
  destruct (req_identity request) as [identity|]; [|by unfold m_bind at 1; cbn].
  destruct (role identity =s "operator"); [by apply (H0t true)|].
  destruct (_ && (role identity =s "registry-writer")); [by apply (H0t true)|].
  destruct (string_in scope owner_scopes && negb (is_empty package_id)); cbn [orb andb];
    [|by unfold m_bind at 1; cbn].
  unfold m_bind at 1. unfold m_bind at 1. unfold if_postgres at 1. rewrite Hr. cbn [m_ret].
  unfold on_memory, zoom, gets. cbn. rewrite (set_memory_same r : mkRouter _ _ _ _ _ _ _ _ = r).
  destruct (HasRegistryPackageOwner _ _ _); [by apply (H0t true)|done].
Qed.

(** One audit event is appended; owners, tokens and files stay. *)
Definition audited (request : HttpRequest) (operation result : string) r r' : Prop :=
  exists e, registry_audit_events_ (memory_ r') = registry_audit_events_ (memory_ r) ++ [e]
    /\ aud_operation e = operation /\ aud_result e = result
    /\ aud_actor_id e = RegistryActorId request.
Definition same_access r r' : Prop :=
  registry_owners_ (memory_ r') = registry_owners_ (memory_ r)
  /\ registry_tokens_ (memory_ r') = registry_tokens_ (memory_ r).
(** What no access operation touches. *)
Definition same_world r r' : Prop :=
  postgres_ r' = None /\ files_ r' = files_ r /\ curl_calls r' = curl_calls r
  /\ jobs_ (memory_ r') = jobs_ (memory_ r).

Lemma audit_memory request operation target result r :
  postgres_ r = None ->
  exists s, RecordRegistryAudit request operation target result r
            = (inr tt, set_memory s (tick 1 r))
    /\ audited request operation result r (set_memory s (tick 1 r))
    /\ same_access r (set_memory s (tick 1 r)) /\ jobs_ s = jobs_ (memory_ r).
Proof.
  intros Hr. destruct r as [s pg limiter metrics clock draws files calls]. cbn in Hr. subst pg.
  eexists. split_and!.
  - unfold RecordRegistryAudit, m_bind. rewrite on_stores_memory by done. cbn. reflexivity.
  - eexists. cbn. split_and!; reflexivity.
  - done.
  - done.
Qed.

(** What every run of an access operation promises. *)
Definition access_contract (op : access_op) (m : RouteMatch) (request : HttpRequest) r
    (o : (exn + HttpResponse) * PlatformRouter DB) : Prop :=
  let '(answer, r') := o in
  same_world r r'
  /\ match answer with
     | inl _ => same_access r r'
                /\ registry_audit_events_ (memory_ r') = registry_audit_events_ (memory_ r)
     | inr response =>
         status_code response = 400 /\ r' = r
         \/ status_code response ∈ [200; 403; 404]
            /\ audited request (access_operation op) (audit_result (status_code response)) r r'
            /\ (if status_code response =? 200 then access_effect op m request response r r'
                else same_access r r')
     end.

(** A failing step that reads only. *)
Lemma contract_lift {A} op m request r (v : exn + A) (k : A -> RouterM DB HttpResponse) :
  postgres_ r = None ->
  (forall a, v = inr a -> access_contract op m request r (k a r)) ->
  access_contract op m request r ((m_bind (lift v) k) r).
Proof.
  intros Hr Hk. unfold m_bind, lift. destruct v as [e|a]; [|by apply Hk].
  by repeat split.
Qed.

(** An audited refusal after [n] readings of the clock. *)
Lemma contract_refused op m request r n target status message detail category rc :
  postgres_ r = None -> status ∈ [403; 404] ->
  access_contract op m request r
    ((RecordRegistryAudit request (access_operation op) target (audit_result status) ;;;
      fail_response status message detail category (access_operation op) rc) (tick n r)).
Proof.
  intros Hr Hs. unfold m_bind.
  destruct (audit_memory request (access_operation op) target (audit_result status) (tick n r))
    as (s & -> & Ha & Hsame & Hjobs); [done|].
  cbn. split; [done|]. right.
  assert (Hc : status_code (FailureResponse status message detail category (access_operation op) rc)
               = status) by (unfold FailureResponse; by destruct (IsRegistryOperation _)).
  rewrite Hc. split_and!.
  - set_solver.
  - done.
  - apply list_elem_of_In in Hs. destruct Hs as [<-|[<-|[]]]; done.
Qed.

Lemma contract_rejected op m request r message detail category rc :
  postgres_ r = None ->
  access_contract op m request r
    (fail_response 400 message detail category (access_operation op) rc r).
Proof.
  intros Hr. unfold fail_response, m_ret. split; [done|]. left. split; [|done].
  unfold FailureResponse. by destruct (IsRegistryOperation _).
Qed.

(** An accepted operation: the access tables were changed as promised, then the
    event is appended. *)
Lemma contract_accepted op m request r r1 target message payload :
  same_world r r1 ->
  registry_audit_events_ (memory_ r1) = registry_audit_events_ (memory_ r) ->
  (forall r', same_access r1 r' ->
     access_effect op m request (JsonResponse 200 (SuccessEnvelope message payload)) r r') ->
  access_contract op m request r
    ((RecordRegistryAudit request (access_operation op) target "success" ;;;
      ok_response message payload) r1).
Proof.
  intros (Hr & Hf & Hc & Hj) Hlog Heffect. unfold m_bind.
  destruct (audit_memory request (access_operation op) target "success" r1)
    as (s & -> & (e & He & Hrest) & Hsame & Hjobs); [done|].
  cbn. split; [unfold same_world; cbn in *; split_and!; congruence|]. right. split; [set_solver|]. split.
  - exists e. split; [|done]. cbn in He |- *. congruence.
  - by apply Heffect.
Qed.

Lemma contract_AddOwner m request r :
  postgres_ r = None ->
  access_contract AddOwner m request r (HandleAddPackageOwner config m request r).
Proof.
  intros Hr. unfold HandleAddPackageOwner. apply contract_lift; [done|]. intros package Hp.
  destruct (ValidatePackageName package) eqn:Hv; [by apply (contract_rejected AddOwner)|].
  destruct (negb (is_object _) || _) eqn:Hb; [by apply (contract_rejected AddOwner)|].
  apply orb_false_iff in Hb as [_ Hb%negb_false_iff].
  destruct (HasNonEmptyString_lookup _ _ Hb) as (owner_id & Ho & _).
  destruct (authorized_memory request "package:owner" (RegistryPackageId package) r Hr) as [n Ha].
  unfold m_bind at 1. rewrite Ha, (value_string_lookup _ _ _ _ Ho).
  destruct (write_allowed _ _ _ _ _) eqn:Hw; cbn [negb].
  2: { unfold m_bind at 1, lift. apply (contract_refused AddOwner _ _ _ n _ 403); [done|set_solver]. }
  unfold m_bind at 1, lift at 1, m_bind at 1, read_index at 1, m_bind at 1, gets at 1, lift at 1.
  destruct (ReadPackageIndexRecords _ _ _) as [e|releases]; [by repeat split|].
  destruct releases as [|record rest].
  { apply (contract_refused AddOwner _ _ _ n _ 404); [done|set_solver]. }
  unfold m_bind at 1, lift at 1.
  destruct (value_string _ "owner_kind" _) as [e|owner_kind]; [by repeat split|].
  unfold m_bind at 1, lift at 1.
  destruct (value_string _ "role" _) as [e|owner_role]; [by repeat split|].
  unfold m_bind at 1, UtcTimestampNow at 1, UtcTimestampPlusDays at 1, m_bind at 1.
  cbn [next_reading m_ret]. unfold m_bind at 1. rewrite on_both_memory by done.
  cbn [AddRegistryPackageOwner modify].
  apply (contract_accepted AddOwner); [by repeat split|done|].
  intros r' [Howners Htokens].
  eexists package, (mkOwner package owner_id owner_kind owner_role (RegistryActorId request) _).
  split_and!; [done|done|done|done|done|exact Howners|done].
Qed.

Lemma remove_absent_owner package owner_id s :
  HasRegistryPackageOwner package owner_id s = false ->
  set_registry_owners_ (delete (owner_store_key package owner_id) (registry_owners_ s)) s = s.
Proof.
  unfold HasRegistryPackageOwner, map_has. intros Hhas. rewrite delete_id; [by destruct s|].
  by destruct (registry_owners_ s !! _).
Qed.

Lemma contract_RemoveOwner m request r :
  postgres_ r = None ->
  access_contract RemoveOwner m request r (HandleRemovePackageOwner m request r).
Proof.
  intros Hr. unfold HandleRemovePackageOwner. apply contract_lift; [done|]. intros package Hp.
  apply contract_lift; [done|]. intros owner_id Ho.
  destruct (ValidatePackageName package) eqn:Hv; [by apply (contract_rejected RemoveOwner)|].
  destruct (authorized_memory request "package:owner" (RegistryPackageId package) r Hr) as [n Ha].
  unfold m_bind at 1. rewrite Ha.
  destruct (write_allowed _ _ _ _ _) eqn:Hw; cbn [negb].
  2: apply (contract_refused RemoveOwner _ _ _ n _ 403); [done|set_solver].
  unfold m_bind at 1. rewrite on_stores_memory by done.
  unfold RemoveRegistryPackageOwner at 1, m_bind at 1, gets at 1, modify at 1, m_bind at 1, m_ret at 1.
  cbn [memory_ tick].
  destruct (HasRegistryPackageOwner _ _ _) eqn:Hhas; cbn [negb].
  - unfold m_bind at 1, m_bind at 1, on_memory at 1, zoom at 1, RemoveRegistryPackageOwner at 1,
      m_bind at 1, gets at 1, modify at 1, m_bind at 1, m_ret at 1 2.
    apply (contract_accepted RemoveOwner); [by repeat split|done|].
    intros r' [Howners Htokens]. exists package, owner_id. split_and!; try done.
    cbn in Howners. rewrite Howners. by rewrite delete_delete_eq.
  - unfold m_bind at 1, m_ret at 1. rewrite remove_absent_owner by done.
    change (set_memory (memory_ r) (tick n r)) with (tick n r).
    apply (contract_refused RemoveOwner _ _ _ n _ 404); [done|set_solver].
Qed.

(** A failing read after steps that left the access tables alone. *)
Lemma contract_lift_after {A} op m request r r1 (v : exn + A) (k : A -> RouterM DB HttpResponse) :
  same_world r r1 -> same_access r r1 ->
  registry_audit_events_ (memory_ r1) = registry_audit_events_ (memory_ r) ->
  (forall a, v = inr a -> access_contract op m request r (k a r1)) ->
  access_contract op m request r ((m_bind (lift v) k) r1).
Proof.
  intros Hw Ha Hl Hk. unfold m_bind, lift. destruct v as [e|a]; [|by apply Hk]. by split_and!.
Qed.

Lemma contract_CreateToken m request r :
  postgres_ r = None ->
  access_contract CreateToken m request r (HandleCreatePublishToken request r).
Proof.
  intros Hr. unfold HandleCreatePublishToken.
  destruct (negb (is_object _)); [by apply (contract_rejected CreateToken)|].
  destruct (ValidateStringArray _ "scopes"); [by apply (contract_rejected CreateToken)|].
  destruct (ValidateStringArray _ "package_patterns"); [by apply (contract_rejected CreateToken)|].
  apply contract_lift; [done|]. intros owner_id Ho.
  destruct (may_manage request owner_id) eqn:Hm; cbn [negb].
  2: { pose proof (contract_refused CreateToken m request r 0 (obj [("owner_id", JString owner_id)])
         403) as Hc. rewrite tick_0 in Hc. apply Hc; [done|set_solver]. }
  unfold m_bind at 1. rewrite on_stores_memory by done. cbn [NextRegistryTokenId m_bind gets modify m_ret].
  unfold m_bind at 1, SecureRandomHex at 1, m_bind at 1. cbn [RAND_bytes].
  destruct (openssl_RAND_bytes _ _) as [random|]; [|by repeat split]. cbn [m_ret].
  do 3 (apply contract_lift_after; [by repeat split..|]; intros ? ?).
  unfold m_bind at 1, UtcTimestampNow at 1, UtcTimestampPlusDays at 1, m_bind at 1.
  cbn [next_reading m_ret]. unfold m_bind at 1. rewrite on_both_memory by done.
  cbn [UpsertRegistryPublishToken modify].
  apply (contract_accepted CreateToken); [by repeat split|done|].
  intros r' [Howners Htokens]. eexists (mkToken _ _ _ _ _ _ _ _), _.
  split_and!; [reflexivity|done|eassumption..|reflexivity|exact Hm|exact Htokens|exact Howners].
Qed.

Lemma contract_RevokeToken m request r :
  postgres_ r = None ->
  access_contract RevokeToken m request r (HandleRevokePublishToken m request r).
Proof.
  intros Hr. unfold HandleRevokePublishToken. apply contract_lift; [done|]. intros token_id Hid.
  unfold m_bind at 1. rewrite on_stores_memory by done. cbn [gets]. rewrite set_memory_same.
  destruct (GetRegistryPublishToken _ _) as [token|] eqn:Ht.
  2: { pose proof (contract_refused RevokeToken m request r 0 (obj [("token_id", JString token_id)])
         404) as Hc. rewrite tick_0 in Hc. apply Hc; [done|set_solver]. }
  destruct (may_manage _ _) eqn:Hm; cbn [negb].
  2: { pose proof (contract_refused RevokeToken m request r 0 (obj [("token_id", JString token_id)])
         403) as Hc. rewrite tick_0 in Hc. apply Hc; [done|set_solver]. }
  unfold m_bind at 1, UtcTimestampNow at 1, UtcTimestampPlusDays at 1, m_bind at 1.
  cbn [next_reading m_ret]. unfold m_bind at 1, if_postgres at 1. cbn [postgres_]. rewrite Hr.
  cbn [m_ret]. unfold m_bind at 1, on_memory at 1, zoom at 1, RevokeRegistryPublishToken at 1.
  unfold m_bind at 1, gets at 1. cbn [memory_]. rewrite Ht.
  unfold m_bind at 1, modify at 1, m_ret at 1.
  apply (contract_accepted RevokeToken); [by repeat split|done|].
  intros r' [Howners Htokens]. exists token_id, token. by split_and!.
Qed.

Lemma access_contract_holds op m request r :
  postgres_ r = None -> access_contract op m request r (run_access config op m request r).
Proof.
  destruct op; [apply contract_AddOwner|apply contract_RemoveOwner|apply contract_CreateToken
               |apply contract_RevokeToken].
Qed.
End MemoryAccess.

(** A stored token is found by its hash when no other token has that hash. *)
Lemma find_token_unique s id token :
  registry_tokens_ s !! id = Some token ->
  (forall id' t, registry_tokens_ s !! id' = Some t -> tok_token_hash t = tok_token_hash token ->
     t = token) ->
  FindRegistryPublishTokenByHash (tok_token_hash token) s = Some token.
Proof.
  intros Hid Huniq. unfold FindRegistryPublishTokenByHash.
  destruct (List.find _ _) as [[id' t]|] eqn:E.
  - apply find_items_Some in E as (Ht & Hh%str_eqb_iff & _). cbn. f_equal. by eapply Huniq.
  - rewrite find_items_None in E. specialize (E _ _ Hid). cbn in E.
    by rewrite str_eqb_refl in E.
Qed.

Section TokenLemmas.
Context {DB : Type} `{JsonLib} `{Host} `{PostgresStore DB}.
Implicit Types r : PlatformRouter DB.

Lemma token_write request scope package_id clear_token token id r :
  postgres_ r = None -> req_identity request = None ->
  RegistryTokenFromHeaders (req_headers request) = Some clear_token ->
  tok_token_hash token = Sha256Bytes clear_token ->
  registry_tokens_ (memory_ r) !! id = Some token ->
  (forall id' t, registry_tokens_ (memory_ r) !! id' = Some t ->
     tok_token_hash t = tok_token_hash token -> t = token) ->
  (RegistryWriteAuthorized request scope package_id r).1
  = inr (token_allows (now_of r) scope package_id token).
Proof.
  intros Hr Hi Hc Hh Hid Huniq.
  destruct (authorized_memory request scope package_id r Hr) as [n ->]. cbn.
  unfold write_allowed, certificate_allows, presented_token. rewrite Hi, Hc. cbn.
  rewrite <- Hh. by rewrite (find_token_unique _ id token).
Qed.

(** The outcome of an accepted operation. *)
Lemma access_accepted config op m request response r r' :
  postgres_ r = None -> run_access config op m request r = (inr response, r') ->
  status_code response = 200 ->
  postgres_ r' = None /\ access_effect op m request response r r'.
Proof.
  intros Hr Hrun Hs. pose proof (access_contract_holds config op m request r Hr) as Hc.
  rewrite Hrun in Hc. destruct Hc as [(Hp & _) [[Hc _]|(_ & _ & He)]]; [by rewrite Hs in Hc|].
  by rewrite Hs in He.
Qed.
End TokenLemmas.

(** * Properties *)

(** C34. Every run of the four operations on owners and tokens (memory store) is
    accounted for.  A request answered 400 leaves the router as it was.  One
    answered 200, 403 or 404 appends exactly one audit event, which names the
    operation, the caller and "success", "denied" or "not_found"; denied and not
    found, the owners and tokens stay as they were; accepted, they change by
    exactly the owner or token the operation is about, and the caller was
    allowed to: by an operator's certificate, package ownership or a live token
    with scope "package:owner" for owners, as operator or owner of the token for
    tokens.  An exception leaves owners, tokens and the audit log alone.  Files,
    jobs and the object store are never touched. *)
Theorem registry_access_changes_are_audited {DB} `{JsonLib} `{Host} `{PostgresStore DB}
    (config : PlatformConfig) op m request (r : PlatformRouter DB) :
  postgres_ r = None ->
  let '(answer, r') := run_access config op m request r in
  same_world r r'
  /\ match answer with
     | inl _ => same_access r r'
                /\ registry_audit_events_ (memory_ r') = registry_audit_events_ (memory_ r)
     | inr response =>
         status_code response = 400 /\ r' = r
         \/ status_code response ∈ [200; 403; 404]
            /\ audited request (access_operation op) (audit_result (status_code response)) r r'
            /\ (if status_code response =? 200 then access_effect op m request response r r'
                else same_access r r')
     end.
Proof. apply access_contract_holds. Qed.

(** The clock prints a time. *)
Definition clock_prints `{Host} : Prop := forall n days, clock_utc_timestamp n days <> EmptyString.

(** The life of a publish token (memory store, no two stored tokens with one
    hash).  When a creation is accepted, its answer carries a clear token of
    which the store keeps only the hash; a request without a certificate that
    presents it may then write what the creation asked for and nothing else:
    the requested scopes, on the packages the requested patterns match, until
    the requested expiry.  Once a revocation of it is accepted, it authorizes
    nothing any more. *)
Theorem publish_token_lifecycle {DB} `{JsonLib} `{Host} `{PostgresStore DB}
    (config : PlatformConfig) m0 request response (r0 r1 : PlatformRouter DB) :
  clock_prints -> postgres_ r0 = None ->
  run_access config CreateToken m0 request r0 = (inr response, r1) ->
  status_code response = 200 ->
  exists token clear_token,
    answered_token response = Some clear_token
    /\ registry_tokens_ (memory_ r1) !! tok_token_id token = Some token
    /\ tok_token_hash token = Sha256Bytes clear_token
    /\ JsonStringArray (req_body request) "scopes" ["package:publish"] = inr (tok_scopes token)
    /\ JsonStringArray (req_body request) "package_patterns" ["*"]
       = inr (tok_package_patterns token)
    /\ forall (r2 : PlatformRouter DB) q,
         postgres_ r2 = None ->
         registry_tokens_ (memory_ r2) = registry_tokens_ (memory_ r1) ->
         (forall id t, registry_tokens_ (memory_ r2) !! id = Some t ->
            tok_token_hash t = tok_token_hash token -> t = token) ->
         req_identity q = None ->
         RegistryTokenFromHeaders (req_headers q) = Some clear_token ->
         (forall scope package,
            (RegistryWriteAuthorized q scope package r2).1
            = inr (TokenHasScope token scope && TokenMatchesPackage token package
                   && (is_empty (tok_expires_at token)
                       || negb (str_ltb (tok_expires_at token) (now_of r2)))))
         /\ forall m2 revoker response2 (r3 r4 : PlatformRouter DB),
              parameter m2 "token_id" = inr (tok_token_id token) ->
              run_access config RevokeToken m2 revoker r2 = (inr response2, r3) ->
              status_code response2 = 200 ->
              postgres_ r4 = None ->
              registry_tokens_ (memory_ r4) = registry_tokens_ (memory_ r3) ->
              (forall id t, registry_tokens_ (memory_ r4) !! id = Some t ->
                 tok_token_hash t = tok_token_hash token -> id = tok_token_id token) ->
              forall scope package, (RegistryWriteAuthorized q scope package r4).1 = inr false.
Proof.
  intros Hclock Hr Hrun Hs. apply access_accepted in Hrun as [Hr1 He]; [|done|done].
  destruct He as (token & clear & Hh & Hrev & Hsc & Hpat & _ & Hans & _ & Htok & _).
  exists token, clear. rewrite Htok, lookup_insert_eq. split_and!; try done.
  intros r2 q Hr2 Htok2 Huniq Hq Hc.
  assert (Hid2 : registry_tokens_ (memory_ r2) !! tok_token_id token = Some token)
    by by rewrite Htok2, lookup_insert_eq.
  split.
  - intros scope package. erewrite token_write by eauto. f_equal.
    unfold token_allows, token_active. rewrite Hrev. cbn [is_empty negb orb].
    destruct (is_empty (tok_expires_at token)), (str_ltb _ _); cbn [negb andb orb];
      by rewrite ?andb_true_r, ?andb_false_r, ?andb_true_l.
  - intros m2 revoker response2 r3 r4 Hp Hrun2 Hs2 Hr4 Htok4 Huniq4 scope package.
    apply access_accepted in Hrun2 as [_ He2]; [|done|done].
    destruct He2 as (id & t & Hid & Ht & _ & Htok3 & _). rewrite Hp in Hid. injection Hid as <-.
    assert (t = token) as -> by congruence. rewrite Htok3 in Htok4.
    assert (Hid4 : registry_tokens_ (memory_ r4) !! tok_token_id token
                   = Some (set_revoked (now_of r2) token)) by by rewrite Htok4, lookup_insert_eq.
    rewrite (token_write _ _ _ clear (set_revoked (now_of r2) token) (tok_token_id token));
      [|done..|].
    + unfold token_allows, token_active. cbn [tok_revoked_at set_revoked].
      destruct (is_empty (now_of r2)) eqn:E; [|done]. apply is_empty_true in E.
      by destruct (Hclock _ _ E).
    + intros id' t' Hid' Hht. pose proof (Huniq4 _ _ Hid' Hht) as ->.
      rewrite Hid4 in Hid'. by injection Hid' as <-.
Qed.

#[local] Existing Instances demo_json_lib demo_host demo_postgres.

Definition demo_owner : MtlsIdentity := mkIdentity "package-owner" "t1" "n1".
(** The demonstration caller asks for a promotion token and then presents it. *)
Definition demo_token_request : HttpRequest :=
  mkRequest Post "" ∅ (obj [("scopes", strings ["repository:promote"])]) (Some demo_owner).
Definition demo_create := run_access default_config CreateToken (demo_match "" "")
                            demo_token_request (demo_router initial_store).
Definition demo_answer : HttpResponse := match demo_create.1 with
                                         | inr response => response
                                         | inl _ => JsonResponse 500 JNull
                                         end.

Lemma registry_access_changes_are_audited_witness :
  let '(answer, r') := run_access default_config RevokeToken (demo_match "token_id" "tok-1")
                         demo_token_request (demo_router initial_store) in
  same_world (demo_router initial_store) r'
  /\ match answer with
     | inl _ => same_access (demo_router initial_store) r'
                /\ registry_audit_events_ (memory_ r')
                   = registry_audit_events_ (memory_ (demo_router initial_store))
     | inr response =>
         status_code response = 400 /\ r' = demo_router initial_store
         \/ status_code response ∈ [200; 403; 404]
            /\ audited demo_token_request "revokePublishToken"
                 (audit_result (status_code response)) (demo_router initial_store) r'
            /\ (if status_code response =? 200
                then access_effect RevokeToken (demo_match "token_id" "tok-1") demo_token_request
                       response (demo_router initial_store) r'
                else same_access (demo_router initial_store) r')
     end.
Proof.
  apply (registry_access_changes_are_audited default_config RevokeToken); reflexivity.
Defined.

Lemma demo_clock_prints : clock_prints.
Proof. intros n days. by vm_compute. Qed.

Lemma publish_token_lifecycle_witness :
  exists token clear_token,
    answered_token demo_answer = Some clear_token
    /\ registry_tokens_ (memory_ demo_create.2) !! tok_token_id token = Some token.
Proof.
  destruct (publish_token_lifecycle default_config (demo_match "" "") demo_token_request
              demo_answer (demo_router initial_store) demo_create.2)
    as (token & clear & Ha & Ht & _);
    [exact demo_clock_prints|reflexivity|vm_compute; reflexivity|vm_compute; reflexivity|].
  exists token, clear. split; assumption.
Defined.

(** Tokens can exceed what their owner may do (memory store).  Promotion of a
    distribution is an operator's operation: the router refuses it to a package
    owner's certificate.  Yet a package owner who asks for a publish token with
    scope "repository:promote" gets one (the scopes are not compared with the
    caller's own rights), and whoever presents it without a certificate is
    authorized to promote. *)
Theorem publish_tokens_can_exceed_their_owner {DB} `{JsonLib} `{Host} `{PostgresStore DB}
    identity request bytes (r : PlatformRouter DB) :
  postgres_ r = None -> req_identity request = Some identity ->
  role identity = "package-owner" ->
  req_body request = obj [("scopes", strings ["repository:promote"])] ->
  openssl_RAND_bytes (random_draws r) 24 = Some bytes ->
  IsAuthorizedForOperation "promoteDistribution" identity = false
  /\ IsRegistryTokenCapableOperation "promoteDistribution" = true
  /\ exists response r1 token clear_token,
       HandleCreatePublishToken request r = (inr response, r1)
       /\ status_code response = 200
       /\ answered_token response = Some clear_token
       /\ registry_tokens_ (memory_ r1) !! tok_token_id token = Some token
       /\ forall q,
            req_identity q = None ->
            RegistryTokenFromHeaders (req_headers q) = Some clear_token ->
            (forall id t, registry_tokens_ (memory_ r1) !! id = Some t ->
               tok_token_hash t = tok_token_hash token -> t = token) ->
            (RegistryWriteAuthorized q "repository:promote" "" r1).1 = inr true.
Proof.
  intros Hr Hi Hrole Hbody Hrand.
  split; [unfold IsAuthorizedForOperation, RoleIn; rewrite Hrole; by vm_compute|].
  split; [by vm_compute|].
  destruct r as [s pg limiter metrics clock draws files calls]. cbn in Hr, Hrand. subst pg.
  set (clear := ("styio_pat_" +:+ ("tok-" +:+ MemoryStateStore.PaddedNumber
                   (next_registry_token_sequence_ s) 12) +:+ "_" +:+ HexBytes bytes)%string).
  eexists _, _, (mkToken _ (Sha256Bytes clear) _ ["repository:promote"%string] ["*"%string]
                   EmptyString EmptyString _), clear.
  split_and!.
  - unfold HandleCreatePublishToken. rewrite Hbody.
    change (ValidateStringArray _ "scopes") with (@None string).
    change (ValidateStringArray _ "package_patterns") with (@None string). cbn [is_object obj negb].
    unfold m_bind at 1, lift at 1.
    change (value_string _ "owner_id" _) with (@inr exn _ (RegistryActorId request)).
    cbv beta iota. unfold may_manage. rewrite Hi, str_eqb_refl, orb_true_r. cbn [negb].
    unfold m_bind at 1. rewrite on_stores_memory by done.
    cbn [NextRegistryTokenId m_bind gets modify m_ret memory_].
    unfold m_bind at 1, SecureRandomHex at 1, m_bind at 1. unfold RAND_bytes.
    cbn [random_draws set_memory]. rewrite Hrand. cbn [m_ret]. reflexivity.
  - reflexivity.
  - reflexivity.
  - cbn. by rewrite lookup_insert_eq.
  - intros q Hq Hc Huniq.
    etransitivity; [eapply token_write; [| |exact Hc| | |exact Huniq]|]; try reflexivity.
    + done.
    + cbn. apply lookup_insert_eq.
Qed.

Lemma publish_tokens_can_exceed_their_owner_witness :
  IsAuthorizedForOperation "promoteDistribution" demo_owner = false
  /\ IsRegistryTokenCapableOperation "promoteDistribution" = true.
Proof.
  destruct (publish_tokens_can_exceed_their_owner demo_owner demo_token_request (replicate 24 7)
              (demo_router initial_store)) as (H1 & H2 & _); try reflexivity.
  split; assumption.
Defined.

(** A package owner the PostgreSQL store no longer lists, say because another
    node removed it, still writes through a node whose memory holds it. *)
Lemma cached_owner_keeps_access {DB} `{JsonLib} `{Host} `{PostgresStore DB}
    identity request package_id (r : PlatformRouter DB) db :
  req_identity request = Some identity -> package_id <> EmptyString ->
  postgres_ r = Some db ->
  pg_HasRegistryPackageOwner package_id (node_id identity) db = (inr false, db) ->
  HasRegistryPackageOwner package_id (node_id identity) (memory_ r) = true ->
  RegistryWriteAuthorized request "package:yank" package_id r = (inr true, r).
Proof.
  intros Hi Hp Hr Hpg Hm. unfold RegistryWriteAuthorized, m_bind at 1. rewrite Hi.
  unfold identity_grants. destruct (role identity =s "operator"); [done|].
  change ("package:yank" =s "package:publish") with false. cbn [andb].
  change (string_in "package:yank" owner_scopes) with true.
  apply is_empty_false in Hp. rewrite Hp. cbn [negb andb].
  unfold m_bind at 1, if_postgres. rewrite Hr. unfold on_postgres. rewrite Hr, Hpg.
  unfold on_memory, zoom, gets. cbn [memory_]. rewrite Hm. destruct r; cbn in *. by subst.
Qed.
