(* ===== verification/RegistryQueries.v ===== *)
(** The registry handlers that only read: mirror and registry status, packages
    and releases, repositories, publications, distributions and release channels
    ([RegistryControlPlane.cpp], [RegistryPackageHandlers.cpp] and
    [RegistryRepositoryHandlers.cpp] of [PlatformCloud/PackageRegistry/ControlPlane],
    [PlatformCloud/PackageRegistry/ReleaseManagement/ReleaseManager.cpp]). *)
From stdpp Require Import base list gmap strings.
From Stdlib Require Import ZArith Lia Ascii String.
From S2P Require Import Prelude Json StateRecords MemoryStateStore Identity Http Config.
From S2P Require Import Paths FileSystem RouterSupport ObjectStore RegistryIdentifiers.
From S2P Require Import RegistryIndexStore RegistryAccess.

Section RegistryQueries.
Context {DB : Type} `{JsonLib} `{Host} `{PostgresStore DB} `{CurlHost curl_history}
  (config : PlatformConfig).

Abbreviation root := (registry_root (registry config)).

(** [catch (const std::exception &error) { return FailureResponse(...); }] *)
Definition or_failure (status : Z) (message category operation : string)
    (m : RouterM DB HttpResponse) : RouterM DB HttpResponse :=
  catch_std m (fun e => fail_response status message (what e) category operation 17).

(** A pure function of the file tree that may throw. *)
Definition reads {A} (f : FileTree -> exn + A) : RouterM DB A :=
  t <- gets files_ ;; lift (f t).

Definition HandleMirrorStatus (m : RouteMatch) : RouterM DB HttpResponse :=
  mirror_id <- lift (parameter m "mirror_id") ;;
  let answer mirror :=
    match mirror with
    | None => fail_response 404 "mirror freshness unavailable" "mirror cursor not found"
                "MirrorError" "mirrorStatus" 17
    | Some mirror => ok_response "loaded mirror freshness" (SerializeMirrorCursorRecord mirror)
    end in
  if_postgres
    (or_failure 503 "mirror freshness unavailable" "PostgresError" "mirrorStatus"
       (mirror <- on_postgres (pg_GetMirrorState mirror_id) ;; answer mirror))
    (mirror <- on_memory (gets (GetMirrorState mirror_id)) ;; answer mirror).

Definition UsesS3ObjectStore : bool :=
  bool_decide (ParseObjectStoreProvider (provider (object_store config)) = S3).

Definition endpoints : list (string * json) :=
  [("publish_endpoint", JString "/api/spio-registry-control/v1/publish");
   ("verify_endpoint", JString "/api/spio-registry-control/v1/verify");
   ("descriptor_endpoint", JString "/api/spio-registry-control/v1/descriptor")].

Definition HandleRegistryStatus : RouterM DB HttpResponse :=
  let failed detail := fail_response 503 "registry status failed" detail "RegistryStatusError"
                         "registryStatus" 17 in
  let payload provided config_present root_metadata_present :=
    obj ([("registry_root", JString "<redacted>"); ("key_dir", JString "<redacted>");
          ("registry_name", JString (registry_name (registry config)))] ++ provided ++
         [("root_initialized", JBool (config_present && root_metadata_present));
          ("config_present", JBool config_present);
          ("root_metadata_present", JBool root_metadata_present)] ++ endpoints) in
  if UsesS3ObjectStore then
    or_failure 503 "registry status failed" "RegistryStatusError" "registryStatus"
      (config_present <- on_remote (ObjectExists (object_store config) "config.json") ;;
       root_metadata_present <- on_remote (ObjectExists (object_store config) "trust/root.json") ;;
       ok_response "registry control plane is ready"
         (payload [("object_store_provider", JString (provider (object_store config)))]
            config_present root_metadata_present))
  else
    t <- gets files_ ;;
    if exists_ t root && negb (is_directory t root)
    then failed "registry root is not a directory"
    else if exists_ t (key_dir (registry config)) && negb (is_directory t (key_dir (registry config)))
    then failed "registry key directory is not a directory"
    else ok_response "registry control plane is ready"
           (payload [] (exists_ t (path_join root "config.json"))
              (exists_ t (path_join (path_join root "trust") "root.json"))).

Definition read_root_url_text (t : FileTree) : exn + string :=
  match RegistryReadRootUrl (file_view t) config with
  | Some url => inr url
  | None => inl (FilesystemError "cannot make absolute path" root)
  end.

Definition descriptor_payload (registry_root root_sha256 issued_at expires : string) : json :=
  obj [("schema_version", JInt 1); ("registry_name", JString (registry_name (registry config)));
       ("registry_root", JString registry_root);
       ("control_plane_base_url", JString (RegistryControlPlaneBaseUrl config));
       ("root_sha256", JString root_sha256); ("issued_at", JString issued_at);
       ("expires", JString expires);
       ("descriptor_signature", JString "platform-control-plane-mtls")].

Definition HandleRegistryDescriptor : RouterM DB HttpResponse :=
  let missing := fail_response 422 "registry descriptor failed"
                   "registry root metadata is not initialized" "RegistryDescriptorError"
                   "registryDescriptor" 17 in
  if UsesS3ObjectStore then
    or_failure 503 "registry descriptor failed" "RegistryDescriptorError" "registryDescriptor"
      (root_metadata <- on_remote (GetObjectText (object_store config) "trust/root.json") ;;
       match root_metadata with
       | None => missing
       | Some root_metadata =>
           url <- reads read_root_url_text ;;
           issued_at <- UtcTimestampNow ;;
           expires <- UtcTimestampPlusDays 31 ;;
           ok_response "published registry trust descriptor"
             (descriptor_payload url (Sha256Bytes root_metadata) issued_at expires)
       end)
  else
    let root_metadata := path_join (path_join root "trust") "root.json" in
    t <- gets files_ ;;
    if negb (exists_ t root_metadata) then missing
    else
      url <- lift (read_root_url_text t) ;;
      root_sha256 <- lift (Sha256File t root_metadata) ;;
      ok_response "published registry trust descriptor"
        (descriptor_payload url root_sha256 "2026-05-02T00:00:00Z" "2026-06-02T00:00:00Z").

(** ** Packages *)

Definition HandleGetPackage (m : RouteMatch) : RouterM DB HttpResponse :=
  package <- lift (RegistryPackageFromRoute m) ;;
  match ValidatePackageName package with
  | Some error => fail_response 400 "package lookup rejected" error "ValidationError" "getPackage" 2
  | None =>
      or_failure 404 "package lookup failed" "NotFound" "getPackage"
        (persisted <- if_postgres (on_postgres (pg_GetRegistryPackage (RegistryPackageId package)))
                        (m_ret None) ;;
         match persisted with
         | Some record =>
             releases <- on_postgres
                           (pg_ListRegistryPackageReleases (RegistryPackageId package)) ;;
             ok_response "loaded package"
               (j_set (j_set (SerializeRegistryPackageRecord record) "releases" releases)
                  "release_count" (JInt (j_size releases)))
         | None =>
             payload <- reads (PackagePayloadFromIndex root package) ;;
             ok_response "loaded package" payload
         end)
  end.

Definition HandleListPackageReleases (m : RouteMatch) : RouterM DB HttpResponse :=
  package <- lift (RegistryPackageFromRoute m) ;;
  match ValidatePackageName package with
  | Some error => fail_response 400 "package release lookup rejected" error "ValidationError"
                    "listPackageReleases" 2
  | None =>
      let answer releases := ok_response "loaded package releases"
                               (obj [("package_id", JString package); ("releases", releases)]) in
      let missing := fail_response 404 "package release lookup failed" "package is not found"
                       "NotFound" "listPackageReleases" 17 in
      releases <- read_index config package ;;
      match releases with
      | [] =>
          if_postgres
            (persisted_releases <- on_postgres
                                     (pg_ListRegistryPackageReleases (RegistryPackageId package)) ;;
             if negb (j_empty persisted_releases) then answer persisted_releases else missing)
            missing
      | _ => answer (JArray releases)
      end
  end.

Definition HandleGetPackageRelease (m : RouteMatch) : RouterM DB HttpResponse :=
  package <- lift (RegistryPackageFromRoute m) ;;
  version <- lift (parameter m "version") ;;
  match ValidatePackageName package with
  | Some error => fail_response 400 "package release lookup rejected" error "ValidationError"
                    "getPackageRelease" 2
  | None =>
      release <- reads (PackageReleasePayloadFromIndex root package version) ;;
      match release with
      | Some release => ok_response "loaded package release" release
      | None =>
          persisted_release <- if_postgres
            (on_postgres (pg_GetRegistryPackageRelease (RegistryPackageId package) version))
            (m_ret None) ;;
          match persisted_release with
          | Some record => ok_response "loaded package release"
                             (SerializeRegistryPackageReleaseRecord record)
          | None => fail_response 404 "package release lookup failed"
                      "package release is not found" "NotFound" "getPackageRelease" 17
          end
      end
  end.

(** ** Repositories, publications, distributions and channels *)

Definition default_policy : json :=
  obj [("immutable_artifacts", JBool true); ("append_only_versions", JBool true)].

Definition HandleListRepositories : RouterM DB HttpResponse :=
  repositories <- on_stores pg_ListRegistryRepositories (gets ListRegistryRepositories) ;;
  repositories <- (if j_empty repositories then
                     lift (j_push_back repositories
                       (obj [("repository_id", JString "default"); ("name", JString "default");
                             ("tenant_id", JString "platform"); ("policy", default_policy);
                             ("created_at", JString "")]))
                   else m_ret repositories) ;;
  ok_response "loaded repositories" (obj [("repositories", repositories)]).

Definition HandleListRepositoryVersions (m : RouteMatch) : RouterM DB HttpResponse :=
  repository_id <- lift (parameter m "repository_id") ;;
  versions <- on_stores (pg_ListRegistryRepositoryVersions repository_id)
                (gets (ListRegistryRepositoryVersions repository_id)) ;;
  ok_response "loaded repository versions"
    (obj [("repository_id", JString repository_id); ("versions", versions)]).

Definition publication_root (publication_id : string) : string :=
  path_join (path_join root "_publications") publication_id.
Definition publication_path (publication_id : string) : string :=
  path_join (publication_root publication_id) "publication.json".

Definition read_json (path : string) (t : FileTree) : exn + json :=
  text <-? ReadFileBytes path t ;; parse_json text.

Definition HandleGetPublication (m : RouteMatch) : RouterM DB HttpResponse :=
  publication_id <- lift (parameter m "publication_id") ;;
  t <- gets files_ ;;
  if negb (exists_ t (publication_path publication_id)) then
    fail_response 404 "publication lookup failed" "publication is not found" "NotFound"
      "getPublication" 17
  else
    payload <- lift (read_json (publication_path publication_id) t) ;;
    record <- on_stores (pg_GetRegistryPublication publication_id)
                (gets (GetRegistryPublication publication_id)) ;;
    match record with
    | Some record =>
        payload <- lift (j_assign payload "control_plane_record"
                           (SerializeRegistryPublicationRecord record)) ;;
        ok_response "loaded publication" payload
    | None => ok_response "loaded publication" payload
    end.

(** A digest recorded in a publication matches the directory. *)
Definition digest_matches (publication_id key directory : string) (publication : json)
    (t : FileTree) : exn + bool :=
  recorded <-? value_string publication key "" ;;
  digest <-? DirectoryDigest (path_join (publication_root publication_id) directory) t ;;
  inr (recorded =s digest).

Definition HandleVerifyPublication (m : RouteMatch) (request : HttpRequest)
  : RouterM DB HttpResponse :=
  let op := "verifyPublication" in
  if negb (is_object (req_body request)) || negb (j_empty (req_body request)) then
    fail_response 400 "publication verification rejected"
      "verify request must be an empty JSON object" "VerifyError" op 2
  else
    publication_id <- lift (parameter m "publication_id") ;;
    t <- gets files_ ;;
    if negb (exists_ t (publication_path publication_id)) then
      fail_response 404 "publication verification failed" "publication is not found" "NotFound" op 17
    else
      or_failure 422 "publication verification failed" "VerifyError" op
        (publication <- lift (read_json (publication_path publication_id) t) ;;
         index_ok <- lift (digest_matches publication_id "index_digest" "index" publication t) ;;
         trust_ok <- lift (digest_matches publication_id "trust_digest" "trust" publication t) ;;
         if negb index_ok || negb trust_ok then
           fail_response 422 "publication verification failed" "publication digest mismatch"
             "VerifyError" op 17
         else
           publication <- lift (j_assign publication "verified" (JBool true)) ;;
           ok_response "verified publication" publication).

(** [current.has_value() ? current->value(key, "") : ""]. *)
Definition pointer_field (current : option json) (key : string) : exn + string :=
  match current with Some current => value_string current key "" | None => inr EmptyString end.

Definition HandleListDistributions : RouterM DB HttpResponse :=
  distributions <- on_stores pg_ListRegistryDistributions (gets ListRegistryDistributions) ;;
  distributions <-
    (if j_empty distributions then
       current <- reads (CurrentDistributionPointer root "default") ;;
       url <- reads read_root_url_text ;;
       current_id <- lift (pointer_field current "publication_id") ;;
       previous_id <- lift (pointer_field current "previous_publication_id") ;;
       updated_at <- lift (pointer_field current "updated_at") ;;
       lift (j_push_back distributions
         (obj [("distribution_id", JString "default"); ("repository_id", JString "default");
               ("name", JString "default"); ("base_url", JString url);
               ("current_publication_id", JString current_id);
               ("previous_publication_id", JString previous_id);
               ("updated_at", JString updated_at)]))
     else m_ret distributions) ;;
  ok_response "loaded distributions" (obj [("distributions", distributions)]).

(** A stream that does not open gives an empty text to the parser. *)
Definition ListReleaseChannels (registry_root : string) (t : FileTree) : exn + json :=
  let channels := path_join registry_root "_release_channels" in
  if negb (exists_ t channels) then inr (JArray [])
  else
    plans <-? traverse (fun p => parse_json (default EmptyString (open_in t p)))
               (List.filter (fun p => is_regular_file t p && (extension p =s ".json"))
                  (directory_iterator t channels)) ;;
    inr (JArray plans).

Definition HandleListReleaseChannels : RouterM DB HttpResponse :=
  channels <- reads (ListReleaseChannels root) ;;
  ok_response "loaded release channels" (obj [("channels", channels)]).
End RegistryQueries.
