(* ===== verification/Frames.v ===== *)
(** What a computation leaves alone: a relation between the state before and the
    state after every run, whatever its outcome, composed along the computation. *)
From stdpp Require Import base list gmap strings.
From Stdlib Require Import ZArith String.
From S2P Require Import Prelude Json StateRecords MemoryStateStore Http FileSystem RouterSupport.
From S2P Require Import ObjectStore RegistryAccess RegistryQueries.

Create HintDb frames.

(** Every run of [m] relates its states by [R]. *)
Definition keeps {E S A} (R : S -> S -> Prop) (m : M E S A) : Prop := forall s, R s (m s).2.

Section Keeps.
Context {E S : Type} (R : S -> S -> Prop) `{!PreOrder R}.
Implicit Types s : S.

Lemma keeps_ret {A} (a : A) : @keeps E S A R (m_ret a).
Proof. by intros s. Qed.
Lemma keeps_throw {A} (e : E) : @keeps E S A R (throw e).
Proof. by intros s. Qed.
Lemma keeps_lift {A} (v : E + A) : @keeps E S A R (lift v).
Proof. by intros s. Qed.
Lemma keeps_gets {A} (f : S -> A) : @keeps E S A R (gets f).
Proof. by intros s. Qed.

Lemma keeps_bind {A B} (m : M E S A) (k : A -> M E S B) :
  keeps R m -> (forall a, keeps R (k a)) -> keeps R (m_bind m k).
Proof.
  intros Hm Hk s. unfold m_bind. specialize (Hm s). destruct (m s) as [[e|a] s1]; [done|].
  etransitivity; [apply Hm|apply Hk].
Qed.

Lemma keeps_catch {A} (m : M E S A) (h : E -> M E S A) :
  keeps R m -> (forall e, keeps R (h e)) -> keeps R (catch m h).
Proof.
  intros Hm Hh s. unfold catch. specialize (Hm s). destruct (m s) as [[e|a] s1]; [|done].
  etransitivity; [apply Hm|apply Hh].
Qed.

Lemma keeps_traverse {A B} (f : A -> M E S B) l :
  (forall a, keeps R (f a)) -> keeps R (traverse_m f l).
Proof.
  intros Hf. induction l as [|a l IH]; [apply keeps_ret|]. cbn [traverse_m].
  apply keeps_bind; [done|]. intros b. apply keeps_bind; [done|]. intros bs. apply keeps_ret.
Qed.
End Keeps.

Lemma keeps_catch_std {S A} (R : S -> S -> Prop) `{!PreOrder R} (m : M exn S A) h :
  keeps R m -> (forall e, keeps R (h e)) -> keeps R (catch_std m h).
Proof.
  intros Hm Hh. apply keeps_catch; [done..|]. intros []; try apply Hh. by apply keeps_throw.
Qed.

(** The result of a step that keeps [R]. *)
Lemma keeps_run {E S A} (R : S -> S -> Prop) (m : M E S A) s res s' :
  keeps R m -> m s = (res, s') -> R s s'.
Proof. intros Hm E1. specialize (Hm s). by rewrite E1 in Hm. Qed.

(** ** Relations on the router *)

(** The two stores are left alone. *)
Definition same_stores {DB} (r r' : PlatformRouter DB) : Prop :=
  memory_ r' = memory_ r /\ postgres_ r' = postgres_ r.

#[export] Instance same_stores_preorder {DB} : PreOrder (@same_stores DB).
Proof.
  split; [by split|]. intros r1 r2 r3 [H1 H2] [H3 H4]. split; congruence.
Qed.

(** Without a PostgreSQL store, one that stays away and a memory store that moves
    by [R]. *)
Definition memory_moves {DB} (R : MemoryStateStore -> MemoryStateStore -> Prop)
    (r r' : PlatformRouter DB) : Prop :=
  postgres_ r = None -> postgres_ r' = None /\ R (memory_ r) (memory_ r').

#[export] Instance memory_moves_preorder {DB} R `{!PreOrder R} : PreOrder (@memory_moves DB R).
Proof.
  split.
  - intros r Hr. by split.
  - intros r1 r2 r3 H1 H2 Hr. destruct (H1 Hr) as [Hr2 H12]. destruct (H2 Hr2) as [Hr3 H23].
    split; [done|]. by etransitivity.
Qed.

Section RouterKeeps.
Context {DB : Type}.

Lemma stores_on_files {A} (m : M exn FileTree A) : keeps (@same_stores DB) (on_files m).
Proof. intros r. unfold on_files, zoom. by destruct (m (files_ r)). Qed.
Lemma stores_on_remote {A} (m : M exn curl_history A) : keeps (@same_stores DB) (on_remote m).
Proof. intros r. unfold on_remote, zoom. by destruct (m (curl_calls r)). Qed.
Lemma stores_clock `{Host} days : keeps (@same_stores DB) (UtcTimestampPlusDays days).
Proof. by intros r. Qed.
Lemma stores_reading : keeps (@same_stores DB) next_reading.
Proof. by intros r. Qed.
Lemma stores_random `{Host} n : keeps (@same_stores DB) (RAND_bytes n).
Proof. by intros r. Qed.

(** What leaves both stores alone moves the memory store by every preorder. *)
Lemma keeps_stores {A} R `{!PreOrder R} (m : RouterM DB A) :
  keeps same_stores m -> keeps (memory_moves R) m.
Proof. intros Hm r Hr. destruct (Hm r) as [-> ->]. by split. Qed.

Lemma moves_on_memory {A} R (m : M exn MemoryStateStore A) :
  keeps R m -> keeps (@memory_moves DB R) (on_memory m).
Proof.
  intros Hm r Hr. unfold on_memory, zoom. specialize (Hm (memory_ r)).
  by destruct (m (memory_ r)).
Qed.
Lemma moves_if_postgres {A} R (p m : RouterM DB A) :
  keeps (memory_moves R) m -> keeps (memory_moves R) (if_postgres p m).
Proof. intros Hm r Hr. unfold if_postgres. rewrite Hr. by apply Hm. Qed.
Lemma moves_on_both R `{!PreOrder R} (p : M exn DB unit) m :
  keeps R m -> keeps (memory_moves R) (on_both p m).
Proof.
  intros Hm. apply keeps_bind; [apply _| |].
  - apply moves_if_postgres, keeps_ret, _.
  - intros _. by apply moves_on_memory.
Qed.
End RouterKeeps.

#[export] Hint Resolve stores_on_files stores_on_remote stores_clock stores_reading
  stores_random : frames.

(** The frame of a computation by its structure. *)
Ltac frame :=
  repeat match goal with
  | |- keeps _ (m_ret _) => apply keeps_ret, _
  | |- keeps _ (throw _) => apply keeps_throw, _
  | |- keeps _ (lift _) => apply keeps_lift, _
  | |- keeps _ (gets _) => apply keeps_gets, _
  | |- keeps _ (m_bind _ _) => apply keeps_bind; [apply _| |intros ?]
  | |- keeps _ (catch_std _ _) => apply keeps_catch_std; [apply _| |intros ?]
  | |- keeps _ (catch _ _) => apply keeps_catch; [apply _| |intros ?]
  | |- keeps _ (traverse_m _ _) => apply keeps_traverse; [apply _|intros ?]
  | |- keeps (memory_moves _) (if_postgres _ _) => apply moves_if_postgres
  | |- keeps (memory_moves _) (on_memory _) => apply moves_on_memory
  | |- keeps (memory_moves _) (on_both _ _) => apply moves_on_both; [apply _|]
  | |- keeps _ (reads _) => unfold reads
  | |- keeps _ UtcTimestampNow => apply stores_clock
  | |- keeps _ (if ?b then _ else _) => destruct b
  | |- keeps _ (match ?x with _ => _ end) => destruct x
  | |- keeps (memory_moves _) _ => apply keeps_stores; [apply _|solve [eauto with frames]]
  | _ => solve [eauto with frames]
  end.
