(* ===== verification/PostgresFacts.v ===== *)
(** The conversation of the PostgreSQL store with its server: every statement is one of
    a fixed list, whatever the data, and transactions happen whole or not at all. *)
From stdpp Require Import base list gmap strings.
From Stdlib Require Import ZArith Lia Ascii String.
From S2P Require Import Prelude Json StateRecords Config RouterSupport PostgresSql Postgres Frames.

(** ** A server that keeps a log *)

(** A connection that was opened or refused, a statement with its parameters and
    whether the server accepted it, a connection that was closed. *)
Inductive pg_event :=
| Opened
| Refused
| Sent (sql : string) (params : list string) (accepted : bool)
| Closed.

Definition accepted {A B} (outcome : A + B) : bool :=
  match outcome with inr _ => true | inl _ => false end.

(** The same server, its log beside it. *)
Definition recording {Server} `{LibPq Server} : LibPq (Server * list pg_event) :=
  {| HAS_LIBPQ := HAS_LIBPQ; PGconn := PGconn;
     server_at := fun dsn => (server_at dsn, []);
     PQconnectdb := fun dsn s =>
       let '(r, s') := PQconnectdb dsn s.1 in
       (r, (s', s.2 ++ [if accepted r then Opened else Refused]));
     PQexec := fun c sql s =>
       let '(r, s') := PQexec c sql s.1 in (r, (s', s.2 ++ [Sent sql [] (accepted r)]));
     PQexecParams := fun c sql params s =>
       let '(r, s') := PQexecParams c sql params s.1 in (r, (s', s.2 ++ [Sent sql params (accepted r)]));
     PQfinish := fun c s => (PQfinish c s.1, s.2 ++ [Closed]) |}.

(** ** The operations of the store *)

Inductive store_call :=
| CallApplyMigrations | CallUpsertNode (config : PlatformConfig)
| CallNextJobId | CallSubmitJob (job : PlatformJobRecord) | CallGetJob (job_id : string)
| CallGetJobEvents (job_id : string) | CallCancelJob (job_id reason : string)
| CallRegisterWorker (worker : json) | CallRegisterCompileContainer (container : CompileContainerRecord)
| CallGetCompileContainer (container_id : string)
| CallSwitchCompileContainerWorkspace (container_id worker_id workspace_id reason : string)
| CallClaimJob (worker_id region worker_pool_key : string)
| CallClaimJobForCompileContainer (worker_id region worker_pool_key container_id : string)
| CallHeartbeatJob (job_id worker_id message : string)
| CallCompleteJob (job_id worker_id status message : string) (artifacts : list ArtifactRecord) (result : json)
| CallRegisterWorkgroupCluster (workgroup_id : string) (cluster : json)
| CallListWorkgroupClusters (workgroup_id : string)
| CallRecordMirrorState (mirror_id region origin freshness replay_cursor publication_id
    repository_version_id synced_at : string) (tree_size : Z)
| CallGetMirrorState (mirror_id : string)
| CallUpsertRegistryPackage (record : RegistryPackageRecord) | CallGetRegistryPackage (package_id : string)
| CallListRegistryPackages | CallUpsertRegistryPackageRelease (record : RegistryPackageReleaseRecord)
| CallGetRegistryPackageRelease (package_id version : string)
| CallListRegistryPackageReleases (package_id : string)
| CallSetRegistryPackageReleaseYanked (package_id version : string) (yanked : bool) (reason : string)
| CallAddRegistryPackageOwner (record : RegistryPackageOwnerRecord)
| CallRemoveRegistryPackageOwner (package_id owner_id : string)
| CallHasRegistryPackageOwner (package_id owner_id : string)
| CallListRegistryPackageOwners (package_id : string) | CallNextRegistryTokenId
| CallUpsertRegistryPublishToken (record : RegistryPublishTokenRecord)
| CallGetRegistryPublishToken (token_id : string) | CallFindRegistryPublishTokenByHash (token_hash : string)
| CallListRegistryPublishTokens (owner_id : string)
| CallRevokeRegistryPublishToken (token_id revoked_at : string)
| CallNextRepositoryVersionSequence (repository_id : string)
| CallUpsertRegistryRepository (record : RegistryRepositoryRecord) | CallListRegistryRepositories
| CallRecordRegistryRepositoryVersion (record : RegistryRepositoryVersionRecord)
| CallListRegistryRepositoryVersions (repository_id : string)
| CallRecordRegistryPublication (record : RegistryPublicationRecord)
| CallGetRegistryPublication (publication_id : string) | CallListRegistryPublications
| CallUpsertRegistryDistribution (record : RegistryDistributionRecord)
| CallGetRegistryDistribution (distribution_id : string) | CallListRegistryDistributions
| CallNextRegistryAuditEventId | CallRecordRegistryAuditEvent (record : RegistryAuditEventRecord)
| CallListRegistryAuditEvents.

Definition ignore {E S A} (m : M E S A) : M E S unit := m ;;; m_ret tt.

Definition run_call {Server} `{JsonLib} `{LibPq Server} (call : store_call) : M exn (PgStore Server) unit :=
  match call with
  | CallApplyMigrations => ApplyMigrations
  | CallUpsertNode config => UpsertNode config
  | CallNextJobId => ignore NextJobId
  | CallSubmitJob job => SubmitJob job
  | CallGetJob id => ignore (GetJob id)
  | CallGetJobEvents id => ignore (GetJobEvents id)
  | CallCancelJob id reason => ignore (CancelJob id reason)
  | CallRegisterWorker worker => ignore (RegisterWorker worker)
  | CallRegisterCompileContainer container => ignore (RegisterCompileContainer container)
  | CallGetCompileContainer id => ignore (GetCompileContainer id)
  | CallSwitchCompileContainerWorkspace id worker workspace reason =>
      ignore (SwitchCompileContainerWorkspace id worker workspace reason)
  | CallClaimJob worker region pool => ignore (ClaimJob worker region pool)
  | CallClaimJobForCompileContainer worker region pool id =>
      ignore (ClaimJobForCompileContainer worker region pool id)
  | CallHeartbeatJob id worker message => ignore (HeartbeatJob id worker message)
  | CallCompleteJob id worker status message artifacts result =>
      ignore (CompleteJob id worker status message artifacts result)
  | CallRegisterWorkgroupCluster id cluster => ignore (RegisterWorkgroupCluster id cluster)
  | CallListWorkgroupClusters id => ignore (ListWorkgroupClusters id)
  | CallRecordMirrorState a b c d e f g h n => RecordMirrorState a b c d e f g h n
  | CallGetMirrorState id => ignore (GetMirrorState id)
  | CallUpsertRegistryPackage record => UpsertRegistryPackage record
  | CallGetRegistryPackage id => ignore (GetRegistryPackage id)
  | CallListRegistryPackages => ignore ListRegistryPackages
  | CallUpsertRegistryPackageRelease record => UpsertRegistryPackageRelease record
  | CallGetRegistryPackageRelease id version => ignore (GetRegistryPackageRelease id version)
  | CallListRegistryPackageReleases id => ignore (ListRegistryPackageReleases id)
  | CallSetRegistryPackageReleaseYanked id version yanked reason =>
      ignore (SetRegistryPackageReleaseYanked id version yanked reason)
  | CallAddRegistryPackageOwner record => AddRegistryPackageOwner record
  | CallRemoveRegistryPackageOwner id owner => ignore (RemoveRegistryPackageOwner id owner)
  | CallHasRegistryPackageOwner id owner => ignore (HasRegistryPackageOwner id owner)
  | CallListRegistryPackageOwners id => ignore (ListRegistryPackageOwners id)
  | CallNextRegistryTokenId => ignore NextRegistryTokenId
  | CallUpsertRegistryPublishToken record => UpsertRegistryPublishToken record
  | CallGetRegistryPublishToken id => ignore (GetRegistryPublishToken id)
  | CallFindRegistryPublishTokenByHash hash => ignore (FindRegistryPublishTokenByHash hash)
  | CallListRegistryPublishTokens owner => ignore (ListRegistryPublishTokens owner)
  | CallRevokeRegistryPublishToken id revoked_at => ignore (RevokeRegistryPublishToken id revoked_at)
  | CallNextRepositoryVersionSequence id => ignore (NextRepositoryVersionSequence id)
  | CallUpsertRegistryRepository record => UpsertRegistryRepository record
  | CallListRegistryRepositories => ignore ListRegistryRepositories
  | CallRecordRegistryRepositoryVersion record => RecordRegistryRepositoryVersion record
  | CallListRegistryRepositoryVersions id => ignore (ListRegistryRepositoryVersions id)
  | CallRecordRegistryPublication record => RecordRegistryPublication record
  | CallGetRegistryPublication id => ignore (GetRegistryPublication id)
  | CallListRegistryPublications => ignore ListRegistryPublications
  | CallUpsertRegistryDistribution record => UpsertRegistryDistribution record
  | CallGetRegistryDistribution id => ignore (GetRegistryDistribution id)
  | CallListRegistryDistributions => ignore ListRegistryDistributions
  | CallNextRegistryAuditEventId => ignore NextRegistryAuditEventId
  | CallRecordRegistryAuditEvent record => RecordRegistryAuditEvent record
  | CallListRegistryAuditEvents => ignore ListRegistryAuditEvents
  end.

(** ** Statements *)

(** The statements that read and write data. *)
Definition data_statements : list string :=
  [cloud_kernel; user_bound_compile_containers; package_registry_repository_model;
   sql_upsert_node; sql_next_job; sql_insert_tenant; sql_insert_job; sql_insert_event;
   JobSelectSql "WHERE job_id = $1"; sql_artifacts; sql_job_events; sql_cancel_job;
   sql_upsert_worker; sql_registered_worker; sql_lock_container; sql_upsert_container;
   CompileContainerSelectSql "WHERE container_id = $1"; CompileContainerSelectSql active_container_clause;
   sql_switch_container; ClaimJobSql; sql_claim_for_container; sql_follow_job; sql_heartbeat;
   CompleteJobSql; sql_delete_artifacts; sql_insert_artifact; sql_upsert_cluster; sql_clusters;
   sql_upsert_mirror; sql_mirror; sql_upsert_package;
   RegistryPackageSelectSql "WHERE package_id = $1"; RegistryPackageSelectSql "ORDER BY namespace, name";
   sql_upsert_release; RegistryReleaseSelectSql "WHERE package_id = $1 AND version = $2";
   RegistryReleaseSelectSql "WHERE package_id = $1 ORDER BY published_at ASC, version ASC";
   sql_yank_release; sql_upsert_owner; sql_delete_owner; sql_has_owner; sql_owners; sql_next_token;
   sql_upsert_token; RegistryTokenSelectSql "WHERE token_id = $1";
   RegistryTokenSelectSql "WHERE token_hash = $1";
   RegistryTokenSelectSql "ORDER BY created_at DESC, token_id ASC";
   RegistryTokenSelectSql "WHERE owner_id = $1 ORDER BY created_at DESC, token_id ASC";
   sql_revoke_token; sql_next_version; sql_upsert_repository; sql_repositories; sql_insert_version;
   sql_versions; sql_upsert_publication; sql_publication; sql_publications; sql_upsert_distribution;
   sql_distribution; sql_distributions; sql_next_audit; sql_insert_audit; sql_audit_events].

(** Every statement sent for data is one of them. *)
Definition data_event (e : pg_event) : Prop :=
  match e with Sent sql _ _ => sql ∈ map c_str data_statements | _ => False end.
Definition accepted_event (e : pg_event) : Prop :=
  match e with Sent _ _ accepted => accepted = true | _ => True end.
Definition command (word : string) (accepted : bool) : pg_event := Sent word [] accepted.

(** A transaction: it does not start; it ends after statements that were all accepted;
    a failure of any kind rolls it back; or its end is refused and it is rolled back. *)
Inductive transaction_log : bool -> list pg_event -> Prop :=
| transaction_refused : transaction_log false [command "BEGIN" false]
| transaction_ended stmts word : Forall data_event stmts -> Forall accepted_event stmts ->
    word = "COMMIT"%string \/ word = "ROLLBACK"%string ->
    transaction_log true (command "BEGIN" true :: stmts ++ [command word true])
| transaction_aborted stmts accepted : Forall data_event stmts ->
    transaction_log false (command "BEGIN" true :: stmts ++ [command "ROLLBACK" accepted])
| transaction_not_ended stmts word accepted : Forall data_event stmts -> Forall accepted_event stmts ->
    word = "COMMIT"%string \/ word = "ROLLBACK"%string ->
    transaction_log false
      (command "BEGIN" true :: stmts ++ [command word false; command "ROLLBACK" accepted]).

(** A connection without a transaction; every statement of one that returns was
    accepted. *)
Inductive query_log : bool -> list pg_event -> Prop :=
| query_without_driver : query_log false []
| query_refused : query_log false [Refused]
| query_run returned stmts : Forall data_event stmts ->
    (returned = true -> Forall accepted_event stmts) ->
    query_log returned (Opened :: stmts ++ [Closed]).

(** The operations that send a transaction. *)
Definition transactional (call : store_call) : bool :=
  match call with
  | CallSubmitJob _ | CallCancelJob _ _ | CallRegisterCompileContainer _ | CallClaimJob _ _ _
  | CallClaimJobForCompileContainer _ _ _ _ | CallCompleteJob _ _ _ _ _ _ => true
  | _ => false
  end.

(** The statements by which each of the other operations writes, in their order: none
    or one, but for the migrations and the heartbeat of a job. *)
Definition write_plan (call : store_call) : list string :=
  match call with
  | CallApplyMigrations => map migration_sql CloudKernelMigrations
  | CallHeartbeatJob _ _ _ => [sql_heartbeat; sql_insert_event]
  | CallUpsertNode _ => [sql_upsert_node]
  | CallRegisterWorker _ => [sql_upsert_worker]
  | CallSwitchCompileContainerWorkspace _ _ _ _ => [sql_switch_container]
  | CallRegisterWorkgroupCluster _ _ => [sql_upsert_cluster]
  | CallRecordMirrorState _ _ _ _ _ _ _ _ _ => [sql_upsert_mirror]
  | CallUpsertRegistryPackage _ => [sql_upsert_package]
  | CallUpsertRegistryPackageRelease _ => [sql_upsert_release]
  | CallSetRegistryPackageReleaseYanked _ _ _ _ => [sql_yank_release]
  | CallAddRegistryPackageOwner _ => [sql_upsert_owner]
  | CallRemoveRegistryPackageOwner _ _ => [sql_delete_owner]
  | CallUpsertRegistryPublishToken _ => [sql_upsert_token]
  | CallRevokeRegistryPublishToken _ _ => [sql_revoke_token]
  | CallUpsertRegistryRepository _ => [sql_upsert_repository]
  | CallRecordRegistryRepositoryVersion _ => [sql_insert_version]
  | CallRecordRegistryPublication _ => [sql_upsert_publication]
  | CallUpsertRegistryDistribution _ => [sql_upsert_distribution]
  | CallRecordRegistryAuditEvent _ => [sql_insert_audit]
  | _ => []
  end.
(** The operations that write in several statements outside a transaction. *)
Definition piecemeal (call : store_call) : bool :=
  match call with CallApplyMigrations | CallHeartbeatJob _ _ _ => true | _ => false end.

(** What a conversation writes: every statement but a SELECT. *)
Definition writing (e : pg_event) : bool :=
  match e with Sent sql _ _ => negb (str_starts_with sql "SELECT") | _ => false end.
Definition writes_of (log : list pg_event) : list pg_event := List.filter writing log.

(** Writes follow a plan as far as it is accepted. *)
Inductive follows_plan : list string -> list pg_event -> Prop :=
| plan_stopped plan : follows_plan plan []
| plan_refused sql params plan : follows_plan (sql :: plan) [Sent sql params false]
| plan_accepted sql params plan writes : follows_plan plan writes ->
    follows_plan (sql :: plan) (Sent sql params true :: writes).

(** A call: statements or, for those operations, a transaction on one connection, and
    at most one further connection while it is open.  Nothing follows a transaction
    that did not end. *)
Inductive call_log : bool -> bool -> list pg_event -> Prop :=
| call_query returned log : query_log returned log -> call_log false returned log
| call_nested returned stmts log : Forall data_event stmts ->
    (returned = true -> Forall accepted_event stmts) -> log = [] \/ query_log returned log ->
    call_log false returned (Opened :: stmts ++ log ++ [Closed])
| call_without_driver : call_log true false []
| call_refused : call_log true false [Refused]
| call_transaction returned ended stmts log : transaction_log ended stmts ->
    (ended = false -> returned = false /\ log = []) -> log = [] \/ query_log returned log ->
    call_log true returned (Opened :: stmts ++ log ++ [Closed]).

(** ** What a computation adds to the log *)

Section Logs.
Context {Server : Type} `{JsonLib} {Driver : LibPq Server}.
Abbreviation driver_exec := (@PQexec _ Driver).
Abbreviation driver_params := (@PQexecParams _ Driver).
Abbreviation driver_connect := (@PQconnectdb _ Driver).
#[local] Instance recorded : LibPq (Server * list pg_event) := recording.
Abbreviation ServerM := (M exn (Server * list pg_event)).
Abbreviation StoreM := (M exn (PgStore (Server * list pg_event))).

Definition emits {A} (P : exn + A -> list pg_event -> Prop) (m : ServerM A) : Prop :=
  forall s, exists new, (m s).2.2 = s.2 ++ new /\ P (m s).1 new.

Lemma emits_ret {A} (P : exn + A -> list pg_event -> Prop) a : P (inr a) [] -> emits P (m_ret a).
Proof. intros HP s. exists []. by rewrite app_nil_r. Qed.
Lemma emits_throw {A} (P : exn + A -> list pg_event -> Prop) e : P (inl e) [] -> emits P (throw e).
Proof. intros HP s. exists []. by rewrite app_nil_r. Qed.
Lemma emits_bind {A B} (P : exn + A -> list pg_event -> Prop) (Q : exn + B -> list pg_event -> Prop)
    (R : A -> exn + B -> list pg_event -> Prop) (m : ServerM A) (k : A -> ServerM B) :
  emits P m -> (forall a, emits (R a) (k a)) ->
  (forall e new, P (inl e) new -> Q (inl e) new) ->
  (forall a r new new', P (inr a) new -> R a r new' -> Q r (new ++ new')) ->
  emits Q (m_bind m k).
Proof.
  intros Hm Hk He Hr s. destruct (Hm s) as (new & E & HP). unfold m_bind.
  destruct (m s) as [[e|a] s1]; cbn in *.
  - exists new. split; [done|by apply He].
  - destruct (Hk a s1) as (new' & E' & HR). exists (new ++ new').
    rewrite E', E, (assoc_L (++)). split; [done|by eapply Hr].
Qed.

(** Data statements, all accepted where the computation returns. *)
Definition stepped {A} (r : exn + A) (new : list pg_event) : Prop :=
  Forall data_event new /\ (accepted r = true -> Forall accepted_event new).
Definition steps {A} (m : ServerM A) : Prop := emits stepped m.

Lemma steps_ret {A} (a : A) : steps (m_ret a).
Proof. apply emits_ret. by split. Qed.
Lemma steps_throw {A} e : steps (@throw exn _ A e).
Proof. apply emits_throw. by split. Qed.
Lemma steps_lift {A} (r : exn + A) : steps (lift r).
Proof. destruct r; [apply steps_throw|apply steps_ret]. Qed.
Lemma steps_bind {A B} (m : ServerM A) (k : A -> ServerM B) :
  steps m -> (forall a, steps (k a)) -> steps (m_bind m k).
Proof.
  intros Hm Hk. eapply (emits_bind stepped stepped (fun _ => stepped)); [done|done| |].
  - intros e new [HF _]. by split.
  - intros a r new new' [H1 H2] [H3 H4]. split; [by apply Forall_app|].
    intros Hr. apply Forall_app. split; [by apply H2|by apply H4].
Qed.
Lemma steps_params c sql params : sql ∈ data_statements -> steps (ExecParams c sql params).
Proof.
  intros Hin [s log]. unfold ExecParams, succeeded. cbn.
  destruct (driver_params c (c_str sql) (map c_str params) s) as [r s']. cbn.
  exists [Sent (c_str sql) (map c_str params) (accepted r)]. split; [done|].
  assert (Hd : c_str sql ∈ map c_str data_statements) by by apply list_elem_of_fmap_2.
  destruct r; (split; [by constructor|]); cbn; [done|]. intros _. by repeat constructor.
Qed.
Lemma steps_exec c sql : sql ∈ data_statements -> steps (Exec c sql).
Proof.
  intros Hin [s log]. unfold Exec, m_bind, succeeded. cbn.
  destruct (driver_exec c (c_str sql) s) as [r s']. cbn.
  exists [Sent (c_str sql) [] (accepted r)].
  assert (Hd : c_str sql ∈ map c_str data_statements) by by apply list_elem_of_fmap_2.
  destruct r; cbn; (split; [done|]); (split; [by constructor|]); [done|]. intros _. by repeat constructor.
Qed.
Lemma steps_traverse {A B} (f : A -> ServerM B) l :
  (forall a, a ∈ l -> steps (f a)) -> steps (traverse_m f l).
Proof.
  induction l as [|a l IH]; intros Hf; [apply steps_ret|]. cbn [traverse_m].
  apply steps_bind; [apply Hf; by constructor|]. intros b. apply steps_bind.
  - apply IH. intros a' Ha. apply Hf. by constructor.
  - intros bs. apply steps_ret.
Qed.

(** The body of a transaction: data statements and, where it returns, one end. *)
Definition end_word (word : string) : Prop := word = "COMMIT"%string \/ word = "ROLLBACK"%string.
Definition finished {A} (r : exn + A) (new : list pg_event) : Prop :=
  (accepted r = false /\ Forall data_event new)
  \/ exists stmts word, new = stmts ++ [command word (accepted r)] /\ end_word word
     /\ Forall data_event stmts /\ Forall accepted_event stmts.
Definition finishes {A} (m : ServerM A) : Prop := emits finished m.

Lemma finishes_bind {A B} (m : ServerM A) (k : A -> ServerM B) :
  steps m -> (forall a, finishes (k a)) -> finishes (m_bind m k).
Proof.
  intros Hm Hk. eapply (emits_bind stepped finished (fun _ => finished)); [done|done| |].
  - intros e new [HF _]. by left.
  - intros a r new new' [H1 H2] [[Hr H3]|(stmts & word & -> & Hw & H3 & H4)].
    + left. split; [done|by apply Forall_app].
    + right. exists (new ++ stmts), word. rewrite (assoc_L (++)). split_and!; [done|done| |].
      * by apply Forall_app.
      * apply Forall_app. split; [by apply H2|done].
Qed.
Lemma finishes_throw {A} e : finishes (@throw exn _ A e).
Proof. apply emits_throw. by left. Qed.
(** A command and what the server made of it. *)
Lemma Exec_command c (word : string) s log : c_str word = word ->
  exists (r : exn + unit) s', Exec c word (s, log) = (r, (s', log ++ [command word (accepted r)])).
Proof.
  intros Hw. unfold Exec, m_bind, succeeded. cbn. rewrite Hw.
  destruct (driver_exec c word s) as [[e|res] s']; cbn.
  - by exists (inl (pg_failed ("postgres command failed: " +:+ e))), s'.
  - by exists (inr tt), s'.
Qed.
Lemma finishes_word {A} c word (a : A) : end_word word -> finishes (Exec c word ;;; m_ret a).
Proof.
  intros Hw [s log]. destruct (Exec_command c word s log) as (r & s' & E); [by destruct Hw as [-> | ->]|].
  exists [command word (accepted r)]. unfold m_bind. rewrite E.
  destruct r as [e|[]]; (split; [done|]); right; by exists [], word.
Qed.
Lemma finishes_commit c : finishes (Exec c "COMMIT").
Proof.
  intros [s log]. destruct (Exec_command c "COMMIT" s log eq_refl) as (r & s' & E).
  exists [command "COMMIT" (accepted r)]. rewrite E. split; [done|].
  right. exists [], "COMMIT"%string.
  split; [done|]. split; [by left|]. done.
Qed.

Lemma transaction_logged {A} c (body : ServerM A) : finishes body ->
  emits (fun r new => transaction_log (accepted r) new) (in_transaction c body).
Proof.
  intros Hb [s log]. unfold in_transaction, m_bind, catch.
  destruct (Exec_command c "BEGIN" s log eq_refl) as (begun & s1 & ->).
  destruct begun as [e|[]]; cbn [accepted].
  { exists [command "BEGIN" false]. split; [done|constructor]. }
  destruct (Hb (s1, log ++ [command "BEGIN" true])) as (new & E & Hnew).
  destruct (body (s1, log ++ [command "BEGIN" true])) as [[e|a] [s2 log2]]; cbn in E, Hnew; subst log2.
  - destruct (Exec_command c "ROLLBACK" s2 ((log ++ [command "BEGIN" true]) ++ new) eq_refl)
      as (r & s3 & ->).
    assert (Ht : transaction_log false (command "BEGIN" true :: new ++ [command "ROLLBACK" (accepted r)])).
    { destruct Hnew as [[_ Hd]|(stmts & word & -> & Hw & Hd & Ha)].
      - by constructor.
      - rewrite <- (assoc_L (++)). by constructor. }
    destruct r; cbn; eexists; (split; [|exact Ht]); by rewrite <- !(assoc_L (++)).
  - destruct Hnew as [[? _]|(stmts & word & -> & Hw & Hd & Ha)]; [done|].
    exists (command "BEGIN" true :: stmts ++ [command word true]).
    split; [cbn; by rewrite <- (assoc_L (++))|]. by constructor.
Qed.

(** *** On the store *)

Definition emits_store {A} (P : exn + A -> list pg_event -> Prop) (m : StoreM A) : Prop :=
  forall store, exists new, (server_ (m store).2).2 = (server_ store).2 ++ new /\ P (m store).1 new.

Lemma emits_on_server {A} (P : exn + A -> list pg_event -> Prop) (m : ServerM A) :
  emits P m -> emits_store P (on_server m).
Proof.
  intros Hm store. unfold on_server, zoom. destruct (Hm (server_ store)) as (new & E & HP).
  destruct (m (server_ store)) as [r s]. by exists new.
Qed.
Lemma emits_store_mono {A} (P Q : exn + A -> list pg_event -> Prop) (m : StoreM A) :
  emits_store P m -> (forall r new, P r new -> Q r new) -> emits_store Q m.
Proof. intros Hm HPQ store. destruct (Hm store) as (new & E & HP). exists new. auto. Qed.
Lemma emits_store_ret {A} (P : exn + A -> list pg_event -> Prop) a : P (inr a) [] -> emits_store P (m_ret a).
Proof. intros HP s. exists []. by rewrite app_nil_r. Qed.
Lemma emits_store_throw {A} (P : exn + A -> list pg_event -> Prop) e : P (inl e) [] -> emits_store P (throw e).
Proof. intros HP s. exists []. by rewrite app_nil_r. Qed.
Lemma emits_store_bind {A B} (P : exn + A -> list pg_event -> Prop) (Q : exn + B -> list pg_event -> Prop)
    (R : A -> exn + B -> list pg_event -> Prop) (m : StoreM A) (k : A -> StoreM B) :
  emits_store P m -> (forall a, emits_store (R a) (k a)) ->
  (forall e new, P (inl e) new -> Q (inl e) new) ->
  (forall a r new new', P (inr a) new -> R a r new' -> Q r (new ++ new')) ->
  emits_store Q (m_bind m k).
Proof.
  intros Hm Hk He Hr s. destruct (Hm s) as (new & E & HP). unfold m_bind.
  destruct (m s) as [[e|a] s1]; cbn in *.
  - exists new. split; [done|by apply He].
  - destruct (Hk a s1) as (new' & E' & HR). exists (new ++ new').
    rewrite E', E, (assoc_L (++)). split; [done|by eapply Hr].
Qed.

(** A connection closes whatever happens on it; one that is refused sends nothing. *)
Lemma connected_logged {A} (P : exn + A -> list pg_event -> Prop) (body : PGconn -> StoreM A) :
  (forall c, emits_store P (body c)) ->
  emits_store (fun r new => (accepted r = false /\ new = [Refused])
                            \/ exists mid, new = Opened :: mid ++ [Closed] /\ P r mid) (connected body).
Proof.
  intros Hb [dsn [s log]]. unfold connected, succeeded. cbn.
  destruct (driver_connect (c_str dsn) s) as [[e|c] s1]; cbn.
  - exists [Refused]. split; [done|by left].
  - destruct (Hb c (mkPgStore dsn (s1, log ++ [Opened]))) as (mid & E & HP).
    destruct (body c (mkPgStore dsn (s1, log ++ [Opened]))) as [r store]. cbn in *.
    exists (Opened :: mid ++ [Closed]). split; [by rewrite E, <- !(assoc_L (++))|]. right. by exists mid.
Qed.

Lemma driver_logged {A} (P : exn + A -> list pg_event -> Prop) (m : StoreM A) :
  emits_store P m -> (forall e, P (inl e) []) -> emits_store P (with_driver m).
Proof.
  intros Hm He. unfold with_driver. destruct HAS_LIBPQ; [done|]. by apply emits_store_throw.
Qed.

(** *** The shapes of the calls *)

Definition queried {A} (r : exn + A) (new : list pg_event) : Prop := query_log (accepted r) new.
Definition nested {A} (r : exn + A) (new : list pg_event) : Prop :=
  exists stmts log, new = stmts ++ log /\ Forall data_event stmts
    /\ (accepted r = true -> Forall accepted_event stmts) /\ (log = [] \/ query_log (accepted r) log).
Definition with_transaction {A} (r : exn + A) (new : list pg_event) : Prop :=
  exists ended stmts log, new = stmts ++ log /\ transaction_log ended stmts
    /\ (ended = false -> accepted r = false /\ log = []) /\ (log = [] \/ query_log (accepted r) log).
Definition called {A} (transactional : bool) (r : exn + A) (new : list pg_event) : Prop :=
  call_log transactional (accepted r) new.

Lemma query_log_weaken returned log : query_log returned log -> query_log false log.
Proof. intros [| |r stmts Hd Ha]; by constructor. Qed.

Lemma connection_logged {A} (body : PGconn -> ServerM A) :
  (forall c, steps (body c)) -> emits_store queried (connection body).
Proof.
  intros Hb. apply driver_logged; [|intros e; constructor].
  eapply emits_store_mono; [apply (connected_logged stepped); intros c; apply emits_on_server, Hb|].
  intros r new [[Hr ->]|(mid & -> & Hd & Ha)]; [|by constructor]. unfold queried. rewrite Hr. constructor.
Qed.

Lemma called_query {A} (m : StoreM A) : emits_store queried m -> emits_store (called false) m.
Proof. intros Hm. eapply emits_store_mono; [exact Hm|]. intros r new Hq. by constructor. Qed.
Lemma called_nested {A} (body : PGconn -> StoreM A) :
  (forall c, emits_store nested (body c)) -> emits_store (called false) (with_driver (connected body)).
Proof.
  intros Hb. apply driver_logged; [|intros e; do 2 constructor].
  eapply emits_store_mono; [by apply (connected_logged nested)|].
  intros r new [[Hr ->]|(mid & -> & stmts & log & -> & Hd & Ha & Hq)].
  - unfold called. rewrite Hr. do 2 constructor.
  - unfold called. rewrite <- (assoc_L (++)). by constructor.
Qed.
Lemma called_transaction {A} (body : PGconn -> StoreM A) :
  (forall c, emits_store with_transaction (body c)) ->
  emits_store (called true) (with_driver (connected body)).
Proof.
  intros Hb. apply driver_logged; [|intros e; constructor].
  eapply emits_store_mono; [by apply (connected_logged with_transaction)|].
  intros r new [[Hr ->]|(mid & -> & ended & stmts & log & -> & Ht & He & Hq)].
  - unfold called. rewrite Hr. constructor.
  - unfold called. rewrite <- (assoc_L (++)). by econstructor.
Qed.

Lemma nested_ret {A} (a : A) : emits_store nested (m_ret a).
Proof. apply emits_store_ret. exists [], []. split_and!; [done|done|done|by left]. Qed.
Lemma nested_query {A} (m : StoreM A) : emits_store queried m -> emits_store nested m.
Proof.
  intros Hm. eapply emits_store_mono; [exact Hm|]. intros r new Hq. exists [], new.
  split_and!; [done|done|done|by right].
Qed.
Lemma nested_bind {A B} (m : ServerM A) (k : A -> StoreM B) :
  steps m -> (forall a, emits_store nested (k a)) -> emits_store nested (m_bind (on_server m) k).
Proof.
  intros Hm Hk. eapply (emits_store_bind stepped nested (fun _ => nested));
    [by apply emits_on_server|done| |].
  - intros e new [Hd _]. exists new, []. rewrite app_nil_r. split_and!; [done|done|done|by left].
  - intros a r new new' [Hd Ha] (stmts & log & -> & Hd' & Ha' & Hq). exists (new ++ stmts), log.
    rewrite (assoc_L (++)). split_and!; [done|by apply Forall_app| |done].
    intros Hr. apply Forall_app. split; [by apply Ha|by apply Ha'].
Qed.

Lemma transaction_only {A} c (body : ServerM A) :
  finishes body -> emits_store with_transaction (on_server (in_transaction c body)).
Proof.
  intros Hb. eapply emits_store_mono; [by apply emits_on_server, transaction_logged|].
  intros r new Ht. exists (accepted r), new, []. rewrite app_nil_r. split_and!; [done|done|done|by left].
Qed.
Lemma transaction_bind {A B} c (body : ServerM A) (k : A -> StoreM B) :
  finishes body -> (forall a, emits_store (fun r log => log = [] \/ queried r log) (k a)) ->
  emits_store with_transaction (m_bind (on_server (in_transaction c body)) k).
Proof.
  intros Hb Hk.
  eapply (emits_store_bind (fun r new => transaction_log (accepted r) new) with_transaction
            (fun _ r log => log = [] \/ queried r log)); [by apply emits_on_server, transaction_logged|done| |].
  - intros e new Ht. exists false, new, []. rewrite app_nil_r. split_and!; [done|done|done|by left].
  - intros a r new new' Ht Hq. exists true, new, new'. by split_and!.
Qed.
(** *** The pieces the operations share *)

Lemma called_ignore {A} t (m : StoreM A) : emits_store (called t) m -> emits_store (called t) (ignore m).
Proof.
  intros Hm store. destruct (Hm store) as (new & E & Hc). exists new. unfold ignore, m_bind.
  by destruct (m store) as [[e|a] store'].
Qed.
Lemma steps_execute c sql params : sql ∈ data_statements -> steps (execute c sql params).
Proof. intros Hin. apply steps_bind; [by apply steps_params|intros a; apply steps_ret]. Qed.

Lemma migrations_are_statements m : m ∈ CloudKernelMigrations -> migration_sql m ∈ data_statements.
Proof.
  intros Hm. repeat (apply elem_of_cons in Hm as [-> | Hm]); [| | |by apply elem_of_nil in Hm];
    apply (bool_decide_unpack _); vm_compute; exact I.
Qed.
End Logs.

(** A constant statement is one of the list. *)
Ltac statement := apply (bool_decide_unpack _); vm_compute; exact I.

(** Follows a computation on one connection. *)
Ltac follow_steps :=
  repeat first
    [ apply steps_ret | apply steps_throw | apply steps_lift
    | apply steps_params; statement | apply steps_execute; statement
    | apply steps_exec; by apply migrations_are_statements
    | apply steps_traverse; intros ? ?
    | apply steps_bind; [|intros ?]
    | match goal with
      | |- steps (if ?b then _ else _) => destruct b
      | |- steps (require_worker _ _ _ _) => unfold require_worker
      | |- steps (insert_event _ _ _ _) => unfold insert_event
      | |- steps (LoadArtifacts _ _) => unfold LoadArtifacts
      | |- steps (when ?b _) => destruct b; cbn [when]
      end ].
Ltac follow_transaction :=
  repeat first
    [ apply finishes_throw | apply finishes_commit
    | apply finishes_word; first [by left|by right]
    | apply finishes_bind; [solve [follow_steps]|intros ?]
    | match goal with |- finishes (if ?b then _ else _) => destruct b end ].

Section Calls.
Context {Server : Type} `{JsonLib} {Driver : LibPq Server}.
#[local] Existing Instance recorded.
Abbreviation StoreM := (M exn (PgStore (Server * list pg_event))).

Lemma logged_GetJob id : emits_store queried (GetJob id : StoreM _).
Proof. apply connection_logged. intros c. follow_steps. Qed.
Lemma logged_GetCompileContainer id : emits_store queried (GetCompileContainer id : StoreM _).
Proof. apply connection_logged. intros c. follow_steps. Qed.

Lemma logged_then_get_job body :
  (forall c, finishes (body c)) -> emits_store (called true) (then_get_job body : StoreM _).
Proof.
  intros Hb. apply called_transaction. intros c. apply transaction_bind; [apply Hb|].
  intros [id|].
  - eapply emits_store_mono; [apply logged_GetJob|]. by right.
  - apply emits_store_ret. by left.
Qed.

Lemma logged_RegisterCompileContainer container :
  emits_store (called true) (RegisterCompileContainer container : StoreM _).
Proof.
  apply called_transaction. intros c. apply transaction_bind; [follow_transaction|]. intros _.
  eapply (emits_store_bind queried _ (fun _ _ log => log = []));
    [apply logged_GetCompileContainer| | |].
  - intros [saved|]; [by apply emits_store_ret|by apply emits_store_throw].
  - intros e new Hq. by right.
  - intros saved r new new' Hq ->. right. rewrite app_nil_r.
    destruct r; [by eapply query_log_weaken|done].
Qed.

Lemma logged_SubmitJob job : emits_store (called true) (SubmitJob job : StoreM _).
Proof. apply called_transaction. intros c. apply transaction_only. follow_transaction. Qed.
Lemma logged_HeartbeatJob id worker message :
  emits_store (called false) (HeartbeatJob id worker message : StoreM _).
Proof.
  apply called_nested. intros c. apply nested_bind; [follow_steps|]. intros owned.
  destruct (no_rows owned); [apply nested_ret|]. apply nested_bind; [follow_steps|]. intros _.
  apply nested_query, logged_GetJob.
Qed.
Lemma logged_SwitchCompileContainerWorkspace id worker workspace reason :
  emits_store (called false) (SwitchCompileContainerWorkspace id worker workspace reason : StoreM _).
Proof.
  apply called_nested. intros c. apply nested_bind; [follow_steps|]. intros result.
  destruct (no_rows result); [apply nested_ret|]. apply nested_query, logged_GetCompileContainer.
Qed.

(** Every operation keeps to the shape of its kind. *)
Lemma logged_call (call : store_call) :
  emits_store (called (transactional call)) (run_call call : StoreM _).
Proof.
  destruct call; cbn [run_call transactional]; try apply called_ignore;
    first
      [ apply logged_RegisterCompileContainer | apply logged_SubmitJob | apply logged_HeartbeatJob
      | apply logged_SwitchCompileContainerWorkspace
      | apply logged_then_get_job; intros c; solve [follow_transaction]
      | apply called_query, connection_logged; intros c; solve [follow_steps]
      | idtac ].
  unfold ListRegistryPublishTokens. destruct (is_empty owner_id);
    apply called_query, connection_logged; intros c; follow_steps.
Qed.
End Calls.

(** *** What the calls without a transaction write *)

Section Writes.
Context {Server : Type} `{JsonLib} {Driver : LibPq Server}.
#[local] Existing Instance recorded.
Abbreviation ServerM := (M exn (Server * list pg_event)).
Abbreviation StoreM := (M exn (PgStore (Server * list pg_event))).

Lemma plan_prefix plan plan' writes : follows_plan plan writes -> follows_plan (plan ++ plan') writes.
Proof. induction 1; cbn [app]; by constructor. Qed.
Lemma writes_of_app l l' : writes_of (l ++ l') = writes_of l ++ writes_of l'.
Proof. apply List.filter_app. Qed.

(** All of a plan, accepted. *)
Definition whole_plan (plan : list string) (writes : list pg_event) : Prop :=
  Forall2 (fun sql e => exists params, e = Sent sql params true) plan writes.
Lemma whole_follows plan plan' writes writes' :
  whole_plan plan writes -> follows_plan plan' writes' -> follows_plan (plan ++ plan') (writes ++ writes').
Proof. intros Hw Hp. induction Hw as [|sql e plan l (params & ->) _ IH]; [done|]. by constructor. Qed.

(** A computation whose writes follow a plan, and one that carries it out whole where it
    returns. *)
Definition follows {A} (plan : list string) (r : exn + A) (new : list pg_event) : Prop :=
  follows_plan (map c_str plan) (writes_of new).
Definition performs {A} (plan : list string) (r : exn + A) (new : list pg_event) : Prop :=
  follows plan r new /\ (accepted r = true -> whole_plan (map c_str plan) (writes_of new)).

Lemma performs_ret {A} (a : A) : emits (performs []) (m_ret a : ServerM A).
Proof. apply emits_ret. split; [constructor|]. intros _. constructor. Qed.
Lemma performs_throw {A} e : emits (performs []) (throw e : ServerM A).
Proof. apply emits_throw. by split; [constructor|]. Qed.
Lemma performs_lift {A} (a : exn + A) : emits (performs []) (lift a : ServerM A).
Proof. destruct a; [apply performs_throw|apply performs_ret]. Qed.
Lemma follows_bind {A B} plan plan' (m : ServerM A) (k : A -> ServerM B) :
  emits (performs plan) m -> (forall a, emits (follows plan') (k a)) ->
  emits (follows (plan ++ plan')) (m_bind m k).
Proof.
  intros Hm Hk. eapply (emits_bind (performs plan) _ (fun _ => follows plan')); [done|done| |];
    unfold follows; rewrite map_app.
  - intros e new [Hf _]. by apply plan_prefix.
  - intros a r new new' [_ Hw] Hf. rewrite writes_of_app. apply whole_follows; [by apply Hw|done].
Qed.
Lemma performs_bind {A B} plan plan' (m : ServerM A) (k : A -> ServerM B) :
  emits (performs plan) m -> (forall a, emits (performs plan') (k a)) ->
  emits (performs (plan ++ plan')) (m_bind m k).
Proof.
  intros Hm Hk. eapply (emits_bind (performs plan) _ (fun _ => performs plan')); [done|done| |];
    unfold performs, follows; rewrite map_app.
  - intros e new [Hf _]. split; [by apply plan_prefix|done].
  - intros a r new new' [_ Hw] [Hf Hw']. rewrite writes_of_app.
    split; [apply whole_follows; [by apply Hw|done]|]. intros Hr. apply Forall2_app; [by apply Hw|by apply Hw'].
Qed.
Lemma performs_follows {A} plan (m : ServerM A) : emits (performs plan) m -> emits (follows plan) m.
Proof. intros Hm s. destruct (Hm s) as (new & E & Hf & _). by exists new. Qed.
Lemma follows_none {A} plan (m : ServerM A) : emits (performs []) m -> emits (follows plan) m.
Proof.
  intros Hm s. destruct (Hm s) as (new & E & Hf & _). exists new. split; [done|].
  unfold follows in *. exact (plan_prefix [] (map c_str plan) _ Hf).
Qed.
Lemma performs_read c sql params : str_starts_with (c_str sql) "SELECT" = true ->
  emits (performs []) (ExecParams c sql params : ServerM _).
Proof.
  intros Hs [s log]. unfold ExecParams, succeeded. cbn.
  destruct (PQexecParams (LibPq := Driver) c (c_str sql) (map c_str params) s) as [r s']. cbn.
  exists [Sent (c_str sql) (map c_str params) (accepted r)]. split; [by destruct r|].
  unfold performs, follows, writes_of. cbn [List.filter writing]. rewrite Hs. cbn [negb].
  split; [constructor|]. intros _. constructor.
Qed.
Lemma performs_params c sql params : str_starts_with (c_str sql) "SELECT" = false ->
  emits (performs [sql]) (ExecParams c sql params : ServerM _).
Proof.
  intros Hs [s log]. unfold ExecParams, succeeded. cbn.
  destruct (PQexecParams (LibPq := Driver) c (c_str sql) (map c_str params) s) as [r s']. cbn.
  exists [Sent (c_str sql) (map c_str params) (accepted r)]. split; [by destruct r|].
  unfold performs, follows, writes_of, whole_plan. cbn [List.filter writing map]. rewrite Hs. cbn [negb].
  destruct r; cbn [accepted]; (split; [by repeat constructor|]); [done|]. intros _.
  constructor; [by eexists|constructor].
Qed.
Lemma performs_exec c sql : str_starts_with (c_str sql) "SELECT" = false ->
  emits (performs [sql]) (Exec c sql : ServerM _).
Proof.
  intros Hs [s log]. unfold Exec, m_bind, succeeded. cbn.
  destruct (PQexec (LibPq := Driver) c (c_str sql) s) as [r s']. cbn.
  exists [Sent (c_str sql) [] (accepted r)]. split; [by destruct r|].
  unfold performs, follows, writes_of, whole_plan.
  destruct r; cbn [accepted map List.filter writing fst]; rewrite Hs; cbn [negb];
    (split; [by repeat constructor|]); [done|]. intros _. constructor; [by eexists|constructor].
Qed.
Lemma performs_execute c sql params : str_starts_with (c_str sql) "SELECT" = false ->
  emits (performs [sql]) (execute c sql params : ServerM _).
Proof.
  intros Hs. change [sql] with ([sql] ++ [] : list string).
  apply performs_bind; [by apply performs_params|intros a; apply performs_ret].
Qed.
Lemma performs_migrations c (l : list SqlMigration) :
  Forall (fun m => str_starts_with (c_str (migration_sql m)) "SELECT" = false) l ->
  emits (performs (map migration_sql l)) (traverse_m (fun m => Exec c (migration_sql m)) l : ServerM _).
Proof.
  induction 1 as [|m l Hm _ IH]; [apply performs_ret|]. cbn [traverse_m map].
  change (migration_sql m :: map migration_sql l) with ([migration_sql m] ++ map migration_sql l).
  apply performs_bind; [by apply performs_exec|]. intros u.
  rewrite <- (app_nil_r (map migration_sql l)). apply performs_bind; [done|intros us; apply performs_ret].
Qed.

(** On the store. *)
Lemma connected_follows {A} plan (body : @PGconn _ recorded -> StoreM A) :
  (forall c, emits_store (follows plan) (body c)) ->
  emits_store (follows plan) (with_driver (connected body)).
Proof.
  intros Hb. apply driver_logged; [|intros e; constructor].
  eapply emits_store_mono; [by apply (connected_logged (follows plan))|].
  intros r new [[_ ->]|(mid & -> & Hf)]; [constructor|].
  unfold follows. change (Opened :: mid ++ [Closed]) with ([Opened] ++ mid ++ [Closed]).
  rewrite !writes_of_app. cbn [writes_of List.filter writing app]. by rewrite app_nil_r.
Qed.
Lemma connection_follows {A} plan (body : @PGconn _ recorded -> ServerM A) :
  (forall c, emits (follows plan) (body c)) -> emits_store (follows plan) (connection body).
Proof. intros Hb. apply connected_follows. intros c. apply emits_on_server, Hb. Qed.
Lemma follows_store_bind {A B} plan plan' (m : ServerM A) (k : A -> StoreM B) :
  emits (performs plan) m -> (forall a, emits_store (follows plan') (k a)) ->
  emits_store (follows (plan ++ plan')) (m_bind (on_server m) k).
Proof.
  intros Hm Hk. eapply (emits_store_bind (performs plan) _ (fun _ => follows plan'));
    [by apply emits_on_server|done| |]; unfold follows; rewrite map_app.
  - intros e new [Hf _]. by apply plan_prefix.
  - intros a r new new' [_ Hw] Hf. rewrite writes_of_app. apply whole_follows; [by apply Hw|done].
Qed.
Lemma follows_more {A} plan (m : StoreM A) : emits_store (follows []) m -> emits_store (follows plan) m.
Proof.
  intros Hm. eapply emits_store_mono; [exact Hm|]. intros r new Hf.
  exact (plan_prefix [] (map c_str plan) _ Hf).
Qed.
Lemma follows_ignore {A} plan (m : StoreM A) : emits_store (follows plan) m -> emits_store (follows plan) (ignore m).
Proof.
  intros Hm store. destruct (Hm store) as (new & E & Hc). exists new. unfold ignore, m_bind.
  by destruct (m store) as [[e|a] store'].
Qed.
End Writes.

(** Follows a computation with the plan of its writes: what only reads comes before the
    statement the plan starts with. *)
Ltac not_select := vm_compute; reflexivity.
Ltac performs_nothing :=
  repeat first
    [ apply performs_ret | apply performs_throw | apply performs_lift
    | apply performs_read; not_select
    | apply (performs_bind [] []); [|intros ?]
    | match goal with
      | |- emits _ (if ?b then _ else _) => destruct b
      | |- emits _ (LoadArtifacts _ _) => unfold LoadArtifacts
      end ].
Ltac performs_one := first [ apply performs_params; not_select | apply performs_execute; not_select ].
Ltac follow_writes :=
  repeat first
    [ apply follows_none; solve [performs_nothing]
    | apply performs_follows; solve [performs_one]
    | apply (follows_bind []); [solve [performs_nothing]|intros ?]
    | match goal with |- emits (follows (?sql :: ?plan)) _ => apply (follows_bind [sql] plan) end;
      [solve [performs_one]|intros ?]
    | match goal with |- emits _ (if ?b then _ else _) => destruct b end ].

Section PlannedCalls.
Context {Server : Type} `{JsonLib} {Driver : LibPq Server}.
#[local] Existing Instance recorded.
Abbreviation StoreM := (M exn (PgStore (Server * list pg_event))).

Lemma read_GetJob id : emits_store (follows []) (GetJob id : StoreM _).
Proof. apply connection_follows. intros c. follow_writes. Qed.
Lemma read_GetCompileContainer id : emits_store (follows []) (GetCompileContainer id : StoreM _).
Proof. apply connection_follows. intros c. follow_writes. Qed.

Lemma planned_Migrations :
  emits_store (follows (map migration_sql CloudKernelMigrations)) (ApplyMigrations : StoreM _).
Proof.
  apply connection_follows. intros c. rewrite <- (app_nil_r (map migration_sql _)).
  apply follows_bind; [apply performs_migrations; repeat constructor; not_select|].
  intros us. apply follows_none, performs_ret.
Qed.
Lemma planned_HeartbeatJob id worker message :
  emits_store (follows [sql_heartbeat; sql_insert_event]) (HeartbeatJob id worker message : StoreM _).
Proof.
  apply connected_follows. intros c. apply (follows_store_bind [sql_heartbeat] [sql_insert_event]);
    [performs_one|]. intros owned. destruct (no_rows owned).
  - apply emits_store_ret. constructor.
  - apply (follows_store_bind [sql_insert_event] []); [unfold insert_event; performs_one|].
    intros u. apply read_GetJob.
Qed.
Lemma planned_Switch id worker workspace reason :
  emits_store (follows [sql_switch_container])
    (SwitchCompileContainerWorkspace id worker workspace reason : StoreM _).
Proof.
  apply connected_follows. intros c. apply (follows_store_bind [sql_switch_container] []); [performs_one|].
  intros result. destruct (no_rows result); [apply emits_store_ret; constructor|].
  apply read_GetCompileContainer.
Qed.

(** Every operation without a transaction keeps to its plan. *)
Lemma planned_call (call : store_call) : transactional call = false ->
  emits_store (follows (write_plan call)) (run_call call : StoreM _).
Proof.
  intros Ht. destruct call; try discriminate Ht; cbn [run_call write_plan]; try apply follows_ignore;
    first
      [ apply planned_Migrations | apply planned_HeartbeatJob | apply planned_Switch
      | apply read_GetJob | apply read_GetCompileContainer
      | apply connection_follows; intros c; solve [follow_writes]
      | idtac ].
  unfold ListRegistryPublishTokens. destruct (is_empty owner_id); apply connection_follows; intros c; follow_writes.
Qed.
End PlannedCalls.

(** *** What the log of a call holds *)

(** A transaction command without parameters, or a data statement. *)
Definition known_statement (sql : string) (params : list string) : Prop :=
  (sql ∈ ["BEGIN"; "COMMIT"; "ROLLBACK"]%string /\ params = []) \/ sql ∈ map c_str data_statements.
Definition known_event (e : pg_event) : Prop :=
  match e with Sent sql params _ => known_statement sql params | _ => True end.

Lemma data_known stmts : Forall data_event stmts -> Forall known_event stmts.
Proof. intros Hd. eapply Forall_impl; [exact Hd|]. intros [] He; try done. by right. Qed.
Lemma command_known word ok : word ∈ ["BEGIN"; "COMMIT"; "ROLLBACK"]%string -> known_event (command word ok).
Proof. intros Hw. by left. Qed.
Lemma end_known word ok : end_word word -> known_event (command word ok).
Proof. intros [-> | ->]; apply command_known; repeat constructor. Qed.
Lemma begin_known ok : known_event (command "BEGIN" ok).
Proof. apply command_known; repeat constructor. Qed.

Lemma transaction_known ended log : transaction_log ended log -> Forall known_event log.
Proof.
  intros [|stmts word Hd Ha Hw|stmts ok Hd|stmts word ok Hd Ha Hw];
    repeat (apply Forall_cons; split); try apply Forall_app; try split;
    repeat first [ apply Forall_cons; split | apply Forall_nil_2 | by apply data_known
                 | by apply begin_known | by apply end_known | by apply end_known; right ].
Qed.
Lemma query_known returned log : query_log returned log -> Forall known_event log.
Proof.
  intros [| |r stmts Hd Ha]; repeat (apply Forall_cons; split); try done.
  apply Forall_app. split; [by apply data_known|by repeat constructor].
Qed.
Lemma call_known t returned log : call_log t returned log -> Forall known_event log.
Proof.
  assert (Hinner : forall r inner, inner = [] \/ query_log r inner -> Forall known_event (inner ++ [Closed])).
  { intros r inner Hi. apply Forall_app. split; [|by repeat constructor].
    destruct Hi as [->|Hq]; [done|by eapply query_known]. }
  intros [r l Hq|r stmts inner Hd Ha Hi| | |r ended stmts inner Ht He Hi];
    [by eapply query_known| |by constructor|by repeat constructor|].
  all: apply Forall_cons; split; [done|]; apply Forall_app; split; [|by eapply Hinner].
  - by apply data_known.
  - by eapply transaction_known.
Qed.

(** ** Properties *)

(** C5. Whatever the server answers, and wherever an operation of the PostgreSQL store
    fails, the conversation of a call is one of these.  Submitting, cancelling, claiming
    and completing jobs and registering compile containers send their statements between
    BEGIN and COMMIT: COMMIT is sent only when every statement was accepted, any failure
    is followed by ROLLBACK, and after a transaction that did not go through the call
    fails and sends nothing more.  All other operations send plain statements, all
    accepted when the call returns, and the statements among them that write are those
    of a fixed plan, each sent only after the one before was accepted: the plan has one
    statement at most, which is all or nothing by itself, except for two operations that
    can stop halfway, the migrations and the heartbeat of a job, whose event may be
    missing though the job was touched.  Every connection that was opened is closed, on
    every path. *)
Theorem transactions_are_all_or_nothing {Server} `{JsonLib} `{LibPq Server} (call : store_call)
    (store : PgStore (Server * list pg_event)) :
  let '(outcome, store') := @run_call _ _ recording call store in
  exists conversation, (server_ store').2 = (server_ store).2 ++ conversation
    /\ call_log (transactional call) (accepted outcome) conversation
    /\ (transactional call = false ->
        follows_plan (map c_str (write_plan call)) (writes_of conversation)
        /\ ((List.length (write_plan call) <= 1)%nat \/ piecemeal call = true)).
Proof.
  destruct (logged_call call store) as (new & E & Hcall). unfold recorded in E, Hcall.
  assert (Hplan : transactional call = false ->
                  follows_plan (map c_str (write_plan call)) (writes_of new)).
  { intros Ht. destruct (planned_call call Ht store) as (new' & E' & Hf). unfold recorded in E', Hf.
    rewrite E in E'. apply app_inv_head in E' as <-. exact Hf. }
  destruct (run_call call store) as [outcome store']. exists new. split_and!; [done|done|]. intros Ht.
  split; [by apply Hplan|]. destruct call; try discriminate Ht; cbn; auto with lia.
Qed.

(** C9. No SQL text depends on data: whatever the arguments of an operation, the state
    of the store and the answers of the server, every statement an operation sends is
    a transaction command or a statement of a fixed list; identifiers,
    JSON documents and messages only travel as parameters of a prepared statement, so
    no input can change what a statement means. *)
Theorem sql_is_never_built_from_data {Server} `{JsonLib} `{LibPq Server} (call : store_call)
    (store : PgStore (Server * list pg_event)) :
  let '(_, store') := @run_call _ _ recording call store in
  exists conversation, (server_ store').2 = (server_ store).2 ++ conversation
    /\ Forall known_event conversation.
Proof.
  destruct (logged_call call store) as (new & E & Hcall). unfold recorded in E, Hcall.
  destruct (run_call call store) as [outcome store']. exists new. split; [done|by eapply call_known].
Qed.

(** ** A heartbeat that stops halfway *)

(** A server that touches jobs and refuses events. *)
Definition no_events : LibPq unit :=
  {| HAS_LIBPQ := true; PGconn := unit; server_at := fun _ => tt;
     PQconnectdb := fun _ s => (inr tt, s); PQexec := fun _ _ s => (inr (mkPgResult [] []), s);
     PQexecParams := fun _ sql _ s =>
       (if sql =s sql_insert_event then inl "disk full"%string
        else inr (mkPgResult ["job_id"%string] [[Some "job-1"%string]]), s);
     PQfinish := fun _ s => s |}.

(** The update stands without its event, and the caller is answered an error. *)
Example heartbeat_stops_halfway `{JsonLib} :
  let '(outcome, store) := @HeartbeatJob _ _ (@recording _ no_events) "job-1" "worker-1" "building"
                             (mkPgStore EmptyString (tt, [])) in
  outcome = inl (pg_failed "postgres command failed: disk full")
  /\ (server_ store).2 = [Opened; Sent sql_heartbeat ["job-1"; "worker-1"]%string true;
                          Sent sql_insert_event ["job-1"; "running"; "building"]%string false; Closed].
Proof. split; vm_compute; reflexivity. Qed.
