(* ===== verification/RegistryTrust.v ===== *)
(** The signed metadata of the static registry: role keys, signatures, targets,
    snapshot, timestamp and transparency checkpoint
    ([PlatformCloud/PackageRegistry/ControlPlane/RegistryTrustMetadata.hpp]). *)
From stdpp Require Import base list gmap strings sorting.
From Stdlib Require Import ZArith Lia Ascii String.
From S2P Require Import Prelude Json StateRecords MemoryStateStore Identity Http Config.
From S2P Require Import Paths FileSystem Process RouterSupport ObjectStore RegistryIdentifiers.
From S2P Require Import RegistryIndexStore RegistryAccess RegistryQueries.

(** The [openssl] program and library and the steady clock.  [run_openssl n args
    input limit t] is the [n]-th run of the program: its result and what it
    writes to the file it is given with [-out]. *)
Class SigningHost := {
  run_openssl : nat -> list string -> string -> nat -> FileTree ->
                (exn + ProcessResult) * option string;
  EVP_EncodeBlock : string -> Z * string;
  steady_clock_count : nat -> Z;
}.

Record RegistryRoleKey := mkRoleKey {
  key_role : string;
  keyid : string;
  private_key_path : string;
  public_key_path : string;
  public_key_pem : string;
}.

Definition RegistryRoleNames : list string := ["root"; "timestamp"; "snapshot"; "targets"; "log"].

(** [role_keys.at(role)]. *)
Definition role_key_at (role_keys : gmap string RegistryRoleKey) (role : string)
  : exn + RegistryRoleKey :=
  match role_keys !! role with Some key => inr key | None => inl OutOfRange end.

Definition RegistryRoleKeysPayload (role_keys : gmap string RegistryRoleKey) : json :=
  fold_left (fun keys '(_, key) =>
      j_set keys (keyid key)
        (obj [("keytype", JString "ed25519"); ("scheme", JString "ed25519");
              ("keyval", obj [("public", JString (public_key_pem key))])]))
    (items role_keys) (obj []).

Definition RegistryRolesPolicyPayload (role_keys : gmap string RegistryRoleKey) : exn + json :=
  roles <-? traverse (fun role =>
              key <-? role_key_at role_keys role ;;
              inr (role, obj [("keyids", JArray [JString (keyid key)]); ("threshold", JInt 1)]))
            RegistryRoleNames ;;
  inr (obj roles).

Definition base_capabilities : json :=
  obj [("append_only_index", JBool true); ("source_artifacts", JBool true);
       ("binary_artifacts", JBool true); ("transparency_log", JBool true)].
Definition layout_paths : json :=
  obj [("root", JString "trust/root.json"); ("timestamp", JString "trust/timestamp.json");
       ("snapshot", JString "trust/snapshot.json"); ("targets_prefix", JString "trust/targets/");
       ("index_prefix", JString "index/");
       ("source_artifact_prefix", JString "artifacts/source/");
       ("binary_artifact_prefix", JString "artifacts/binary/");
       ("transparency_checkpoint", JString "log/checkpoint.json");
       ("transparency_leaves_prefix", JString "log/leaves/")].

Definition RegistryConfigPayload (config : PlatformConfig) (generated_at : string) : json :=
  obj [("schema_version", JInt 1); ("protocol", JString "spio-static-registry");
       ("protocol_version", JInt 2);
       ("registry_name", JString (registry_name (registry config)));
       ("generated_at", JString generated_at); ("capabilities", base_capabilities);
       ("paths", layout_paths)].

(** The overload with a publication. *)
Definition PublicationConfigPayload (config : PlatformConfig)
    (generated_at publication_id repository_version_id : string) : json :=
  j_set (j_set (j_set (RegistryConfigPayload config generated_at)
    "repository_id" (JString "default")) "distribution_id" (JString "default"))
    "publication"
    (obj [("publication_id", JString publication_id);
          ("repository_version_id", JString repository_version_id);
          ("layout_version", JInt 2);
          ("publication_path",
           JString ("_publications/" +:+ publication_id +:+ "/publication.json"));
          ("current_pointer", JString "_distributions/default/current.json")]).

(** ** The transparency log *)

Definition hex_digit_value (c : ascii) : option Z :=
  if is_digit c then Some (char_code c - 48)
  else if (97 <=? char_code c) && (char_code c <=? 102) then Some (char_code c - 87)
  else if (65 <=? char_code c) && (char_code c <=? 70) then Some (char_code c - 55)
  else None.
Fixpoint take_hex (acc : Z) (l : list ascii) : Z :=
  match l with
  | c :: l => match hex_digit_value c with Some d => take_hex (16 * acc + d) l | None => acc end
  | [] => acc
  end.
Definition is_hex_digit (c : ascii) : bool :=
  match hex_digit_value c with Some _ => true | None => false end.

(** [std::stoi(text, nullptr, 16)] on two characters: white space or a sign, then
    a digit, or two digits (a prefix [0x] has no room for a digit after it). *)
Definition stoi_hex2 (a b : ascii) : exn + Z :=
  if is_hex_digit a then inr (take_hex 0 [a; b])
  else if (is_space a || Ascii.eqb a "+") && is_hex_digit b then inr (take_hex 0 [b])
  else if Ascii.eqb a "-" && is_hex_digit b then inr (- take_hex 0 [b])
  else inl (InvalidArgument "stoi").

Fixpoint leaf_bytes (leaf_hash : list ascii) : exn + string :=
  match leaf_hash with
  | a :: b :: rest =>
      byte <-? stoi_hex2 a b ;;
      bytes <-? leaf_bytes rest ;;
      inr (String (ascii_of_N (Z.to_N (byte mod 256))) bytes)
  | _ => inr EmptyString
  end.

Definition bytes_text (bytes : list Z) : string :=
  of_chars (map (fun byte => ascii_of_N (Z.to_N byte)) bytes).

(** One turn of the chain: the hash of the state so far and a leaf. *)
Definition chain_step `{Host} (state : list Z) (leaf_hash : string) : exn + list Z :=
  bytes <-? leaf_bytes (chars leaf_hash) ;;
  inr (openssl_SHA256 (bytes_text state +:+ bytes)).
Fixpoint chain `{Host} (state : list Z) (leaf_hashes : list string) : exn + list Z :=
  match leaf_hashes with
  | [] => inr state
  | leaf_hash :: leaf_hashes => state <-? chain_step state leaf_hash ;; chain state leaf_hashes
  end.
Definition TransparencyRootHash `{Host} (leaf_hashes : list string) : exn + string :=
  state <-? chain (replicate 32 0) leaf_hashes ;; inr (HexBytes state).

(** ** Metadata of the tree *)

Section Metadata.
Context `{JsonLib} `{Host}.

Definition SignedFileMeta (t : FileTree) (path : string) (version : Z) : exn + json :=
  length <-? file_size t path ;;
  sha256 <-? Sha256File t path ;;
  inr (obj [("version", JInt version); ("length", JInt length);
            ("hashes", obj [("sha256", JString sha256)])]).

Definition ReadSignedVersion (t : FileTree) (path : string) : exn + Z :=
  if negb (exists_ t path) then inr 0
  else or_else (text <-? ReadFileBytes path t ;;
                payload <-? parse_json text ;;
                signed <-? j_at payload "signed" ;;
                value_int signed "version" 0) 0.

Definition LeafSequencePaths (root : string) (t : FileTree) : list string :=
  let leaves_root := path_join (path_join root "log") "leaves" in
  if negb (exists_ t leaves_root) then []
  else sort_paths (List.filter (fun p => is_regular_file t p && (extension p =s ".json"))
                     (directory_iterator t leaves_root)).

Record PackageMaps := mkMaps { namespace_packages : json; snapshot_meta : json }.

(** [payload[key1][key2] = v]. *)
Definition j_set2 (j : json) (key1 key2 : string) (v : json) : json :=
  j_set j key1 (j_set (default JNull (j_lookup j key1)) key2 v).

Definition release_entry (package_name entry : string) (record : json) : exn + (string * json) :=
  name <-? at_string record "package" ;;
  if name <>s package_name
  then inl (RuntimeError ("registry index file contains mixed package names: " +:+ entry))
  else
    version <-? at_string record "version" ;;
    source_artifact <-? j_at record "source_artifact" ;;
    release_revision <-? value_int record "release_revision" 1 ;;
    text <-? CanonicalJson record ;;
    sha256 <-? at_string source_artifact "sha256" ;;
    path <-? at_string source_artifact "path" ;;
    binaries <-? value_json record "binary_artifacts" (JArray []) ;;
    inr (version, obj [("release_revision", JInt release_revision);
                       ("index_record_sha256", JString (Sha256Bytes text));
                       ("source_artifact_sha256", JString sha256);
                       ("source_artifact_path", JString path);
                       ("binary_artifact_count", JInt (j_size binaries))]).

(** The releases of an index file by version, the last of two equal ones kept. *)
Definition releases_object (releases : list (string * json)) : json :=
  fold_left (fun o '(version, entry) => j_set o version entry) releases (obj []).

Definition collect_index_file (registry_root : string) (t : FileTree) (maps : PackageMaps)
    (entry : string) : exn + PackageMaps :=
  records <-? index_records (default EmptyString (open_in t entry)) ;;
  match records with
  | [] => inl (RuntimeError ("registry index file is empty: " +:+ entry))
  | first :: _ =>
      package_name <-? at_string first "package" ;;
      match SplitPackageName package_name with
      | [] => inl UndefinedBehaviour
      | package_namespace :: _ =>
          releases <-? traverse (release_entry package_name entry) records ;;
          let index_path := relative t entry registry_root in
          let package_map :=
            obj [("index_path", JString index_path);
                 ("latest_version",
                  JString (default EmptyString (last (sort_versions releases.*1))));
                 ("releases", releases_object releases)] in
          meta <-? SignedFileMeta t entry 1 ;;
          inr (mkMaps (j_set2 (namespace_packages maps) package_namespace package_name package_map)
                      (j_set (snapshot_meta maps) index_path meta))
      end
  end.

Fixpoint collect_index_files (registry_root : string) (t : FileTree) (maps : PackageMaps)
    (entries : list string) : exn + PackageMaps :=
  match entries with
  | [] => inr maps
  | entry :: entries =>
      maps <-? collect_index_file registry_root t maps entry ;;
      collect_index_files registry_root t maps entries
  end.

Definition CollectPackageMaps (registry_root : string) (t : FileTree) : exn + PackageMaps :=
  let index_root := path_join registry_root "index" in
  if negb (exists_ t index_root) then inr (mkMaps (obj []) (obj []))
  else collect_index_files registry_root t (mkMaps (obj []) (obj []))
         (List.filter (fun p => is_regular_file t p && (extension p =s ".jsonl"))
            (recursive_directory_iterator t index_root)).
End Metadata.

(** ** Signing *)

Section Signing.
Context {DB : Type} `{JsonLib} `{Host} `{SigningHost}.

Definition next_draw : RouterM DB nat :=
  fun r => (inr (random_draws r),
            mkRouter (memory_ r) (postgres_ r) (rate_limiter_ r) (metrics_ r) (clock_readings r)
              (S (random_draws r)) (files_ r) (curl_calls r)).

Definition Base64Encode (payload : string) : exn + string :=
  let '(written, encoded) := EVP_EncodeBlock payload in
  if written <? 0 then inl (RuntimeError "base64 encoding failed")
  else inr (str_take (Z.to_nat written) encoded).

(** The argument of [-out]. *)
Fixpoint out_path (args : list string) : option string :=
  match args with
  | arg :: ((path :: _) as args) => if arg =s "-out" then Some path else out_path args
  | _ => None
  end.

Definition RunRegistryOpenSsl (args : list string) (input : string) (max_stdout_bytes : nat)
  : RouterM DB ProcessResult :=
  t <- gets files_ ;;
  n <- next_draw ;;
  let '(outcome, output) := run_openssl n args input max_stdout_bytes t in
  on_files (modify (fun t => match out_path args, output with
                             | Some path, Some text => write_stream path text t
                             | _, _ => t
                             end)) ;;;
  result <- lift outcome ;;
  if negb (exit_code result =? 0) || timed_out result
  then throw (RuntimeError ("registry v2 openssl command failed: "
                            +:+ DescribeProcessFailure result))
  else m_ret result.
Definition default_stdout : nat := Z.to_nat (2 ^ 20).

Definition RegistryFileKeyId (public_key_path : string) : RouterM DB string :=
  der <- RunRegistryOpenSsl ["pkey"; "-pubin"; "-in"; public_key_path; "-outform"; "DER"]
           EmptyString (Z.to_nat (64 * 2 ^ 10)) ;;
  m_ret (Sha256Bytes (stdout_text der)).

Definition generate_role (key_dir role : string) : RouterM DB (string * json) :=
  let private_key := path_join (path_join key_dir "private") (role +:+ ".pem") in
  let public_key := path_join (path_join key_dir "public") (role +:+ ".pem") in
  t <- gets files_ ;;
  (if negb (exists_ t private_key) || negb (exists_ t public_key) then
     RunRegistryOpenSsl ["genpkey"; "-algorithm"; "Ed25519"; "-out"; private_key] EmptyString
       default_stdout ;;;
     RunRegistryOpenSsl ["pkey"; "-in"; private_key; "-pubout"; "-out"; public_key] EmptyString
       default_stdout ;;;
     m_ret tt
   else m_ret tt) ;;;
  id <- RegistryFileKeyId public_key ;;
  m_ret (role, obj [("keyid", JString id);
                    ("private_key_path", JString ("private/" +:+ role +:+ ".pem"));
                    ("public_key_path", JString ("public/" +:+ role +:+ ".pem"))]).

Definition GenerateRegistryKeyDirectory (key_dir : string) : RouterM DB unit :=
  on_files (create_directories (path_join key_dir "private")) ;;;
  on_files (create_directories (path_join key_dir "public")) ;;;
  roles <- traverse_m (generate_role key_dir) RegistryRoleNames ;;
  text <- lift (JsonText (obj [("schema_version", JInt 1); ("algorithm", JString "ed25519");
                               ("roles", obj roles)])) ;;
  on_files (WriteTextFile (path_join key_dir "keys.json") text).

Definition load_role (key_dir : string) (manifest : json) (t : FileTree) (role : string)
  : exn + (string * RegistryRoleKey) :=
  roles <-? j_at manifest "roles" ;;
  role_payload <-? j_at roles role ;;
  id <-? at_string role_payload "keyid" ;;
  private_path <-? at_string role_payload "private_key_path" ;;
  public_path <-? at_string role_payload "public_key_path" ;;
  pem <-? ReadFileBytes (path_join key_dir public_path) t ;;
  inr (role, mkRoleKey role id (path_join key_dir private_path) (path_join key_dir public_path) pem).

Definition LoadOrCreateRegistryRoleKeys (key_dir : string)
  : RouterM DB (gmap string RegistryRoleKey) :=
  t <- gets files_ ;;
  (if negb (exists_ t (path_join key_dir "keys.json")) then GenerateRegistryKeyDirectory key_dir
   else m_ret tt) ;;;
  t <- gets files_ ;;
  manifest <- lift (read_json (path_join key_dir "keys.json") t) ;;
  loaded <- lift (traverse (load_role key_dir manifest t) RegistryRoleNames) ;;
  m_ret (list_to_map loaded).

Definition SignedRegistryPayload (signed_payload : json) (role_key : RegistryRoleKey)
    (temp_root : string) : RouterM DB json :=
  on_files (create_directories temp_root) ;;;
  n <- next_reading ;;
  let name := key_role role_key +:+ "-" +:+ decimal (steady_clock_count n) in
  let message_path := path_join temp_root (name +:+ ".json") in
  let signature_path := path_join temp_root (name +:+ ".sig") in
  text <- lift (CanonicalJson signed_payload) ;;
  on_files (WriteTextFile message_path text) ;;;
  catch
    (RunRegistryOpenSsl ["pkeyutl"; "-sign"; "-inkey"; private_key_path role_key; "-rawin"; "-in";
                         message_path; "-out"; signature_path] EmptyString default_stdout ;;;
     t <- gets files_ ;;
     signature <- lift (ReadFileBytes signature_path t) ;;
     on_files (remove_file message_path) ;;;
     on_files (remove_file signature_path) ;;;
     sig <- lift (Base64Encode signature) ;;
     m_ret (obj [("signed", signed_payload);
                 ("signatures",
                  JArray [obj [("keyid", JString (keyid role_key)); ("sig", JString sig)]])]))
    (fun e =>
       on_files (modify (remove message_path)) ;;;
       on_files (modify (remove signature_path)) ;;;
       throw e).

(** [WriteTextFile(path, JsonText(SignedRegistryPayload(signed_payload,
    role_keys.at(role), temp_root)))]. *)
Definition write_signed (role_keys : gmap string RegistryRoleKey) (temp_root path role : string)
    (signed_payload : json) : RouterM DB unit :=
  role_key <- lift (role_key_at role_keys role) ;;
  payload <- SignedRegistryPayload signed_payload role_key temp_root ;;
  text <- lift (JsonText payload) ;;
  on_files (WriteTextFile path text).

(** The fields every signed payload starts with. *)
Definition signed_fields (type : string) (version : Z) (rest : list (string * json)) : json :=
  obj (("type", JString type) :: ("spec_version", JString "1") :: ("version", JInt version) :: rest).

Record MetadataVersions := mkVersions {
  checkpoint_version : Z;
  snapshot_version : Z;
  timestamp_version : Z;
  namespaces : Z;
}.

Section Refresh.
Context (registry_root temp_root : string) (role_keys : gmap string RegistryRoleKey).

(** [ReadSignedVersion(path) + 1] on an [int]. *)
Definition next_version (path : string) : RouterM DB Z :=
  t <- gets files_ ;;
  v <- lift (ReadSignedVersion t path) ;;
  if v =? 2 ^ 31 - 1 then throw UndefinedBehaviour else m_ret (v + 1).

Definition file_meta (path : string) (version : Z) : RouterM DB json :=
  t <- gets files_ ;; lift (SignedFileMeta t path version).

(** One namespace: its targets file, and the entry of the snapshot for it. *)
Definition refresh_namespace (entry : string * json) : RouterM DB (string * json) :=
  let '(namespace_name, package_map) := entry in
  let targets_path := path_join (path_join (path_join registry_root "trust") "targets")
                        (namespace_name +:+ ".json") in
  targets_version <- next_version targets_path ;;
  expires <- UtcTimestampPlusDays 30 ;;
  write_signed role_keys temp_root targets_path "targets"
    (signed_fields "targets" targets_version
       [("expires", JString expires); ("namespace", JString namespace_name);
        ("packages", package_map)]) ;;;
  t <- gets files_ ;;
  meta <- lift (SignedFileMeta t targets_path targets_version) ;;
  m_ret (relative t targets_path registry_root, meta).

Definition leaf_hash (t : FileTree) (leaf_path : string) : exn + string :=
  leaf <-? read_json leaf_path t ;; text <-? CanonicalJson leaf ;; inr (Sha256Bytes text).

Definition refresh_checkpoint (registry_time : string) : RouterM DB Z :=
  t <- gets files_ ;;
  leaf_hashes <- lift (traverse (leaf_hash t) (LeafSequencePaths registry_root t)) ;;
  let checkpoint_path := path_join (path_join registry_root "log") "checkpoint.json" in
  version <- next_version checkpoint_path ;;
  root_hash <- lift (TransparencyRootHash leaf_hashes) ;;
  write_signed role_keys temp_root checkpoint_path "log"
    (signed_fields "checkpoint" version
       [("generated_at", JString registry_time);
        ("tree_size", JInt (Z.of_nat (List.length leaf_hashes)));
        ("root_hash", JString root_hash)]) ;;;
  m_ret version.

Definition refresh_snapshot (meta : json) (checkpoint_version : Z) : RouterM DB Z :=
  let snapshot_path := path_join (path_join registry_root "trust") "snapshot.json" in
  version <- next_version snapshot_path ;;
  expires <- UtcTimestampPlusDays 7 ;;
  log_meta <- file_meta (path_join (path_join registry_root "log") "checkpoint.json")
                checkpoint_version ;;
  write_signed role_keys temp_root snapshot_path "snapshot"
    (signed_fields "snapshot" version
       [("expires", JString expires); ("meta", meta);
        ("log_meta", obj [("log/checkpoint.json", log_meta)])]) ;;;
  m_ret version.

Definition refresh_timestamp (snapshot_version : Z) : RouterM DB Z :=
  let timestamp_path := path_join (path_join registry_root "trust") "timestamp.json" in
  version <- next_version timestamp_path ;;
  expires <- UtcTimestampPlusDays 1 ;;
  meta <- file_meta (path_join (path_join registry_root "trust") "snapshot.json")
            snapshot_version ;;
  write_signed role_keys temp_root timestamp_path "timestamp"
    (signed_fields "timestamp" version
       [("expires", JString expires); ("meta", obj [("trust/snapshot.json", meta)])]) ;;;
  m_ret version.
End Refresh.

Definition RefreshSignedRegistryMetadata (config : PlatformConfig)
    (role_keys : gmap string RegistryRoleKey) (registry_time : string)
  : RouterM DB MetadataVersions :=
  let registry_root := registry_root (registry config) in
  let temp_root := path_join registry_root "_tmp" in
  maps <- reads (CollectPackageMaps registry_root) ;;
  let packages := match namespace_packages maps with JObject m => items m | _ => [] end in
  metas <- traverse_m (refresh_namespace registry_root temp_root role_keys) packages ;;
  let meta := fold_left (fun meta '(path, entry) => j_set meta path entry) metas
                (snapshot_meta maps) in
  checkpoint_version <- refresh_checkpoint registry_root temp_root role_keys registry_time ;;
  snapshot_version <- refresh_snapshot registry_root temp_root role_keys meta checkpoint_version ;;
  timestamp_version <- refresh_timestamp registry_root temp_root role_keys snapshot_version ;;
  on_files (modify (remove_all temp_root)) ;;;
  m_ret (mkVersions checkpoint_version snapshot_version timestamp_version
           (j_size (namespace_packages maps))).

(** A file of the fresh registry, written unless it is there. *)
Definition ensure_signed (role_keys : gmap string RegistryRoleKey) (temp_root path role : string)
    (signed_payload : RouterM DB json) : RouterM DB unit :=
  t <- gets files_ ;;
  if exists_ t path then m_ret tt
  else payload <- signed_payload ;; write_signed role_keys temp_root path role payload.

Definition EnsureRegistryRootInitialized (config : PlatformConfig) : RouterM DB unit :=
  let root := registry_root (registry config) in
  let in_root directory name := path_join (path_join root directory) name in
  let temp_root := path_join root "_tmp" in
  on_files (create_directories root) ;;;
  on_files (create_directories (key_dir (registry config))) ;;;
  role_keys <- LoadOrCreateRegistryRoleKeys (key_dir (registry config)) ;;
  registry_time <- UtcTimestampNow ;;
  t <- gets files_ ;;
  (if exists_ t (path_join root "config.json") then m_ret tt
   else
     text <- lift (JsonText (RegistryConfigPayload config registry_time)) ;;
     on_files (WriteTextFile (path_join root "config.json") text)) ;;;
  ensure_signed role_keys temp_root (in_root "log" "checkpoint.json") "log"
    (root_hash <- lift (TransparencyRootHash []) ;;
     m_ret (signed_fields "checkpoint" 1
              [("generated_at", JString registry_time); ("tree_size", JInt 0);
               ("root_hash", JString root_hash)])) ;;;
  ensure_signed role_keys temp_root (in_root "trust" "snapshot.json") "snapshot"
    (expires <- UtcTimestampPlusDays 7 ;;
     meta <- file_meta (in_root "log" "checkpoint.json") 1 ;;
     m_ret (signed_fields "snapshot" 1
              [("expires", JString expires); ("meta", obj []);
               ("log_meta", obj [("log/checkpoint.json", meta)])])) ;;;
  ensure_signed role_keys temp_root (in_root "trust" "timestamp.json") "timestamp"
    (expires <- UtcTimestampPlusDays 1 ;;
     meta <- file_meta (in_root "trust" "snapshot.json") 1 ;;
     m_ret (signed_fields "timestamp" 1
              [("expires", JString expires); ("meta", obj [("trust/snapshot.json", meta)])])) ;;;
  ensure_signed role_keys temp_root (in_root "trust" "root.json") "root"
    (expires <- UtcTimestampPlusDays 365 ;;
     roles <- lift (RegistryRolesPolicyPayload role_keys) ;;
     m_ret (signed_fields "root" 1
              [("expires", JString expires); ("keys", RegistryRoleKeysPayload role_keys);
               ("roles", roles)])) ;;;
  on_files (modify (remove_all temp_root)).
End Signing.
