(* ===== verification/DemoServices.v ===== *)
(** Concrete services of the registry for the witnesses: a [curl] that never
    connects, an [openssl] that signs with a constant, and a TOML library that
    knows no document. *)
From stdpp Require Import base list gmap strings.
From Stdlib Require Import ZArith Ascii String.
From S2P Require Import Prelude Json FileSystem Toml Process RouterSupport ObjectStore RegistryTrust.

Definition demo_curl : CurlHost curl_history :=
  {| openssl_HMAC_SHA256 := fun key message => key ++ string_bytes message;
     AmzTimestamp := fun _ => "20260501T000000Z"%string;
     run_curl := fun args input upload =>
       modify (fun calls => (args, input, upload) :: calls) ;;;
       m_ret (mkResult 7 false 0 false false false "" "could not connect") |}.

Definition demo_signing : SigningHost :=
  {| run_openssl := fun n args _ _ _ =>
       (inr (mkResult 0 false 0 false false false "key" ""), Some "signature"%string);
     EVP_EncodeBlock := fun text => (Z.of_nat (str_length text), text);
     steady_clock_count := Z.of_nat |}.

Definition demo_toml : TomlLib :=
  {| toml_parse := fun _ => inl "unknown document"%string;
     toml_open_error := "File could not be opened for reading";
     toml_to_int := fun _ => None; toml_to_bool := fun _ => None |}.
