(* ===== verification/ManifestFacts.v ===== *)
(** What a manifest that was read satisfies, and that every such manifest can be
    written as a document that reads back as it. *)
From stdpp Require Import base list gmap strings sorting.
From Stdlib Require Import ZArith Lia Ascii String.
From S2P Require Import Prelude Json Paths FileSystem Toml Manifest Demo.

(** ** Valid manifests *)

Definition valid_kind (d : Dependency) : Prop :=
  match dependency_kind d with
  | kPath => IsNonEmptyRelativePath (dependency_source d) = true
             /\ rev d = None /\ dependency_version d = None
  | kGit => dependency_source d <> EmptyString /\ dependency_version d = None
            /\ exists r, rev d = Some r /\ r <> EmptyString
  | kRegistry => IsRegistryRootUrl (dependency_source d) = true /\ rev d = None
                 /\ is_Some (dependency_package d)
                 /\ exists v, dependency_version d = Some v /\ matches_semver v = true
  end.
Definition valid_dependency (d : Dependency) : Prop :=
  (forall name, dependency_package d = Some name -> matches_name name = true) /\ valid_kind d.

(** Sorted by alias, one dependency for each. *)
Definition alias_lt (a b : Dependency) : Prop := String.compare (alias a) (alias b) = Lt.
Definition valid_dependencies (l : list Dependency) : Prop :=
  Forall valid_dependency l /\ StronglySorted alias_lt l.

Definition valid_target (t : NamedTarget) : Prop :=
  target_name t <> EmptyString /\ IsNonEmptyRelativePath (target_path t) = true.
Definition valid_targets (l : list NamedTarget) : Prop :=
  Forall valid_target l /\ NoDup (map target_name l).

Record valid_package (p : PackageConfig) : Prop := {
  package_named : matches_name (package_name p) = true;
  package_versioned : matches_semver (package_version p) = true;
  package_edition : edition p <> EmptyString;
  package_channel : channel (toolchain p) <> EmptyString;
  package_lib : forall path, lib p = Some path -> IsNonEmptyRelativePath path = true;
  package_bins : valid_targets (bins p);
  package_tests : valid_targets (tests p);
  package_target : has_target (lib p) (bins p) (tests p) = true;
  package_deps : valid_dependencies (package_dependencies p);
  package_dev_deps : valid_dependencies (dev_dependencies p);
}.

Definition relative_paths (l : list string) : Prop :=
  Forall (fun path => IsNonEmptyRelativePath path = true) l.
Record valid_workspace (w : WorkspaceConfig) : Prop := {
  workspace_members : members w <> [] /\ relative_paths (members w);
  workspace_exclude : relative_paths (exclude w);
  workspace_resolver : resolver w = "1"%string;
}.

Record valid_manifest (m : ManifestDocument) : Prop := {
  manifest_something : manifest_package m <> None \/ manifest_workspace m <> None;
  manifest_package_valid : forall p, manifest_package m = Some p -> valid_package p;
  manifest_workspace_valid : forall w, manifest_workspace m = Some w -> valid_workspace w;
}.

(** ** The document of a manifest *)

Definition string_entry (key : string) (value : option string) : list (string * toml) :=
  match value with Some s => [(key, TString s)] | None => [] end.
Definition dependency_toml (d : Dependency) : toml :=
  TTable (list_to_map
    (string_entry "package" (dependency_package d)
     ++ match dependency_kind d with
        | kPath => string_entry "path" (Some (dependency_source d))
        | kGit => string_entry "git" (Some (dependency_source d)) ++ string_entry "rev" (rev d)
        | kRegistry => string_entry "version" (dependency_version d)
                       ++ string_entry "registry" (Some (dependency_source d))
        end)).
Definition dependencies_toml (l : list Dependency) : toml :=
  TTable (list_to_map (map (fun d => (alias d, dependency_toml d)) l)).
Definition target_toml (t : NamedTarget) : toml :=
  TTable (list_to_map [("name", TString (target_name t)); ("path", TString (target_path t))]).
Definition strings_toml (l : list string) : toml := TArray (map TString l).

Definition package_toml (p : PackageConfig) : list (string * toml) :=
  [("package"%string,
    TTable (list_to_map [("name", TString (package_name p)); ("version", TString (package_version p));
                         ("edition", TString (edition p)); ("publish", TBoolean (publish p))]));
   ("toolchain"%string,
    TTable (list_to_map [("channel", TString (channel (toolchain p)));
                         ("implicit-std", TBoolean (implicit_std (toolchain p)))]));
   ("bin"%string, TArray (map target_toml (bins p)));
   ("test"%string, TArray (map target_toml (tests p)));
   ("dependencies"%string, dependencies_toml (package_dependencies p));
   ("dev-dependencies"%string, dependencies_toml (dev_dependencies p))]
  ++ match lib p with
     | Some path => [("lib"%string, TTable (list_to_map [("path"%string, TString path)]))]
     | None => []
     end.
Definition workspace_toml (w : WorkspaceConfig) : list (string * toml) :=
  [("workspace"%string,
    TTable (list_to_map [("members", strings_toml (members w)); ("exclude", strings_toml (exclude w));
                         ("resolver", TString (resolver w))]))].
Definition manifest_toml (m : ManifestDocument) : toml_table :=
  list_to_map
    (("spio"%string, TTable {[ "manifest-version"%string := TInteger 1 ]})
     :: match manifest_package m with Some p => package_toml p | None => [] end
     ++ match manifest_workspace m with Some w => workspace_toml w | None => [] end).

(** ** Lemmas *)

Lemma r_bind_inr {E A B} (m : E + A) (k : A -> E + B) b :
  r_bind m k = inr b -> exists a, m = inr a /\ k a = inr b.
Proof. destruct m as [e|a]; [done|]. eauto. Qed.
Lemma ensure_inr b message u : ensure b message = inr u <-> b = true.
Proof. unfold ensure. destruct b, u; naive_solver. Qed.
Lemma require_inr {A} (o : option A) message a : require o message = inr a <-> o = Some a.
Proof. unfold require. destruct o; naive_solver. Qed.

(** One step of a reader that returned. *)
Tactic Notation "read_step" hyp(H) simple_intropattern(a) simple_intropattern(Ha) :=
  apply r_bind_inr in H as (a & Ha & H).

Lemma parse_dependency_valid table_name entry d :
  ParseDependency table_name entry = inr d -> valid_dependency d /\ alias d = entry.1.
Proof.
  destruct entry as [a node]. unfold ParseDependency. intros H.
  read_step H dep Hd. read_step H u1 Hone. read_step H u2 Hp.
  assert (Hname : forall name, OptionalString dep "package" = Some name -> matches_name name = true).
  { intros name Hn. rewrite Hn in Hp. by apply ensure_inr in Hp. }
  destruct (has_key dep "path"); [|destruct (has_key dep "git")].
  - read_step H source Hs. read_step H u3 Hv. apply ensure_inr in Hv. injection H as <-.
    by repeat split.
  - read_step H source Hs. read_step H u3 Hv. read_step H r Hr. read_step H u4 Hne. injection H as <-.
    apply ensure_inr, negb_true_iff, is_empty_false in Hv, Hne. repeat split; try done. by exists r.
  - read_step H u3 Hpk. read_step H version Hv. read_step H u4 Hsem. read_step H source Hs.
    read_step H u5 Hurl. injection H as <-. apply ensure_inr in Hpk, Hsem, Hurl.
    repeat split; try done; cbn; [|by exists version]. by destruct (OptionalString dep "package").
Qed.

(** ** Tables in the order of their keys *)

Definition key_lt {V} (p q : string * V) : Prop := String.compare p.1 q.1 = Lt.

Lemma sorted_strictly {V} (l : list (string * V)) :
  StronglySorted key_le l -> NoDup l.*1 -> StronglySorted key_lt l.
Proof.
  induction 1 as [|p l Hl IH Hp]; cbn; [by constructor|].
  intros [Hnin Hnd]%NoDup_cons. constructor; [by apply IH|].
  rewrite Forall_forall in Hp |- *. intros q Hq. specialize (Hp q Hq).
  apply str_leb_spec in Hp as [E|]; [|done]. destruct Hnin. rewrite E.
  by apply list_elem_of_fmap_2.
Qed.

Lemma items_strictly {V} (m : gmap string V) : StronglySorted key_lt (items m).
Proof. apply sorted_strictly; [apply items_sorted|apply items_keys_NoDup]. Qed.

Lemma sorted_keys {V} (l : list (string * V)) : StronglySorted key_lt l -> NoDup l.*1.
Proof.
  induction 1 as [|p l _ IH Hp]; cbn; [constructor|]. constructor; [|done].
  intros (q & Eq & Hq)%list_elem_of_fmap. rewrite Forall_forall in Hp. specialize (Hp q Hq).
  unfold key_lt in Hp. rewrite Eq, str_compare_refl in Hp. done.
Qed.

Lemma items_of_sorted {V} (l : list (string * V)) :
  StronglySorted key_lt l -> items (list_to_map l) = l.
Proof.
  intros Hl. pose proof (sorted_keys l Hl) as Hnd.
  assert (Hle : StronglySorted key_le l).
  { clear Hnd. induction Hl as [|p l _ IH Hp]; constructor; [done|].
    eapply Forall_impl; [exact Hp|]. intros q Hq. apply str_leb_spec. by right. }
  apply (StronglySorted_unique_strong key_le); [|apply items_sorted|done|].
  - intros [a v] [b w] Ha Hb Hab Hba. apply str_leb_spec in Hab as [E|Hlt], Hba as [E'|Hlt']; cbn in *.
    + subst b. apply elem_of_items in Ha. apply elem_of_list_to_map in Hb; [|done]. congruence.
    + subst b. by rewrite str_compare_refl in Hlt'.
    + subst b. by rewrite str_compare_refl in Hlt.
    + pose proof (str_lt_trans _ _ _ Hlt Hlt') as Hc. by rewrite str_compare_refl in Hc.
  - rewrite items_permutation. by apply map_to_list_to_map.
Qed.

Lemma traverse_inr {E A B} (f : A -> E + B) l bs :
  traverse f l = inr bs -> Forall2 (fun a b => f a = inr b) l bs.
Proof.
  revert bs. induction l as [|a l IH]; intros bs; cbn [traverse]; [by intros [= <-]|].
  intros H. read_step H b Hb. read_step H rest Hrest. injection H as <-. constructor; [done|by apply IH].
Qed.
Lemma traverse_map {E A B C} (f : B -> E + C) (g : A -> B) (h : A -> C) l :
  (forall a, a ∈ l -> f (g a) = inr (h a)) -> traverse f (map g l) = inr (map h l).
Proof.
  induction l as [|a l IH]; intros Hf; [done|]. cbn [map traverse].
  rewrite Hf by by constructor. cbn [r_bind]. rewrite IH; [done|]. intros b Hb. apply Hf. by constructor.
Qed.

Lemma parse_dependencies_valid doc table_name l :
  ParseDependencies doc table_name = inr l -> valid_dependencies l.
Proof.
  unfold ParseDependencies. destruct (table_at doc table_name) as [deps|]; [|intros [= <-]; by repeat constructor].
  intros Hl%traverse_inr. pose proof (items_strictly deps) as Hs. revert Hs.
  induction Hl as [|[a node] d es ds Hd Hl IH]; intros Hs; [by repeat constructor|].
  apply StronglySorted_inv in Hs as [Hs Hall]. destruct (IH Hs) as [Hv Hsort].
  apply parse_dependency_valid in Hd as [Hvd Ha]. split; [by constructor|]. constructor; [done|].
  clear -Hl Hall Ha. cbn in Ha. subst a. induction Hl as [|[b node'] d' es ds Hd' _ IH]; [done|].
  apply Forall_cons in Hall as [Hlt Hall]. constructor; [|by apply IH].
  apply parse_dependency_valid in Hd' as [_ Hb]. unfold alias_lt, key_lt in *. cbn in *. congruence.
Qed.

Lemma parse_targets_valid key seen nodes l :
  parse_targets key seen nodes = inr l ->
  Forall valid_target l /\ NoDup (map target_name l) /\ forall n, n ∈ map target_name l -> n ∉ seen.
Proof.
  revert seen l. induction nodes as [|node nodes IH]; intros seen l; cbn [parse_targets].
  { intros [= <-]. split_and!; [constructor|constructor|]. intros n Hn. by apply not_elem_of_nil in Hn. }
  intros H. read_step H table Ht. read_step H name Hn. read_step H path Hp. read_step H u Hne.
  read_step H u1 Hr. read_step H u2 Hs. read_step H rest Hrest. injection H as <-.
  apply ensure_inr in Hne, Hr, Hs. apply negb_true_iff, is_empty_false in Hne.
  apply negb_true_iff in Hs. destruct (IH _ _ Hrest) as (Hv & Hnd & Hout).
  assert (Hseen : name ∉ seen).
  { intros Hin. apply not_true_iff_false in Hs. by apply Hs, string_in_iff. }
  split_and!.
  - by constructor.
  - cbn. constructor; [|done]. intros Hin. apply (Hout name Hin). by constructor.
  - cbn. intros n Hin. apply elem_of_cons in Hin as [->|Hin]; [done|].
    intros Hn'. apply (Hout n Hin). by constructor.
Qed.

Lemma validate_paths_relative paths context u : validate_paths paths context = inr u <-> relative_paths paths.
Proof.
  unfold relative_paths. destruct u. induction paths as [|p paths IH]; cbn; [by split|].
  unfold ValidateRelativePath, ensure. rewrite Forall_cons. destruct (IsNonEmptyRelativePath p); cbn; naive_solver.
Qed.

(** ** Reading gives valid manifests *)

Lemma parse_package_valid `{TomlLib} doc p : ParsePackage doc = inr p -> valid_package p.
Proof.
  unfold ParsePackage. intros H0. read_step H0 table Ht. read_step H0 name Hn.
  read_step H0 version Hv. read_step H0 ed He. read_step H0 tc Htc. read_step H0 library Hl.
  read_step H0 bs Hb. read_step H0 ts Hts. read_step H0 deps Hd. read_step H0 devs Hdd.
  read_step H0 u1 H1. read_step H0 u2 H2. read_step H0 u3 H3. read_step H0 u4 H4. injection H0 as <-.
  apply ensure_inr in H1, H2, H3, H4. apply negb_true_iff, is_empty_false in H3.
  assert (Hchannel : channel tc <> EmptyString).
  { unfold ParseToolchain in Htc. read_step Htc t1 Ht1. read_step Htc ch Hch. read_step Htc u5 H5.
    read_step Htc std Hstd. injection Htc as <-. by apply ensure_inr, negb_true_iff, is_empty_false in H5. }
  assert (Hlib : forall path, library = Some path -> IsNonEmptyRelativePath path = true).
  { unfold ParseLib in Hl. destruct (table_at doc "lib"); [|by injection Hl as <-].
    read_step Hl path Hpath. read_step Hl u5 H5. injection Hl as <-. intros ? [= <-].
    by apply ensure_inr in H5. }
  assert (Htargets : forall key l, ParseTargets key doc = inr l -> valid_targets l).
  { intros key l. unfold ParseTargets. destruct (array_at doc key).
    - intros (? & ? & _)%parse_targets_valid. by split.
    - intros [= <-]. by split; constructor. }
  split; cbn; try done; eauto using parse_dependencies_valid.
Qed.

Lemma parse_workspace_valid doc w : ParseWorkspace doc = inr w -> valid_workspace w.
Proof.
  unfold ParseWorkspace. intros H. read_step H table Ht. read_step H ms Hm. read_step H ex He.
  read_step H rs Hr. read_step H u1 H1. read_step H u2 H2. read_step H u3 H3. injection H as <-.
  apply ensure_inr, str_eqb_iff in H1. apply validate_paths_relative in H2, H3.
  split; cbn; [split|done|done]; [|done]. unfold RequireStringArray in Hm.
  read_step Hm values Hv. read_step Hm u4 H4. injection Hm as <-. apply ensure_inr in H4.
  by destruct values.
Qed.

Lemma parse_manifest_valid `{TomlLib} doc m : parse_manifest doc = inr m -> valid_manifest m.
Proof.
  unfold parse_manifest. intros H0. read_step H0 spio Hs. read_step H0 u1 H1. read_step H0 u2 H2.
  apply ensure_inr in H2. read_step H0 p Hp. read_step H0 w Hw. injection H0 as <-.
  assert (Hpv : forall q, p = Some q -> has_key doc "package" = true /\ valid_package q).
  { intros q ->. destruct (has_key doc "package"); [|done]. read_step Hp q' Hq. injection Hp as ->.
    eauto using parse_package_valid. }
  split; cbn.
  - destruct (has_key doc "package"); [left; by read_step Hp q' Hq; injection Hp as <-|].
    destruct (has_key doc "workspace"); [right; by read_step Hw q' Hq; injection Hw as <-|done].
  - intros q Hq. by apply Hpv.
  - intros q ->. destruct (has_key doc "workspace"); [|done]. read_step Hw q' Hq. injection Hw as ->.
    eauto using parse_workspace_valid.
Qed.

(** ** Valid manifests read back *)

(** The fields of a dependency's table. *)
Lemma dependency_fields_read d : valid_kind d ->
  exists dep, dependency_toml d = TTable dep
    /\ OptionalString dep "package" = dependency_package d
    /\ has_key dep "path" = bool_decide (dependency_kind d = kPath)
    /\ has_key dep "git" = bool_decide (dependency_kind d = kGit)
    /\ has_key dep "version" || has_key dep "registry" = bool_decide (dependency_kind d = kRegistry)
    /\ match dependency_kind d with
       | kPath => OptionalString dep "path" = Some (dependency_source d)
       | kGit => OptionalString dep "git" = Some (dependency_source d)
                 /\ OptionalString dep "rev" = rev d
       | kRegistry => OptionalString dep "version" = dependency_version d
                      /\ OptionalString dep "registry" = Some (dependency_source d)
       end.
Proof.
  destruct d as [a pk kind source rv vs]. intros Hk. eexists. split; [reflexivity|].
  destruct kind; cbn in Hk |- *.
  - destruct pk; by repeat split.
  - destruct Hk as (_ & _ & r & -> & _). destruct pk; by repeat split.
  - destruct Hk as (_ & _ & _ & v & -> & _). destruct pk; by repeat split.
Qed.

Lemma require_string_optional table key context s :
  OptionalString table key = Some s -> RequireString table key context = inr s.
Proof. unfold OptionalString, RequireString. by intros ->. Qed.

Lemma dependency_reads table_name d : valid_dependency d ->
  ParseDependency table_name (alias d, dependency_toml d) = inr d.
Proof.
  intros [Hname Hkind]. pose proof (dependency_fields_read d Hkind)
    as (dep & Htoml & Hp & H1 & H2 & H3 & Hfields).
  unfold ParseDependency. rewrite Htoml. cbn [require as_table r_bind]. rewrite H1, H2, H3, Hp.
  assert (Hpk : forall context, match dependency_package d with
                                | Some name => ValidatePackageName name context
                                | None => inr tt end = inr tt).
  { intros context. destruct (dependency_package d) as [name|]; [|done].
    unfold ValidatePackageName, ensure. by rewrite Hname. }
  destruct d as [a pk kind source rv vs]. cbn in *.
  destruct kind; cbn in Hkind.
  - destruct Hkind as (Hs & -> & ->). cbn. rewrite Hpk. cbn.
    rewrite (require_string_optional _ _ _ _ Hfields). cbn. unfold ValidateRelativePath, ensure.
    by rewrite Hs.
  - destruct Hkind as (Hs & -> & r & -> & Hr). destruct Hfields as [Hg Hrev]. cbn. rewrite Hpk. cbn.
    rewrite (require_string_optional _ _ _ _ Hg). apply is_empty_false in Hs, Hr.
    cbn. rewrite Hs. cbn. rewrite (require_string_optional _ _ _ _ Hrev). cbn. by rewrite Hr.
  - destruct Hkind as (Hs & -> & [name ->] & v & -> & Hv). destruct Hfields as [Hver Hreg]. cbn.
    rewrite (Hpk _). cbn. rewrite (require_string_optional _ _ _ _ Hver). cbn.
    unfold ValidateSemver, ValidateRegistryRoot, ensure. rewrite Hv. cbn.
    rewrite (require_string_optional _ _ _ _ Hreg). cbn. by rewrite Hs.
Qed.

Lemma dependencies_read doc table_name l : valid_dependencies l ->
  doc !! table_name = Some (dependencies_toml l) -> ParseDependencies doc table_name = inr l.
Proof.
  intros [Hv Hs] Hd. unfold ParseDependencies, table_at. rewrite Hd. cbn.
  rewrite items_of_sorted.
  - rewrite (traverse_map _ _ id); [by rewrite map_id|]. intros d Hin.
    apply dependency_reads. rewrite Forall_forall in Hv. by apply Hv.
  - clear -Hs. induction Hs as [|d l _ IH Hd]; cbn; constructor; [done|].
    by apply Forall_fmap, (Forall_impl _ _ _ Hd).
Qed.

Lemma targets_read key seen l : Forall valid_target l -> NoDup (map target_name l) ->
  (forall n, n ∈ map target_name l -> n ∉ seen) ->
  parse_targets key seen (map target_toml l) = inr l.
Proof.
  revert seen. induction l as [|[name path] l IH]; intros seen Hv Hnd Hout; [done|].
  apply Forall_cons in Hv as [[Hn Hp] Hv]. apply NoDup_cons in Hnd as [Hnin Hnd]. cbn in Hn, Hp.
  cbn [map parse_targets target_toml as_table require r_bind target_name target_path].
  rewrite (require_string_optional _ "name" _ name) by reflexivity. cbn [r_bind].
  rewrite (require_string_optional _ "path" _ path) by reflexivity. cbn [r_bind].
  apply is_empty_false in Hn. unfold ValidateRelativePath, ensure. rewrite Hn, Hp. cbn [negb r_bind].
  assert (Hs : string_in name seen = false).
  { apply not_true_iff_false. rewrite string_in_iff. apply Hout. by constructor. }
  rewrite Hs. cbn [negb r_bind]. rewrite IH; [done|done|done|].
  intros n Hin [->|Hseen]%elem_of_cons; [done|]. apply (Hout n); [by constructor|done].
Qed.

Lemma target_arrays_read key doc l : valid_targets l ->
  doc !! key = Some (TArray (map target_toml l)) -> ParseTargets key doc = inr l.
Proof.
  intros [Hv Hnd] Hd. unfold ParseTargets, array_at. rewrite Hd. cbn. apply targets_read; [done..|].
  intros n _. apply not_elem_of_nil.
Qed.

Lemma string_array_reads table key context l :
  table !! key = Some (strings_toml l) -> string_array table key context = inr l.
Proof.
  intros Ht. unfold string_array, array_at. rewrite Ht. cbn.
  rewrite (traverse_map _ TString id); [by rewrite map_id|done].
Qed.

(** The document of a package, by the keys it is read under. *)
Record package_document (doc : toml_table) (p : PackageConfig) : Prop := {
  doc_package : table_at doc "package" = Some (list_to_map
    [("name", TString (package_name p)); ("version", TString (package_version p));
     ("edition", TString (edition p)); ("publish", TBoolean (publish p))]);
  doc_toolchain : table_at doc "toolchain" = Some (list_to_map
    [("channel", TString (channel (toolchain p)));
     ("implicit-std", TBoolean (implicit_std (toolchain p)))]);
  doc_lib : table_at doc "lib"
            = (fun path => {[ "path"%string := TString path ]}) <$> lib p;
  doc_bins : doc !! "bin"%string = Some (TArray (map target_toml (bins p)));
  doc_tests : doc !! "test"%string = Some (TArray (map target_toml (tests p)));
  doc_deps : doc !! "dependencies"%string = Some (dependencies_toml (package_dependencies p));
  doc_dev : doc !! "dev-dependencies"%string = Some (dependencies_toml (dev_dependencies p));
}.

Lemma package_reads `{TomlLib} doc p : valid_package p -> package_document doc p ->
  ParsePackage doc = inr p.
Proof.
  intros [H1 H2 H3 H4 H5 H6 H7 H8 H9 H10] [D1 D2 D3 D4 D5 D6 D7].
  apply is_empty_false in H3, H4. destruct p as [name version ed pub [ch std] lb bs ts deps devs].
  cbn in *. unfold ParsePackage, RequireTable. rewrite D1. cbn [require r_bind].
  rewrite (require_string_optional _ "name" _ name) by reflexivity. cbn [r_bind].
  rewrite (require_string_optional _ "version" _ version) by reflexivity. cbn [r_bind].
  rewrite (require_string_optional _ "edition" _ ed) by reflexivity. cbn [r_bind].
  assert (Htc : ParseToolchain doc = inr (mkToolchain ch std)).
  { unfold ParseToolchain, RequireTable. rewrite D2. cbn [require r_bind].
    rewrite (require_string_optional _ "channel" _ ch) by reflexivity. cbn [r_bind]. unfold ensure. by rewrite H4. }
  assert (Hlb : ParseLib doc = inr lb).
  { unfold ParseLib. rewrite D3. destruct lb as [path|]; [|done]. cbn [fmap option_fmap option_map].
    rewrite (require_string_optional _ "path" _ path) by reflexivity. cbn [r_bind].
    unfold ValidateRelativePath, ensure. by rewrite (H5 path eq_refl). }
  rewrite Htc, Hlb. cbn [r_bind]. unfold ParseBins, ParseTests.
  rewrite (target_arrays_read "bin" doc bs), (target_arrays_read "test" doc ts) by done. cbn [r_bind].
  rewrite (dependencies_read doc _ deps), (dependencies_read doc _ devs) by done. cbn [r_bind].
  unfold ValidatePackageName, ValidateSemver, ensure. rewrite H1, H2, H3, H8. done.
Qed.

Lemma workspace_reads doc w : valid_workspace w ->
  table_at doc "workspace" = Some (list_to_map
    [("members", strings_toml (members w)); ("exclude", strings_toml (exclude w));
     ("resolver", TString (resolver w))]%string) ->
  ParseWorkspace doc = inr w.
Proof.
  intros [[Hne Hm] He Hr] Hd. destruct w as [ms ex rs]. cbn in *. subst rs.
  unfold ParseWorkspace, RequireTable, RequireStringArray. rewrite Hd. cbn [require r_bind].
  rewrite (string_array_reads _ "members" _ ms) by reflexivity. cbn [r_bind].
  destruct ms as [|first ms]; [done|]. cbn [andb negb ensure r_bind].
  change (has_key _ "exclude") with true. cbn [r_bind].
  rewrite (string_array_reads _ "exclude" _ ex) by reflexivity. cbn [r_bind].
  rewrite (require_string_optional _ "resolver" _ "1"%string) by reflexivity. cbn [r_bind].
  change (ensure ("1" =s "1") _) with (@inr exn unit tt). cbn [r_bind].
  rewrite (proj2 (validate_paths_relative (first :: ms) _ tt)) by done. cbn [r_bind].
  by rewrite (proj2 (validate_paths_relative ex _ tt)).
Qed.

Lemma manifest_package_document p w : package_document (manifest_toml (mkManifest (Some p) w)) p.
Proof. destruct p as [? ? ? ? [] [?|] ? ? ? ?], w; by split. Qed.

Lemma valid_manifest_reads `{TomlLib} m : valid_manifest m -> parse_manifest (manifest_toml m) = inr m.
Proof.
  intros [Hsome Hp Hw]. destruct m as [p w]. cbn in Hsome, Hp, Hw. unfold parse_manifest, RequireTable.
  assert (Hspio : table_at (manifest_toml (mkManifest p w)) "spio"
                  = Some {[ "manifest-version"%string := TInteger 1 ]}) by by destruct p as [[? ? ? ? [] [?|] ? ? ? ?]|], w.
  rewrite Hspio. cbn [require r_bind]. rewrite lookup_singleton_eq. cbn [mbind option_bind toml_int].
  rewrite bool_decide_eq_true_2 by done. cbn [ensure r_bind].
  assert (Hhp : has_key (manifest_toml (mkManifest p w)) "package"
                = match p with Some _ => true | None => false end).
  { by destruct p as [[? ? ? ? [] [?|] ? ? ? ?]|], w. }
  assert (Hhw : has_key (manifest_toml (mkManifest p w)) "workspace"
                = match w with Some _ => true | None => false end).
  { by destruct p as [[? ? ? ? [] [?|] ? ? ? ?]|], w. }
  rewrite Hhp, Hhw.
  assert (Hpr : forall q, p = Some q -> ParsePackage (manifest_toml (mkManifest p w)) = inr q).
  { intros q ->. apply package_reads; [by apply Hp|apply manifest_package_document]. }
  assert (Hwr : forall q, w = Some q -> ParseWorkspace (manifest_toml (mkManifest p w)) = inr q).
  { intros q ->. apply workspace_reads; [by apply Hw|].
    by destruct p as [[? ? ? ? [] [?|] ? ? ? ?]|]. }
  destruct p as [p|], w as [w|]; cbn [orb ensure r_bind];
    rewrite ?(Hpr p eq_refl), ?(Hwr w eq_refl); try done.
  by destruct Hsome.
Qed.

Lemma LoadManifest_valid `{TomlLib} `{FileHost} path t m :
  LoadManifest path t = inr m -> valid_manifest m.
Proof. unfold LoadManifest. intros Hm. read_step Hm doc Hdoc. by apply parse_manifest_valid in Hm. Qed.

(** C35. [LoadManifest] returns exactly the valid manifests.  Whatever it returns is
    valid: the package's name, version, edition and tool chain are well formed, it has
    a target, its targets have distinct names and relative paths, every dependency has
    one source kind with the fields of that kind, and the dependencies are sorted with
    distinct aliases; and every valid manifest has a document that [LoadManifest]
    reads back as that manifest, so the validation turns none of them away. *)
Theorem manifests_are_read_exactly `{TomlLib} `{FileHost} path t :
  (forall m, LoadManifest path t = inr m -> valid_manifest m)
  /\ forall m text, valid_manifest m -> open_in t path = Some text ->
       toml_parse text = inr (manifest_toml m) -> LoadManifest path t = inr m.
Proof.
  split; [apply LoadManifest_valid|]. unfold LoadManifest, parse_toml_file.
  - intros m text Hv -> ->. cbn. by apply valid_manifest_reads.
Qed.

(** A library that knows one document. *)
Definition demo_manifest : ManifestDocument :=
  mkManifest (Some (mkPackageConfig "acme/tool" "1.2.3" "2026" true (mkToolchain "nightly" true)
    (Some "src/lib.styio"%string) [mkTarget "tool" "src/main.styio"] []
    [mkDependency "base" (Some "acme/base"%string) kRegistry "https://registry" None (Some "0.1.0"%string);
     mkDependency "local" None kPath "../local" None None] [])) None.
Definition one_document : TomlLib :=
  {| toml_parse := fun _ => inr (manifest_toml demo_manifest); toml_open_error := "";
     toml_to_int := fun _ => None; toml_to_bool := fun _ => None |}.
#[local] Existing Instances one_document Demo.demo_file_host.

Lemma manifests_are_read_exactly_witness :
  LoadManifest "spio.toml" {[ ["spio.toml"%string] := Regular "document" ]} = inr demo_manifest
  /\ valid_manifest demo_manifest.
Proof.
  assert (H : LoadManifest "spio.toml" {[ ["spio.toml"%string] := Regular "document" ]}
              = inr demo_manifest).
  { apply (proj2 (manifests_are_read_exactly "spio.toml" _) demo_manifest "document"%string);
      [|reflexivity|reflexivity].
    split; [by left| |done]. intros p [= <-]. split; try done; cbn.
    - by intros path [= <-].
    - split; [repeat constructor; done|]. repeat constructor. by apply not_elem_of_nil.
    - by repeat constructor.
    - split; [|by repeat constructor]. constructor; [|constructor; [|constructor]].
      + split; [by intros name [= <-]|]. cbn. split_and!; [done|done|by eexists|by eexists].
      + by split.
    - by repeat constructor. }
  split; [exact H|]. by apply (proj1 (manifests_are_read_exactly "spio.toml" _)) in H.
Defined.
