(* ===== verification/ToolchainFacts.v ===== *)
(** Facts about the tool chain state of a project: only supported values are loaded or
    written, and what is written loads again. *)
From stdpp Require Import base list gmap strings.
From Stdlib Require Import ZArith Lia Ascii String.
From S2P Require Import Prelude Json Paths FileSystem FileSystemFacts PathFacts Toml TomlFacts Manifest CachePaths Toolchain ManifestFacts Demo.

(** * The state file *)

Definition state_sections (s : ProjectToolchainState) : list section :=
  [("toolchain", [("mode", state_mode s); ("channel", state_channel s); ("build", state_build_mode s)]);
   ("cloud", [("risk", risk_class s); ("lane", preferred_execution_lane s);
              ("security", security_profile s)])]%string
  ++ match source_revision s with
     | Some revision => [("source", [("revision", revision)])]%string
     | None => []
     end.

Lemma rendered_sections s : RenderToolchainState s = text_of (sections_lines (state_sections s)).
Proof.
  apply chars_inj. unfold RenderToolchainState, setting_line, text_of, state_sections.
  destruct (source_revision s); cbn [app sections_lines one_section map fst snd String.concat];
    unfold value_line, line; rewrite ?chars_app; cbn [fst snd];
    rewrite ?chars_app, <- ?app_assoc; reflexivity.
Qed.

Definition supported_state (s : ProjectToolchainState) : bool :=
  IsSupportedToolchainMode (state_mode s) && IsSupportedChannel (state_channel s)
  && IsSupportedBuildMode (state_build_mode s) && IsSupportedCloudRiskClass (risk_class s)
  && IsSupportedCloudExecutionLane (preferred_execution_lane s)
  && IsSupportedCloudSecurityProfile (security_profile s).

Lemma vocabulary_spec value supported : VocabularyContains value supported = true <-> value ∈ supported.
Proof.
  unfold VocabularyContains. rewrite existsb_exists. setoid_rewrite str_eqb_iff. split.
  - intros (v & Hv & ->). by apply list_elem_of_In.
  - intros Hv. exists value. by split; [apply list_elem_of_In|].
Qed.

Lemma allowed_spec value allowed label :
  RequireAllowedValue value allowed label
  = if VocabularyContains value allowed then inr tt
    else inl (ToolError ("unsupported " +:+ label +:+ ": " +:+ value)).
Proof.
  unfold RequireAllowedValue. destruct (existsb _ allowed) eqn:E1, (VocabularyContains value allowed) eqn:E2;
    [done| | |done].
  - apply existsb_exists in E1 as (v & Hv & <-%str_eqb_iff).
    by rewrite (proj2 (vocabulary_spec value allowed)) in E2 by by apply list_elem_of_In.
  - apply vocabulary_spec, list_elem_of_In in E2.
    rewrite <- not_true_iff_false, existsb_exists in E1. destruct E1. exists value.
    by rewrite str_eqb_refl.
Qed.

Lemma required_supported s : RequireSupportedState s = inr tt <-> supported_state s = true.
Proof.
  unfold RequireSupportedState, supported_state, IsSupportedToolchainMode, IsSupportedChannel,
    IsSupportedBuildMode, IsSupportedCloudRiskClass, IsSupportedCloudExecutionLane,
    IsSupportedCloudSecurityProfile. rewrite !allowed_spec.
  repeat (destruct (VocabularyContains _ _); cbn [r_bind andb]; try done).
Qed.

Lemma vocabulary_plain value supported :
  VocabularyContains value supported = true -> forallb plain_text supported = true ->
  plain_text value = true.
Proof.
  intros Hv%vocabulary_spec%list_elem_of_In Hp. rewrite forallb_forall in Hp. by apply Hp.
Qed.

Lemma state_sections_plain s :
  supported_state s = true -> from_option plain_text true (source_revision s) = true ->
  Forall plain_section (state_sections s) /\ NoDup (state_sections s).*1.
Proof.
  unfold supported_state. rewrite !andb_true_iff. intros (((((Hm & Hc) & Hb) & Hr) & Hl) & Hp) Hv.
  apply vocabulary_plain in Hm, Hc, Hb, Hr, Hl, Hp; try done.
  assert (Hnd : forall l : list string, bool_decide (NoDup l) = true -> NoDup l)
    by (intros l; apply bool_decide_eq_true).
  unfold state_sections. destruct (source_revision s) as [revision|]; cbn [app];
    (split; [|by apply Hnd]); repeat (apply Forall_cons; split; [|]); try done;
    split; cbn; try done; rewrite ?Forall_cons; try (by apply Hnd); by split_and!.
Qed.

(** An empty revision is written, and read as none. *)
Definition known_revision (s : ProjectToolchainState) : ProjectToolchainState :=
  mkToolchainState (state_manifest_path s) (state_path s) (state_file_exists s) (state_mode s)
    (state_channel s) (state_build_mode s) (risk_class s) (preferred_execution_lane s)
    (security_profile s)
    (match source_revision s with
     | Some revision => if is_empty revision then None else Some revision
     | None => None
     end).

Lemma supported_non_empty value supported :
  VocabularyContains value supported = true -> VocabularyContains EmptyString supported = false ->
  is_empty value = false.
Proof. intros Hv He. apply is_empty_false. intros ->. by rewrite Hv in He. Qed.

Lemma non_empty_at table key value : table !! key = Some (TString value) -> is_empty value = false ->
  non_empty_value table key = Some value.
Proof. unfold non_empty_value. intros -> He. cbn. by rewrite He. Qed.

(** The values of the tables of a state are the state's. *)
Lemma tables_read_back s base : supported_state s = true ->
  state_manifest_path base = state_manifest_path s -> state_path base = state_path s ->
  state_file_exists base = state_file_exists s -> source_revision base = None ->
  let doc := sections_table (state_sections s) in
  exists toolchain, table_at doc "toolchain" = Some toolchain
    /\ read_toolchain_state base toolchain (default ∅ (table_at doc "cloud"))
         (default ∅ (table_at doc "source")) = known_revision s.
Proof.
  unfold supported_state. rewrite !andb_true_iff. intros (((((Hm & Hc) & Hb) & Hr) & Hl) & Hp) E1 E2 E3 E4.
  apply supported_non_empty in Hm, Hc, Hb, Hr, Hl, Hp; try done.
  set (toolchain := entries_table [("mode", state_mode s); ("channel", state_channel s);
                                   ("build", state_build_mode s)]%string).
  set (cloud := entries_table [("risk", risk_class s); ("lane", preferred_execution_lane s);
                               ("security", security_profile s)]%string).
  assert (Hdoc : let doc := sections_table (state_sections s) in
    table_at doc "toolchain" = Some toolchain /\ table_at doc "cloud" = Some cloud
    /\ non_empty_value (default ∅ (table_at doc "source")) "revision"
       = match source_revision s with
         | Some revision => if is_empty revision then None else Some revision
         | None => None
         end).
  { unfold state_sections. by destruct (source_revision s). }
  destruct Hdoc as (Ht & Hcl & Hs). cbn zeta. exists toolchain. rewrite Ht, Hcl. split; [done|].
  unfold read_toolchain_state, known_revision. rewrite Hs, E1, E2, E3, E4.
  change (default ∅ (Some cloud)) with cloud.
  rewrite (non_empty_at toolchain "mode" (state_mode s)), (non_empty_at toolchain "channel" (state_channel s)),
    (non_empty_at toolchain "build" (state_build_mode s)), (non_empty_at cloud "risk" (risk_class s)),
    (non_empty_at cloud "lane" (preferred_execution_lane s)),
    (non_empty_at cloud "security" (security_profile s)) by done.
  by destruct (source_revision s) as [[]|].
Qed.

Section StateFile.
Context `{FileHost} `{TomlLib}.

Lemma canonical_idempotent p q : CanonicalAbsolutePath p = inr q -> CanonicalAbsolutePath q = inr q.
Proof.
  unfold CanonicalAbsolutePath. destruct (is_empty p); [done|]. intros [= <-].
  set (n := lexically_normal _).
  assert (Hn : lexically_normal n = n /\ is_absolute n = true) by apply lexically_normal_idempotent.
  destruct Hn as [Hn Ha]. rewrite Ha, Hn. destruct n; done.
Qed.

Lemma state_path_found p t path :
  ProjectToolchainStatePathForManifest p = inr path -> exists_ t path = true ->
  FindProjectToolchainStatePath p t = inr (Some path).
Proof.
  unfold ProjectToolchainStatePathForManifest, FindProjectToolchainStatePath, find_above.
  destruct (CanonicalAbsolutePath p) as [|m]; [done|]. cbn [r_bind]. intros Hp He.
  destruct (str_length (parent_path m)); cbn [find_upwards]; rewrite Hp; cbn [r_bind]; by rewrite He.
Qed.

(** A file is written whole or, where the directory or the stream fails, nothing but
    directories is. *)
Lemma text_file_written path text t outcome t' : WriteTextFile path text t = (outcome, t') ->
  exists t1, more_directories t t1
    /\ match outcome with
       | inl _ => t' = t1
       | inr _ => can_open path t1 = true /\ t' = write_stream path text t1
       end.
Proof.
  unfold WriteTextFile, m_bind.
  destruct (create_directories (parent_path path) t) as [[e|[]] t1] eqn:E.
  - apply create_directories_error in E as ->. intros [= <- <-]. exists t.
    by split; [apply more_directories_refl|].
  - apply create_directories_spec in E as (Hm & _). unfold gets.
    destruct (can_open path t1) eqn:Ho; cbn [negb]; intros [= <- <-]; by exists t1.
Qed.

Lemma loaded_from_file p path t text doc toolchain base state :
  CanonicalAbsolutePath p = inr p -> ProjectToolchainStatePathForManifest p = inr path ->
  exists_ t path = true -> open_in t path = Some text -> toml_parse text = inr doc ->
  table_at doc "toolchain" = Some toolchain ->
  base = mkToolchainState p path true kToolchainModeBinary kChannelStable kBuildModeMinimal
           kRiskClassUntrustedUser kExecutionLaneIsolated kSecurityProfileSandboxDefault None ->
  read_toolchain_state base toolchain (default ∅ (table_at doc "cloud"))
    (default ∅ (table_at doc "source")) = state ->
  supported_state state = true -> LoadProjectToolchainState p t = inr state.
Proof.
  intros Hc Hp He Ho Hd Ht -> Hs Hsup. unfold LoadProjectToolchainState. rewrite Hc. cbn [r_bind].
  rewrite Hp. cbn [r_bind]. rewrite (state_path_found p t path Hp He). cbn [r_bind].
  unfold parse_toolchain_state. rewrite Ho, Hd. cbn [r_bind]. rewrite Ht. unfold with_file. cbn.
  rewrite Hs. apply required_supported in Hsup as ->. done.
Qed.

Lemma load_supported p t state : LoadProjectToolchainState p t = inr state -> supported_state state = true.
Proof.
  unfold LoadProjectToolchainState. destruct (CanonicalAbsolutePath p) as [|m]; [done|]. cbn [r_bind].
  destruct (ProjectToolchainStatePathForManifest m) as [|path]; [done|]. cbn [r_bind].
  destruct (FindProjectToolchainStatePath m t) as [|[found|]]; [done| |]; cbn [r_bind];
    [|by intros [= <-]].
  destruct (parse_toolchain_state found t) as [|doc]; [done|]. cbn [r_bind].
  destruct (table_at doc "toolchain") as [toolchain|]; [|done]. intros Hs.
  destruct (RequireSupportedState _) as [|[]] eqn:E; [done|]. cbn [r_bind] in Hs.
  apply (inj inr) in Hs as <-. by apply required_supported.
Qed.

(** An update taken apart: either it ended before the file, or its checks passed and
    the file was written. *)
Lemma update_steps update t outcome t' :
  UpdateProjectToolchainState update t = (outcome, t') ->
  (exists e, outcome = inl e /\ t' = t)
  \/ exists m path written r,
      CanonicalAbsolutePath (update_manifest_path update) = inr m
      /\ ProjectToolchainStatePathForManifest m = inr path
      /\ state_manifest_path written = m /\ state_path written = path
      /\ supported_state written = true
      /\ WriteTextFile path (RenderToolchainState written) t = (r, t')
      /\ outcome = match r with inl e => inl e | inr _ => inr (with_file path true written) end.
Proof.
  unfold UpdateProjectToolchainState, m_bind, lift, gets.
  destruct (CanonicalAbsolutePath _) as [e|m] eqn:Em; [intros [= <- <-]; left; by exists e|].
  cbn [id]. destruct (LoadManifest m t) as [e|]; [intros [= <- <-]; left; by exists e|].
  destruct (LoadProjectToolchainState m t) as [e|loaded]; [intros [= <- <-]; left; by exists e|].
  destruct (ProjectToolchainStatePathForManifest m) as [e|path] eqn:Ep;
    [intros [= <- <-]; left; by exists e|].
  destruct (RequireSupportedState _) as [e|[]] eqn:Es; [intros [= <- <-]; left; by exists e|].
  apply required_supported in Es. set (written := apply_update update m path loaded) in *.
  destruct (WriteTextFile _ _ t) as [r t1] eqn:Ew. intros Hr. right. exists m, path, written, r.
  by destruct r as [e|[]]; injection Hr as <- <-.
Qed.

(** C38. The tool chain state of a project only ever holds values of the supported
    vocabularies: whatever loads has them, and so has whatever an update returns.  An
    update that fails has written no file. *)
Theorem toolchain_states_are_supported p update t outcome t' :
  UpdateProjectToolchainState update t = (outcome, t') ->
  (forall state, LoadProjectToolchainState p t = inr state -> supported_state state = true)
  /\ match outcome with
     | inr state => supported_state state = true
     | inl _ => forall n, contents_at t' n = contents_at t n
     end.
Proof.
  intros Hu. split; [apply load_supported|].
  destruct (update_steps _ _ _ _ Hu) as [(e & -> & ->)|(m & path & written & r & _ & _ & _ & _ & Hs & Hw & ->)];
    [done|]. apply text_file_written in Hw as (t1 & Hm & Hw). destruct r as [e|u]; [|exact Hs].
  subst t'. apply Hm.
Qed.

(** C24. What an update writes loads again, when its revision is plain text.  A
    successful update leaves the state it returns, rendered, in the file beside the
    manifest, and no other file has changed.  If that state has no revision, or one of
    plain text - printable, without a quotation mark or a backslash -, loading the state
    of the same manifest gives what the update returned, but for an empty revision,
    which reads as none.  Any other revision is written as it is between the quotation
    marks, and the file may then say something else or nothing. *)
Theorem toolchain_state_round_trip `{!TomlSectionLaw} update t state t' :
  UpdateProjectToolchainState update t = (inr state, t') ->
  open_in t' (state_path state) = Some (RenderToolchainState state)
  /\ (forall n, n <> target (state_path state) -> contents_at t' n = contents_at t n)
  /\ (from_option plain_text true (source_revision state) = true ->
      LoadProjectToolchainState (update_manifest_path update) t' = inr (known_revision state)).
Proof.
  intros Hu.
  destruct (update_steps _ _ _ _ Hu) as [(e & ? & _)|(m & path & written & r & Hc & Hp & Em & Ep & Hs & Hw & Ho)];
    [done|]. apply text_file_written in Hw as (t1 & Hm & Hw). destruct r as [e|u]; [done|].
  injection Ho as ->. destruct Hw as [Hopen ->].
  destruct (written_reads path (RenderToolchainState written) t1 Hopen) as [Hread Hexists].
  split; [exact Hread|]. split.
  { intros n Hn. unfold write_stream. rewrite write_with_contents by done. apply Hm. }
  intros Hplain. change (source_revision (with_file path true written)) with (source_revision written) in Hplain.
  destruct (state_sections_plain written Hs Hplain) as [Hsec Hnd].
  pose proof (reads_sections _ Hsec Hnd) as Hparse. rewrite <- rendered_sections in Hparse.
  set (base := mkToolchainState m path true kToolchainModeBinary kChannelStable kBuildModeMinimal
                 kRiskClassUntrustedUser kExecutionLaneIsolated kSecurityProfileSandboxDefault None).
  destruct (tables_read_back (with_file path true written) base Hs) as (toolchain & Ht & Hback); [done..|].
  pose proof (canonical_idempotent _ _ Hc) as Hcm.
  assert (Hl : LoadProjectToolchainState m (write_stream path (RenderToolchainState written) t1)
               = inr (known_revision (with_file path true written))).
  { by eapply (loaded_from_file m path). }
  unfold LoadProjectToolchainState in Hl |- *. rewrite Hcm in Hl. by rewrite Hc.
Qed.
End StateFile.

(** A library that knows one manifest, and documents of plain sections. *)
Definition demo_toolchain_toml : TomlLib :=
  {| toml_parse := fun text => if text =s "manifest" then inr (manifest_toml demo_manifest)
                               else inr (read_sections text);
     toml_open_error := "not found"; toml_to_int := fun _ => None; toml_to_bool := fun _ => None |}.
Lemma demo_toolchain_law : @TomlSectionLaw demo_toolchain_toml.
Proof.
  intros sections Hp Hnd. pose proof (section_toml_law sections Hp Hnd) as Hl. cbn in Hl |- *.
  rewrite Hl. destruct (_ =s "manifest") eqn:E; [|done]. exfalso. apply str_eqb_iff in E.
  destruct sections as [|s sections]; [done|].
  assert (Hs : exists lines, sections_lines (s :: sections) = ("[" +:+ s.1 +:+ "]")%string :: lines)
    by (destruct sections; eexists; reflexivity).
  destruct Hs as [lines Hs]. rewrite Hs in E. apply (f_equal chars) in E.
  rewrite text_of_cons in E. discriminate E.
Qed.
#[local] Existing Instances demo_toolchain_toml demo_file_host.

Definition demo_project : FileTree := {[ ["spio.toml"%string] := Regular "manifest" ]}.
Definition demo_update : ToolchainStateUpdate :=
  mkStateUpdate "spio.toml" (Some kToolchainModeBuild) (Some kChannelNightly) None
    (Some kRiskClassTrustedInternal) (Some kExecutionLaneWarmShared) (Some kSecurityProfileTrustedWarm)
    (Some "nightly-head"%string).

Lemma toolchain_states_are_supported_witness :
  let '(outcome, t') := UpdateProjectToolchainState demo_update demo_project in
  match outcome with inr state => supported_state state = true | inl _ => False end.
Proof.
  assert (Hok : exists state, (UpdateProjectToolchainState demo_update demo_project).1 = inr state)
    by (eexists; vm_compute; reflexivity).
  destruct (UpdateProjectToolchainState demo_update demo_project) as [outcome t'] eqn:E.
  destruct Hok as (state & Hok). cbn [fst] in Hok. subst outcome.
  exact (proj2 (toolchain_states_are_supported "spio.toml" _ _ _ _ E)).
Defined.

Lemma toolchain_state_round_trip_witness :
  let '(outcome, t') := UpdateProjectToolchainState demo_update demo_project in
  match outcome with
  | inr state => LoadProjectToolchainState "spio.toml" t' = inr (known_revision state)
                 /\ state_mode state = "build"%string /\ state_path state = "/spio-toolchain.lock"%string
  | inl _ => False
  end.
Proof.
  pose proof demo_toolchain_law as Hlaw.
  assert (Hok : exists state, (UpdateProjectToolchainState demo_update demo_project).1 = inr state
                 /\ state_mode state = "build"%string /\ state_path state = "/spio-toolchain.lock"%string
                 /\ source_revision state = Some "nightly-head"%string)
    by (eexists; vm_compute; repeat split; reflexivity).
  destruct (UpdateProjectToolchainState demo_update demo_project) as [outcome t'] eqn:E.
  destruct Hok as (state & Hok & Hm & Hp & Hr). cbn [fst] in Hok. subst outcome.
  split; [|by split].
  destruct (toolchain_state_round_trip demo_update _ _ _ E) as (_ & _ & Hload). apply Hload. by rewrite Hr.
Defined.

(** Values are not escaped: a revision with a quotation mark is written as it is. *)
Example revision_is_not_escaped :
  match (UpdateProjectToolchainState
           (mkStateUpdate "spio.toml" None None None None None None (Some quote_mark)) demo_project).1 with
  | inr state => str_ends_with (RenderToolchainState state)
                   ("revision = " +:+ quote_mark +:+ quote_mark +:+ quote_mark +:+ newline_text) = true
  | inl _ => False
  end.
Proof. vm_compute. reflexivity. Qed.
