(* ===== verification/LockfileFacts.v ===== *)
(** Which lockfiles are read: every lockfile that [LoadLockfile] returns is valid, and
    every valid one has a document that reads back as it. *)
From stdpp Require Import base list gmap strings sorting.
From Stdlib Require Import ZArith Lia Ascii String.
From S2P Require Import Prelude Json Paths FileSystem Toml Manifest Lockfile ManifestFacts.

(** ** Valid lockfiles *)

(** The fields that a source kind requires, the others being absent. *)
Definition valid_source (kind : string) (git rev registry sha256 : option string) : Prop :=
  (kind = "git"%string /\ (exists g, git = Some g /\ g <> EmptyString)
   /\ (exists r, rev = Some r /\ r <> EmptyString) /\ registry = None /\ sha256 = None)
  \/ (kind = "registry"%string /\ (exists g, registry = Some g /\ g <> EmptyString)
      /\ (exists h, sha256 = Some h /\ matches_sha256 h = true) /\ git = None /\ rev = None)
  \/ ((kind = "workspace"%string \/ kind = "path"%string)
      /\ git = None /\ rev = None /\ registry = None /\ sha256 = None).

Record valid_lock_package (p : LockPackage) : Prop := {
  lock_identified : lock_id p <> EmptyString;
  lock_named : matches_name (lock_name p) = true;
  lock_versioned : matches_semver (lock_version p) = true;
  lock_sourced : valid_source (lock_source_kind p) (lock_git p) (lock_rev p) (lock_registry p)
                   (lock_sha256 p);
}.
Record valid_lockfile (l : LockfileDocument) : Prop := {
  lockfile_generated : generated_by l <> EmptyString;
  lockfile_resolver : lock_resolver l = "single-version-v1"%string;
  lockfile_packages : Forall valid_lock_package (lock_packages l);
}.

(** ** The document of a lockfile *)

Definition lock_package_toml (p : LockPackage) : toml :=
  TTable (list_to_map
    ([("id", TString (lock_id p)); ("name", TString (lock_name p));
      ("version", TString (lock_version p)); ("source-kind", TString (lock_source_kind p));
      ("dependencies", strings_toml (lock_dependencies p))]%string
     ++ string_entry "git" (lock_git p) ++ string_entry "rev" (lock_rev p)
     ++ string_entry "registry" (lock_registry p) ++ string_entry "sha256" (lock_sha256 p))).
Definition lockfile_toml (l : LockfileDocument) : toml_table :=
  list_to_map
    [("lock-version"%string, TInteger 1);
     ("metadata"%string, TTable (list_to_map [("generated-by", TString (generated_by l));
                                              ("resolver", TString (lock_resolver l))]%string));
     ("package"%string, TArray (map lock_package_toml (lock_packages l)))].

(** ** Reading *)

Lemma non_empty_field_iff field :
  non_empty_field field = true <-> exists s, field = Some s /\ s <> EmptyString.
Proof.
  destruct field as [s|]; cbn; [|by split; [|intros (? & ? & _)]].
  rewrite negb_true_iff, is_empty_false. split; [by eauto|by intros (? & [= ->] & ?)].
Qed.
Lemma absent_iff field : absent field = true <-> field = None.
Proof. by destruct field. Qed.

Lemma validate_source_iff p u :
  (_ <-? ValidateSourceKind (lock_source_kind p) ;; validate_source p) = inr u
  <-> valid_source (lock_source_kind p) (lock_git p) (lock_rev p) (lock_registry p) (lock_sha256 p).
Proof.
  destruct u, p as [id name version kind git rev registry sha256 deps].
  unfold valid_source, ValidateSourceKind, validate_source.
  cbn [lock_source_kind lock_git lock_rev lock_registry lock_sha256].
  set (kinds := string_in kind ["workspace"; "path"; "git"; "registry"]%string).
  assert (Hk : kinds = true <-> kind = "git"%string \/ kind = "registry"%string
                 \/ kind = "workspace"%string \/ kind = "path"%string).
  { unfold kinds. rewrite string_in_iff, !elem_of_cons, elem_of_nil. tauto. }
  clearbody kinds. destruct (String.eqb_spec kind "git") as [->|Hg];
    [|destruct (String.eqb_spec kind "registry") as [->|Hr]].
  - replace kinds with true by (symmetry; apply Hk; auto). cbn. split.
    + intros H. read_step H u1 H1. read_step H u2 H2.
      apply ensure_inr in H, H1, H2. rewrite andb_true_iff, !absent_iff in H.
      left. rewrite !non_empty_field_iff in H1, H2. naive_solver.
    + intros [(_ & Hg & Hr & -> & ->)|[(? & _)|([?|?] & _)]]; [|done..].
      apply non_empty_field_iff in Hg, Hr. by rewrite Hg, Hr.
  - replace kinds with true by (symmetry; apply Hk; auto). cbn. split.
    + intros H. read_step H u1 H1. read_step H h H2. read_step H u3 H3.
      apply ensure_inr in H, H1, H3. apply require_inr in H2.
      rewrite andb_true_iff, !absent_iff in H. rewrite non_empty_field_iff in H1.
      right; left. split_and!; [done|done|by exists h|apply H..].
    + intros [(? & _)|[(_ & Hreg & (h & -> & Hh) & -> & ->)|([?|?] & _)]]; [done| |done..].
      apply non_empty_field_iff in Hreg. rewrite Hreg. cbn. unfold ValidateSha256, ensure. by rewrite Hh.
  - split.
    + intros H. read_step H u1 H1. apply ensure_inr, Hk in H1. apply ensure_inr in H.
      rewrite !andb_true_iff, !absent_iff in H. right; right. naive_solver.
    + intros [(? & _)|[(? & _)|(Hw & -> & -> & -> & ->)]]; [done..|].
      by replace kinds with true by (symmetry; apply Hk; tauto).
Qed.

(** The members of a package's table. *)
Lemma lock_package_fields p : exists table, lock_package_toml p = TTable table
  /\ OptionalString table "id" = Some (lock_id p) /\ OptionalString table "name" = Some (lock_name p)
  /\ OptionalString table "version" = Some (lock_version p)
  /\ OptionalString table "source-kind" = Some (lock_source_kind p)
  /\ table !! "dependencies"%string = Some (strings_toml (lock_dependencies p))
  /\ OptionalString table "git" = lock_git p /\ OptionalString table "rev" = lock_rev p
  /\ OptionalString table "registry" = lock_registry p
  /\ OptionalString table "sha256" = lock_sha256 p.
Proof.
  destruct p as [? ? ? ? [?|] [?|] [?|] [?|] ?]; eexists; (split; [reflexivity|]);
    split_and!; reflexivity.
Qed.

Lemma lock_package_reads p : valid_lock_package p -> parse_lock_package (lock_package_toml p) = inr p.
Proof.
  intros [H1 H2 H3 H4]. destruct (lock_package_fields p)
    as (table & -> & Hid & Hname & Hver & Hkind & Hdeps & Hg & Hr & Hreg & Hsha).
  unfold parse_lock_package. cbn [as_table require r_bind].
  rewrite (require_string_optional _ _ _ _ Hid). cbn [r_bind].
  rewrite (require_string_optional _ _ _ _ Hname). cbn [r_bind].
  rewrite (require_string_optional _ _ _ _ Hver). cbn [r_bind].
  rewrite (require_string_optional _ _ _ _ Hkind). cbn [r_bind].
  rewrite (string_array_reads _ _ _ _ Hdeps), Hg, Hr, Hreg, Hsha. cbn [r_bind].
  apply is_empty_false in H1. rewrite H1. unfold ValidatePackageName, ValidateSemver. rewrite H2, H3.
  cbn [negb ensure r_bind]. apply (validate_source_iff p tt) in H4.
  apply r_bind_inr in H4 as ([] & Hk & Hs). rewrite Hk. cbn [r_bind]. destruct p. cbn in *.
  by rewrite Hs.
Qed.

Lemma parse_lock_package_valid node p : parse_lock_package node = inr p -> valid_lock_package p.
Proof.
  unfold parse_lock_package. intros H. read_step H table Ht. read_step H id Hid. read_step H name Hn.
  read_step H version Hv. read_step H kind Hk. read_step H deps Hd. read_step H u1 H1.
  read_step H u2 H2. read_step H u3 H3. read_step H u4 H4. read_step H u5 H5. injection H as <-.
  apply ensure_inr in H1, H2, H3. apply negb_true_iff, is_empty_false in H1.
  split; cbn; [done..|]. apply (validate_source_iff (mkLockPackage id name version kind
    (OptionalString table "git") (OptionalString table "rev") (OptionalString table "registry")
    (OptionalString table "sha256") deps) u5).
  cbn [lock_source_kind]. rewrite H4. exact H5.
Qed.

Section Lockfiles.
Context `{TomlLib}.

Lemma valid_lockfile_reads l : valid_lockfile l -> parse_lockfile (lockfile_toml l) = inr l.
Proof.
  intros [H1 H2 H3]. destruct l as [by_ res ps]. cbn in H1, H2, H3. subst res. unfold parse_lockfile.
  set (metadata := list_to_map [("generated-by", TString by_); ("resolver", TString "single-version-v1")]%string
                   : toml_table).
  assert (Hdoc : exists doc, lockfile_toml (mkLockfile by_ "single-version-v1" ps) = doc
    /\ doc !! "lock-version"%string = Some (TInteger 1) /\ table_at doc "metadata" = Some metadata
    /\ array_at doc "package" = Some (map lock_package_toml ps)) by (eexists; by repeat split).
  destruct Hdoc as (doc & -> & -> & -> & ->).
  cbn [mbind option_bind toml_int]. rewrite bool_decide_eq_true_2 by done. cbn [require ensure r_bind].
  rewrite (require_string_optional metadata "generated-by" _ by_) by reflexivity. cbn [r_bind].
  rewrite (require_string_optional metadata "resolver" _ "single-version-v1"%string) by reflexivity.
  cbn [r_bind]. apply is_empty_false in H1. rewrite H1. cbn [negb ensure r_bind].
  change (ensure ("single-version-v1" =s "single-version-v1") _) with (@inr exn unit tt). cbn [r_bind].
  rewrite (traverse_map _ _ id); [by rewrite map_id|].
  intros p Hp. apply lock_package_reads. rewrite Forall_forall in H3. by apply H3.
Qed.

Lemma parse_lockfile_valid doc l : parse_lockfile doc = inr l -> valid_lockfile l.
Proof.
  unfold parse_lockfile. intros H0. read_step H0 u1 H1. read_step H0 metadata Hm.
  read_step H0 by_ Hby. read_step H0 res Hres. read_step H0 u2 H2. read_step H0 u3 H3.
  apply ensure_inr in H2, H3. apply negb_true_iff, is_empty_false in H2. apply str_eqb_iff in H3.
  destruct (array_at doc "package") as [nodes|]; [|injection H0 as <-; by split].
  read_step H0 ps Hps. injection H0 as <-. split; [done..|]. cbn.
  apply traverse_inr in Hps. clear -Hps. induction Hps as [|node p nodes ps Hp _ IH]; constructor; [|done].
  by apply parse_lock_package_valid in Hp.
Qed.
End Lockfiles.
