(* ===== verification/ResolverFacts.v ===== *)
(** What a resolution that succeeds gives: a consistent graph and a lockfile that
    loads. *)
From stdpp Require Import base list gmap strings sorting.
From Stdlib Require Import ZArith Lia Ascii String.
From S2P Require Import Prelude Json Paths FileSystem Toml Manifest Lockfile SourceFetch Sha256 Process.
From S2P Require Import RegistrySecurity CachePaths GitFetcher RegistryClient ResolvedGraph Resolver.
From S2P Require Import Frames ManifestFacts LockfileFacts Demo.

(** ** Digests *)

Lemma hex_digit_lower z : hex_char (hex_digit z) = true.
Proof.
  unfold hex_digit. destruct (chars "0123456789abcdef" !! Z.to_nat z) as [c|] eqn:E; [|done].
  cbn -[hex_char] in *. apply list_elem_of_lookup_2 in E.
  repeat (apply elem_of_cons in E as [->|E]; [reflexivity|]). by apply elem_of_nil in E.
Qed.

Lemma hex_fixed_hex n z :
  List.length (chars (hex_fixed n z)) = n /\ forallb hex_char (chars (hex_fixed n z)) = true.
Proof.
  revert z. induction n as [|n IH]; intros z; [done|]. cbn [hex_fixed]. rewrite chars_app.
  destruct (IH (z / 16)) as [Hl Hf]. split; [rewrite List.length_app, Hl; cbn; lia|].
  rewrite forallb_app, Hf. cbn [chars list_ascii_of_string forallb]. by rewrite hex_digit_lower.
Qed.

Lemma chars_concat l : chars (String.concat "" l) = List.concat (map chars l).
Proof.
  induction l as [|a l IH]; [done|]. cbn [map List.concat]. rewrite <- IH.
  destruct l as [|b l]; [by rewrite app_nil_r|]. change (String.concat "" (a :: b :: l))
    with (a +:+ ("" +:+ String.concat "" (b :: l))). by rewrite chars_app.
Qed.


Lemma digest_matches s : matches_sha256 (FinalHex s) = true.
Proof.
  unfold matches_sha256, FinalHex, words. rewrite str_length_chars, chars_concat.
  generalize (final_state s). intros v. cbn [map List.concat].
  repeat match goal with |- context [chars (hex_fixed 8 ?z)] =>
    let H := fresh in let H' := fresh in
    pose proof (hex_fixed_hex 8 z) as [H H']; revert H H'; generalize (chars (hex_fixed 8 z)); intros
  end.
  rewrite !List.length_app, !forallb_app. cbn [List.length forallb].
  repeat match goal with H : forallb hex_char ?l = true |- _ => rewrite H; clear H end.
  rewrite andb_true_r. cbn [andb]. apply Nat.eqb_eq. lia.
Qed.

Section Client.
Context `{JsonLib} `{FileHost} `{ProgramHost} `{TomlLib}.

Lemma file_digest_matches t p digest : Sha256File t p = inr digest -> matches_sha256 digest = true.
Proof.
  unfold Sha256File. destruct (status t p) as [[|contents]|]; try done.
  destruct (Sha256Contents _) as [d|] eqn:E; [|done]. intros [= <-].
  revert E. unfold Sha256Contents. destruct (read_blocks _ _ _); [|done]. intros [= <-].
  apply digest_matches.
Qed.

(** ** What the client returns *)

Lemma looks_at_run {A} (f : FileTree -> exn + A) w a w' :
  looks_at f w = (inr a, w') -> f (world_files w) = inr a /\ w' = w.
Proof. unfold looks_at. intros E1. run_step E1 t w1 E2. injection E2 as <- <-. by injection E1. Qed.

Lemma lift_run {E S A} (v : E + A) (s : S) a s' : lift v s = (inr a, s') -> v = inr a /\ s' = s.
Proof. unfold lift. intros [= -> ->]. done. Qed.

Lemma snapshot_request_checked request w snapshot w' :
  MaterializeSnapshot request w = (inr snapshot, w') ->
  gs_origin request <> EmptyString /\ gs_revision request <> EmptyString.
Proof.
  unfold MaterializeSnapshot. intros E. run_step E [] w1 E1. apply lift_run in E1 as [E1 ->].
  destruct (is_empty (gs_revision request)) eqn:Er; [done|]. apply is_empty_false in Er. split; [|done].
  unfold ValidateOrigin in E1. destruct (GitSourcePolicyViolation _ _) eqn:Eg; [done|].
  clear E1. unfold GitSourcePolicyViolation in Eg. intros Eo. by rewrite Eo in Eg.
Qed.

Lemma artifact_is_verified home root headers offline entry w w' :
  MaterializeArtifact home root headers offline entry w = (inr tt, w') ->
  matches_sha256 (entry_sha256 entry) = true.
Proof.
  unfold MaterializeArtifact. intros E. run_step E path w1 E1. run_step E cached w2 E2.
  assert (Hcheck : forall (e : exn) w,
    (actual <- looks_at (fun t => Sha256File t path) ;;
     if actual <>s entry_sha256 entry then throw e else m_ret tt) w = (inr tt, w') ->
    matches_sha256 (entry_sha256 entry) = true).
  { intros e w3 E3. run_step E3 actual w4 E4. apply looks_at_run in E4 as [E4 ->].
    apply file_digest_matches in E4. destruct (actual =s entry_sha256 entry) eqn:Ea; [|done].
    apply str_eqb_iff in Ea. by subst. }
  destruct cached; [by eapply Hcheck|]. run_step E relative w3 E3. run_step E [] w4 E4. by eapply Hcheck.
Qed.

(** The slots that decide how a root is read never give an empty root. *)
Definition rooted (w : ClientWorld) : Prop :=
  forall request d, read_slot (security_slots w) request = inr d -> decision_root d <> EmptyString.

Lemma materialized_package root name version offline w r w' :
  rooted w ->
  MaterializeRegistryPackage root name version offline w = (inr r, w') ->
  mr_registry_root r <> EmptyString /\ matches_sha256 (mr_sha256 r) = true.
Proof.
  unfold MaterializeRegistryPackage. intros Hw E. run_step E security w1 E1. run_step E home w2 E2.
  run_step E config w3 E3. run_step E metadata w4 E4. run_step E entry w5 E5. run_step E [] w6 E6.
  run_step E snapshot w7 E7. injection E as <- _. cbn. split; [|by eapply artifact_is_verified].
  unfold in_slots, zoom in E1. cbn in E1. injection E1 as E1 _. by eapply Hw.
Qed.
End Client.

(** ** Sorted lists of strings *)

Definition str_lt (a b : string) : Prop := String.compare a b = Lt.

Lemma str_lt_irrefl a : ~ str_lt a a.
Proof. unfold str_lt. by rewrite str_compare_refl. Qed.

Lemma sorted_strict l : StronglySorted str_le l -> NoDup l -> StronglySorted str_lt l.
Proof.
  induction 1 as [|a l _ IH Ha]; [by constructor|]. intros [Hn Hnd]%NoDup_cons. constructor; [by apply IH|].
  rewrite Forall_forall in Ha |- *. intros b Hb. destruct (proj1 (str_leb_spec a b) (Ha b Hb)) as [->|]; done.
Qed.

Lemma unique_strings_spec l : StronglySorted str_le l ->
  StronglySorted str_lt (unique_strings l) /\ forall x, x ∈ unique_strings l <-> x ∈ l.
Proof.
  induction 1 as [|a l Hl [IH1 IH2] Ha]; [split; [constructor|done]|].
  cbn [unique_strings]. destruct l as [|b l]; [split; [by repeat constructor|done]|].
  destruct (String.eqb_spec a b) as [->|Hab].
  { split; [done|]. intros x. rewrite IH2, !elem_of_cons. tauto. }
  split.
  - constructor; [done|]. apply Forall_forall. intros x Hx%IH2.
    apply Forall_cons in Ha as [Hb _]. apply str_leb_spec in Hb as [|Hb]; [done|].
    apply elem_of_cons in Hx as [->|Hx]; [done|]. apply StronglySorted_inv in Hl as [_ Hl].
    rewrite Forall_forall in Hl. apply Hl, str_leb_spec in Hx as [->|Hx]; [done|].
    by eapply str_lt_trans.
  - intros x. rewrite elem_of_cons, IH2, (elem_of_cons (b :: l) x a). done.
Qed.

Lemma sort_strings_sorted l : StronglySorted str_le (sort_strings l).
Proof. apply StronglySorted_merge_sort; apply _. Qed.

Lemma sorted_unique_spec l :
  StronglySorted str_lt (sorted_unique l) /\ forall x, x ∈ sorted_unique l <-> x ∈ l.
Proof.
  destruct (unique_strings_spec (sort_strings l) (sort_strings_sorted l)) as [Hs Hin].
  split; [done|]. intros x. unfold sorted_unique. by rewrite Hin, sort_strings_permutation.
Qed.

Lemma sort_by_permutation {A} (name : A -> string) l : sort_by name l ≡ₚ l.
Proof. apply merge_sort_Permutation. Qed.
Lemma sort_by_sorted {A} (name : A -> string) l : StronglySorted str_le (map name (sort_by name l)).
Proof.
  assert (Hs : StronglySorted (by_name name) (sort_by name l)).
  { apply StronglySorted_merge_sort.
    - intros a b c. unfold by_name. apply (transitivity (R := str_le)).
    - intros a b. apply (total str_le). }
  induction Hs as [|a m _ IH Ha]; cbn; constructor; [done|]. by apply Forall_fmap.
Qed.

(** ** The slots are only read *)

Definition same_slots (w w' : ClientWorld) : Prop := security_slots w' = security_slots w.
#[export] Instance same_slots_preorder : PreOrder same_slots.
Proof. split; [done|]. intros a b c H1 H2. unfold same_slots in *. congruence. Qed.

Section Slots.
Context `{JsonLib} `{FileHost} `{ProgramHost} `{TomlLib}.

Lemma slots_in_files {A} (m : M exn FileTree A) : keeps same_slots (in_files m).
Proof. intros w. unfold in_files, zoom. by destruct (m (world_files w)). Qed.
Lemma slots_run_with failure request : keeps same_slots (run_with failure request).
Proof. intros w. unfold run_with. by destruct (run_program _ _ _). Qed.
Lemma slots_read request : keeps same_slots (in_slots (ResolveRegistryReadSecurity request)).
Proof. by intros w. Qed.
Lemma slots_looks {A} (f : FileTree -> A) : keeps same_slots (looks f).
Proof. by intros w. Qed.
Lemma slots_looks_at {A} (f : FileTree -> exn + A) : keeps same_slots (looks_at f).
Proof. by intros w. Qed.
#[local] Hint Resolve slots_in_files slots_run_with slots_read slots_looks slots_looks_at : frames.

Lemma slots_git args directory operation context :
  keeps same_slots (RunGitChecked args directory operation context).
Proof. unfold RunGitChecked, checked. frame. Qed.
#[local] Hint Resolve slots_git : frames.
Lemma slots_has_revision request repo_dir : keeps same_slots (has_revision request repo_dir).
Proof. unfold has_revision. frame. Qed.
#[local] Hint Resolve slots_has_revision : frames.
Lemma slots_snapshot request : keeps same_slots (MaterializeSnapshot request).
Proof. unfold MaterializeSnapshot, ensure_revision, extract_snapshot. frame. Qed.
#[local] Hint Resolve slots_snapshot : frames.

Lemma slots_object home root headers path context offline :
  keeps same_slots (LoadRegistryObjectText home root headers path context offline).
Proof. unfold LoadRegistryObjectText, FetchUrlToString, run_curl. frame. Qed.
#[local] Hint Resolve slots_object : frames.
Lemma slots_artifact home root headers offline entry :
  keeps same_slots (MaterializeArtifact home root headers offline entry).
Proof. unfold MaterializeArtifact, cache_local_artifact, FetchUrlToFile, run_curl. frame. Qed.
#[local] Hint Resolve slots_artifact : frames.
Lemma slots_package root name version offline :
  keeps same_slots (MaterializeRegistryPackage root name version offline).
Proof.
  unfold MaterializeRegistryPackage, LoadConfig, LoadPackageMetadata, LoadEntry, load_object,
    EnsureCheckout. frame.
Qed.
#[local] Hint Resolve slots_package : frames.

Lemma slots_select setup parent dependency :
  keeps same_slots (select_dependency setup parent dependency).
Proof.
  unfold select_dependency, ResolveGitDependency, ResolveRegistryDependency. frame.
Qed.
End Slots.

Lemma rooted_same w w' : same_slots w w' -> rooted w -> rooted w'.
Proof. unfold rooted. by intros ->. Qed.

(** The default hooks give a root with a scheme. *)
Lemma default_slots_rooted t n : rooted (mkWorld t n initial_slots).
Proof.
  intros request d E. change (ResolveDefaultRegistryReadSecurity request = inr d) in E.
  unfold ResolveDefaultRegistryReadSecurity, kDefaultReadSecurityHandlers, NormalizeReadRegistryRoot,
    ValidateReadRegistryRootScheme, ResolvePublicDefaultReadAccess in E.
  cbn [RunSecurityChain r_bind decision_root decision_headers provider_name] in E.
  destruct (negb (IsFileRegistryRoot (NormalizeRegistryRoot (read_registry_root request))) && _)
    eqn:En; [done|]. cbn [r_bind decision_root] in E. injection E as <-. cbn [decision_root].
  intros E0. by rewrite E0 in En.
Qed.

(** ** Origins *)

Definition origin_ok (o : SourceOrigin) : Prop :=
  valid_source (SourceKindString (origin_kind o)) (git_source o) (git_rev o) (registry_root o)
    (registry_sha256 o).

Lemma plain_origin_ok kind : kind = kWorkspaceSource \/ kind = kPathSource -> origin_ok (plain_origin kind).
Proof. intros [-> | ->]; right; right; repeat split; cbn; auto. Qed.

(** A hint stays as it is, or moves between the two kinds of local packages. *)
Lemma with_kind_ok kind o : origin_ok o ->
  kind = origin_kind o
  \/ ((origin_kind o = kWorkspaceSource \/ origin_kind o = kPathSource)
      /\ (kind = kWorkspaceSource \/ kind = kPathSource)) ->
  origin_ok (with_kind kind o).
Proof.
  intros Ho [->|[Hk Hkind]]; [by destruct o|].
  destruct Ho as [(E & _)|[(E & _)|(_ & H1 & H2 & H3 & H4)]].
  - by destruct Hk as [Hk|Hk]; rewrite Hk in E.
  - by destruct Hk as [Hk|Hk]; rewrite Hk in E.
  - right; right. split; [|done]. destruct Hkind as [->| ->]; cbn; auto.
Qed.

Section Selection.
Context `{JsonLib} `{FileHost} `{ProgramHost} `{TomlLib} (setup : ResolverSetup).

Lemma selected_origin_ok root_path hint expected t sel :
  SelectPackageManifestFromRoot setup root_path hint expected t = inr sel ->
  origin_ok hint -> origin_ok (selected_origin sel).
Proof.
  unfold SelectPackageManifestFromRoot. intros E Ho. read_step E matches E1.
  destruct matches as [|found [|]]; [by destruct expected| |done].
  read_step E kind E2. injection E as <-. apply with_kind_ok; [done|].
  destruct (origin_kind hint) eqn:Ek.
  - read_step E2 directory E3. injection E2 as <-. right. destruct (string_in _ _); auto.
  - read_step E2 directory E3. injection E2 as <-. right. destruct (string_in _ _); auto.
  - injection E2 as <-. by left.
  - injection E2 as <-. by left.
Qed.

Lemma snapshot_origin_ok what origin root dependency t sel :
  select_in_snapshot setup what origin root dependency t = inr sel ->
  origin_ok origin -> origin_ok (selected_origin sel).
Proof. unfold select_in_snapshot. destruct (negb _); [done|]. apply selected_origin_ok. Qed.

Lemma path_dependency_ok parent dependency t sel :
  ResolvePathDependency setup parent dependency t = inr sel ->
  origin_ok (node_origin parent) -> origin_ok (selected_origin sel).
Proof.
  unfold ResolvePathDependency. intros E Ho. read_step E root E1. destruct (negb _); [done|].
  destruct (bool_decide _).
  - read_step E snapshot E2. read_step E within E3. read_step E here E4. read_step E top E5.
    destruct (_ && _); [done|]. by eapply selected_origin_ok.
  - eapply selected_origin_ok; [done|]. apply plain_origin_ok. by right.
Qed.

Lemma selection_ok parent dependency w sel w' :
  origin_ok (node_origin parent) -> rooted w ->
  select_dependency setup parent dependency w = (inr sel, w') ->
  origin_ok (selected_origin sel) /\ rooted w'.
Proof.
  intros Ho Hw E. split; [|eapply rooted_same; [|done]; eapply keeps_run; [apply slots_select|done]].
  revert E. unfold select_dependency. destruct (dependency_kind dependency).
  - intros [E _]%looks_at_run. by eapply path_dependency_ok.
  - unfold ResolveGitDependency. intros E. run_step E source w1 E1. run_step E home w2 E2.
    run_step E revision w3 E3. run_step E snapshot w4 E4. apply looks_at_run in E as [E _].
    apply snapshot_request_checked in E4 as [H3 H4]. cbn in H3, H4.
    eapply snapshot_origin_ok; [done|]. left. cbn. split_and!; [done|by eexists|by eexists|done|done].
  - unfold ResolveRegistryDependency. destruct (dependency_package dependency) as [name|]; [|done].
    destruct (dependency_version dependency) as [version|]; [|done]. intros E.
    run_step E materialized w1 E1. apply looks_at_run in E as [E _].
    apply materialized_package in E1 as [H3 H4]; [|done].
    eapply snapshot_origin_ok; [done|]. right; left. cbn. split_and!; [done|by eexists|by eexists|done|done].
Qed.
End Selection.

(** ** The nodes of a resolution *)

Record node_ok (n : Node) : Prop := {
  node_valid : valid_package (node_package n);
  node_origin_ok : origin_ok (node_origin n);
  node_locked : BuildLockId (node_origin n) (node_package n) = inr (node_id n);
}.
Abbreviation node_name n := (package_name (node_package n)).

(** Every node is found under its name, so no two have the same. *)
Record resolver_ok (s : ResolverState) : Prop := {
  nodes_good : Forall node_ok (nodes_ s);
  names_found : forall i n, nodes_ s !! i = Some n -> node_by_package_name_ s !! node_name n = Some i;
  world_rooted : rooted (resolver_world s);
}.

(** A dependency of [n] as one of the nodes. *)
Definition dep_resolved (nodes : list Node) (n : Node) (d : Dependency) (found : string * string) : Prop :=
  found.1 = alias d /\ exists m, m ∈ nodes /\ node_id m = found.2
    /\ source_fingerprint m <> source_fingerprint n
    /\ forall name, dependency_package d = Some name -> node_name m = name.
Definition complete (nodes : list Node) (n : Node) : Prop :=
  exists found, node_dependencies n = sorted_unique (map snd found) /\ node_aliases n = sort_by fst found
    /\ Forall2 (dep_resolved nodes n) (CollectDependencies (node_package n)) found.

(** A node but for its dependencies. *)
Definition core (n : Node) : Node :=
  mkNode (node_manifest_path n) (package_dir n) (node_package n) (node_origin n)
    (source_fingerprint n) (node_id n) [] [].
Definition covers (nodes nodes' : list Node) : Prop :=
  forall m, m ∈ nodes -> exists m', m' ∈ nodes' /\ core m' = core m.

Lemma dep_resolved_covers nodes nodes' n d found : covers nodes nodes' ->
  dep_resolved nodes n d found -> dep_resolved nodes' n d found.
Proof.
  intros Hc (E & m & Hm & H1 & H2 & H3). split; [done|]. destruct (Hc m Hm) as (m' & Hm' & Em).
  exists m'. injection Em as _ _ E1 _ E2 E3. rewrite E1, E2, E3. done.
Qed.
Lemma complete_covers nodes nodes' n : covers nodes nodes' -> complete nodes n -> complete nodes' n.
Proof.
  intros Hc (found & H1 & H2 & H3). exists found. split_and!; [done..|].
  eapply Forall2_impl; [exact H3|]. intros d f. by apply dep_resolved_covers.
Qed.
Lemma covers_app nodes new : covers nodes (nodes ++ new).
Proof. intros m Hm. exists m. split; [|done]. apply elem_of_app. by left. Qed.

(** The nodes that were there stay as they are; those that came are complete. *)
Definition grows (s s' : ResolverState) : Prop :=
  exists new, nodes_ s' = nodes_ s ++ new /\ Forall (complete (nodes_ s')) new.

Lemma grows_refl s : grows s s.
Proof. exists []. by rewrite app_nil_r. Qed.
Lemma grows_same s s' : nodes_ s' = nodes_ s -> grows s s'.
Proof. intros E. exists []. by rewrite app_nil_r. Qed.
Lemma grows_trans s1 s2 s3 : grows s1 s2 -> grows s2 s3 -> grows s1 s3.
Proof.
  intros (new & E & H1) (new' & E' & H2). exists (new ++ new'). split.
  - by rewrite E', E, (assoc_L (++)).
  - apply Forall_app. split; [|done]. eapply Forall_impl; [exact H1|]. intros n.
    apply complete_covers. rewrite E'. apply covers_app.
Qed.
Lemma grows_lookup s s' i n : grows s s' -> nodes_ s !! i = Some n -> nodes_ s' !! i = Some n.
Proof. intros (new & -> & _). apply lookup_app_l_Some. Qed.

(** ** Runs *)

Lemma pure_run {A} (r : exn + A) s a s' : pure r s = (inr a, s') -> r = inr a /\ s' = s.
Proof. intros [E ->]%lift_run. destruct r as [e|b]; [done|]. cbn in E. by injection E as ->. Qed.
Lemma gets_run {E A} (f : ResolverState -> A) s a s' :
  (gets f : M E ResolverState A) s = (inr a, s') -> a = f s /\ s' = s.
Proof. by intros [= <- <-]. Qed.
Lemma node_at_index_run i s n s' :
  node_at_index i s = (inr n, s') -> nodes_ s !! i = Some n /\ s' = s.
Proof.
  unfold node_at_index. intros E. run_step E nodes s1 E1. apply gets_run in E1 as [-> ->].
  destruct (nodes_ s !! i); [|done]. by injection E as -> ->.
Qed.
Lemma on_world_run {A} (m : ClientM A) s a s' : on_world m s = (inr a, s') ->
  exists w, m (resolver_world s) = (inr a, w) /\ s' = set_world w s.
Proof.
  unfold on_world. destruct (m (resolver_world s)) as [[e|b] w]; [done|]. intros [= -> <-]. eauto.
Qed.

Section ResolutionFacts.
Context `{JsonLib} `{FileHost} `{ProgramHost} `{TomlLib} (setup : ResolverSetup).

(** What the resolution of a node does. *)
Definition resolves (resolve : string -> SourceOrigin -> ResolveM nat) : Prop :=
  forall path origin s i s', resolver_ok s -> origin_ok origin ->
    resolve path origin s = (inr i, s') -> resolver_ok s' /\ grows s s'.

Lemma dependencies_resolved resolve index node l s found s' :
  resolves resolve -> resolver_ok s -> is_Some (nodes_ s !! index) ->
  resolve_dependencies setup resolve index node l s = (inr found, s') ->
  resolver_ok s' /\ grows s s' /\ Forall2 (dep_resolved (nodes_ s') node) l found.
Proof.
  intros Hr. revert s found. induction l as [|d l IH]; intros s found Hs Hi E; cbn [resolve_dependencies] in E.
  { injection E as <- <-. split_and!; [done|apply grows_refl|constructor]. }
  run_step E parent s1 E1. apply node_at_index_run in E1 as [E1 ->].
  run_step E selected s2 E2. apply on_world_run in E2 as (w & E2 & ->).
  destruct Hs as [Hgood Hnames Hw].
  assert (Hp : node_ok parent) by by apply (Forall_lookup_1 _ _ _ _ Hgood E1).
  destruct (selection_ok setup parent d _ _ _ (node_origin_ok _ Hp) Hw E2) as [Ho Hw'].
  run_step E j s3 E3. apply Hr in E3 as [Hs3 Hg3]; [|by split|done].
  run_step E m s4 E4. apply node_at_index_run in E4 as [E4 ->].
  run_step E [] s5 E5. apply pure_run in E5 as [E5 ->].
  run_step E rest s6 E6. injection E as <- <-.
  assert (Hg : grows s s3) by exact Hg3.
  assert (Hi3 : is_Some (nodes_ s3 !! index)) by (exists parent; by eapply grows_lookup).
  destruct (IH s3 rest Hs3 Hi3 E6) as (Hs6 & Hg6 & Hall). split_and!; [done|by eapply grows_trans|].
  constructor; [|done]. split; [done|]. exists m.
  unfold check_dependency in E5. split_and!.
  - destruct Hg6 as (new & -> & _). apply elem_of_app. left. by eapply list_elem_of_lookup_2.
  - done.
  - destruct (match dependency_package d with Some _ => _ | None => _ end); [done|].
    destruct (source_fingerprint m =s source_fingerprint node) eqn:Ef; [done|]. by apply str_eqb_false.
  - intros name Hname. rewrite Hname in E5. destruct (name =s node_name m) eqn:En; [|done].
    by apply str_eqb_iff in En.
Qed.

Lemma names_unique s i j n m : resolver_ok s -> nodes_ s !! i = Some n -> nodes_ s !! j = Some m ->
  node_name n = node_name m -> i = j.
Proof.
  intros Hs Hn Hm E. apply (names_found _ Hs) in Hn, Hm. rewrite E in Hn. congruence.
Qed.

Lemma add_node_ok node s : resolver_ok s -> node_ok node ->
  node_by_package_name_ s !! node_name node = None -> resolver_ok (add_node node s).
Proof.
  intros [Hg Hf Hw] Hn Hnone. split; [|cbn|done].
  - by apply Forall_app_2; [|constructor].
  - intros i m [Hm|[Hi Hm]]%lookup_app_Some.
    + rewrite lookup_insert_ne; [by apply Hf|]. intros E. apply Hf in Hm. rewrite <- E in Hm. congruence.
    + apply list_lookup_singleton_Some in Hm as [Hi' <-]. rewrite lookup_insert_eq. f_equal. lia.
Qed.

Lemma set_dependencies_ok found i s : resolver_ok s ->
  resolver_ok (set_nodes (alter (set_dependencies found) i (nodes_ s)) s).
Proof.
  intros [Hg Hf Hw]. split; [|cbn|done].
  - apply Forall_alter; [done|]. by intros n _ [].
  - intros j n Hn. destruct (decide (i = j)) as [->|Hne].
    + rewrite list_lookup_alter_eq in Hn. apply fmap_Some in Hn as (m & Hm & ->). exact (Hf j m Hm).
    + rewrite list_lookup_alter_ne in Hn by done. by apply Hf.
Qed.

Lemma load_manifest_valid path t m : valid_manifest (root_manifest_ setup) ->
  load_manifest_at setup path t = inr m -> valid_manifest m.
Proof.
  intros Hroot. unfold load_manifest_at. destruct (path_eqb _ _); [by intros [= <-]|].
  apply LoadManifest_valid.
Qed.

Lemma node_resolved fuel : valid_manifest (root_manifest_ setup) -> resolves (ResolveNode setup fuel).
Proof.
  intros Hroot. induction fuel as [|fuel IH]; intros path origin s i s' Hs Ho E; [done|].
  cbn [ResolveNode] in E. run_step E full s1 E1. apply pure_run in E1 as [E1 ->].
  run_step E fingerprint s1 E2. apply pure_run in E2 as [E2 ->].
  run_step E existing s1 E3. apply gets_run in E3 as [-> ->].
  destruct (node_by_source_fingerprint_ s !! fingerprint) as [j|].
  { injection E as <- <-. split; [done|apply grows_refl]. }
  run_step E manifest s1 E3. apply on_world_run in E3 as (w & E3 & ->).
  apply looks_at_run in E3 as [E3 ->]. apply load_manifest_valid in E3; [|done].
  run_step E package s1 E4. apply pure_run in E4 as [E4 ->].
  run_step E id s1 E5. apply pure_run in E5 as [E5 ->].
  run_step E existing s1 E6. apply gets_run in E6 as [-> ->].
  assert (Hp : valid_package package).
  { apply (manifest_package_valid _ E3). unfold require_package in E4.
    destruct (manifest_package manifest); [by injection E4 as ->|]. by destruct (bool_decide _) in E4. }
  cbn [set_world node_by_package_name_ resolver_world] in E.
  destruct (node_by_package_name_ s !! package_name package) as [j|] eqn:Ename.
  { run_step E other s1 E7. apply node_at_index_run in E7 as [E7 ->].
    run_step E [] s1 E8. apply pure_run in E8 as [E8 ->]. injection E as <- <-.
    split; [destruct Hs; by split|by apply grows_same]. }
  run_step E index s1 E7. apply gets_run in E7 as [-> ->]. cbn [set_world nodes_] in E.
  set (node := mkNode _ _ _ _ _ _ _ _) in E.
  run_step E [] s1 E8. injection E8 as <-.
  assert (Hs1 : resolver_ok (add_node node (set_world (resolver_world s) s))).
  { apply add_node_ok; [destruct Hs; by split|by split|done]. }
  run_step E found s2 E9. run_step E [] s3 E10. injection E10 as <-. injection E as <- <-.
  assert (Hat : nodes_ (add_node node (set_world (resolver_world s) s)) !! List.length (nodes_ s) = Some node).
  { cbn. rewrite lookup_app_r, Nat.sub_diag; done. }
  destruct (dependencies_resolved _ _ _ _ _ _ _ IH Hs1 (ex_intro _ _ Hat) E9) as (Hs2 & (new & En & Hnew) & Hall).
  split; [by apply set_dependencies_ok|]. cbn in En.
  set (nodes' := alter (set_dependencies found) (List.length (nodes_ s)) (nodes_ s2)).
  assert (En' : nodes' = nodes_ s ++ set_dependencies found node :: new).
  { unfold nodes'. rewrite En, <- (assoc_L (++)). cbn [app].
    by rewrite alter_app_r_alt, Nat.sub_diag. }
  assert (Hcov : covers (nodes_ s2) nodes').
  { rewrite En, En', <- (assoc_L (++)). intros m Hm. apply elem_of_app in Hm as [Hm|Hm].
    - exists m. split; [apply elem_of_app; by left|done].
    - apply elem_of_cons in Hm as [->|Hm].
      + exists (set_dependencies found node). split; [|done]. apply elem_of_app. right. by constructor.
      + exists m. split; [apply elem_of_app; right; by constructor|done]. }
  exists (set_dependencies found node :: new). split; [exact En'|]. cbn. fold nodes'. constructor.
  - exists found. split_and!; [done..|]. eapply Forall2_impl; [exact Hall|]. intros d f Hd.
    exact (dep_resolved_covers _ _ node d f Hcov Hd).
  - eapply Forall_impl; [exact Hnew|]. intros m. by apply complete_covers.
Qed.
End ResolutionFacts.

(** ** The ids of the lockfile *)

Lemma split_all_pieces (p : ascii -> bool) sep acc l :
  (forall piece, piece ∈ split_all sep acc l -> forallb p (chars piece) = true) ->
  forallb p acc = true /\ forallb (fun c => p c || Ascii.eqb c sep) l = true.
Proof.
  assert (Hrev : forall a, forallb p (chars (of_chars (List.rev a))) = true -> forallb p a = true).
  { intros a. rewrite chars_of_chars, !forallb_forall. intros Ha x Hx. apply Ha. by apply in_rev in Hx. }
  revert acc. induction l as [|c l IH]; intros acc Hl; cbn [split_all forallb] in *.
  - split; [|done]. apply Hrev, Hl. by constructor.
  - destruct (Ascii.eqb c sep) eqn:Ec.
    + rewrite orb_true_r. split; [apply Hrev, Hl; by constructor|]. apply (IH []).
      intros piece Hin. apply Hl. by constructor.
    + rewrite orb_false_r. destruct (IH (c :: acc) Hl) as [Hacc Hrest]. cbn in Hacc.
      apply andb_true_iff in Hacc as [-> ->]. done.
Qed.

Lemma name_has_no_at name : matches_name name = true -> str_contains_char name "@" = false.
Proof.
  unfold matches_name. intros Hn. assert (Hall : forallb (fun c => name_char c || Ascii.eqb c "/") (chars name) = true).
  { apply (split_all_pieces _ _ []). intros piece Hp.
    destruct (split_all "/" [] (chars name)) as [|a [|b [|]]]; try done.
    apply andb_true_iff in Hn as [Ha Hb].
    assert (Hseg : forall s, name_segment s = true -> forallb name_char (chars s) = true).
    { intros s. unfold name_segment. destruct (chars s) as [|c rest]; [done|]. cbn [forallb].
      intros [Hc Hrest]%andb_true_iff. unfold name_char at 1. by rewrite Hc, Hrest. }
    apply elem_of_cons in Hp as [->|Hp]; [by apply Hseg|]. apply list_elem_of_singleton in Hp as ->. by apply Hseg. }
  unfold str_contains_char. apply char_in_forallb. rewrite forallb_forall in Hall |- *.
  intros c Hc. specialize (Hall c Hc). apply negb_true_iff. destruct (Ascii.eqb_spec c "@") as [->|]; [|done].
  by vm_compute in Hall.
Qed.

Lemma node_id_form n : node_ok n -> exists tail,
  node_id n = SourceKindString (origin_kind (node_origin n))
              +:+ String ":" (node_name n +:+ String "@" tail).
Proof.
  intros [_ _ Hid]. unfold BuildLockId in Hid.
  destruct (origin_kind (node_origin n)); cbn [r_bind] in Hid.
  - injection Hid as <-. by eexists.
  - injection Hid as <-. by eexists.
  - read_step Hid pin Hpin. injection Hid as <-. eexists. rewrite !str_app_assoc. reflexivity.
  - read_step Hid pin Hpin. injection Hid as <-. eexists. rewrite !str_app_assoc. reflexivity.
Qed.

Lemma node_id_names n m : node_ok n -> node_ok m -> node_id n = node_id m -> node_name n = node_name m.
Proof.
  intros Hn Hm E. destruct (node_id_form n Hn) as [a Ea], (node_id_form m Hm) as [b Eb].
  rewrite Ea, Eb in E. apply join_char_inj in E as [_ E].
  - apply join_char_inj in E as [E _]; [done| |].
    + apply name_has_no_at, package_named, (node_valid _ Hn).
    + apply name_has_no_at, package_named, (node_valid _ Hm).
  - by destruct (origin_kind (node_origin n)).
  - by destruct (origin_kind (node_origin m)).
Qed.

(** ** Consistent graphs *)

(** Every dependency of the manifest is an alias of another package of the graph, of
    the name it asks for; the ids are those packages', sorted and once each. *)
Definition consistent_edges (g : ResolvedGraphResult) (p : ResolvedPackage) : Prop :=
  StronglySorted str_lt (dependencies p)
  /\ (forall id, id ∈ dependencies p <-> id ∈ map snd (dependency_aliases p))
  /\ exists found, found ≡ₚ dependency_aliases p
     /\ Forall2 (fun d edge => edge.1 = alias d /\ exists q, q ∈ packages g
            /\ package_id q = edge.2 /\ package_id q <> package_id p
            /\ forall name, dependency_package d = Some name -> package_name (package q) = name)
          (CollectDependencies (package p)) found.

Record consistent_graph (g : ResolvedGraphResult) : Prop := {
  graph_one_version : NoDup (map (fun p => package_name (package p)) (packages g));
  graph_sorted : StronglySorted str_lt (map package_id (packages g));
  graph_valid : Forall (fun p => valid_package (package p)) (packages g);
  graph_edges : Forall (consistent_edges g) (packages g);
  graph_roots : StronglySorted str_lt (root_ids g)
                /\ forall id, id ∈ root_ids g -> id ∈ map package_id (packages g);
}.

Section Entry.
Context `{JsonLib} `{FileHost} `{ProgramHost} `{TomlLib}.

(** *** The seeds *)

Lemma unique_selections_incl l x : x ∈ unique_selections l -> x ∈ l.
Proof.
  revert x. induction l as [|a l IH]; intros x; [done|]. cbn [unique_selections]. rewrite !elem_of_cons.
  intros [->|Hx]; [by left|]. right. apply IH. destruct (unique_selections l) as [|b rest]; [done|].
  destruct (path_eqb _ _); [by constructor|done].
Qed.

Lemma member_seed_origin path excluded t member seed :
  member_seed path excluded t member = inr seed -> selected_origin seed.1 = plain_origin kWorkspaceSource.
Proof.
  unfold member_seed. destruct (string_in _ _); [done|]. intros E. read_step E manifest E1.
  destruct (negb _); [done|]. read_step E doc E2. destruct (manifest_package doc); [|done].
  read_step E key E3. by injection E as <-.
Qed.

Lemma seeds_are_local path manifest t seeds :
  BuildRootSeeds path manifest t = inr seeds ->
  Forall (fun seed => origin_ok (selected_origin seed)) seeds.1.
Proof.
  unfold BuildRootSeeds. intros E. read_step E own E1.
  assert (Hown : forall seed, seed ∈ map fst own -> origin_ok (selected_origin seed)).
  { destruct (manifest_package manifest); [|by injection E1 as <-; intros ? ?%elem_of_nil].
    read_step E1 key E2. injection E1 as <-. intros seed ->%list_elem_of_singleton.
    apply plain_origin_ok. by left. }
  destruct (manifest_workspace manifest) as [workspace|].
  - read_step E found E2. injection E as <-. apply Forall_forall. cbn. intros seed Hs%unique_selections_incl.
    rewrite merge_sort_Permutation, map_app, elem_of_app in Hs. destruct Hs as [Hs|Hs]; [by apply Hown|].
    apply traverse_inr in E2. apply list_elem_of_fmap in Hs as (pair & -> & Hp).
    apply list_elem_of_lookup in Hp as [i Hi]. eapply Forall2_lookup_r in E2 as (member & _ & Hm); [|done].
    rewrite (member_seed_origin _ _ _ _ _ Hm). apply plain_origin_ok. by left.
  - injection E as <-. by apply Forall_forall.
Qed.

Lemma new_resolver_ok path options t setup : new_resolver path options t = inr setup ->
  valid_manifest (root_manifest_ setup)
  /\ Forall (fun seed => origin_ok (selected_origin seed)) (root_seeds_ setup).
Proof.
  unfold new_resolver. intros E. read_step E full E1. read_step E manifest E2.
  read_step E normalized E3. read_step E seeds E4. injection E as <-. cbn. split.
  - by eapply LoadManifest_valid.
  - by eapply seeds_are_local.
Qed.

(** *** The loop over the seeds *)

Lemma seeds_resolved setup fuel seeds s ids s' : valid_manifest (root_manifest_ setup) ->
  Forall (fun seed => origin_ok (selected_origin seed)) seeds ->
  resolver_ok s -> traverse_m (resolve_seed setup fuel) seeds s = (inr ids, s') ->
  resolver_ok s' /\ grows s s' /\ forall id, id ∈ ids -> exists n, n ∈ nodes_ s' /\ node_id n = id.
Proof.
  intros Hroot. revert s ids. induction seeds as [|seed seeds IH]; intros s ids Hseeds Hs E.
  { injection E as <- <-. split_and!; [done|apply grows_refl|]. intros id Hid. by apply elem_of_nil in Hid. }
  apply Forall_cons in Hseeds as [Hseed Hseeds]. cbn [traverse_m] in E.
  run_step E id s1 E1. run_step E rest s2 E2. injection E as <- <-.
  unfold resolve_seed in E1. run_step E1 i s3 E3. run_step E1 n s4 E4. injection E1 as <- <-.
  apply node_at_index_run in E4 as [E4 ->].
  destruct (node_resolved setup fuel Hroot _ _ _ _ _ Hs Hseed E3) as [Hs3 Hg3].
  destruct (IH _ _ Hseeds Hs3 E2) as (Hs2 & Hg2 & Hin). split_and!; [done|by eapply grows_trans|].
  intros id [->|Hid]%elem_of_cons; [|by apply Hin]. exists n. split; [|done].
  eapply list_elem_of_lookup_2, grows_lookup; done.
Qed.

(** *** The packages of the nodes *)

Lemma packages_of_nodes s p : p ∈ sort_by package_id (map resolved_package (nodes_ s)) <->
  exists n, n ∈ nodes_ s /\ p = resolved_package n.
Proof.
  rewrite sort_by_permutation. split.
  - intros (n & -> & Hn)%list_elem_of_fmap. eauto.
  - intros (n & Hn & ->). by apply list_elem_of_fmap_2.
Qed.

Lemma nodes_same_id s n m : resolver_ok s -> n ∈ nodes_ s -> m ∈ nodes_ s -> node_id n = node_id m -> n = m.
Proof.
  intros Hs [i Hi]%list_elem_of_lookup [j Hj]%list_elem_of_lookup E.
  pose proof (Forall_lookup_1 _ _ _ _ (nodes_good _ Hs) Hi) as Hn.
  pose proof (Forall_lookup_1 _ _ _ _ (nodes_good _ Hs) Hj) as Hm.
  pose proof (names_unique _ _ _ _ _ Hs Hi Hj (node_id_names _ _ Hn Hm E)) as ->. congruence.
Qed.

Lemma names_no_dup s : resolver_ok s -> NoDup (map (fun n => node_name n) (nodes_ s)).
Proof.
  intros Hs. apply NoDup_alt. intros i j name Hi Hj.
  apply list_lookup_fmap_Some in Hi as (n & -> & Hi), Hj as (m & E & Hj).
  by eapply names_unique.
Qed.
Lemma ids_no_dup s : resolver_ok s -> NoDup (map node_id (nodes_ s)).
Proof.
  intros Hs. apply NoDup_alt. intros i j id Hi Hj.
  apply list_lookup_fmap_Some in Hi as (n & -> & Hi), Hj as (m & E & Hj).
  eapply names_unique; [done..|]. apply node_id_names; [| |done];
    by eapply (Forall_lookup_1 _ _ _ _ (nodes_good _ Hs)).
Qed.

Lemma resolved_graph setup version fuel s g s' : valid_manifest (root_manifest_ setup) ->
  Forall (fun seed => origin_ok (selected_origin seed)) (root_seeds_ setup) ->
  nodes_ s = [] -> resolver_ok s -> ResolveGraph setup version fuel s = (inr g, s') ->
  resolver_ok s' /\ packages g = sort_by package_id (map resolved_package (nodes_ s'))
  /\ graph_lockfile g = mkLockfile ("spio " +:+ version) "single-version-v1" (map lock_package (packages g))
  /\ consistent_graph g.
Proof.
  intros Hroot Hseeds Hnil Hs E. unfold ResolveGraph in E. run_step E ids s1 E1. run_step E nodes s2 E2.
  apply gets_run in E2 as [-> ->]. injection E as <- <-.
  destruct (seeds_resolved _ _ _ _ _ _ Hroot Hseeds Hs E1) as (Hs1 & (new & En & Hnew) & Hids).
  rewrite Hnil in En. cbn in En. rewrite <- En in Hnew. cbn. split_and!; [done..|]. split; cbn.
  - rewrite (Permutation_map _ (sort_by_permutation package_id _)), map_map. by apply names_no_dup.
  - apply sorted_strict; [apply sort_by_sorted|].
    rewrite (Permutation_map _ (sort_by_permutation package_id _)), map_map. by apply ids_no_dup.
  - apply Forall_forall. intros p (n & Hn & ->)%packages_of_nodes. cbn.
    pose proof (nodes_good _ Hs1) as Hg. rewrite Forall_forall in Hg. by apply node_valid, Hg.
  - apply Forall_forall. intros p (n & Hn & ->)%packages_of_nodes.
    rewrite Forall_forall in Hnew. destruct (Hnew n Hn) as (found & Hd & Ha & Hall).
    unfold consistent_edges. cbn. rewrite Hd, Ha. destruct (sorted_unique_spec (map snd found)) as [Hsort Hin].
    split_and!; [done| |].
    + intros id. rewrite Hin. by rewrite (Permutation_map snd (sort_by_permutation fst found)).
    + exists found. split; [by rewrite sort_by_permutation|].
      eapply Forall2_impl; [exact Hall|]. intros d edge (E & m & Hm & Eid & Hf & Hname). split; [done|].
      exists (resolved_package m). split_and!; [apply packages_of_nodes; eauto|done| |done].
      cbn. intros Eq. apply Hf. by rewrite (nodes_same_id s1 m n).
  - destruct (sorted_unique_spec ids) as [Hsort Hin]. split; [done|]. intros id Hid%Hin.
    destruct (Hids id Hid) as (n & Hn & <-). change (node_id n) with (package_id (resolved_package n)).
    apply list_elem_of_fmap_2, packages_of_nodes. eauto.
Qed.

Lemma locked_package_valid n : node_ok n -> valid_lock_package (lock_package (resolved_package n)).
Proof.
  intros Hn. split; cbn.
  - destruct (node_id_form n Hn) as [tail ->]. by destruct (origin_kind (node_origin n)).
  - apply package_named, (node_valid _ Hn).
  - apply package_versioned, (node_valid _ Hn).
  - apply (node_origin_ok _ Hn).
Qed.

(** The statement of the property, shared with the plans made of such a graph. *)
Lemma graph_is_consistent version fuel path options w g w' :
  rooted w -> ResolveSingleVersionGraph version fuel path options w = (inr g, w') ->
  consistent_graph g
  /\ graph_lockfile g
     = mkLockfile ("spio " +:+ version) "single-version-v1" (map lock_package (packages g))
  /\ parse_lockfile (lockfile_toml (graph_lockfile g)) = inr (graph_lockfile g).
Proof.
  intros Hw. unfold ResolveSingleVersionGraph, run_resolver.
  destruct (new_resolver path options (world_files w)) as [e|setup] eqn:Enew; [done|].
  apply new_resolver_ok in Enew as [Hroot Hseeds].
  destruct (ResolveGraph setup version fuel (initial_state w)) as [r s] eqn:E. intros [= -> <-].
  assert (Hinit : resolver_ok (initial_state w)) by by split; [constructor|intros i n Hn|].
  destruct (resolved_graph setup version fuel (initial_state w) g s Hroot Hseeds eq_refl Hinit E) as (Hs & Hp & Hlock & Hg).
  split_and!; [done..|]. rewrite Hlock. apply valid_lockfile_reads. split; cbn; [done..|].
  apply Forall_fmap, Forall_forall. intros p Hin. rewrite Hp in Hin.
  apply packages_of_nodes in Hin as (n & Hn & ->). apply locked_package_valid.
  pose proof (nodes_good _ Hs) as Hgood. rewrite Forall_forall in Hgood. by apply Hgood.
Qed.

(** C4. A resolution that returns gives a consistent graph, and a lockfile that loads:
    with hooks that never answer an empty registry root (as the default ones), whatever
    the files, git, curl and tar did meanwhile, the graph has one package of each name,
    sorted by distinct ids, every manifest of it is valid, every dependency of every
    manifest is resolved to another package of the graph with the name it asks for, and
    the root ids are packages of the graph; and the lockfile records exactly these
    packages and passes the validation of [LoadLockfile]. *)
Theorem resolved_graphs_are_consistent version fuel path options w g w' :
  rooted w -> ResolveSingleVersionGraph version fuel path options w = (inr g, w') ->
  consistent_graph g
  /\ graph_lockfile g
     = mkLockfile ("spio " +:+ version) "single-version-v1" (map lock_package (packages g))
  /\ parse_lockfile (lockfile_toml (graph_lockfile g)) = inr (graph_lockfile g).
Proof. apply graph_is_consistent. Qed.
End Entry.

(** ** A resolution *)

Section ResolverDemo.

Definition demo_package (name : string) (deps : list Dependency) : ManifestDocument :=
  mkManifest (Some (mkPackageConfig name "1.0.0" "2026" false (mkToolchain "stable" true)
                      (Some "src/lib.styio"%string) [] [] deps [])) None.
Definition demo_app : ManifestDocument :=
  demo_package "acme/app" [mkDependency "lib" (Some "acme/lib"%string) kPath "lib" None None].
Definition demo_toml : TomlLib :=
  {| toml_parse := fun text => inr (manifest_toml (if text =s "app" then demo_app
                                                   else demo_package "acme/lib" []));
     toml_open_error := ""; toml_to_int := fun _ => None; toml_to_bool := fun _ => None |}.
Definition demo_programs : ProgramHost :=
  {| get_env := fun _ => None; run_program := fun _ _ t => (inl "no programs"%string, t) |}.
#[local] Existing Instances demo_toml demo_programs Demo.demo_json_lib Demo.demo_file_host.

Definition demo_tree : FileTree :=
  <[["spio.toml"%string] := Regular "app"]>
    (<[["lib"%string] := Directory]> {[ ["lib"; "spio.toml"]%string := Regular "lib" ]}).

Lemma resolved_graphs_are_consistent_witness : exists g w',
  ResolveSingleVersionGraph "0.1" 3 "spio.toml" (mkOptions true None) (mkWorld demo_tree 0 initial_slots)
    = (inr g, w')
  /\ map package_id (packages g) = ["path:acme/lib@1.0.0"; "workspace:acme/app@1.0.0"]%string
  /\ consistent_graph g.
Proof.
  eexists _, _. split; [vm_compute; reflexivity|]. split; [reflexivity|].
  eapply (resolved_graphs_are_consistent "0.1" 3 "spio.toml" (mkOptions true None)).
  - apply (default_slots_rooted demo_tree 0).
  - vm_compute. reflexivity.
Defined.
End ResolverDemo.
