(* ===== verification/ProjectGraph.v ===== *)
(** The project graph a client shows its user
    ([SpioPlatformProtocols/ProjectGraphContract.cpp]): packages, targets, dependency
    edges and counts of a resolved graph, with the state of its lockfile, tool chain and
    sources.  The status of the installed tools comes from a header the repository does
    not hold; its type and its payload are parameters. *)
From stdpp Require Import base list gmap strings sorting.
From Stdlib Require Import ZArith Lia Ascii String.
From S2P Require Import Prelude Json Paths FileSystem Toml Manifest Lockfile RegistrySecurity CachePaths.
From S2P Require Import ResolvedGraph Resolver Toolchain CloudExecution ManifestFacts ResolverFacts Demo.

Definition text_list (l : list string) : json := JArray (map JString l).

Definition alias_payload (edge : string * string) : json :=
  obj [("alias", JString edge.1); ("package_id", JString edge.2)]%string.
Definition BuildPackagePayload (p : ResolvedPackage) : json :=
  let payload :=
    obj [("id", JString (package_id p)); ("manifest_path", JString (resolved_manifest_path p));
         ("root_dir", JString (root_dir p)); ("name", JString (package_name (package p)));
         ("version", JString (package_version (package p))); ("edition", JString (edition (package p)));
         ("publish", JBool (publish (package p))); ("source_kind", JString (source_kind p));
         ("dependencies", text_list (dependencies p))]%string in
  j_set
    (set_optional "snapshot_root" (resolved_snapshot_root p)
       (set_optional "sha256" (resolved_sha256 p)
          (set_optional "registry" (resolved_registry p)
             (set_optional "rev" (resolved_rev p) (set_optional "git" (resolved_git p) payload)))))
    "dependency_aliases" (JArray (map alias_payload (dependency_aliases p))).

(** One edge for every alias of every package. *)
Definition edge_payload (from : string) (edge : string * string) : json :=
  obj [("from", JString from); ("to", JString edge.2); ("alias", JString edge.1)]%string.
Definition BuildDependencyEdgesPayload (graph : ResolvedGraphResult) : json :=
  JArray (flat_map (fun p => map (edge_payload (package_id p)) (dependency_aliases p)) (packages graph)).

(** The packages of a source kind, and those whose manifest path starts with the text
    of the directory of the graph's manifest. *)
Definition count (p : ResolvedPackage -> bool) (graph : ResolvedGraphResult) : Z :=
  Z.of_nat (List.length (List.filter p (packages graph))).
Definition of_kind (kind : string) (p : ResolvedPackage) : bool := source_kind p =s kind.
Definition workspace_like (graph : ResolvedGraphResult) (p : ResolvedPackage) : bool :=
  str_starts_with (resolved_manifest_path p) (parent_path (graph_manifest_path graph)).
Definition BuildPackageDistributionPayload (graph : ResolvedGraphResult) : json :=
  obj [("root_package_count", JInt (i32 (Z.of_nat (List.length (root_ids graph)))));
       ("total_package_count", JInt (i32 (Z.of_nat (List.length (packages graph)))));
       ("path_packages", JInt (count (of_kind "path") graph));
       ("git_packages", JInt (count (of_kind "git") graph));
       ("registry_packages", JInt (count (of_kind "registry") graph));
       ("workspace_local_packages", JInt (count (workspace_like graph) graph))]%string.

Record WorkflowFlags := mkFlags { flag_locked : bool; flag_offline : bool }.

Section ProjectGraph.
Context `{JsonLib} `{FileHost} `{ProgramHost} `{TomlLib} (version : string) (fuel : nat).

(** The absolute path of a target of a package. *)
Definition target_file (p : ResolvedPackage) (path : string) : exn + string :=
  CanonicalAbsolutePath (path_join (root_dir p) path).
Definition target_payload (p : ResolvedPackage) (target : NamedTarget) : exn + json :=
  path <-? target_file p (target_path target) ;;
  inr (obj [("name", JString (target_name target)); ("path", JString path)]%string).
Definition BuildTargetPayload (p : ResolvedPackage) : exn + json :=
  lib <-? match lib (package p) with
          | Some lib => path <-? target_file p lib ;; inr (JString path)
          | None => inr JNull
          end ;;
  bins <-? traverse (target_payload p) (bins (package p)) ;;
  tests <-? traverse (target_payload p) (tests (package p)) ;;
  inr (obj [("package_id", JString (package_id p)); ("lib", lib); ("bins", JArray bins);
            ("tests", JArray tests)]%string).

Definition BuildSourceStatePayload (manifest_path : string) (state : ProjectToolchainState)
    (spio_home : string) : exn + json :=
  state_root <-? SourceStateRoot spio_home ;;
  explicit_root <-? match non_empty_env "SPIO_STYIO_SOURCE_ROOT" with
                    | Some root => path <-? CanonicalAbsolutePath root ;; inr (Some path)
                    | None => inr None
                    end ;;
  project_root <-? ProjectStateRootForManifest manifest_path ;;
  inr (j_set
         (set_optional "explicit_source_root" explicit_root
            (set_optional "source_revision" (source_revision state)
               (obj [("toolchain_mode", JString (state_mode state));
                     ("source_origin", JString ResolveSourceOriginBaseline);
                     ("source_state_root", JString state_root)]%string)))
         "project_state_root" (JString project_root)).

Definition ReadFile (path : string) (t : FileTree) : exn + string :=
  match open_in t path with
  | Some text => inr text
  | None => inl (RuntimeError ("failed to read file: " +:+ path))
  end.

(** A computation that may also want more fuel. *)
Abbreviation GraphM := (M (option exn) ClientWorld).
Definition or_throw {A} (r : exn + A) : GraphM A :=
  lift (match r with inl e => inl (Some e) | inr a => inr a end).

(** Whether the lockfile is the one a resolution of today would write. *)
Definition lock_is_fresh (manifest_path lockfile_path : string) (options : ResolveOptions) : GraphM bool :=
  generated <- ResolveSingleVersionLockfile version fuel manifest_path options ;;
  t <- gets world_files ;;
  text <- or_throw (ReadFile lockfile_path t) ;;
  m_ret (text =s SerializeLockfileCanonical (lock_document generated)).

Context {ToolStatus : Type} (tool_home : ToolStatus -> string)
  (BuildToolStatusPayload : ToolStatus -> ProjectToolchainState -> CloudExecutionPolicy -> json).

Definition BuildProjectGraphPayload (manifest_path : string) (graph : ResolvedGraphResult)
    (flags : WorkflowFlags) (state : ProjectToolchainState) (policy : CloudExecutionPolicy)
    (tool_status : ToolStatus) (options : ResolveOptions) : GraphM json :=
  targets <- or_throw (traverse BuildTargetPayload (packages graph)) ;;
  let lockfile_path := path_join (parent_path manifest_path) "spio.lock" in
  lock_exists <- gets (fun w => exists_ (world_files w) lockfile_path) ;;
  lock_fresh <- (if (lock_exists : bool) then lock_is_fresh manifest_path lockfile_path options
                 else m_ret false) ;;
  absolute <- or_throw (CanonicalAbsolutePath manifest_path) ;;
  managed <- or_throw (j_at (BuildToolStatusPayload tool_status state policy) "managed_toolchains") ;;
  source_state <- or_throw (BuildSourceStatePayload manifest_path state (tool_home tool_status)) ;;
  m_ret (obj
    [("command", JString "project-graph"); ("manifest_path", JString absolute);
     ("root_ids", text_list (root_ids graph)); ("packages", JArray (map BuildPackagePayload (packages graph)));
     ("dependencies", BuildDependencyEdgesPayload graph); ("targets", JArray targets);
     ("toolchain", obj [("mode", JString (state_mode state)); ("channel", JString (state_channel state));
                        ("build_mode", JString (state_build_mode state));
                        ("risk_class", JString (risk_class state));
                        ("preferred_execution_lane", JString (preferred_execution_lane state));
                        ("security_profile", JString (security_profile state));
                        ("cloud", SerializeCloudExecutionPolicy policy)]);
     ("managed_toolchains", managed);
     ("lock_state", obj [("path", JString lockfile_path); ("exists", JBool lock_exists);
                         ("fresh", JBool lock_fresh); ("locked", JBool (flag_locked flags));
                         ("offline", JBool (flag_offline flags))]);
     ("source_state", source_state);
     ("package_distribution", BuildPackageDistributionPayload graph)])%string.
End ProjectGraph.

(** * What the payload says of the graph *)

(** An edge joins two packages of a graph. *)
Definition known_edge (g : ResolvedGraphResult) (e : json) : Prop :=
  exists p q alias, p ∈ packages g /\ q ∈ packages g /\ package_id p <> package_id q
    /\ (alias, package_id q) ∈ dependency_aliases p
    /\ e = obj [("from", JString (package_id p)); ("to", JString (package_id q)); ("alias", JString alias)]%string.

Lemma alias_target g p edge : consistent_graph g -> p ∈ packages g -> edge ∈ dependency_aliases p ->
  exists q, q ∈ packages g /\ package_id q = edge.2 /\ package_id q <> package_id p.
Proof.
  intros Hg Hp He. pose proof (graph_edges g Hg) as Hall. rewrite Forall_forall in Hall.
  destruct (Hall p Hp) as (_ & _ & found & Hperm & Hf). rewrite <- Hperm in He.
  apply list_elem_of_lookup in He as [i Hi].
  destruct (Forall2_lookup_r _ _ _ _ _ Hf Hi) as (d & _ & _ & q & Hq & Eq & Hne & _). by exists q.
Qed.

Lemma edges_known g e : consistent_graph g ->
  e ∈ flat_map (fun p => map (edge_payload (package_id p)) (dependency_aliases p)) (packages g) <->
  known_edge g e.
Proof.
  intros Hg. rewrite list_elem_of_In, in_flat_map. split.
  - intros (p & Hp%list_elem_of_In & He). apply in_map_iff in He as ([alias to] & <- & Hin%list_elem_of_In).
    destruct (alias_target g p _ Hg Hp Hin) as (q & Hq & Eq & Hne). cbn in Eq. subst to.
    by exists p, q, alias.
  - intros (p & q & alias & Hp & _ & _ & Hin & ->). exists p. split; [by apply list_elem_of_In|].
    apply in_map_iff. exists (alias, package_id q). by rewrite <- list_elem_of_In.
Qed.

Lemma package_payload_id p : j_lookup (BuildPackagePayload p) "id" = Some (JString (package_id p)).
Proof.
  unfold BuildPackagePayload.
  by destruct (resolved_git p), (resolved_rev p), (resolved_registry p), (resolved_sha256 p),
    (resolved_snapshot_root p).
Qed.

Lemma kinds_bounded g :
  count (of_kind "path") g + count (of_kind "git") g + count (of_kind "registry") g
  <= Z.of_nat (List.length (packages g)).
Proof.
  unfold count. rewrite <- !Nat2Z.inj_add. apply Nat2Z.inj_le.
  induction (packages g) as [|p l IH]; [done|]. cbn [List.filter]. unfold of_kind in *.
  assert (Hd : (source_kind p =s "path") = true \/ (source_kind p =s "path") = false) by (destruct (_ =s _); auto).
  destruct (source_kind p =s "path") eqn:E1.
  - apply str_eqb_iff in E1. rewrite E1. cbn in *. lia.
  - destruct (source_kind p =s "git") eqn:E2.
    + apply str_eqb_iff in E2. rewrite E2. cbn in *. lia.
    + destruct (source_kind p =s "registry"); cbn in *; lia.
Qed.

Section Payload.
Context `{JsonLib} `{FileHost} `{ProgramHost} `{TomlLib} {ToolStatus : Type} (tool_home : ToolStatus -> string)
  (BuildToolStatusPayload : ToolStatus -> ProjectToolchainState -> CloudExecutionPolicy -> json).

Lemma target_payload_id p t : BuildTargetPayload p = inr t ->
  j_lookup t "package_id" = Some (JString (package_id p)).
Proof.
  unfold BuildTargetPayload.
  destruct (match lib (package p) with Some _ => _ | None => _ end) as [|l]; [done|]. cbn [r_bind].
  destruct (traverse _ (bins (package p))) as [|bs]; [done|]. cbn [r_bind].
  destruct (traverse _ (tests (package p))) as [|ts]; [done|]. cbn [r_bind].
  intros Ht. by apply (inj inr) in Ht as <-.
Qed.

Lemma payload_parts version fuel path g flags state policy status options w payload w' :
  BuildProjectGraphPayload version fuel tool_home BuildToolStatusPayload path g flags state policy
    status options w = (inr payload, w') ->
  exists m targets, payload = JObject m
    /\ Forall2 (fun p t => BuildTargetPayload p = inr t) (packages g) targets
    /\ m !! "packages"%string = Some (JArray (map BuildPackagePayload (packages g)))
    /\ m !! "targets"%string = Some (JArray targets)
    /\ m !! "dependencies"%string = Some (BuildDependencyEdgesPayload g)
    /\ m !! "root_ids"%string = Some (text_list (root_ids g)).
Proof.
  unfold BuildProjectGraphPayload. intros Hrun.
  run_step Hrun targets w1 E1. unfold or_throw, lift in E1.
  destruct (traverse BuildTargetPayload (packages g)) as [|ts] eqn:Et; [done|]. injection E1 as -> <-.
  run_step Hrun exists_lock w2 E2. run_step Hrun fresh w3 E3. run_step Hrun absolute w4 E4.
  run_step Hrun managed w5 E5. run_step Hrun source w6 E6. unfold m_ret in Hrun.
  apply (f_equal fst) in Hrun. cbn [fst] in Hrun. apply (inj inr) in Hrun as <-.
  eexists _, targets. split; [reflexivity|]. split; [by apply traverse_inr|]. by split_and!.
Qed.

(** C26. The project graph a client shows is closed.  Whatever the resolution of a
    manifest ends with, and whenever and with whatever options the payload is built, its
    dependencies are exactly the aliases of the packages, each from a package of the
    payload to another one; it has one package and one target entry for each package of
    the graph, in the order of their distinct ids; the roots are packages of it; and no
    package is counted under two source kinds. *)
Theorem project_graphs_are_closed version fuel path resolution w0 g w1 flags state policy status
    manifest options w payload w' :
  rooted w0 -> ResolveSingleVersionGraph version fuel path resolution w0 = (inr g, w1) ->
  BuildProjectGraphPayload version fuel tool_home BuildToolStatusPayload manifest g flags state policy
    status options w = (inr payload, w') ->
  exists packages_ targets edges,
    j_lookup payload "packages" = Some (JArray packages_)
    /\ j_lookup payload "targets" = Some (JArray targets)
    /\ j_lookup payload "dependencies" = Some (JArray edges)
    /\ j_lookup payload "root_ids" = Some (text_list (root_ids g))
    /\ (forall e, e ∈ edges <-> known_edge g e)
    /\ map (fun p => j_lookup p "id") packages_ = map (fun p => Some (JString (package_id p))) (packages g)
    /\ map (fun t => j_lookup t "package_id") targets = map (fun p => Some (JString (package_id p))) (packages g)
    /\ StronglySorted str_lt (map package_id (packages g))
    /\ (forall id, id ∈ root_ids g -> id ∈ map package_id (packages g))
    /\ count (of_kind "path") g + count (of_kind "git") g + count (of_kind "registry") g
       <= Z.of_nat (List.length packages_).
Proof.
  intros Hw Hr Hb. pose proof (graph_is_consistent _ _ _ _ _ _ _ Hw Hr) as (Hg & _).
  destruct (payload_parts _ _ _ _ _ _ _ _ _ _ _ _ Hb) as (m & targets & -> & Ht & Hp & Htm & Hd & Hroots).
  eexists _, targets, _. split; [exact Hp|]. split; [exact Htm|]. split; [exact Hd|]. split; [exact Hroots|].
  split; [intros e; by apply edges_known|]. split.
  { rewrite map_map. apply map_ext. intros p. apply package_payload_id. }
  split.
  { clear -Ht. induction Ht as [|p t ps ts Hpt _ IH]; [done|]. cbn [map].
    by rewrite (target_payload_id _ _ Hpt), IH. }
  split; [apply (graph_sorted g Hg)|]. split; [apply (graph_roots g Hg)|].
  rewrite length_map. apply kinds_bounded.
Qed.
End Payload.

(** ** The graph of a concrete project *)

Section GraphDemo.
#[local] Existing Instances ResolverFacts.demo_toml ResolverFacts.demo_programs demo_json_lib demo_file_host.

Definition no_tools (status : string) (state : ProjectToolchainState) (policy : CloudExecutionPolicy) : json :=
  obj [("managed_toolchains", JArray [])]%string.
Definition demo_policy : CloudExecutionPolicy :=
  @ResolveCloudExecutionPolicy {| target_system := Linux; target_processor := X86_64 |} _ default_toolchain_state.
Definition graph_world : ClientWorld := mkWorld demo_tree 0 initial_slots.

Lemma project_graphs_are_closed_witness :
  match ResolveSingleVersionGraph "0.1" 3 "spio.toml" (mkOptions true None) graph_world with
  | (inr g, w1) =>
      match BuildProjectGraphPayload "0.1" 3 id no_tools "spio.toml" g (mkFlags false true)
              default_toolchain_state demo_policy "/home/.spio"%string (mkOptions true None) w1 with
      | (inr payload, _) => exists edges, j_lookup payload "dependencies" = Some (JArray edges)
                              /\ forall e, e ∈ edges <-> known_edge g e
      | (inl _, _) => False
      end
  | (inl _, _) => False
  end.
Proof.
  destruct (ResolveSingleVersionGraph "0.1" 3 "spio.toml" (mkOptions true None) graph_world)
    as [[e|g] w1] eqn:Er; [vm_compute in Er; discriminate Er|].
  assert (Hok : match (BuildProjectGraphPayload "0.1" 3 id no_tools "spio.toml" g (mkFlags false true)
                  default_toolchain_state demo_policy "/home/.spio"%string (mkOptions true None) w1).1
                with inr _ => true | inl _ => false end = true).
  { vm_compute in Er. injection Er as <- <-. vm_compute. reflexivity. }
  destruct (BuildProjectGraphPayload _ _ _ _ _ g _ _ _ _ _ w1) as [[e|payload] w2] eqn:Eb; [discriminate Hok|].
  destruct (project_graphs_are_closed id no_tools _ _ _ _ _ _ _ _ _ _ _ _ _ _ _ _
              (default_slots_rooted demo_tree 0) Er Eb) as (_ & _ & edges & _ & _ & Hd & _ & He & _).
  exists edges. split; [exact Hd|exact He].
Defined.

(** A package in a directory whose name only starts like the project's is counted as
    the workspace's own. *)
Definition neighbour : ResolvedPackage :=
  mkResolved "/work/app-tools/spio.toml" "/work/app-tools"
    (mkPackageConfig "acme/tools" "1.0.0" "2026" false (mkToolchain "stable" true) None [] [] [] [])
    "path:acme/tools@1.0.0" "path" None None None None None None [] [].
Example neighbours_count_as_local :
  workspace_like (mkGraph "/work/app/spio.toml" "" [] [neighbour] (mkLockfile "" "" [])) neighbour = true.
Proof. reflexivity. Qed.
End GraphDemo.
