(* ===== verification/PlanWriter.v ===== *)
(** [WriteBuildCompilePlan] ([SpioPlatformProtocols/CompilePlan.cpp]) as a whole: the
    graph is resolved, the plan is computed from it and from the files, and written. *)
From stdpp Require Import base list gmap strings sorting.
From Stdlib Require Import ZArith Lia Ascii String.
From S2P Require Import Prelude Json JsonFacts Paths FileSystem FileSystemFacts Toml Manifest Lockfile.
From S2P Require Import RegistrySecurity CachePaths SourceFetch GitFetcher RegistryClient ResolvedGraph CompilePlan Resolver ResolverFacts Demo.

(** What it throws: an error of the plan, or an exception of what it calls; and a run
    that needs more fuel. *)
Inductive write_error := PlanFailed (error : plan_error) | Threw (e : exn) | MoreFuel.

Record WrittenPlan := mkWritten {
  written_manifest_path : string;
  written_plan : BuildPlanResult;
  plan_json : string;
  written_build_mode : string;
  written_package_count : nat;
}.

Section Writer.
Context `{JsonLib} `{FileHost} `{ProgramHost} `{TomlLib} (version : string) (fuel : nat).
Abbreviation WriterM := (M write_error ClientWorld).

Definition of_plan {A} (r : plan_error + A) : write_error + A :=
  match r with inl e => inl (PlanFailed e) | inr a => inr a end.
Definition of_exn {A} (r : exn + A) : write_error + A :=
  match r with inl e => inl (Threw e) | inr a => inr a end.
Definition writes_files {A} (m : M exn FileTree A) : WriterM A :=
  fun w => let '(r, w) := in_files m w in (of_exn r, w).
Definition resolves {A} (m : ClientWorld -> (option exn + A) * ClientWorld) : WriterM A :=
  fun w => let '(r, w) := m w in
           (match r with
            | inl None => inl MoreFuel
            | inl (Some e) => inl (Threw e)
            | inr a => inr a
            end, w).
Definition plan_fails {A} (message : string) : WriterM A := throw (PlanFailed (PlanError message)).

Definition write_plan (path text : string) : WriterM unit :=
  opens <- gets (fun w => can_open path (world_files w)) ;;
  if negb opens then plan_fails ("failed to open compile-plan for write: " +:+ path)
  else writes_files (modify (write_stream path text)).

Definition WriteBuildCompilePlan (request : BuildPlanRequest) : WriterM WrittenPlan :=
  present <- gets (fun w => exists_ (world_files w) (request_manifest_path request)) ;;
  if negb present then plan_fails ("manifest not found: " +:+ request_manifest_path request)
  else
    lift (of_plan (ValidateIntent (intent request))) ;;;
    graph <- resolves (ResolveSingleVersionGraph version fuel (request_manifest_path request)
                         (mkOptions (request_offline request) (request_vendor_root request))) ;;
    t <- gets world_files ;;
    built <- lift (match BuildCompilePlan (file_view t) version request graph with
                   | None => inl MoreFuel
                   | Some r => of_plan r
                   end) ;;
    writes_files (create_directories (artifact_dir built)) ;;;
    writes_files (create_directories (diag_dir built)) ;;;
    dumped <- lift (of_exn (json_dump_indented (plan built))) ;;
    let text := dumped +:+ newline_text in
    write_plan (plan_path built) text ;;;
    m_ret (mkWritten (graph_manifest_path graph) built text (build_mode request) (List.length (packages graph))).
End Writer.

(** * Lemmas *)

(** In a consistent graph no dependency lacks its package. *)
Lemma consistent_known g a b : consistent_graph g -> edge g a b -> known g b.
Proof.
  intros Hg (p & Hp & Hb). unfold package_of in Hp. apply find_some in Hp as [Hin _].
  pose proof (graph_edges g Hg) as He. rewrite Forall_forall in He.
  destruct (He p (proj2 (list_elem_of_In _ _) Hin)) as (_ & Hids & found & Hf & Hall).
  apply Hids in Hb. rewrite <- Hf in Hb. apply list_elem_of_fmap in Hb as (e & -> & Hb).
  apply list_elem_of_lookup in Hb as [i Hi].
  destruct (Forall2_lookup_r _ _ _ _ _ Hall Hi) as (d & _ & _ & q & Hq & Eq & _).
  rewrite <- Eq. apply known_ids. by apply list_elem_of_fmap_2.
Qed.
Lemma consistent_order g : consistent_graph g ->
  match BuildPackageOrder g with
  | Some (inr order) => build_order g order
  | Some (inl e) => exists c, is_cycle g c
      /\ e = PlanError ("compile-plan requires an acyclic package graph: " +:+ Join c " -> ")
  | None => False
  end.
Proof.
  intros Hg. pose proof (package_order_sorted g) as Ho. destruct (BuildPackageOrder g) as [[e|order]|]; [|done..].
  destruct Ho as [(a & b & He & Hk & _)|Hc]; [|done]. by apply consistent_known in He.
Qed.

Section WriterFacts.
Context `{FileHost}.

Lemma files_made p (w : ClientWorld) u w' : writes_files (create_directories p) w = (inr u, w') ->
  is_dir_at (world_files w') (target p) = true
  /\ forall n, is_dir_at (world_files w) n = true -> is_dir_at (world_files w') n = true.
Proof.
  unfold writes_files, in_files, zoom. destruct (create_directories p (world_files w)) as [[e|[]] t'] eqn:E; [done|].
  intros [= <- <-]. cbn [world_files]. destruct (create_directories_spec _ _ _ E) as (Hm & _ & Hd).
  split; [done|]. intros n. by apply is_dir_more.
Qed.
Lemma plan_written path text (w : ClientWorld) u w' : write_plan path text w = (inr u, w') ->
  contents_at (world_files w') (target path) = Some text
  /\ forall n, is_dir_at (world_files w') n = is_dir_at (world_files w) n.
Proof.
  unfold write_plan, m_bind, gets. destruct (can_open path (world_files w)) eqn:Ec; [|done]. cbn [negb].
  unfold writes_files, in_files, zoom, modify. intros [= <- <-]. cbn [world_files].
  split; [by apply opened_text|]. intros n. apply write_with_dirs.
Qed.
End WriterFacts.

(** What a plan that was built is made of. *)
Lemma plan_built v version request graph built : BuildCompilePlan v version request graph = Some (inr built) ->
  exists order, BuildPackageOrder graph = Some (inr order)
  /\ exists resolution, j_lookup (plan built) "resolution" = Some resolution
     /\ j_lookup resolution "package_order" = Some (strings order).
Proof.
  unfold BuildCompilePlan. destruct (ValidateUniformToolchain graph); [done|].
  destruct (ResolveEntryPackage request graph) as [|entry]; [done|].
  destruct (ResolveEntryTarget v request entry) as [|selected]; [done|].
  destruct (ResolveProfile _) as [|profile]; [done|].
  destruct (BuildPackageOrder graph) as [[e|order]|]; [done| |done]. intros Hb. exists order. split; [done|].
  injection Hb as Hb. destruct (BuildSourceHash v graph) as [|hash]; [done|]. cbn [r_bind] in Hb.
  destruct (CanonicalAbsolutePath v _) as [|root]; [done|]. cbn [r_bind] in Hb.
  destruct (traverse _ (packages graph)) as [|packages]; [done|]. cbn [r_bind] in Hb. injection Hb as <-.
  cbn [plan]. eexists. split; reflexivity.
Qed.

(** * Properties *)

(** C7. Plans that are written can be built. When [WriteBuildCompilePlan] returns, the
    manifest was resolved to a consistent graph, the order in the plan lists exactly
    its packages, each once and after its dependencies, the artifact and diagnostic
    directories are there, and the plan file holds the text of that plan; and of a
    resolved graph the order only fails on a cycle, never on a missing package. *)
Theorem written_plans_are_buildable `{JsonLib} `{FileHost} `{ProgramHost} `{TomlLib} version fuel request w :
  rooted w ->
  let resolved := ResolveSingleVersionGraph version fuel (request_manifest_path request)
                    (mkOptions (request_offline request) (request_vendor_root request)) w in
  (forall written w', WriteBuildCompilePlan version fuel request w = (inr written, w') ->
     let built := written_plan written in
     exists graph w1 order resolution dumped,
       resolved = (inr graph, w1) /\ consistent_graph graph /\ build_order graph order
       /\ j_lookup (plan built) "resolution" = Some resolution
       /\ j_lookup resolution "package_order" = Some (strings order)
       /\ is_dir_at (world_files w') (target (artifact_dir built)) = true
       /\ is_dir_at (world_files w') (target (diag_dir built)) = true
       /\ json_dump_indented (plan built) = inr dumped
       /\ contents_at (world_files w') (target (plan_path built)) = Some (dumped +:+ newline_text))
  /\ (forall graph w1 e, resolved = (inr graph, w1) -> BuildPackageOrder graph = Some (inl e) ->
        exists cycle, is_cycle graph cycle
          /\ e = PlanError ("compile-plan requires an acyclic package graph: " +:+ Join cycle " -> ")).
Proof.
  intros Hw resolved. split.
  - intros written w' Hrun built. unfold WriteBuildCompilePlan in Hrun.
    run_step Hrun present w0 E0. injection E0 as <- <-. destruct (exists_ _ _); [|done]. cbn [negb] in Hrun.
    run_step Hrun valid w0 E0. unfold lift in E0. injection E0 as _ <-.
    run_step Hrun graph w1 E1. unfold resolves in E1. fold resolved in E1.
    destruct resolved as [[[e|]|graph'] w2] eqn:Er; try done. injection E1 as -> ->.
    pose proof (graph_is_consistent _ _ _ _ _ _ _ Hw Er) as (Hg & _).
    run_step Hrun t w2 E2. injection E2 as <- <-. run_step Hrun b w2 E2. unfold lift in E2. injection E2 as E2 <-.
    destruct (BuildCompilePlan _ version request graph) as [[e|b']|] eqn:Eb; try done. injection E2 as ->.
    apply plan_built in Eb as (order & Eo & resolution & El & Ep).
    run_step Hrun u1 w2 E3. run_step Hrun u2 w3 E4. run_step Hrun dumped w4 E5.
    unfold lift, of_exn in E5. destruct (json_dump_indented (plan b)) as [|d] eqn:Ed; [done|]. injection E5 as -> <-.
    run_step Hrun u3 w4 E6. injection Hrun as <- <-. subst built. cbn [written_plan].
    pose proof (consistent_order graph Hg) as Ho. rewrite Eo in Ho.
    apply files_made in E3 as [Ha H3], E4 as [Hd H4]. apply plan_written in E6 as [Htext Hdirs].
    exists graph, w1, order, resolution, dumped.
    split_and!; [done|done|done|done|done|rewrite Hdirs; by apply H4|by rewrite Hdirs|done|done].
  - intros graph w1 e Hr He. pose proof (graph_is_consistent _ _ _ _ _ _ _ Hw Hr) as (Hg & _).
    pose proof (consistent_order graph Hg) as Ho. by rewrite He in Ho.
Qed.

(** ** The property on a concrete package *)

Section WriterDemo.
#[local] Existing Instances ResolverFacts.demo_toml ResolverFacts.demo_programs demo_json_lib demo_file_host.

Definition demo_plan_request : BuildPlanRequest :=
  mkPlanRequest "spio.toml" "build" None None None true "dev" "minimal" None true None.
Definition demo_plan_tree : FileTree :=
  <[["src"%string] := Directory]> (<[["src"; "lib.styio"]%string := Regular "library"]>
    (<[["lib"; "src"]%string := Directory]> (<[["lib"; "src"; "lib.styio"]%string := Regular "library"]> demo_tree))).
Definition demo_plan_world : ClientWorld := mkWorld demo_plan_tree 0 initial_slots.

Lemma written_plans_are_buildable_witness :
  match WriteBuildCompilePlan "0.1" 3 demo_plan_request demo_plan_world with
  | (inr written, w') => exists dumped, json_dump_indented (plan (written_plan written)) = inr dumped
      /\ contents_at (world_files w') (target (plan_path (written_plan written))) = Some (dumped +:+ newline_text)
  | (inl _, _) => False
  end.
Proof.
  pose proof (written_plans_are_buildable "0.1" 3 demo_plan_request demo_plan_world
                (default_slots_rooted demo_plan_tree 0)) as [Hok _].
  assert (Hruns : match (WriteBuildCompilePlan "0.1" 3 demo_plan_request demo_plan_world).1 with
                  | inr _ => true | inl _ => false end = true) by (vm_compute; reflexivity).
  destruct (WriteBuildCompilePlan "0.1" 3 demo_plan_request demo_plan_world) as [[e|written] w'] eqn:E;
    [discriminate Hruns|].
  destruct (Hok written w' eq_refl) as (graph & w1 & order & resolution & dumped & H).
  exists dumped. split; apply H.
Defined.
End WriterDemo.
