(* ===== verification/ResolverTermination.v ===== *)
(** Resolution ends: without git and registry sources the number of files bounds the
    recursion of [ResolveNode]. *)
From stdpp Require Import base list gmap strings sorting.
From Stdlib Require Import ZArith Lia Ascii String.
From S2P Require Import Prelude Json Paths FileSystem Toml Manifest SourceFetch.
From S2P Require Import CachePaths GitFetcher RegistryClient ResolvedGraph Resolver.
From S2P Require Import ManifestFacts ResolverFacts.

(** ** Runs that do not need more fuel *)

Definition ends {A} (Q : A -> ResolverState -> Prop) (m : ResolveM A) (s : ResolverState) : Prop :=
  match m s with
  | (inl None, _) => False
  | (inl (Some _), _) => True
  | (inr a, s') => Q a s'
  end.

Lemma ends_bind {A B} (Q : B -> ResolverState -> Prop) (m : ResolveM A) (k : A -> ResolveM B) s :
  ends (fun a s' => ends Q (k a) s') m s -> ends Q (m_bind m k) s.
Proof. unfold ends, m_bind. by destruct (m s) as [[[e|]|a] s']. Qed.
Lemma ends_pure {A} (Q : A -> ResolverState -> Prop) (r : exn + A) s :
  (forall a, r = inr a -> Q a s) -> ends Q (pure r) s.
Proof. intros Hq. unfold ends, pure, lift. destruct r as [e|a]; cbn; [done|by apply Hq]. Qed.
Lemma ends_gets {A} (Q : A -> ResolverState -> Prop) f s : Q (f s) s -> ends Q (gets f) s.
Proof. done. Qed.
Lemma ends_modify (Q : unit -> ResolverState -> Prop) f s : Q tt (f s) -> ends Q (modify f) s.
Proof. done. Qed.
Lemma ends_ret {A} (Q : A -> ResolverState -> Prop) a s : Q a s -> ends Q (m_ret a) s.
Proof. done. Qed.
Lemma ends_node (Q : Node -> ResolverState -> Prop) i s :
  (forall n, nodes_ s !! i = Some n -> Q n s) -> ends Q (node_at_index i) s.
Proof.
  intros Hq. unfold node_at_index. apply ends_bind, ends_gets. destruct (nodes_ s !! i) as [n|] eqn:E.
  - by apply ends_ret, Hq.
  - done.
Qed.
Lemma ends_world {A} (Q : A -> ResolverState -> Prop) (m : ClientM A) s :
  (forall a w, m (resolver_world s) = (inr a, w) -> Q a (set_world w s)) -> ends Q (on_world m) s.
Proof.
  intros Hq. unfold ends, on_world. destruct (m (resolver_world s)) as [[e|a] w]; cbn; [done|by apply Hq].
Qed.
Lemma ends_mono {A} (Q Q' : A -> ResolverState -> Prop) m s :
  ends Q m s -> (forall a s', m s = (inr a, s') -> Q a s' -> Q' a s') -> ends Q' m s.
Proof. unfold ends. destruct (m s) as [[[e|]|a] s']; auto. Qed.

(** ** The packages a tree can name *)

Section Termination.
Context `{JsonLib} `{FileHost} `{ProgramHost} `{TomlLib}.

(** What a file of the tree can hold; a directory reads as an empty text. *)
Definition texts (t : FileTree) : list string :=
  EmptyString :: omap (fun entry => match entry.2 with Regular text => Some text | Directory => None end)
                   (map_to_list t).
Definition named_by (text : string) : option string :=
  match toml_parse text with
  | inr doc => match parse_manifest doc with
               | inr m => package_name <$> manifest_package m
               | inl _ => None
               end
  | inl _ => None
  end.
Definition names_of (t : FileTree) : list string := omap named_by (texts t).

Lemma length_omap_le {A B} (f : A -> option B) l : (List.length (omap f l) <= List.length l)%nat.
Proof. induction l as [|a l IH]; [done|]. cbn. destruct (f a); cbn; lia. Qed.

Lemma names_of_bound t : (List.length (names_of t) <= S (size t))%nat.
Proof.
  unfold names_of, texts. etransitivity; [apply length_omap_le|]. cbn [List.length].
  apply le_n_S. etransitivity; [apply length_omap_le|]. by rewrite length_map_to_list.
Qed.

Lemma open_in_texts t path text : open_in t path = Some text -> text ∈ texts t.
Proof.
  unfold open_in, status, texts. destruct (resolve t path) as [names|]; [|done]. cbn.
  unfold node_at. intros E. apply elem_of_cons.
  destruct names as [|name names]; [left; by injection E|].
  destruct (t !! (name :: names)) as [[|contents]|] eqn:Et; [left; by injection E| |done].
  right. injection E as <-. apply list_elem_of_omap. exists (name :: names, Regular contents).
  split; [by apply elem_of_map_to_list|done].
Qed.

Lemma loaded_name t path m p : LoadManifest path t = inr m -> manifest_package m = Some p ->
  package_name p ∈ names_of t.
Proof.
  unfold LoadManifest, parse_toml_file. intros E Hp. read_step E doc Ed.
  destruct (open_in t path) as [text|] eqn:Eo; [|done]. apply open_in_texts in Eo.
  apply list_elem_of_omap. exists text. split; [done|]. unfold named_by.
  destruct (toml_parse text) as [|doc']; [done|]. injection Ed as ->. by rewrite E, Hp.
Qed.

(** Every package of the tree has only path dependencies. *)
Definition only_paths (p : PackageConfig) : Prop :=
  Forall (fun d => dependency_kind d = kPath) (CollectDependencies p).
Definition local_tree (t : FileTree) : Prop :=
  forall path m p, LoadManifest path t = inr m -> manifest_package m = Some p -> only_paths p.

Context (setup : ResolverSetup) (t : FileTree) (root_path : string).
Hypothesis loaded : LoadManifest root_path t = inr (root_manifest_ setup).
Hypothesis local : local_tree t.

Lemma manifest_at path m p : load_manifest_at setup path t = inr m -> manifest_package m = Some p ->
  package_name p ∈ names_of t /\ only_paths p.
Proof.
  unfold load_manifest_at. destruct (path_eqb _ _).
  - intros [= <-] Hp. split; [by eapply loaded_name|by eapply local].
  - intros E Hp. split; [by eapply loaded_name|by eapply local].
Qed.

(** The nodes so far: packages of the tree, each name once, nothing written. *)
Record bounded (s : ResolverState) : Prop := {
  bounded_names : forall n, n ∈ nodes_ s -> node_name n ∈ names_of t;
  bounded_found : forall i n, nodes_ s !! i = Some n -> node_by_package_name_ s !! node_name n = Some i;
  bounded_files : world_files (resolver_world s) = t;
}.

Lemma bounded_length s : bounded s -> (List.length (nodes_ s) <= List.length (names_of t))%nat.
Proof.
  intros Hs. rewrite <- (List.length_map (fun n => node_name n)). apply NoDup_incl_length.
  - apply NoDup_ListNoDup, NoDup_alt. intros i j name Hi Hj.
    apply list_lookup_fmap_Some in Hi as (n & -> & Hi), Hj as (m & E & Hj).
    apply (bounded_found _ Hs) in Hi, Hj. rewrite E in Hi. congruence.
  - intros name Hn. apply list_elem_of_In in Hn. apply list_elem_of_In.
    apply list_elem_of_fmap in Hn as (n & -> & Hn). by apply (bounded_names _ Hs).
Qed.

Definition ending (fuel : nat) (resolve : string -> SourceOrigin -> ResolveM nat) : Prop :=
  forall path origin s, bounded s -> (List.length (names_of t) < fuel + List.length (nodes_ s))%nat ->
    ends (fun _ s' => bounded s' /\ (List.length (nodes_ s) <= List.length (nodes_ s'))%nat)
      (resolve path origin) s.

Lemma dependencies_end fuel resolve index node l s : ending fuel resolve ->
  Forall (fun d => dependency_kind d = kPath) l -> bounded s ->
  (List.length (names_of t) < fuel + List.length (nodes_ s))%nat ->
  ends (fun _ s' => bounded s' /\ (List.length (nodes_ s) <= List.length (nodes_ s'))%nat)
    (resolve_dependencies setup resolve index node l) s.
Proof.
  intros Hr. revert s. induction l as [|d l IH]; intros s Hl Hs Hfuel; cbn [resolve_dependencies].
  { by apply ends_ret. }
  apply Forall_cons in Hl as [Hd Hl]. apply ends_bind, ends_node. intros parent _.
  apply ends_bind, ends_world. intros sel w E. unfold select_dependency in E. rewrite Hd in E.
  apply looks_at_run in E as [_ ->].
  apply ends_bind. eapply ends_mono; [apply Hr; [destruct Hs; by split|done]|].
  intros j s1 _ [Hs1 Hlen]. cbn in Hlen. apply ends_bind, ends_node. intros m _.
  apply ends_bind, ends_pure. intros [] _. apply ends_bind.
  eapply ends_mono; [apply IH; [done|done|lia]|]. intros rest s2 _ [Hs2 Hlen2].
  apply ends_ret. split; [done|lia].
Qed.

Lemma add_bounded node s : bounded s -> node_name node ∈ names_of t ->
  node_by_package_name_ s !! node_name node = None -> bounded (add_node node s).
Proof.
  intros [Hn Hf Ht] Hin Hnone. split; [|cbn|done].
  - intros n [Hm|Hm%list_elem_of_singleton]%elem_of_app; [by apply Hn|by subst].
  - intros i m [Hm|[Hi Hm]]%lookup_app_Some.
    + rewrite lookup_insert_ne; [by apply Hf|]. intros E. apply Hf in Hm. rewrite <- E in Hm. congruence.
    + apply list_lookup_singleton_Some in Hm as [Hi' <-]. rewrite lookup_insert_eq. f_equal. lia.
Qed.

Lemma set_bounded found i s : bounded s ->
  bounded (set_nodes (alter (set_dependencies found) i (nodes_ s)) s).
Proof.
  intros [Hn Hf Ht]. split; [|cbn|done]; cbn.
  - intros n [j Hj]%list_elem_of_lookup. rewrite list_lookup_alter in Hj.
    destruct (decide _); [apply fmap_Some in Hj as (m & Hj & ->)|];
      apply list_elem_of_lookup_2 in Hj; exact (Hn _ Hj).
  - intros j n Hj. rewrite list_lookup_alter in Hj.
    destruct (decide (i = j)) as [<-|]; [apply fmap_Some in Hj as (m & Hj & ->)|]; exact (Hf _ _ Hj).
Qed.

Lemma node_ends fuel : ending fuel (ResolveNode setup fuel).
Proof.
  induction fuel as [|fuel IH]; intros path origin s Hs Hfuel.
  { pose proof (bounded_length s Hs). lia. }
  cbn [ResolveNode]. apply ends_bind, ends_pure. intros full _.
  apply ends_bind, ends_pure. intros fingerprint _. apply ends_bind, ends_gets.
  destruct (node_by_source_fingerprint_ s !! fingerprint); [by apply ends_ret|].
  apply ends_bind, ends_world. intros manifest w E. apply looks_at_run in E as [E ->].
  rewrite (bounded_files _ Hs) in E. apply ends_bind, ends_pure. intros package Ep.
  assert (Hp : manifest_package manifest = Some package).
  { unfold require_package in Ep. destruct (manifest_package manifest); [by injection Ep as ->|].
    by destruct (bool_decide _) in Ep. }
  destruct (manifest_at _ _ _ E Hp) as [Hname Hpaths].
  apply ends_bind, ends_pure. intros id _. apply ends_bind, ends_gets.
  cbn [set_world node_by_package_name_ resolver_world].
  destruct (node_by_package_name_ s !! package_name package) as [j|] eqn:Ename.
  { apply ends_bind, ends_node. intros other _. apply ends_bind, ends_pure. intros [] _.
    apply ends_ret. split; [destruct Hs; by split|done]. }
  apply ends_bind, ends_gets, ends_bind, ends_modify, ends_bind.
  set (node := mkNode _ _ _ _ _ _ _ _).
  eapply ends_mono.
  - apply (dependencies_end fuel); [exact IH|exact Hpaths| |].
    + apply add_bounded; [destruct Hs; by split|done|done].
    + cbn [add_node nodes_ set_world]. rewrite List.length_app. cbn [List.length]. lia.
  - cbn [add_node nodes_ set_world]. rewrite List.length_app. cbn [List.length]. intros found s2 _ [Hs2 Hlen].
    apply ends_bind, ends_modify, ends_ret. split; [by apply set_bounded|].
    cbn. rewrite length_alter. lia.
Qed.

Lemma seeds_end fuel seeds s : bounded s ->
  (List.length (names_of t) < fuel)%nat ->
  ends (fun _ s' => bounded s') (traverse_m (resolve_seed setup fuel) seeds) s.
Proof.
  intros Hs Hfuel. revert s Hs. induction seeds as [|seed seeds IH]; intros s Hs; cbn [traverse_m].
  { by apply ends_ret. }
  apply ends_bind. unfold resolve_seed. apply ends_bind.
  eapply ends_mono; [apply node_ends; [done|lia]|]. intros i s1 _ [Hs1 _].
  apply ends_bind, ends_node. intros n _. apply ends_ret.
  apply ends_bind. eapply ends_mono; [by apply IH|]. intros ids s2 _ Hs2. by apply ends_ret.
Qed.
End Termination.

(** C8. Resolution of a workspace ends.  When the packages below the tree depend on each
    other by path only - cycles, diamonds and missing packages included - a recursion
    depth of two more than the number of files is enough, whatever the workspace asks
    for: the run returns a graph or throws, and never needs more fuel. *)
Theorem local_resolution_ends `{JsonLib} `{FileHost} `{ProgramHost} `{TomlLib}
    version fuel path options w :
  local_tree (world_files w) -> (size (world_files w) + 2 <= fuel)%nat ->
  (exists g w', ResolveSingleVersionGraph version fuel path options w = (inr g, w'))
  \/ exists e w', ResolveSingleVersionGraph version fuel path options w = (inl (Some e), w').
Proof.
  intros Hlocal Hfuel. unfold ResolveSingleVersionGraph, run_resolver.
  destruct (new_resolver path options (world_files w)) as [e|setup] eqn:Enew; [right; by eauto|].
  assert (Hroot : exists full, LoadManifest full (world_files w) = inr (root_manifest_ setup)).
  { unfold new_resolver in Enew. read_step Enew full E1. read_step Enew manifest E2.
    read_step Enew normalized E3. read_step Enew seeds E4. injection Enew as <-. by exists full. }
  destruct Hroot as [full Hroot].
  assert (He : ends (fun _ _ => True) (ResolveGraph setup version fuel) (initial_state w)).
  { unfold ResolveGraph. apply ends_bind. eapply ends_mono.
    - apply (seeds_end setup (world_files w) full Hroot Hlocal).
      + split; [intros n Hn; by apply elem_of_nil in Hn|done|done].
      + pose proof (names_of_bound (world_files w)). lia.
    - intros ids s1 _ _. by apply ends_bind, ends_gets, ends_ret. }
  unfold ends in He. destruct (ResolveGraph setup version fuel (initial_state w)) as [[[e|]|g] s];
    [right; by eauto|done|left; by eauto].
Qed.

(** Two packages that depend on each other. *)
Section TerminationDemo.

Definition cycle_toml : TomlLib :=
  {| toml_parse := fun text => inr (manifest_toml
       (if text =s "app" then demo_app
        else demo_package "acme/lib" [mkDependency "app" (Some "acme/app"%string) kPath ".." None None]));
     toml_open_error := ""; toml_to_int := fun _ => None; toml_to_bool := fun _ => None |}.
#[local] Existing Instances cycle_toml demo_programs Demo.demo_json_lib Demo.demo_file_host.

Lemma cycle_is_local : local_tree demo_tree.
Proof.
  intros path m p. unfold LoadManifest, parse_toml_file. intros E Hp. read_step E doc Ed.
  destruct (open_in demo_tree path) as [text|]; [|done]. cbn [toml_parse cycle_toml] in Ed.
  injection Ed as <-. destruct (text =s "app"); vm_compute in E; injection E as <-;
    injection Hp as <-; by repeat constructor.
Qed.

Lemma local_resolution_ends_witness : exists g w',
  ResolveSingleVersionGraph "0.1" 5 "spio.toml" (mkOptions true None)
    (mkWorld demo_tree 0 RegistrySecurity.initial_slots) = (inr g, w').
Proof.
  destruct (local_resolution_ends "0.1" 5 "spio.toml" (mkOptions true None)
              (mkWorld demo_tree 0 RegistrySecurity.initial_slots) cycle_is_local
              ltac:(vm_compute; lia)) as [Hg|(e & w' & E)]; [exact Hg|].
  vm_compute in E. discriminate E.
Defined.
End TerminationDemo.
