(* ===== verification/OfflineFacts.v ===== *)
(** An offline resolution stays on this machine: the programs that could reach a
    network are never run. *)
From stdpp Require Import base list gmap strings sorting.
From Stdlib Require Import ZArith Lia Ascii String.
From S2P Require Import Prelude Json Paths FileSystem Toml Manifest SourceFetch Process.
From S2P Require Import RegistrySecurity CachePaths GitFetcher RegistryClient ResolvedGraph Resolver.
From S2P Require Import Agreement ManifestFacts ResolverFacts Demo.

(** The programs that only look at the files of this machine: [tar], and git reading
    a mirror that is there. *)
Definition local_request (request : ProcessRequest) : Prop :=
  program request = "tar"%string
  \/ (program request = "git"%string
      /\ exists dir subcommand rest, args request = ("--git-dir" :: dir :: subcommand :: rest)%string
         /\ (subcommand = "cat-file" \/ subcommand = "archive")%string).

(** Hosts that run those programs alike. *)
Abbreviation same_offline := (same_programs local_request).

Lemma agree_world {A} (m m' : ClientM A) : agree m m' -> agree (on_world m) (on_world m').
Proof. intros Hm s. unfold on_world. by rewrite Hm. Qed.

Ltac agreeing := agreeing_with ltac:(apply agree_world).

Section Offline.
Context `{JsonLib} `{FileHost} `{TomlLib} (here there : ProgramHost).
Hypothesis Hsame : same_offline here there.

Lemma agree_git dir subcommand rest directory operation context :
  (subcommand = "cat-file" \/ subcommand = "archive")%string ->
  agree (@RunGitChecked here ("--git-dir" :: dir :: subcommand :: rest)%string directory operation context)
    (@RunGitChecked there ("--git-dir" :: dir :: subcommand :: rest)%string directory operation context).
Proof.
  intros Hs. unfold RunGitChecked, checked. apply agree_bind; [|by intros ?].
  apply (agree_run local_request); [done|]. right. split; [done|]. by eexists _, _, _.
Qed.
Lemma agree_tar failure args directory timeout context :
  agree (@run_with here failure (process_request "tar" args directory timeout context))
    (@run_with there failure (process_request "tar" args directory timeout context)).
Proof. apply (agree_run local_request); [done|]. by left. Qed.
#[local] Hint Resolve agree_tar : offline.

Lemma agree_revision request repo_dir :
  agree (@has_revision here request repo_dir) (@has_revision there request repo_dir).
Proof.
  unfold has_revision. apply agree_catch; [|by intros e].
  apply agree_bind; [|by intros ?]. apply agree_git. by left.
Qed.
#[local] Hint Resolve agree_revision : offline.

Lemma agree_extract request repo_dir root archive :
  agree (@extract_snapshot _ here request repo_dir root archive)
    (@extract_snapshot _ there request repo_dir root archive).
Proof.
  unfold extract_snapshot. apply agree_catch; [|by intros e].
  apply agree_bind; [apply agree_git; by right|]. intros ?. agreeing.
Qed.
#[local] Hint Resolve agree_extract : offline.

Lemma agree_snapshot request : offline request = true ->
  agree (@MaterializeSnapshot _ here request) (@MaterializeSnapshot _ there request).
Proof.
  intros Ho. unfold MaterializeSnapshot, ensure_revision. rewrite Ho. agreeing.
Qed.

Lemma agree_object home root headers path context :
  agree (@LoadRegistryObjectText _ here home root headers path context true)
    (@LoadRegistryObjectText _ there home root headers path context true).
Proof. unfold LoadRegistryObjectText. agreeing. Qed.
Lemma agree_artifact home root headers entry :
  agree (@MaterializeArtifact _ here home root headers true entry)
    (@MaterializeArtifact _ there home root headers true entry).
Proof. unfold MaterializeArtifact. agreeing. Qed.
Lemma agree_checkout home entry :
  agree (@EnsureCheckout _ here home entry) (@EnsureCheckout _ there home entry).
Proof. unfold EnsureCheckout. agreeing. Qed.
#[local] Hint Resolve agree_object agree_artifact agree_checkout : offline.

Lemma agree_package root name version :
  agree (@MaterializeRegistryPackage _ _ here root name version true)
    (@MaterializeRegistryPackage _ _ there root name version true).
Proof.
  unfold MaterializeRegistryPackage, LoadConfig, LoadPackageMetadata, LoadEntry, load_object.
  rewrite (agree_home _ _ _ Hsame). agreeing.
Qed.
#[local] Hint Resolve agree_package : offline.

Context (setup : ResolverSetup).
Hypothesis Hoffline : resolve_offline (options_ setup) = true.

Lemma agree_select parent dependency :
  agree (@select_dependency _ _ here _ setup parent dependency)
    (@select_dependency _ _ there _ setup parent dependency).
Proof.
  unfold select_dependency, ResolveGitDependency, ResolveRegistryDependency.
  rewrite Hoffline, (agree_home _ _ _ Hsame). destruct (dependency_kind dependency); [done| |agreeing].
  apply agree_bind; [done|intros source]. apply agree_bind; [done|intros home].
  apply agree_bind; [done|intros revision]. apply agree_bind; [by apply agree_snapshot|done].
Qed.
#[local] Hint Resolve agree_select : offline.

Lemma agree_dependencies resolve resolve' index node l :
  (forall path origin, agree (resolve path origin) (resolve' path origin)) ->
  agree (@resolve_dependencies _ _ here _ setup resolve index node l)
    (@resolve_dependencies _ _ there _ setup resolve' index node l).
Proof. intros Hr. induction l as [|d l IH]; cbn [resolve_dependencies]; agreeing. Qed.

Lemma agree_node fuel path origin :
  agree (@ResolveNode _ _ here _ setup fuel path origin) (@ResolveNode _ _ there _ setup fuel path origin).
Proof.
  revert path origin. induction fuel as [|fuel IH]; intros path origin; [done|]. cbn [ResolveNode].
  agreeing. by apply agree_dependencies.
Qed.
#[local] Hint Resolve agree_node : offline.

Lemma agree_graph version fuel :
  agree (@ResolveGraph _ _ here _ setup version fuel) (@ResolveGraph _ _ there _ setup version fuel).
Proof. unfold ResolveGraph, resolve_seed. agreeing. Qed.
End Offline.

(** C6. An offline resolution is decided by this machine.  On two hosts with the same
    environment that agree on [tar] and on git reading a mirror, an offline run gives
    the same graph or the same error and leaves the same files, whatever [curl],
    [git clone], [git fetch] and every other program would do: no such program is
    needed, and none is run. *)
Theorem offline_resolution_is_local `{JsonLib} `{FileHost} `{TomlLib} (here there : ProgramHost)
    version fuel path options w :
  same_offline here there -> resolve_offline options = true ->
  @ResolveSingleVersionGraph _ _ here _ version fuel path options w
  = @ResolveSingleVersionGraph _ _ there _ version fuel path options w.
Proof.
  intros Hsame Hoffline. unfold ResolveSingleVersionGraph, run_resolver.
  destruct (new_resolver path options (world_files w)) as [e|setup] eqn:E; [done|].
  rewrite (agree_graph here there Hsame); [done|].
  unfold new_resolver in E. read_step E full E1. read_step E manifest E2. read_step E normalized E3.
  read_step E seeds E4. injection E as <-. cbn. unfold NormalizeOptions in E3.
  destruct (resolve_vendor_root options) as [vendor|].
  - read_step E3 vendored E5. by injection E3 as <-.
  - read_step E3 vendored E5. injection E3 as <-. by destruct (exists_ _ _).
Qed.

(** A dependency that only the network has: a host where [curl] downloads anything
    answers as one where it does not run. *)
Section OfflineDemo.
Definition remote_toml : TomlLib :=
  {| toml_parse := fun _ => inr (manifest_toml (demo_package "acme/app"
       [mkDependency "lib" (Some "acme/lib"%string) kRegistry "https://registry" None (Some "1.0.0"%string)]));
     toml_open_error := ""; toml_to_int := fun _ => None; toml_to_bool := fun _ => None |}.
Definition home_env (name : string) : option string := if name =s "HOME" then Some "/home"%string else None.
Definition no_programs : ProgramHost :=
  {| get_env := home_env; run_program := fun _ _ t => (inl "no programs"%string, t) |}.
Definition only_curl : ProgramHost :=
  {| get_env := home_env;
     run_program := fun _ request t =>
       if program request =s "curl" then (inr default_result, t)
       else (inl "no programs"%string, t) |}.
#[local] Existing Instances remote_toml Demo.demo_json_lib Demo.demo_file_host.

Lemma curl_is_not_local : same_offline only_curl no_programs.
Proof.
  split; [done|]. intros n request t [E|[E _]]; cbn [run_program only_curl no_programs];
    rewrite E; reflexivity.
Qed.

Definition remote_world : ClientWorld :=
  mkWorld {[ ["spio.toml"%string] := Regular "app" ]} 0 initial_slots.
Lemma offline_resolution_is_local_witness :
  (@ResolveSingleVersionGraph _ _ only_curl _ "0.1" 3 "spio.toml" (mkOptions true None) remote_world).1
  = inl (Some (FetchError "offline mode is missing cached registry v2 config for https://registry")).
Proof.
  rewrite (offline_resolution_is_local only_curl no_programs "0.1" 3 "spio.toml" (mkOptions true None)
             remote_world curl_is_not_local eq_refl).
  vm_compute. reflexivity.
Defined.
End OfflineDemo.
