(* ===== verification/RegistryPublish.v ===== *)
(** Publishing: drafts, release records, the append to the static registry,
    publications, the S3 mirror of the tree, and the handlers that publish, yank
    and verify ([RegistryPublishWorkflow.hpp], [RegistryObjectStoreSync.hpp],
    [RegistryPackageHandlers.cpp] and [CreateRegistryPublication] of
    [RegistryControlPlane.cpp] in [PlatformCloud/PackageRegistry/ControlPlane]). *)
From stdpp Require Import base list gmap strings.
From Stdlib Require Import ZArith Lia Ascii String.
From S2P Require Import Prelude Json StateRecords MemoryStateStore Identity Http Config.
From S2P Require Import Paths FileSystem Toml Manifest RouterSupport ObjectStore.
From S2P Require Import RegistryIdentifiers RegistryIndexStore RegistryAccess RegistryQueries.
From S2P Require Import RegistryTrust.

Record PublishDraft := mkDraft {
  draft_package : string;
  draft_version : string;
  publisher_id : string;
  archive_path : string;
  draft_dependencies : Z;
  draft_dev_dependencies : Z;
}.

Record LocalAppendResult := mkAppend {
  index_path : string;
  log_leaf_path : string;
  sequence : Z;
}.

Section RegistryPublish.
Context {DB : Type} `{JsonLib} `{Host} `{PostgresStore DB} `{CurlHost curl_history}
  `{SigningHost} `{TomlLib} (config : PlatformConfig).

Abbreviation root := (registry_root (registry config)).
Abbreviation store := (object_store config).

(** ** Drafts *)

(** [path / (a + "-" + b + ".spio.src.tar")]. *)
Definition staging_path (package version : string) : string :=
  path_join (path_join root "_staging")
    (SanitizePathSegment package +:+ "-" +:+ SanitizePathSegment version +:+ ".spio.src.tar").

(** Package, version and dependency counts of the manifest a request names. *)
Definition manifest_fields (body : json) (t : FileTree) : exn + (string * string * Z * Z) :=
  if HasNonEmptyString body "manifest_path" then
    manifest <-? LoadManifest (string_at body "manifest_path") t ;;
    match manifest_package manifest with
    | None => inl (ValidationError "manifest_path must point to a package manifest")
    | Some p => inr (package_name p, package_version p,
                     i32 (Z.of_nat (List.length (package_dependencies p))),
                     i32 (Z.of_nat (List.length (dev_dependencies p))))
    end
  else inr (EmptyString, EmptyString, 0, 0).

(** [if (HasNonEmptyString(body, key)) value = body[key];] *)
Definition override (body : json) (key value : string) : string :=
  if HasNonEmptyString body key then string_at body key else value.

(** The archive a request without one gets. *)
Definition write_staging (package version publisher : string) : M exn FileTree string :=
  let path := staging_path package version in
  create_directories (path_join root "_staging") ;;;
  modify (write_stream path EmptyString) ;;;
  text <- lift (JsonText (obj [("package", JString package); ("version", JString version);
                               ("publisher_id", JString publisher)])) ;;
  modify (append_stream path text) ;;;
  m_ret path.

Definition BuildPublishDraft (body : json) (identity : option MtlsIdentity)
  : M exn FileTree PublishDraft :=
  publisher <- lift (value_string body "publisher_id"
                 (match identity with Some i => node_id i | None => "control-plane" end)) ;;
  t <- gets id ;;
  fields <- lift (manifest_fields body t) ;;
  let '(package, version, dependencies, dev_dependencies) := fields in
  let package := override body "package" package in
  let version := override body "version" version in
  if is_empty package then throw (ValidationError "package or manifest_path is required")
  else if is_empty version
  then throw (ValidationError "manifest_path is required when version is not provided")
  else
    match RegistryIdentifiers.ValidatePackageName package with
    | Some error => throw (ValidationError error)
    | None =>
        archive <- (if HasNonEmptyString body "archive_path" then m_ret (string_at body "archive_path")
                    else write_staging package version publisher) ;;
        t <- gets id ;;
        if negb (exists_ t archive) || negb (is_regular_file t archive)
        then throw (ValidationError "archive_path must point to a readable file")
        else m_ret (mkDraft package version publisher archive dependencies dev_dependencies)
    end.

(** ** The release record and the append *)

Definition BuildReleaseRecord (draft : PublishDraft) (published_at archive_sha256 : string)
    (archive_size : Z) (artifact_path : string) : exn + json :=
  let metadata_source :=
    obj [("package", JString (draft_package draft)); ("version", JString (draft_version draft));
         ("publisher_id", JString (publisher_id draft)); ("published_at", JString published_at);
         ("archive_sha256", JString archive_sha256); ("dependencies", JArray []);
         ("dev_dependencies", JArray [])] in
  metadata <-? CanonicalJson metadata_source ;;
  inr (obj [("schema_version", JInt 1); ("package", JString (draft_package draft));
            ("version", JString (draft_version draft)); ("release_revision", JInt 1);
            ("published_at", JString published_at);
            ("publisher_id", JString (publisher_id draft)); ("yanked", JBool false);
            ("deprecated_message", JString "");
            ("source_artifact",
             obj [("sha256", JString archive_sha256); ("size_bytes", JInt archive_size);
                  ("path", JString artifact_path); ("archive_format", JString "tar");
                  ("compression", JString "none")]);
            ("binary_artifacts", JArray []); ("dependencies", JArray []);
            ("dev_dependencies", JArray []);
            ("features", obj [("default", JArray []); ("optional", JArray [])]);
            ("manifest_digest",
             JString (Sha256Bytes (draft_package draft +:+ "@" +:+ draft_version draft)));
            ("metadata_digest", JString (Sha256Bytes metadata))]).

(** The artifact is copied, or is there with the same digest. *)
Definition place_artifact (draft : PublishDraft) (release_record : json) (artifact_path : string)
  : M exn FileTree unit :=
  let dest := path_join root artifact_path in
  create_directories (parent_path dest) ;;;
  t <- gets id ;;
  if exists_ t dest then
    present <- lift (Sha256File t dest) ;;
    expected <- lift (at_at_string release_record "source_artifact" "sha256") ;;
    if present <>s expected
    then throw (RuntimeError "destination artifact already exists with different content")
    else m_ret tt
  else
    fun t => match copy_file false (archive_path draft) dest t with
             | Some t' => (inr tt, t')
             | None => (inl (FilesystemError "cannot copy file" (archive_path draft)), t)
             end.

(** The leaf of the transparency log for a release. *)
Definition log_leaf (draft : PublishDraft) (release_record : json) (sequence : Z)
    (package_namespace index_path artifact_path : string) : exn + json :=
  text <-? CanonicalJson release_record ;;
  sha256 <-? at_at_string release_record "source_artifact" "sha256" ;;
  inr (obj [("schema_version", JInt 1); ("sequence", JInt sequence);
            ("namespace", JString package_namespace); ("package", JString (draft_package draft));
            ("version", JString (draft_version draft)); ("release_revision", JInt 1);
            ("index_path", JString index_path);
            ("index_record_sha256", JString (Sha256Bytes text));
            ("source_artifact_sha256", JString sha256);
            ("source_artifact_path", JString artifact_path)]).

Definition AppendRegistryReleaseToLocal (draft : PublishDraft) (release_record : json)
    (artifact_path : string) : M exn FileTree LocalAppendResult :=
  place_artifact draft release_record artifact_path ;;;
  index_path <- lift (RegistryIndexPathForPackage (draft_package draft)) ;;
  let index_file := path_join root index_path in
  t <- gets id ;;
  published <- lift (if exists_ t index_file
                     then has_release (text_lines (default EmptyString (open_in t index_file)))
                            (draft_package draft) (draft_version draft)
                     else inr false) ;;
  if published then throw (RuntimeError "package version is already published")
  else
    AppendJsonLine index_file release_record ;;;
    t <- gets id ;;
    let sequence := Z.of_nat (S (List.length (LeafSequencePaths root t))) in
    let leaf_path := "log/leaves/" +:+ RouterSupport.PaddedNumber sequence 12 +:+ ".json" in
    match SplitPackageName (draft_package draft) with
    | [] => throw UndefinedBehaviour
    | package_namespace :: _ =>
        leaf <- lift (log_leaf draft release_record sequence package_namespace index_path
                        artifact_path) ;;
        text <- lift (JsonText leaf) ;;
        WriteTextFile (path_join root leaf_path) text ;;;
        m_ret (mkAppend index_path leaf_path sequence)
    end.

(** ** The object store's copy of the tree *)

Definition RemoveLocalRegistryMetadataCache (t : FileTree) : FileTree :=
  let t := remove (path_join root "config.json") t in
  let t := remove_all (path_join root "trust") t in
  let t := remove_all (path_join root "index") t in
  let t := remove_all (path_join root "log") t in
  remove_all (path_join root "artifacts") t.

Definition transient (path : string) : bool :=
  str_starts_with path "_staging/" || str_starts_with path "_tmp/".

Definition download_key (key : string) : RouterM DB unit :=
  if transient key then m_ret tt
  else
    payload <- on_remote (GetObjectText store key) ;;
    match payload with
    | None => m_ret tt
    | Some payload =>
        normalized <- lift (NormalizeObjectKey key) ;;
        on_files (WriteTextFile (path_join root normalized) payload)
    end.
Definition download_prefix (prefix : string) : RouterM DB unit :=
  keys <- on_remote (ListObjectKeys store prefix) ;;
  traverse_m download_key keys ;;;
  m_ret tt.

Definition SyncS3RegistryStateToLocal : RouterM DB unit :=
  on_files (modify RemoveLocalRegistryMetadataCache) ;;;
  config_text <- on_remote (GetObjectText store "config.json") ;;
  match config_text with
  | Some text => on_files (WriteTextFile (path_join root "config.json") text)
  | None => m_ret tt
  end ;;;
  traverse_m download_prefix
    ["trust/"; "index/"; "log/"; "artifacts/"; "_publications/"; "_distributions/"] ;;;
  m_ret tt.

Definition RegistryContentTypeForPath (relative_path : string) : string :=
  if str_ends_with relative_path ".json" then "application/json"
  else if str_ends_with relative_path ".jsonl" then "application/x-ndjson"
  else "application/octet-stream".

Definition upload_entry (t : FileTree) (entry : string) : RouterM DB unit :=
  let relative := relative t entry root in
  if negb (is_regular_file t entry) || transient relative then m_ret tt
  else on_remote (PutObjectFile t store relative entry (RegistryContentTypeForPath relative)).
Definition UploadRegistryTreeToS3 : RouterM DB unit :=
  t <- gets files_ ;;
  if negb (exists_ t root) then m_ret tt
  else traverse_m (upload_entry t) (recursive_directory_iterator t root) ;;; m_ret tt.

(** ** Publications *)

Definition RecordMirrorState (freshness replay_cursor publication_id repository_version_id
    synced_at : string) (tree_size : Z) : RouterM DB unit :=
  on_both
    (pg_RecordMirrorState (config_mirror_id (registry config)) (config_region config)
       (mirror_origin (registry config)) freshness replay_cursor publication_id
       repository_version_id synced_at tree_size)
    (MemoryStateStore.RecordMirrorState (config_mirror_id (registry config)) (config_region config)
       (mirror_origin (registry config)) freshness replay_cursor publication_id
       repository_version_id synced_at tree_size).

(** The number of the next publication: past every one on disk and in the stores. *)
Definition next_publication : RouterM DB Z :=
  t <- gets files_ ;;
  let disk_sequence := NextPublicationSequenceOnDisk root t in
  memory_sequence <- on_memory (gets (NextRepositoryVersionSequence "default")) ;;
  persistent_sequence <- if_postgres (on_postgres (pg_NextRepositoryVersionSequence "default"))
                           (m_ret memory_sequence) ;;
  m_ret (Z.max (i32 (Z.max disk_sequence (u64 memory_sequence))) persistent_sequence).

(** The tree of a publication, built in [temp_root]; its manifest. *)
Definition build_publication (temp_root publication_id repository_version_id generated_at : string)
  : M exn FileTree (json * Z) :=
  modify (remove_all temp_root) ;;;
  create_directories (parent_path temp_root) ;;;
  CopyRegistryReadPlaneTo root temp_root ;;;
  config_text <- lift (JsonText (PublicationConfigPayload config generated_at publication_id
                                   repository_version_id)) ;;
  WriteTextFile (path_join temp_root "config.json") config_text ;;;
  t <- gets id ;;
  let tree_size := Z.of_nat (List.length (LeafSequencePaths temp_root t)) in
  let artifact_count := Z.of_nat (CountRegularFiles (path_join temp_root "artifacts") t) in
  index_digest <- lift (DirectoryDigest (path_join temp_root "index") t) ;;
  trust_digest <- lift (DirectoryDigest (path_join temp_root "trust") t) ;;
  let publication :=
    obj [("publication_id", JString publication_id); ("repository_id", JString "default");
         ("repository_version_id", JString repository_version_id); ("layout_version", JInt 2);
         ("generated_at", JString generated_at); ("tree_size", JInt tree_size);
         ("index_digest", JString index_digest); ("trust_digest", JString trust_digest);
         ("artifact_count", JInt artifact_count); ("verified", JBool true)] in
  text <- lift (JsonText publication) ;;
  WriteTextFile (path_join temp_root "publication.json") text ;;;
  t <- gets id ;;
  if negb (exists_ t (path_join temp_root "config.json"))
     || negb (exists_ t (path_join (path_join temp_root "trust") "root.json"))
     || negb (exists_ t (path_join temp_root "publication.json"))
  then throw (RuntimeError "publication verification failed before distribution update")
  else m_ret (publication, tree_size).

(** The finished tree becomes the publication and its configuration the active
    one. *)
Definition activate_publication (temp_root final_root publication_id : string)
  : M exn FileTree unit :=
  present <- gets (fun t => exists_ t final_root) ;;
  if present then throw (RuntimeError ("publication already exists: " +:+ publication_id))
  else
    or_throw ("failed to publish immutable publication: " +:+ ec_message "rename" temp_root)
      (rename temp_root final_root) ;;;
    or_throw ("failed to activate publication config: "
              +:+ ec_message "copy_file" (path_join final_root "config.json"))
      (copy_file true (path_join final_root "config.json") (path_join root "config.json")).

(** [_distributions / distribution_id / current.json]. *)
Definition pointer_path (distribution_id : string) : string :=
  path_join (path_join (path_join root "_distributions") distribution_id) "current.json".

Definition pointer_payload (distribution_id publication_id repository_version_id updated_at
    previous_publication_id : string) : json :=
  j_set_if (negb (is_empty previous_publication_id)) "previous_publication_id"
    (JString previous_publication_id)
    (obj [("distribution_id", JString distribution_id);
          ("publication_id", JString publication_id);
          ("repository_version_id", JString repository_version_id);
          ("updated_at", JString updated_at)]).

(** The pointer of the default distribution moves to a new publication. *)
Definition move_default_pointer (publication_id repository_version_id generated_at : string)
  : M exn FileTree (json * string) :=
  t <- gets id ;;
  previous <- lift (CurrentDistributionPointer root "default" t) ;;
  previous_publication_id <- lift (pointer_field previous "publication_id") ;;
  let current := pointer_payload "default" publication_id repository_version_id generated_at
                   previous_publication_id in
  text <- lift (JsonText current) ;;
  WriteTextFile (pointer_path "default") text ;;;
  m_ret (current, previous_publication_id).

Definition repository_record (generated_at : string) : RegistryRepositoryRecord :=
  mkRepository "default" "default" "platform" default_policy generated_at.

(** The four records of a publication, written to one of the stores; the digest
    and the URL are read again for each store. *)
Definition record_publication {S} (to_store : forall A, M exn S A -> RouterM DB A)
    (upsert_repository : RegistryRepositoryRecord -> M exn S unit)
    (record_version : RegistryRepositoryVersionRecord -> M exn S unit)
    (record_published : RegistryPublicationRecord -> M exn S unit)
    (upsert_distribution : RegistryDistributionRecord -> M exn S unit)
    (version : RegistryRepositoryVersionRecord) (publication_id previous_publication_id : string)
    (tree_size : Z) : RouterM DB unit :=
  let generated_at := ver_created_at version in
  let version_id := ver_repository_version_id version in
  let final_root := path_join (path_join root "_publications") publication_id in
  to_store _ (upsert_repository (repository_record generated_at)) ;;;
  to_store _ (record_version version) ;;;
  t <- gets files_ ;;
  sha256 <- lift (Sha256File t (path_join final_root "publication.json")) ;;
  to_store _ (record_published (mkPublication publication_id version_id 2 final_root sha256
                                  (i32 tree_size) generated_at true)) ;;;
  url <- reads (read_root_url_text config) ;;
  to_store _ (upsert_distribution (mkDistribution "default" "default" "default" url publication_id
                                     previous_publication_id generated_at)).

Definition CreateRegistryPublication (change_kind change_ref generated_at : string)
  : RouterM DB json :=
  on_files (create_directories (path_join root "_publications")) ;;;
  on_files (create_directories (path_join (path_join root "_distributions") "default")) ;;;
  publication_sequence <- next_publication ;;
  let number := RouterSupport.PaddedNumber (u64 publication_sequence) 6 in
  let repository_version_id := "rv-" +:+ number in
  let publication_id := "pub-" +:+ number in
  let temp_root := path_join (path_join (path_join root "_tmp") "publications") publication_id in
  let final_root := path_join (path_join root "_publications") publication_id in
  built <- on_files (build_publication temp_root publication_id repository_version_id generated_at) ;;
  let '(publication, tree_size) := built in
  on_files (activate_publication temp_root final_root publication_id) ;;;
  moved <- on_files (move_default_pointer publication_id repository_version_id generated_at) ;;
  let '(current, previous_publication_id) := moved in
  let version := mkRepositoryVersion repository_version_id "default" publication_sequence
                   change_kind change_ref generated_at in
  record_publication (fun _ => on_memory) UpsertRegistryRepository RecordRegistryRepositoryVersion
    RecordRegistryPublication UpsertRegistryDistribution version publication_id
    previous_publication_id tree_size ;;;
  if_postgres
    (record_publication (fun _ => on_postgres) pg_UpsertRegistryRepository
       pg_RecordRegistryRepositoryVersion pg_RecordRegistryPublication
       pg_UpsertRegistryDistribution version publication_id previous_publication_id tree_size)
    (m_ret tt) ;;;
  RecordMirrorState "fresh" ("checkpoint-" +:+ RouterSupport.PaddedNumber tree_size 4) publication_id
    repository_version_id generated_at (i32 tree_size) ;;;
  t <- gets files_ ;;
  sha256 <- lift (Sha256File t (path_join final_root "publication.json")) ;;
  m_ret (j_set (j_set (j_set publication "manifest_sha256" (JString sha256))
                  "root_path" (JString final_root)) "distribution" current).

(** ** Handlers *)

Definition release_target (package version : string) : json :=
  obj [("package_id", JString package); ("version", JString version)].

Definition draft_fields : list string :=
  ["archive_path"; "manifest_path"; "package"; "output_path"; "publisher_id"; "version"].

Definition artifact_path_for (archive_sha256 : string) : string :=
  "artifacts/source/sha256/" +:+ str_take 2 archive_sha256 +:+ "/"
  +:+ str_take 2 (str_drop 2 archive_sha256) +:+ "/" +:+ archive_sha256 +:+ ".spio.src.tar".

(** The local copy of a registry kept in S3 is refreshed before it is written. *)
Definition refresh_from_s3 : RouterM DB unit :=
  if UsesS3ObjectStore config then
    config_present <- on_remote (ObjectExists store "config.json") ;;
    initialized <- (if config_present then m_ret true
                    else on_remote (ObjectExists store "trust/root.json")) ;;
    if initialized then SyncS3RegistryStateToLocal
    else on_files (modify RemoveLocalRegistryMetadataCache)
  else m_ret tt.
Definition upload_to_s3 : RouterM DB unit :=
  if UsesS3ObjectStore config then UploadRegistryTreeToS3 else m_ret tt.

Definition release_exists (package version : string) : RouterM DB bool :=
  in_postgres <- if_postgres
                   (record <- on_postgres (pg_GetRegistryPackageRelease
                                             (RegistryPackageId package) version) ;;
                    m_ret (match record with Some _ => true | None => false end))
                   (m_ret false) ;;
  in_memory <- on_memory (gets (HasPublishedRelease (RegistryReleaseKey package version))) ;;
  if in_memory || in_postgres then m_ret true
  else reads (ReleaseExistsOnDisk root package version).

Definition root_missing (t : FileTree) : bool :=
  negb (exists_ t (path_join root "config.json"))
  || negb (exists_ t (path_join (path_join root "trust") "root.json")).

(** The records of a published release. *)
Definition record_release (request : HttpRequest) (draft : PublishDraft) (release_record : json)
    (archive_sha256 published_at : string) : RouterM DB unit :=
  let package := draft_package draft in
  let package_id := RegistryPackageId package in
  manifest_digest <- lift (at_string release_record "manifest_digest") ;;
  dependencies <- lift (j_at release_record "dependencies") ;;
  match find_char "/" (chars package) with
  | None => throw UndefinedBehaviour
  | Some slash =>
      let package_record := mkPackage package_id (str_take slash package) (str_drop (S slash) package)
                              published_at (publisher_id draft) "public" in
      let release := mkRelease package_id (draft_version draft) "2026" manifest_digest archive_sha256
                       dependencies (publisher_id draft) published_at false "" in
      let owner := mkOwner package_id (publisher_id draft) "user" "owner" (RegistryActorId request)
                     published_at in
      if_postgres
        (on_postgres (pg_UpsertRegistryPackage package_record) ;;;
         on_postgres (pg_UpsertRegistryPackageRelease release) ;;;
         on_postgres (pg_AddRegistryPackageOwner owner))
        (m_ret tt) ;;;
      on_memory (UpsertRegistryPackage package_record) ;;;
      on_memory (UpsertRegistryPackageRelease release) ;;;
      on_memory (AddRegistryPackageOwner owner)
  end.

(** The answer to a publish request. *)
Definition publish_payload (draft : PublishDraft) (created_root : bool)
    (published_at archive_sha256 : string) (archive_size : Z) (artifact_path : string)
    (appended : LocalAppendResult) (versions : MetadataVersions) (publication : json)
    (t : FileTree) : exn + json :=
  url <-? read_root_url_text config t ;;
  repository_version_id <-? at_string publication "repository_version_id" ;;
  publication_id <-? at_string publication "publication_id" ;;
  inr (obj [("registry_root", JString root); ("registry_read_root", JString url);
            ("object_store_provider", JString (provider store));
            ("created_root", JBool created_root); ("package", JString (draft_package draft));
            ("version", JString (draft_version draft));
            ("publisher_id", JString (publisher_id draft)); ("published_at", JString published_at);
            ("archive_path", JString (archive_path draft));
            ("archive_sha256", JString archive_sha256); ("archive_size_bytes", JInt archive_size);
            ("artifact_path", JString artifact_path); ("index_path", JString (index_path appended));
            ("log_leaf_path", JString (log_leaf_path appended));
            ("sequence", JInt (sequence appended));
            ("dependencies", JInt (draft_dependencies draft));
            ("dev_dependencies", JInt (draft_dev_dependencies draft));
            ("checkpoint_version", JInt (checkpoint_version versions));
            ("snapshot_version", JInt (snapshot_version versions));
            ("timestamp_version", JInt (timestamp_version versions));
            ("namespaces", JInt (namespaces versions)); ("repository_id", JString "default");
            ("repository_version_id", JString repository_version_id);
            ("publication_id", JString publication_id); ("distribution_id", JString "default")]).

(** The release is new: the tree, the signed metadata and the publication. *)
Definition publish_new_release (request : HttpRequest) (draft : PublishDraft)
  : RouterM DB HttpResponse :=
  let package := draft_package draft in
  let version := draft_version draft in
  t <- gets files_ ;;
  let created_root := root_missing t in
  EnsureRegistryRootInitialized config ;;;
  role_keys <- LoadOrCreateRegistryRoleKeys (key_dir (registry config)) ;;
  t <- gets files_ ;;
  archive_sha256 <- lift (Sha256File t (archive_path draft)) ;;
  archive_size <- lift (file_size t (archive_path draft)) ;;
  let artifact_path := artifact_path_for archive_sha256 in
  published_at <- UtcTimestampNow ;;
  release_record <- lift (BuildReleaseRecord draft published_at archive_sha256 archive_size
                            artifact_path) ;;
  appended <- on_files (AppendRegistryReleaseToLocal draft release_record artifact_path) ;;
  versions <- RefreshSignedRegistryMetadata config role_keys published_at ;;
  publication <- CreateRegistryPublication "publish" (RegistryReleaseKey package version)
                   published_at ;;
  upload_to_s3 ;;;
  payload <- reads (publish_payload draft created_root published_at archive_sha256 archive_size
                      artifact_path appended versions publication) ;;
  on_memory (RecordPublishedRelease (RegistryReleaseKey package version) payload) ;;;
  record_release request draft release_record archive_sha256 published_at ;;;
  publication_id <- lift (j_at publication "publication_id") ;;
  RecordRegistryAudit request "publishRelease"
    (obj [("package_id", JString package); ("version", JString version);
          ("publication_id", publication_id)]) "success" ;;;
  ok_response "published registry v2 release" payload.

Definition HandlePublishRelease (request : HttpRequest) : RouterM DB HttpResponse :=
  let op := "publishRelease" in
  let malformed detail := fail_response 400 "malformed registry publish request" detail "UsageError"
                            op 2 in
  if negb (is_object (req_body request)) then malformed "request body must be a JSON object"%string
  else
    match ValidateOptionalStringFields (req_body request) draft_fields with
    | Some error => malformed error
    | None =>
        draft <- catch_std
                   (draft <- on_files (BuildPublishDraft (req_body request) (req_identity request)) ;;
                    m_ret (inr draft))
                   (fun e => m_ret (inl (what e))) ;;
        match draft with
        | inl detail => malformed detail
        | inr draft =>
            let target := release_target (draft_package draft) (draft_version draft) in
            authorized <- RegistryWriteAuthorized request "package:publish"
                            (RegistryPackageId (draft_package draft)) ;;
            if negb authorized then
              RecordRegistryAudit request op target "denied" ;;;
              fail_response 403 "registry publish denied" "token or identity lacks package:publish"
                "AuthError" op 2
            else
              catch_std
                (refresh_from_s3 ;;;
                 present <- release_exists (draft_package draft) (draft_version draft) ;;
                 if present then
                   RecordRegistryAudit request op target "duplicate" ;;;
                   fail_response 409 "registry publish failed"
                     "package version is already published" "PublishError" op 17
                 else publish_new_release request draft)
                (fun e =>
                   RecordRegistryAudit request op target "failed" ;;;
                   fail_response 422 "registry publish failed" (what e) "PublishError" op 17)
        end
    end.

Definition verify_payload (t : FileTree) (url : string) : json :=
  let count n := JInt (Z.of_nat n) in
  obj [("ok", JBool true); ("root", JString root); ("registry_read_root", JString url);
       ("object_store_provider", JString (provider store));
       ("namespaces", count (CountNamespaces (path_join root "index") t));
       ("index_files", count (CountRegularFiles (path_join root "index") t));
       ("releases", count (CountIndexReleases (path_join root "index") t));
       ("tree_size", count (CountRegularFiles (path_join (path_join root "log") "leaves") t))].

Definition HandleVerifyRegistry (request : HttpRequest) : RouterM DB HttpResponse :=
  let op := "verifyRegistry" in
  let failed status detail rc := fail_response status "registry verification failed" detail
                                   "VerifyError" op rc in
  if negb (is_object (req_body request)) || negb (j_empty (req_body request))
  then failed 400 "verify request must be an empty JSON object"%string 2
  else
    or_failure 422 "registry verification failed" "VerifyError" op
      (initialized <-
         (if UsesS3ObjectStore config then
            config_present <- on_remote (ObjectExists store "config.json") ;;
            present <- (if config_present then on_remote (ObjectExists store "trust/root.json")
                        else m_ret false) ;;
            if present then SyncS3RegistryStateToLocal ;;; m_ret true else m_ret false
          else m_ret true) ;;
       t <- gets files_ ;;
       if negb initialized || root_missing t
       then failed 422 "registry root is not initialized"%string 17
       else
         let tree_size := Z.of_nat (CountRegularFiles (path_join (path_join root "log") "leaves") t) in
         url <- lift (read_root_url_text config t) ;;
         current <- lift (CurrentDistributionPointer root "default" t) ;;
         publication_id <- lift (pointer_field current "publication_id") ;;
         repository_version_id <- lift (pointer_field current "repository_version_id") ;;
         synced_at <- UtcTimestampNow ;;
         RecordMirrorState "fresh" ("checkpoint-" +:+ RouterSupport.PaddedNumber tree_size 4)
           publication_id repository_version_id synced_at (i32 tree_size) ;;;
         ok_response "verified registry v2 root" (verify_payload t url)).

(** [record.erase(key)]. *)
Definition j_erase (j : json) (key : string) : json :=
  match j with JObject m => JObject (delete key m) | _ => j end.

(** The loop over the index records: the records, whether the version is there,
    and the artifact of its last record. *)
Fixpoint yank_records (version : string) (yanked : bool) (reason : exn + string)
    (records : list json) (found : bool) (artifact_path : string)
  : RouterM DB (list json * bool * string) :=
  match records with
  | [] => m_ret ([], found, artifact_path)
  | record :: records =>
      v <- lift (value_string record "version" "") ;;
      if v =s version then
        reason_text <- lift (if yanked then reason else inr EmptyString) ;;
        let record := j_set (j_set record "yanked" (JBool yanked)) "yanked_reason"
                        (JString reason_text) in
        record <- (if yanked then now <- UtcTimestampNow ;;
                                  m_ret (j_set record "yanked_at" (JString now))
                   else m_ret (j_erase record "yanked_at")) ;;
        path <- lift (at_at_string record "source_artifact" "path") ;;
        rest <- yank_records version yanked reason records true path ;;
        m_ret (record :: rest.1.1, rest.1.2, rest.2)
      else
        rest <- yank_records version yanked reason records found artifact_path ;;
        m_ret (record :: rest.1.1, rest.1.2, rest.2)
  end.

Definition HandleSetPackageReleaseYanked (m : RouteMatch) (request : HttpRequest) (yanked : bool)
  : RouterM DB HttpResponse :=
  package <- lift (RegistryPackageFromRoute m) ;;
  version <- lift (parameter m "version") ;;
  let op := if yanked then "yankPackageRelease"%string else "unyankPackageRelease"%string in
  let rejected detail := fail_response 400 "package release mutation rejected" detail
                           "ValidationError" op 2 in
  let target := release_target package version in
  let reason := value_string (req_body request) "reason" "" in
  match RegistryIdentifiers.ValidatePackageName package with
  | Some error => rejected error
  | None =>
      if negb (is_object (req_body request)) then rejected "request body must be an object"%string
      else if match j_lookup (req_body request) "reason" with
              | Some v => negb (is_string v) | None => false end
      then rejected "reason must be a string when present"%string
      else
        authorized <- RegistryWriteAuthorized request "package:yank" (RegistryPackageId package) ;;
        if negb authorized then
          RecordRegistryAudit request op target "denied" ;;;
          fail_response 403 "package release mutation denied" "token or identity lacks package:yank"
            "AuthError" op 2
        else
          catch_std
            (records <- reads (ReadPackageIndexRecords root package) ;;
             changed <- yank_records version yanked reason records false EmptyString ;;
             let '(records, found, artifact_path) := changed in
             if negb found then
               RecordRegistryAudit request op target "not_found" ;;;
               fail_response 404 "package release mutation failed" "package release is not found"
                 "NotFound" op 17
             else
               on_files (WritePackageIndexRecords root package records) ;;;
               role_keys <- LoadOrCreateRegistryRoleKeys (key_dir (registry config)) ;;
               changed_at <- UtcTimestampNow ;;
               versions <- RefreshSignedRegistryMetadata config role_keys changed_at ;;
               publication <- CreateRegistryPublication (if yanked then "yank" else "unyank")
                                (RegistryReleaseKey package version) changed_at ;;
               yank_reason <- lift (if yanked then reason else inr EmptyString) ;;
               if_postgres
                 (on_postgres (pg_SetRegistryPackageReleaseYanked (RegistryPackageId package) version
                                 yanked yank_reason) ;;; m_ret tt)
                 (m_ret tt) ;;;
               on_memory (SetRegistryPackageReleaseYanked (RegistryPackageId package) version yanked
                            yank_reason) ;;;
               RecordRegistryAudit request op target "success" ;;;
               upload_to_s3 ;;;
               t <- gets files_ ;;
               repository_version_id <- lift (j_at publication "repository_version_id") ;;
               publication_id <- lift (j_at publication "publication_id") ;;
               ok_response (if yanked then "yanked package release" else "unyanked package release")
                 (obj [("package_id", JString package); ("version", JString version);
                       ("yanked", JBool yanked); ("artifact_path", JString artifact_path);
                       ("artifact_preserved", JBool (exists_ t (path_join root artifact_path)));
                       ("checkpoint_version", JInt (checkpoint_version versions));
                       ("snapshot_version", JInt (snapshot_version versions));
                       ("timestamp_version", JInt (timestamp_version versions));
                       ("repository_version_id", repository_version_id);
                       ("publication_id", publication_id); ("distribution_id", JString "default")]))
            (fun e =>
               RecordRegistryAudit request op target "failed" ;;;
               fail_response 422 "package release mutation failed" (what e) "PublishError" op 17)
  end.
End RegistryPublish.
