(* ===== verification/PublishFacts.v ===== *)
(** Publishing is authorized, happens once per version and is audited: the contract
    of [HandlePublishRelease], and what the steps of a publication leave alone. *)
From stdpp Require Import base list gmap strings.
From Stdlib Require Import ZArith Lia Ascii String.
From S2P Require Import Prelude Json StateRecords MemoryStateStore Identity Http Config.
From S2P Require Import Paths FileSystem Toml RouterSupport ObjectStore RegistryIdentifiers.
From S2P Require Import RegistryIndexStore RegistryAccess RegistryQueries Frames RegistryTrust.
From S2P Require Import RegistryPublish JsonFacts Demo DemoServices.

(** * What a publish request can do *)

Section PublishContract.
Context {DB : Type} `{JsonLib} `{Host} `{PostgresStore DB} `{CurlHost curl_history}
  `{SigningHost} `{TomlLib} (config : PlatformConfig).
Implicit Types r : PlatformRouter DB.

(** The releases known to the store. *)
Definition same_releases r r' : Prop :=
  published_releases_ (memory_ r') = published_releases_ (memory_ r)
  /\ registry_packages_ (memory_ r') = registry_packages_ (memory_ r)
  /\ registry_releases_ (memory_ r') = registry_releases_ (memory_ r).

Definition with_files (t : FileTree) r : PlatformRouter DB :=
  mkRouter (memory_ r) (postgres_ r) (rate_limiter_ r) (metrics_ r)
    (clock_readings r) (random_draws r) t (curl_calls r).

(** A release that is in the store or in the index on disk. *)
Definition published (package version : string) (t : FileTree) r : Prop :=
  HasPublishedRelease (RegistryReleaseKey package version) (memory_ r) = true
  \/ ReleaseExistsOnDisk (registry_root (registry config)) package version t = inr true.

(** The last event of the audit log. *)
Definition last_audited (request : HttpRequest) (operation result : string) r : Prop :=
  exists l e, registry_audit_events_ (memory_ r) = l ++ [e]
    /\ aud_operation e = operation /\ aud_result e = result
    /\ aud_actor_id e = RegistryActorId request.

(** The four ways a draft that was built can end. *)
Definition publish_decision (request : HttpRequest) (draft : PublishDraft) (t : FileTree) r
    (response : HttpResponse) r' : Prop :=
  let package := draft_package draft in
  let version := draft_version draft in
  let allowed := write_allowed (now_of r) request "package:publish" (RegistryPackageId package)
                   (memory_ r) in
  status_code response = 403 /\ allowed = false /\ same_releases r r' /\ same_access r r'
    /\ files_ r' = t /\ last_audited request "publishRelease" "denied" r'
  \/ status_code response = 409 /\ allowed = true /\ published package version t r
     /\ same_releases r r' /\ same_access r r' /\ files_ r' = t
     /\ last_audited request "publishRelease" "duplicate" r'
  \/ status_code response = 422 /\ allowed = true /\ last_audited request "publishRelease" "failed" r'
  \/ status_code response = 200 /\ allowed = true /\ ~ published package version t r
     /\ published_releases_ (memory_ r') !! RegistryReleaseKey package version
        = j_lookup (resp_body response) "payload"
     /\ HasPublishedRelease (RegistryReleaseKey package version) (memory_ r') = true
     /\ (exists record, GetRegistryPackageRelease (RegistryPackageId package) version (memory_ r')
                        = Some record
           /\ rel_publisher_id record = publisher_id draft /\ rel_yanked record = false)
     /\ HasRegistryPackageOwner (RegistryPackageId package) (publisher_id draft) (memory_ r') = true
     /\ last_audited request "publishRelease" "success" r'.
End PublishContract.

(** * The frame of signing and publishing *)

Section TrustFrames.
Context {DB : Type} `{JsonLib} `{Host} `{SigningHost}.

Lemma stores_draw : keeps (@same_stores DB) next_draw.
Proof. by intros r. Qed.
#[local] Hint Resolve stores_draw : frames.

Lemma stores_openssl args input n : keeps (@same_stores DB) (RunRegistryOpenSsl args input n).
Proof. unfold RunRegistryOpenSsl. frame. Qed.
#[local] Hint Resolve stores_openssl : frames.

Lemma stores_key_id path : keeps (@same_stores DB) (RegistryFileKeyId path).
Proof. unfold RegistryFileKeyId. frame. Qed.
#[local] Hint Resolve stores_key_id : frames.

Lemma stores_load_keys key_dir : keeps (@same_stores DB) (LoadOrCreateRegistryRoleKeys key_dir).
Proof.
  unfold LoadOrCreateRegistryRoleKeys, GenerateRegistryKeyDirectory, generate_role. frame.
Qed.

Lemma stores_write_signed keys temp path role payload :
  keeps (@same_stores DB) (write_signed keys temp path role payload).
Proof. unfold write_signed, SignedRegistryPayload. frame. Qed.
#[local] Hint Resolve stores_load_keys stores_write_signed : frames.

Lemma stores_refresh config keys time :
  keeps (@same_stores DB) (RefreshSignedRegistryMetadata config keys time).
Proof.
  unfold RefreshSignedRegistryMetadata, refresh_namespace, refresh_checkpoint, refresh_snapshot,
    refresh_timestamp, next_version, file_meta. frame.
Qed.

Lemma stores_ensure_root config : keeps (@same_stores DB) (EnsureRegistryRootInitialized config).
Proof. unfold EnsureRegistryRootInitialized, ensure_signed, file_meta. frame. Qed.
End TrustFrames.
#[export] Hint Resolve stores_load_keys stores_refresh stores_ensure_root : frames.

(** What a publication leaves alone in the store: releases, owners, tokens, audit. *)
Definition releases_kept (s s' : MemoryStateStore) : Prop :=
  published_releases_ s' = published_releases_ s /\ registry_packages_ s' = registry_packages_ s
  /\ registry_releases_ s' = registry_releases_ s /\ registry_owners_ s' = registry_owners_ s
  /\ registry_tokens_ s' = registry_tokens_ s
  /\ registry_audit_events_ s' = registry_audit_events_ s.

#[export] Instance releases_kept_preorder : PreOrder releases_kept.
Proof.
  split; [by intros s; repeat split|].
  intros s1 s2 s3 (?&?&?&?&?&?) (?&?&?&?&?&?). unfold releases_kept. split_and!; congruence.
Qed.

Section PublishSteps.
Context {DB : Type} `{JsonLib} `{Host} `{PostgresStore DB} `{CurlHost curl_history}
  `{SigningHost} `{TomlLib} (config : PlatformConfig).
Implicit Types r : PlatformRouter DB.

Lemma publication_keeps_releases kind ref time :
  keeps (@memory_moves DB releases_kept) (CreateRegistryPublication config kind ref time).
Proof.
  unfold CreateRegistryPublication, next_publication, record_publication, RecordMirrorState.
  frame; intros ?; by repeat split.
Qed.

Lemma upload_keeps_stores : keeps (@same_stores DB) (upload_to_s3 config).
Proof. unfold upload_to_s3, UploadRegistryTreeToS3, upload_entry. frame. Qed.
End PublishSteps.
#[export] Hint Resolve publication_keeps_releases upload_keeps_stores : frames.

Section PublishContractFacts.
Context {DB : Type} `{JsonLib} `{Host} `{PostgresStore DB} `{CurlHost curl_history}
  `{SigningHost} `{TomlLib} (config : PlatformConfig).
Implicit Types r : PlatformRouter DB.

(** Any step without the PostgreSQL store. *)
Definition anything (s s' : MemoryStateStore) : Prop := True.
#[local] Instance anything_preorder : PreOrder anything.
Proof. by split. Qed.

(** The records of a release, written to the memory store. *)
Lemma release_recorded request draft record sha256 published_at r r' :
  postgres_ r = None -> record_release request draft record sha256 published_at r = (inr tt, r') ->
  postgres_ r' = None
  /\ published_releases_ (memory_ r') = published_releases_ (memory_ r)
  /\ (exists release, GetRegistryPackageRelease (RegistryPackageId (draft_package draft))
                        (draft_version draft) (memory_ r') = Some release
        /\ rel_publisher_id release = publisher_id draft /\ rel_yanked release = false
        /\ rel_source_artifact_sha256 release = sha256)
  /\ HasRegistryPackageOwner (RegistryPackageId (draft_package draft)) (publisher_id draft)
       (memory_ r') = true.
Proof.
  intros Hr Hrun. unfold record_release in Hrun. run_step Hrun digest r1 Hd. injection Hd as Hd <-.
  run_step Hrun dependencies r1 Hdeps. injection Hdeps as Hdeps <-.
  destruct (find_char _ _) as [slash|]; [|done].
  run_step Hrun u r1 Hpg. unfold if_postgres in Hpg. rewrite Hr in Hpg. injection Hpg as _ <-.
  run_step Hrun u1 r1 Hm1. injection Hm1 as _ <-. run_step Hrun u2 r1 Hm2. injection Hm2 as _ <-.
  injection Hrun as <-. cbn. split_and!; [done|done| |].
  - eexists. split; [unfold GetRegistryPackageRelease; cbn; apply lookup_insert_eq|done].
  - unfold HasRegistryPackageOwner, map_has. cbn. by rewrite lookup_insert_eq.
Qed.

(** An audit record on the memory store is the last of its log. *)
Lemma audit_last request operation target result r u r' :
  postgres_ r = None -> RecordRegistryAudit request operation target result r = (u, r') ->
  u = inr tt /\ postgres_ r' = None /\ last_audited request operation result r' /\ same_releases r r'
  /\ same_access r r' /\ files_ r' = files_ r.
Proof.
  intros Hr Hrun. destruct r as [s pg limiter metrics clock draws files calls]. cbn in Hr. subst pg.
  unfold RecordRegistryAudit, m_bind in Hrun. rewrite on_stores_memory in Hrun by done.
  cbn in Hrun. injection Hrun as <- <-. split_and!; try done. eexists _, _. cbn. by split_and!.
Qed.

Lemma publication_stays kind ref time :
  keeps (@memory_moves DB anything) (CreateRegistryPublication config kind ref time).
Proof. intros r Hr. by destruct (publication_keeps_releases config kind ref time r Hr). Qed.
#[local] Hint Resolve publication_stays : frames.

Lemma new_release_stays request draft :
  keeps (@memory_moves DB anything) (publish_new_release config request draft).
Proof.
  unfold publish_new_release, record_release, RecordRegistryAudit, on_stores. by frame; intros ?.
Qed.

(** One step of a run that stays without the PostgreSQL store. *)
Ltac stay Hrun :=
  let a := fresh "a" in let r1 := fresh "r" in let Hm := fresh "Hm" in
  apply m_bind_inr in Hrun as (a & r1 & Hm & Hrun);
  apply (keeps_run (memory_moves anything)) in Hm; [|by frame];
  match goal with Hr : postgres_ _ = None |- _ => apply Hm in Hr as [Hr _]; clear Hm end.

(** A release that was published, from its frame on. *)
Lemma new_release_published request draft r response r' :
  postgres_ r = None -> publish_new_release config request draft r = (inr response, r') ->
  let key := RegistryReleaseKey (draft_package draft) (draft_version draft) in
  status_code response = 200
  /\ published_releases_ (memory_ r') !! key = j_lookup (resp_body response) "payload"
  /\ HasPublishedRelease key (memory_ r') = true
  /\ (exists record, GetRegistryPackageRelease (RegistryPackageId (draft_package draft))
                       (draft_version draft) (memory_ r') = Some record
        /\ rel_publisher_id record = publisher_id draft /\ rel_yanked record = false)
  /\ HasRegistryPackageOwner (RegistryPackageId (draft_package draft)) (publisher_id draft)
       (memory_ r') = true
  /\ last_audited request "publishRelease" "success" r'.
Proof.
  intros Hr Hrun key. unfold publish_new_release in Hrun.
  stay Hrun. stay Hrun. stay Hrun. stay Hrun. stay Hrun. stay Hrun. stay Hrun. stay Hrun. stay Hrun.
  stay Hrun. stay Hrun. stay Hrun.
  run_step Hrun payload q1 Hpay. unfold reads in Hpay. run_step Hpay t1 q2 Ht. injection Ht as _ <-.
  injection Hpay as Hpay <-.
  run_step Hrun u1 q2 Hpub. injection Hpub as _ <-.
  run_step Hrun [] q3 Hrec. apply release_recorded in Hrec as (Hq3 & Hkept & Hrel & Hown); [|done].
  run_step Hrun id q4 Hid. injection Hid as Hid <-.
  run_step Hrun u3 q4 Haud.
  apply audit_last in Haud as (_ & Hq4 & Hlast & (Hk1 & _ & Hk2) & (Hk3 & _) & _); [|done].
  injection Hrun as <- <-.
  assert (Hpublished : published_releases_ (memory_ q4) !! key = Some payload).
  { rewrite Hk1, Hkept. apply lookup_insert_eq. }
  split_and!; [done|done| | | |done].
  - unfold HasPublishedRelease, map_has. by rewrite Hpublished.
  - destruct Hrel as (record & Hrel & Hp & Hy & _). exists record. split; [|done].
    unfold GetRegistryPackageRelease in *. by rewrite Hk2.
  - unfold HasRegistryPackageOwner, map_has in *. by rewrite Hk3.
Qed.

Lemma fail_status status message detail category operation rc :
  status_code (FailureResponse status message detail category operation rc) = status.
Proof. unfold FailureResponse. by destruct (IsRegistryOperation operation). Qed.

(** The check for a release that is there. *)
Lemma exists_memory package version r res r' :
  postgres_ r = None -> release_exists config package version r = (res, r') -> r' = r
  /\ forall b, res = inr b -> b = true <-> published config package version (files_ r) r.
Proof.
  intros Hr Hrun. unfold release_exists, m_bind, if_postgres in Hrun. rewrite Hr in Hrun.
  destruct r as [s pg limiter metrics clock draws t calls]. cbn in Hr. subst pg. cbn in Hrun.
  unfold published. cbn.
  destruct (HasPublishedRelease _ s) eqn:Hm; cbn in Hrun.
  { injection Hrun as <- <-. split; [done|]. intros b [= <-]. split; [by left|done]. }
  unfold reads, m_bind in Hrun. cbn in Hrun. injection Hrun as <- <-. split; [done|].
  intros b Hb. split; [intros ->; by right|]. intros [|Hd]; [done|]. cbn in Hb. congruence.
Qed.

(** From an authorized draft on. *)
Lemma authorized_publish request draft t r response r' :
  postgres_ r = None -> UsesS3ObjectStore config = false -> files_ r = t ->
  catch_std
    (refresh_from_s3 config ;;;
     present <- release_exists config (draft_package draft) (draft_version draft) ;;
     if present then
       RecordRegistryAudit request "publishRelease"
         (release_target (draft_package draft) (draft_version draft)) "duplicate" ;;;
       fail_response 409 "registry publish failed" "package version is already published"
         "PublishError" "publishRelease" 17
     else publish_new_release config request draft)
    (fun e =>
       RecordRegistryAudit request "publishRelease"
         (release_target (draft_package draft) (draft_version draft)) "failed" ;;;
       fail_response 422 "registry publish failed" (what e) "PublishError" "publishRelease" 17) r
  = (inr response, r') ->
  status_code response = 409 /\ published config (draft_package draft) (draft_version draft) t r
    /\ same_releases r r' /\ same_access r r' /\ files_ r' = t
    /\ last_audited request "publishRelease" "duplicate" r'
  \/ status_code response = 422 /\ last_audited request "publishRelease" "failed" r'
  \/ ~ published config (draft_package draft) (draft_version draft) t r
     /\ publish_new_release config request draft r = (inr response, r').
Proof.
  intros Hr Hs3 <- Hrun. unfold catch_std, catch in Hrun.
  assert (Hfailed : forall e q, postgres_ q = None ->
    (RecordRegistryAudit request "publishRelease"
       (release_target (draft_package draft) (draft_version draft)) "failed" ;;;
     fail_response 422 "registry publish failed" (what e) "PublishError" "publishRelease" 17) q
    = (inr response, r') ->
    status_code response = 422 /\ last_audited request "publishRelease" "failed" r').
  { intros e q Hq Hf. run_step Hf u q1 Ha. apply audit_last in Ha as (_ & _ & Ha & _); [|done].
    injection Hf as <- <-. by rewrite fail_status. }
  unfold refresh_from_s3 in Hrun. rewrite Hs3 in Hrun. unfold m_bind at 1 in Hrun. cbn [m_ret] in Hrun.
  unfold m_bind at 1 in Hrun.
  destruct (release_exists _ _ _ r) as [res q] eqn:Hex.
  apply exists_memory in Hex as [-> Hex]; [|done]. destruct res as [e|b].
  { right. left. apply (Hfailed e r Hr). by destruct e. }
  specialize (Hex b eq_refl). destruct b.
  - left. unfold m_bind in Hrun.
    destruct (RecordRegistryAudit _ _ _ "duplicate" r) as [u q] eqn:Ha.
    apply audit_last in Ha as (-> & _ & Ha & Hk & Hacc & Hf); [|done].
    cbv beta iota in Hrun.
    injection Hrun as <- <-. rewrite fail_status. split_and!; try done. by apply Hex.
  - right. pose proof (new_release_stays request draft r Hr) as [Hq _].
    destruct (publish_new_release config request draft r) as [[e|answer] q] eqn:Hnew.
    + left. apply (Hfailed e q Hq). by destruct e.
    + right. split; [by intros ?%Hex|done].
Qed.

(** C14. On the memory store and a local registry a publish request is decided by its
    authorization and by what is already published: a request that is malformed
    changes no record; one that is not allowed is answered 403 and audited as denied;
    one for a version that the store or the index on disk has is answered 409 and
    audited as a duplicate, and in both cases the releases, owners, tokens and, the
    draft's archive aside, the files stay as they are; a failure is answered 422 and
    audited; and an answer 200 means that the request was allowed and the version was
    published nowhere before, that the store now has its payload and its release, not
    yanked, that its publisher is an owner of the package and that the last event of
    the audit log says so. *)
Theorem publishing_is_authorized_and_once request r response r' :
  postgres_ r = None -> UsesS3ObjectStore config = false ->
  HandlePublishRelease config request r = (inr response, r') ->
  status_code response = 400 /\ memory_ r' = memory_ r
  \/ exists draft t,
       BuildPublishDraft config (req_body request) (req_identity request) (files_ r) = (inr draft, t)
       /\ publish_decision config request draft t r response r'.
Proof.
  intros Hr Hs3 Hrun. unfold HandlePublishRelease in Hrun.
  destruct (is_object _); cbn [negb] in Hrun.
  2: { injection Hrun as <- <-. left. by rewrite fail_status. }
  destruct (ValidateOptionalStringFields _ _).
  { injection Hrun as <- <-. left. by rewrite fail_status. }
  unfold m_bind at 1, catch_std, catch, m_bind at 1, on_files, zoom in Hrun.
  destruct (BuildPublishDraft _ _ _ _) as [[e|draft] t] eqn:Hb.
  { left. destruct e; try done; cbn [m_ret] in Hrun; injection Hrun as <- <-; by rewrite fail_status. }
  right. exists draft, t. split; [done|]. cbn [m_ret] in Hrun. fold (with_files t r) in Hrun.
  destruct (authorized_memory request "package:publish" (RegistryPackageId (draft_package draft))
              (with_files t r)) as [n Hauth]; [done|].
  unfold m_bind at 1 in Hrun. rewrite Hauth in Hrun. unfold publish_decision.
  change (now_of (with_files t r)) with (now_of r) in *.
  change (memory_ (with_files t r)) with (memory_ r) in *.
  destruct (write_allowed _ _ _ _ _); cbn [negb] in Hrun.
  - right. apply (authorized_publish _ _ t) in Hrun; [|done..].
    destruct Hrun as [(Hc & Hp & Hk & Ha & Hf & Hl)|[(Hc & Hl)|(Hp & Hrun)]].
    + left. split_and!; done.
    + right. left. split_and!; done.
    + right. right. apply new_release_published in Hrun as (Hc & Hj & Hh & Hrel & Ho & Hl); [|done].
      split_and!; done.
  - left. run_step Hrun u q Haud. apply audit_last in Haud as (_ & _ & Hl & Hk & Ha & Hf); [|done].
    injection Hrun as <- <-. rewrite fail_status. split_and!; done.
Qed.

End PublishContractFacts.

(** * A package published twice *)

Section PublishDemo.
#[local] Existing Instances text_json_lib demo_host demo_postgres demo_curl demo_signing demo_toml.

Definition demo_publish_request : HttpRequest :=
  mkRequest Post "" ∅ (obj [("package", JString "acme/tool"); ("version", JString "1.0.0")])
    (Some (mkIdentity "operator" "t1" "n1")).
(** A registry in the local file system. *)
Definition local_config : PlatformConfig :=
  mkConfig "127.0.0.1" 8787 "local-dev" "node-local" ["control-plane"] "memory" ""
    (mkObjectStore "filesystem" "" "" "local-dev" "" "" "" "" true)
    (registry default_config) (workgroup default_config) (mtls default_config).
(** The store already has the version. *)
Definition demo_published_router : PlatformRouter unit :=
  set_memory (RecordPublishedRelease "acme/tool@1.0.0" (obj []) initial_store).2
    (demo_router initial_store).

Lemma publishing_is_authorized_and_once_witness :
  match HandlePublishRelease local_config demo_publish_request demo_published_router with
  | (inr response, r') => status_code response = 409 /\ same_releases demo_published_router r'
  | (inl _, _) => False
  end.
Proof.
  destruct (HandlePublishRelease local_config demo_publish_request demo_published_router)
    as [[e|response] r'] eqn:E.
  { apply (f_equal (fun o => match o.1 with inl _ => true | inr _ => false end)) in E.
    vm_compute in E. discriminate E. }
  assert (Hs : status_code response = 409).
  { apply (f_equal (fun o => match o.1 with inl _ => 0 | inr a => status_code a end)) in E.
    vm_compute in E. symmetry. exact E. }
  destruct (publishing_is_authorized_and_once local_config demo_publish_request
              demo_published_router response r' eq_refl eq_refl E)
    as [[Hc _]|(draft & t & _ & Hd)].
  { rewrite Hs in Hc. discriminate Hc. }
  clear E. split; [exact Hs|]. unfold publish_decision in Hd. rewrite Hs in Hd.
  destruct Hd as [(Hc & _)|[(_ & _ & _ & Hk & _)|[(Hc & _)|(Hc & _)]]];
    [discriminate Hc|exact Hk|discriminate Hc|discriminate Hc].
Defined.
End PublishDemo.
