(* ===== verification/RegistryDistribution.v ===== *)
(** Distributions and release channels: promotion, rollback and rollout
    ([PlatformCloud/PackageRegistry/ControlPlane/RegistryRepositoryHandlers.cpp],
    [PlatformCloud/PackageRegistry/ReleaseManagement/ReleaseManager.cpp]). *)
From stdpp Require Import base list gmap strings.
From Stdlib Require Import ZArith Lia Ascii String.
From S2P Require Import Prelude Json StateRecords MemoryStateStore Identity Http Config.
From S2P Require Import Paths FileSystem RouterSupport ObjectStore RegistryIdentifiers.
From S2P Require Import RegistryIndexStore RegistryAccess RegistryQueries RegistryPublish.

Definition BuildReleaseRolloutPlan (channel publication_id : string) (percentage : Z)
    (ring updated_at : string) : exn + json :=
  if is_empty channel then inl (RuntimeError "channel is required")
  else if is_empty publication_id then inl (RuntimeError "publication_id is required")
  else if (percentage <? 0) || (100 <? percentage)
  then inl (RuntimeError "percentage must be between 0 and 100")
  else inr (obj [("channel", JString channel); ("publication_id", JString publication_id);
                 ("percentage", JInt percentage);
                 ("ring", JString (if is_empty ring then "default" else ring));
                 ("updated_at", JString updated_at)]).

Section ReleaseChannels.
Context `{JsonLib} `{Host}.

Definition WriteReleaseChannel (registry_root : string) (plan : json) : M exn FileTree unit :=
  channel <- lift (at_string plan "channel") ;;
  let channels := path_join registry_root "_release_channels" in
  let path := path_join channels (channel +:+ ".json") in
  create_directories channels ;;;
  modify (write_stream path EmptyString) ;;;
  text <- lift (JsonText plan) ;;
  modify (append_stream path text).
End ReleaseChannels.

Section RegistryDistribution.
Context {DB : Type} `{JsonLib} `{Host} `{PostgresStore DB} (config : PlatformConfig).

Abbreviation root := (registry_root (registry config)).

Definition rollout_target (channel publication_id : string) : json :=
  obj [("channel", JString channel); ("publication_id", JString publication_id)].

Definition HandleRolloutReleaseChannel (m : RouteMatch) (request : HttpRequest)
  : RouterM DB HttpResponse :=
  let op := "rolloutReleaseChannel" in
  let body := req_body request in
  if negb (is_object body)
  then fail_response 400 "release rollout rejected" "request body must be an object"
         "ValidationError" op 2
  else
    channel <- lift (parameter m "channel") ;;
    publication_id <- lift (value_string body "publication_id" "") ;;
    t <- gets files_ ;;
    if is_empty publication_id || negb (exists_ t (publication_path config publication_id))
    then fail_response 404 "release rollout failed" "publication is not found" "NotFound" op 17
    else
      catch_std
        (percentage <- lift (value_int body "percentage" 0) ;;
         ring <- lift (value_string body "ring" "default") ;;
         updated_at <- UtcTimestampNow ;;
         plan <- lift (BuildReleaseRolloutPlan channel publication_id percentage ring updated_at) ;;
         on_files (WriteReleaseChannel root plan) ;;;
         RecordRegistryAudit request op (rollout_target channel publication_id) "success" ;;;
         ok_response "updated release channel rollout" plan)
        (fun e =>
           RecordRegistryAudit request op (rollout_target channel publication_id) "failed" ;;;
           fail_response 422 "release rollout failed" (what e) "ReleaseManagementError" op 17).

Definition distribution_target (distribution_id : string) : json :=
  obj [("distribution_id", JString distribution_id)].
Definition promotion_target (distribution_id publication_id : string) : json :=
  obj [("distribution_id", JString distribution_id); ("publication_id", JString publication_id)].

(** The default distribution is the read plane itself. *)
Definition materialize (distribution_id publication_id : string) : M exn FileTree unit :=
  if distribution_id =s "default"
  then MaterializePublicationToRoot root (publication_root config publication_id)
  else m_ret tt.

(** The record of a distribution, written to both stores. *)
Definition record_distribution (distribution_id publication_id previous_publication_id updated_at
    : string) (publication : json) : RouterM DB unit :=
  repository_id <- lift (value_string publication "repository_id" "default") ;;
  url <- reads (read_root_url_text config) ;;
  let record := mkDistribution distribution_id repository_id distribution_id url publication_id
                  previous_publication_id updated_at in
  on_both (pg_UpsertRegistryDistribution record) (UpsertRegistryDistribution record).

Definition HandlePromoteDistribution (m : RouteMatch) (request : HttpRequest)
  : RouterM DB HttpResponse :=
  let op := "promoteDistribution" in
  distribution_id <- lift (parameter m "distribution_id") ;;
  if negb (is_object (req_body request)) || negb (HasNonEmptyString (req_body request) "publication_id")
  then fail_response 400 "distribution promotion rejected" "publication_id is required"
         "ValidationError" op 2
  else
    authorized <- RegistryWriteAuthorized request "repository:promote" "" ;;
    if negb authorized then
      RecordRegistryAudit request op (distribution_target distribution_id) "denied" ;;;
      fail_response 403 "distribution promotion denied"
        "token or identity lacks repository:promote" "AuthError" op 2
    else
      publication_id <- lift (at_string (req_body request) "publication_id") ;;
      let target := promotion_target distribution_id publication_id in
      t <- gets files_ ;;
      if negb (exists_ t (publication_path config publication_id)) then
        RecordRegistryAudit request op target "not_found" ;;;
        fail_response 404 "distribution promotion failed" "publication is not found" "NotFound" op 17
      else
        catch_std
          (publication <- reads (read_json (publication_path config publication_id)) ;;
           previous <- reads (CurrentDistributionPointer root distribution_id) ;;
           on_files (materialize distribution_id publication_id) ;;;
           updated_at <- UtcTimestampNow ;;
           previous_publication_id <- lift (pointer_field previous "publication_id") ;;
           repository_version_id <- lift (at_string publication "repository_version_id") ;;
           let current := pointer_payload distribution_id publication_id repository_version_id
                            updated_at previous_publication_id in
           text <- lift (JsonText current) ;;
           on_files (WriteTextFile (pointer_path config distribution_id) text) ;;;
           record_distribution distribution_id publication_id previous_publication_id updated_at
             publication ;;;
           RecordRegistryAudit request op target "success" ;;;
           ok_response "promoted distribution" current)
          (fun e =>
             RecordRegistryAudit request op target "failed" ;;;
             fail_response 422 "distribution promotion failed" (what e) "PublishError" op 17).

(** The pointer a rollback writes: the two publications change places. *)
Definition rollback_pointer (distribution_id publication_id repository_version_id
    previous_publication_id updated_at : string) : json :=
  obj [("distribution_id", JString distribution_id); ("publication_id", JString publication_id);
       ("repository_version_id", JString repository_version_id);
       ("previous_publication_id", JString previous_publication_id);
       ("updated_at", JString updated_at)].

Definition HandleRollbackDistribution (m : RouteMatch) (request : HttpRequest)
  : RouterM DB HttpResponse :=
  let op := "rollbackDistribution" in
  distribution_id <- lift (parameter m "distribution_id") ;;
  let target := distribution_target distribution_id in
  authorized <- RegistryWriteAuthorized request "repository:promote" "" ;;
  if negb authorized then
    RecordRegistryAudit request op target "denied" ;;;
    fail_response 403 "distribution rollback denied" "token or identity lacks repository:promote"
      "AuthError" op 2
  else
    current_pointer <- reads (CurrentDistributionPointer root distribution_id) ;;
    previous <- lift (pointer_field current_pointer "previous_publication_id") ;;
    match current_pointer with
    | Some current_pointer =>
        if is_empty previous then
          RecordRegistryAudit request op target "no_previous_publication" ;;;
          fail_response 409 "distribution rollback failed" "previous publication is not available"
            "StateError" op 17
        else
          publication_id <- lift (at_string current_pointer "previous_publication_id") ;;
          let rollback_target := promotion_target distribution_id publication_id in
          t <- gets files_ ;;
          if negb (exists_ t (publication_path config publication_id)) then
            RecordRegistryAudit request op rollback_target "not_found" ;;;
            fail_response 404 "distribution rollback failed" "previous publication is not found"
              "NotFound" op 17
          else
            catch_std
              (publication <- reads (read_json (publication_path config publication_id)) ;;
               on_files (materialize distribution_id publication_id) ;;;
               updated_at <- UtcTimestampNow ;;
               repository_version_id <- lift (at_string publication "repository_version_id") ;;
               replaced <- lift (value_string current_pointer "publication_id" "") ;;
               let next_pointer := rollback_pointer distribution_id publication_id
                                     repository_version_id replaced updated_at in
               text <- lift (JsonText next_pointer) ;;
               on_files (WriteTextFile (pointer_path config distribution_id) text) ;;;
               record_distribution distribution_id publication_id replaced updated_at publication ;;;
               RecordRegistryAudit request op rollback_target "success" ;;;
               ok_response "rolled back distribution" next_pointer)
              (fun e =>
                 RecordRegistryAudit request op target "failed" ;;;
                 fail_response 422 "distribution rollback failed" (what e) "PublishError" op 17)
    | None =>
        RecordRegistryAudit request op target "no_previous_publication" ;;;
        fail_response 409 "distribution rollback failed" "previous publication is not available"
          "StateError" op 17
    end.
End RegistryDistribution.
