(* ===== verification/Recovery.v ===== *)
(** Recovery snapshots of the registry tree
    ([PlatformStorage/PlatformRecovery/RecoveryManager.cpp]) and their handlers
    ([PlatformService/PlatformOps/OpsRoutes.cpp]). *)
From stdpp Require Import base list gmap strings sorting.
From Stdlib Require Import ZArith Lia Ascii String.
From S2P Require Import Prelude Json JsonFacts StateRecords MemoryStateStore Identity Http Config.
From S2P Require Import Paths FileSystem FileSystemFacts RouterSupport.
From S2P Require Import DirectoryFacts RegistryIndexStore RegistryAccess RegistryQueries Demo.

Record RecoverySnapshotRequest := mkSnapshotRequest {
  source_root : string;
  snapshots_root : string;
  snapshot_id : string;
  label : string;
  created_at : string;
}.

Section Recovery.
Context `{JsonLib} `{Host}.

Definition WriteJsonFile (path : string) (payload : json) : M exn FileTree unit :=
  create_directories (parent_path path) ;;;
  modify (write_stream path EmptyString) ;;;
  text <- lift (JsonText payload) ;;
  modify (append_stream path text).

Definition ReadJsonFile (path : string) (t : FileTree) : exn + json :=
  match open_in t path with
  | Some text => parse_json text
  | None => inl (RuntimeError ("failed to read snapshot manifest: " +:+ path))
  end.

Definition manifest_entry (t : FileTree) (root path : string) : exn + json :=
  sha256 <-? Sha256File t path ;;
  size_bytes <-? file_size t path ;;
  inr (obj [("path", JString (relative t path root)); ("sha256", JString sha256);
            ("size_bytes", JInt size_bytes)]).

Definition FileManifest (root : string) (t : FileTree) : exn + list json :=
  if negb (exists_ t root) then inr []
  else traverse (manifest_entry t root)
         (sort_paths (List.filter (is_regular_file t) (recursive_directory_iterator t root))).

Definition CopyTree (source to : string) : M exn FileTree unit :=
  create_directories to ;;;
  present <- gets (fun t => exists_ t source) ;;
  if negb present then m_ret tt
  else
    copied <- (fun t => let '(ok, t') := copy_recursive source to t in (inr ok, t')) ;;
    if negb copied
    then throw (RuntimeError ("failed to copy snapshot tree: " +:+ ec_message "copy" source))
    else m_ret tt.

Definition snapshot_fields (r : RecoverySnapshotRequest) (files : list json) : list (string * json) :=
  [("snapshot_id", JString (snapshot_id r)); ("label", JString (label r));
   ("created_at", JString (created_at r)); ("source_root", JString (source_root r));
   ("file_count", JInt (Z.of_nat (List.length files))); ("files", JArray files)].

Definition CreateFilesystemSnapshot (r : RecoverySnapshotRequest) : M exn FileTree json :=
  if is_empty (snapshot_id r) then throw (RuntimeError "snapshot_id is required")
  else
    let snapshot_root := path_join (snapshots_root r) (snapshot_id r) in
    let data_root := path_join snapshot_root "data" in
    present <- gets (fun t => exists_ t snapshot_root) ;;
    if present then throw (RuntimeError ("snapshot already exists: " +:+ snapshot_id r))
    else
      create_directories (parent_path snapshot_root) ;;;
      let temp_root := path_join (path_join (snapshots_root r) "_tmp") (snapshot_id r) in
      modify (remove_all temp_root) ;;;
      CopyTree (source_root r) (path_join temp_root "data") ;;;
      t <- gets id ;;
      files <- lift (FileManifest (path_join temp_root "data") t) ;;
      let manifest := obj (snapshot_fields r files) in
      WriteJsonFile (path_join temp_root "snapshot.json") manifest ;;;
      or_throw ("failed to activate snapshot: " +:+ ec_message "rename" temp_root)
        (rename temp_root snapshot_root) ;;;
      m_ret (j_set (j_set manifest "root_path" (JString snapshot_root))
               "data_path" (JString data_root)).

Definition RestoreFilesystemSnapshot (snapshots_root snapshot_id target_root restored_at : string)
  : M exn FileTree json :=
  if is_empty snapshot_id then throw (RuntimeError "snapshot_id is required")
  else
    let snapshot_root := path_join snapshots_root snapshot_id in
    let data_root := path_join snapshot_root "data" in
    let manifest_path := path_join snapshot_root "snapshot.json" in
    t <- gets id ;;
    if negb (exists_ t manifest_path) || negb (exists_ t data_root)
    then throw (RuntimeError ("snapshot is not found: " +:+ snapshot_id))
    else
      manifest <- lift (ReadJsonFile manifest_path t) ;;
      expected_files <- lift (value_json manifest "files" (JArray [])) ;;
      actual_files <- lift (FileManifest data_root t) ;;
      if negb (json_eqb expected_files (JArray actual_files))
      then throw (RuntimeError "snapshot verification failed before restore")
      else
        modify (remove_all target_root) ;;;
        CopyTree data_root target_root ;;;
        m_ret (obj [("snapshot_id", JString snapshot_id); ("restored_at", JString restored_at);
                    ("target_root", JString target_root);
                    ("file_count", JInt (Z.of_nat (List.length actual_files)));
                    ("verified", JBool true)]).

Definition snapshot_manifest (t : FileTree) (entry : string) : bool :=
  is_directory t entry && negb (filename entry =s "_tmp")
  && exists_ t (path_join entry "snapshot.json").
Definition ListFilesystemSnapshots (snapshots_root : string) (t : FileTree) : exn + list json :=
  if negb (exists_ t snapshots_root) then inr []
  else traverse (fun entry => ReadJsonFile (path_join entry "snapshot.json") t)
         (List.filter (snapshot_manifest t) (directory_iterator t snapshots_root)).

Definition BuildStorageStatus (state_backend object_store_provider registry_root snapshots_root : string)
    (t : FileTree) : json :=
  obj [("state_backend", JString state_backend);
       ("object_store_provider", JString object_store_provider);
       ("registry_root_present", JBool (exists_ t registry_root));
       ("snapshots_root_present", JBool (exists_ t snapshots_root));
       ("registry_root", JString "<redacted>"); ("snapshots_root", JString "<redacted>")].
End Recovery.

Section RecoveryHandlers.
Context {DB : Type} `{JsonLib} `{Host} `{PostgresStore DB} (config : PlatformConfig).

Definition recovery_root : string :=
  path_join (parent_path (registry_root (registry config))) "recovery-snapshots".

(** A computation with its failure recorded in the audit log. *)
Definition audited_or_failed (request : HttpRequest) (operation message : string) (target : json)
    (m : RouterM DB HttpResponse) : RouterM DB HttpResponse :=
  catch_std m (fun e =>
    RecordRegistryAudit request operation target "failed" ;;;
    fail_response 422 message (what e) "RecoveryError" operation 17).

Definition HandleCreateRecoverySnapshot (request : HttpRequest) : RouterM DB HttpResponse :=
  let op := "createRecoverySnapshot" in
  if negb (is_object (req_body request)) then
    fail_response 400 "recovery snapshot rejected" "request body must be an object"
      "ValidationError" op 2
  else
    snapshots <- reads (ListFilesystemSnapshots recovery_root) ;;
    id <- lift (value_string (req_body request) "snapshot_id"
                  ("snap-" +:+ RouterSupport.PaddedNumber (Z.of_nat (S (List.length snapshots))) 6)) ;;
    audited_or_failed request op "recovery snapshot failed" (obj [("snapshot_id", JString id)])
      (label <- lift (value_string (req_body request) "label" "manual") ;;
       created_at <- UtcTimestampNow ;;
       snapshot <- on_files (CreateFilesystemSnapshot
                     (mkSnapshotRequest (registry_root (registry config)) recovery_root id label
                        created_at)) ;;
       RecordRegistryAudit request op (obj [("snapshot_id", JString id)]) "success" ;;;
       ok_response "created recovery snapshot" snapshot).

Definition HandleListRecoverySnapshots : RouterM DB HttpResponse :=
  snapshots <- reads (ListFilesystemSnapshots recovery_root) ;;
  ok_response "loaded recovery snapshots" (obj [("snapshots", JArray snapshots)]).

Definition HandleRestoreRecoverySnapshot (m : RouteMatch) (request : HttpRequest)
  : RouterM DB HttpResponse :=
  let op := "restoreRecoverySnapshot" in
  id <- lift (parameter m "snapshot_id") ;;
  audited_or_failed request op "recovery restore failed" (obj [("snapshot_id", JString id)])
    (restored_at <- UtcTimestampNow ;;
     restored <- on_files (RestoreFilesystemSnapshot recovery_root id
                             (registry_root (registry config)) restored_at) ;;
     RecordRegistryAudit request op (obj [("snapshot_id", JString id)]) "success" ;;;
     ok_response "restored recovery snapshot" restored).

Definition HandleStorageStatus : RouterM DB HttpResponse :=
  t <- gets files_ ;;
  ok_response "loaded storage status"
    (BuildStorageStatus (state_backend config) (provider (object_store config))
       (registry_root (registry config)) recovery_root t).
End RecoveryHandlers.

(** * Lemmas *)

Section ManifestFacts.
Context `{JsonLib} `{Host}.

(** The entry of a file of the snapshot, by its name and contents. *)
Definition entry_of (s : list string) (node : option file) : exn + json :=
  match node with
  | Some (Regular contents) =>
      match Sha256.Sha256Contents (map char_code (chars contents)) with
      | Some sha256 =>
          inr (obj [("path", JString (rel_text s)); ("sha256", JString sha256);
                    ("size_bytes", JInt (Z.of_nat (str_length contents)))])
      | None => inl UndefinedBehaviour
      end
  | _ => inl UndefinedBehaviour
  end.

Lemma FileManifest_below t p : wf_tree t -> simple_path p -> is_dir_at t (target p) = true ->
  FileManifest p t
  = traverse (fun s => entry_of s (node_at t (target p ++ s))) (regular_names t (target p)).
Proof.
  intros Hwf Hp Hd. unfold FileManifest, exists_. rewrite simple_status by done.
  apply is_dir_node in Hd as Hd'. rewrite Hd'. cbn [negb].
  rewrite sorted_files_below by done. apply traverse_below; [done..|].
  intros s Hs Hne. unfold is_regular_at, manifest_entry, Sha256File, file_size.
  rewrite !below_status by done.
  destruct (node_at t (target p ++ s)) as [[|contents]|] eqn:En; try done. intros _.
  rewrite relative_below by (done || by rewrite En). cbn [entry_of].
  by destruct (Sha256.Sha256Contents _).
Qed.

(** A manifest is a function of the subtree. *)
Lemma FileManifest_same t p t' p' :
  wf_tree t -> simple_path p -> wf_tree t' -> simple_path p' -> is_dir_at t (target p) = true ->
  same_subtree t (target p) t' (target p') -> FileManifest p' t' = FileManifest p t.
Proof.
  intros Hwf Hp Hwf' Hp' Hd Hsame.
  assert (Hd' : is_dir_at t' (target p') = true).
  { apply is_dir_node. specialize (Hsame []). rewrite !app_nil_r in Hsame. rewrite Hsame.
    by apply is_dir_node. }
  rewrite !FileManifest_below by done. rewrite (regular_names_same _ _ _ _ Hsame).
  apply traverse_ext. intros s. by rewrite (Hsame s).
Qed.

Lemma manifest_float_free t p files : wf_tree t -> simple_path p -> is_dir_at t (target p) = true ->
  FileManifest p t = inr files -> forallb float_free files = true.
Proof.
  intros Hwf Hp Hd. rewrite FileManifest_below by done.
  generalize (regular_names t (target p)). intros l. revert files.
  induction l as [|s l IH]; intros files; cbn [traverse]; [by intros [= <-]|].
  destruct (entry_of s _) as [|entry] eqn:He; [done|]. cbn [r_bind].
  destruct (traverse _ l) as [|rest]; [done|]. intros [= <-]. cbn [forallb].
  rewrite IH by done. rewrite andb_true_r. unfold entry_of in He.
  destruct (node_at _ _) as [[|contents]|]; try done.
  destruct (Sha256.Sha256Contents _); [|done]. injection He as <-. reflexivity.
Qed.
End ManifestFacts.

Section SnapshotFacts.
Context `{JsonLib} `{!JsonTextLaws} `{Host}.

(** A tree copied into a fresh place. *)
Lemma CopyTree_copies source to t t1 :
  wf_tree t -> simple_path source -> simple_path to -> is_dir_at t (target source) = true ->
  apart (target source) (target to) -> fresh_below t (target to) ->
  create_directories to t = (inr tt, t1) ->
  exists t', CopyTree source to t = (inr tt, t') /\ wf_tree t'
    /\ same_subtree t (target source) t' (target to)
    /\ (forall n, ~ under (target to) n ->
          node_at t' n = node_at t n
          \/ node_at t n = None /\ node_at t' n = Some Directory /\ exists u, target to = n ++ u).
Proof.
  intros Hwf Hs Ht Hd Ha Hfresh Hc.
  destruct (simple_create_directories _ _ _ Hwf Ht Hc) as ((_ & _ & Hwf1) & Hd1 & Hab).
  specialize (Hwf1 Hwf).
  assert (Hsrc : forall x, node_at t1 (target source ++ x) = node_at t (target source ++ x)).
  { intros x. destruct (Hab (target source ++ x)) as [|(_ & _ & u & E)]; [done|].
    exfalso. apply (Ha (x ++ u) []). by rewrite app_assoc, app_nil_r. }
  assert (Hf1 : fresh_below t1 (target to)).
  { intros x Hx. destruct (Hab (target to ++ x)) as [->|(_ & _ & u & E)]; [by apply Hfresh|].
    rewrite <- app_assoc in E. rewrite <- (app_nil_r (target to)) in E at 1.
    apply app_inv_head in E. symmetry in E. by apply app_eq_nil in E as [-> _]. }
  assert (Hn : node_at t1 (target source) = Some Directory).
  { specialize (Hsrc []). rewrite !app_nil_r in Hsrc. rewrite Hsrc. by apply is_dir_node. }
  apply is_dir_node in Hd1 as Hn1.
  destruct (copy_recursive_copies source to t1 (target source) (target to)) as (t' & Hrun & Hwf' & Hin & Hout);
    try done; [apply simple_resolve_node; congruence..|congruence|by right|].
  exists t'. unfold CopyTree, m_bind at 1. rewrite Hc. unfold m_bind, gets, exists_.
  rewrite simple_status, Hn by done. cbn. rewrite Hrun. cbn. split_and!; [done|done| |].
  - intros x. by rewrite Hin.
  - intros n Hu. by rewrite Hout.
Qed.

(** The manifest a snapshot is stored with. *)
Lemma WriteJsonFile_writes path payload t t' :
  wf_tree t -> simple_path path -> parent_path path <> EmptyString ->
  simple_path (parent_path path) -> is_dir_at t (target (parent_path path)) = true ->
  removelast (target path) = target (parent_path path) -> node_at t (target path) = None ->
  WriteJsonFile path payload t = (inr tt, t') ->
  exists text, json_dump_indented payload = inr text /\ wf_tree t'
    /\ forall n, node_at t' n = if bool_decide (n = target path)
                                then Some (Regular (text +:+ newline_text)) else node_at t n.
Proof.
  intros Hwf Hp _ Hpp Hd Hl Hn Hrun. unfold WriteJsonFile in Hrun.
  run_step Hrun [] t1 Hc. run_step Hrun [] t2 Hw. run_step Hrun text t3 Htx.
  injection Hw as <-. unfold lift in Htx. injection Htx as Htx <-. injection Hrun as <-.
  destruct (simple_create_directories _ _ _ Hwf Hpp Hc) as ((Hk & _ & Hwf1) & Hd1 & Hab).
  specialize (Hwf1 Hwf).
  assert (Hsame : forall n, node_at t1 n = node_at t n).
  { intros n. destruct (Hab n) as [|(E1 & _ & u & E)]; [done|]. exfalso.
    apply is_dir_node in Hd. destruct u as [|y u]; [rewrite app_nil_r in E; congruence|].
    rewrite E in Hd. pose proof (wf_above t n (y :: u) _ Hwf Hd ltac:(done)) as Hx.
    apply is_dir_node in Hx. congruence. }
  assert (Hd2 : is_dir_at t1 (removelast (target path)) = true) by by rewrite Hl.
  assert (Hn1 : node_at t1 (target path) = None) by by rewrite Hsame.
  unfold JsonText in Htx. destruct (json_dump_indented payload) as [|dumped]; [done|].
  injection Htx as <-. exists dumped. split; [done|].
  assert (Hwf2 : wf_tree (write_stream path EmptyString t1)) by by apply wf_write_with.
  assert (Hnode : forall n, node_at (write_stream path EmptyString t1) n
                    = if bool_decide (n = target path) then Some (Regular EmptyString)
                      else node_at t n).
  { intros n. unfold write_stream. rewrite simple_write by (done || congruence). by rewrite Hsame. }
  split; [by apply wf_write_with|]. intros n. unfold append_stream.
  rewrite simple_write; [|done|done|by unfold write_stream; rewrite write_with_dirs|].
  - rewrite Hnode. unfold contents_at. rewrite Hnode, (bool_decide_eq_true_2 (target path = target path)) by done.
    by case_bool_decide.
  - by rewrite Hnode, bool_decide_eq_true_2.
Qed.
(** The manifest a request's snapshot is stored with. *)
Definition manifest_of (r : RecoverySnapshotRequest) (files : list json) : json :=
  obj (snapshot_fields r files).

(** [t'] holds, below the directory [d], the snapshot of what [t] has below [source]. *)
Definition snapshot_held (r : RecoverySnapshotRequest) (t : FileTree) (source : string)
    (t' : FileTree) (d : list string) : Prop :=
  exists files text, FileManifest source t = inr files
    /\ json_dump_indented (manifest_of r files) = inr text
    /\ node_at t' (d ++ ["snapshot.json"]) = Some (Regular (text +:+ newline_text))
    /\ same_subtree t (target source) t' (d ++ ["data"]).

Lemma plain_tmp : plain "_tmp" /\ plain "data" /\ plain "snapshot.json".
Proof. by repeat split. Qed.

(** The steps that prepare a snapshot. *)
Lemma snapshot_prepared r t t1 u :
  wf_tree t -> simple_path (source_root r) -> simple_path (snapshots_root r) ->
  plain (snapshot_id r) -> is_dir_at t (target (source_root r)) = true ->
  apart (target (source_root r)) (target (snapshots_root r)) ->
  let temp := path_join (path_join (snapshots_root r) "_tmp") (snapshot_id r) in
  create_directories (snapshots_root r) t = (inr tt, t1) ->
  CopyTree (source_root r) (path_join temp "data") (remove_all temp t1) = (inr tt, u) ->
  wf_tree u /\ same_subtree t (target (source_root r)) u (target temp ++ ["data"])
  /\ is_dir_at u (target temp) = true /\ node_at u (target temp ++ ["snapshot.json"]) = None.
Proof.
  intros Hwf Hr Hs Hid Hd Ha temp Hc Hcopy. destruct plain_tmp as (Ht & Hda & Hsj).
  destruct (simple_join (snapshots_root r) "_tmp" Hs Ht) as (Hs1 & Et1 & _).
  destruct (simple_join _ _ Hs1 Hid) as (Hs2 & Et2 & _). fold temp in Hs2, Et2.
  destruct (simple_join temp "data" Hs2 Hda) as (Hs3 & Et3 & _).
  destruct (simple_create_directories _ _ _ Hwf Hs Hc) as ((_ & _ & Hwf1) & _ & Hab).
  specialize (Hwf1 Hwf). pose proof (wf_remove_all temp t1 Hwf1) as Hwf2.
  assert (Hat : apart (target (source_root r)) (target temp)).
  { rewrite Et2, Et1, <- app_assoc. by apply apart_under. }
  assert (Hsrc : forall x, node_at (remove_all temp t1) (target (source_root r) ++ x)
                           = node_at t (target (source_root r) ++ x)).
  { intros x. rewrite simple_remove_all by done.
    destruct (bool_decide _ || _) eqn:E.
    { apply under_below in E. by apply not_under_apart in E. }
    destruct (Hab (target (source_root r) ++ x)) as [|(_ & _ & y & E')]; [done|].
    exfalso. apply (Ha (x ++ y) []). by rewrite app_assoc, app_nil_r. }
  assert (Hgone : forall x, node_at (remove_all temp t1) (target temp ++ x) = None).
  { intros x. rewrite simple_remove_all by done.
    by rewrite (proj2 (under_below _ _) (under_app _ x)). }
  assert (Hd2 : is_dir_at (remove_all temp t1) (target (source_root r)) = true).
  { apply is_dir_node. specialize (Hsrc []). rewrite !app_nil_r in Hsrc. rewrite Hsrc.
    by apply is_dir_node. }
  pose proof Hcopy as Hcopy'. unfold CopyTree in Hcopy'. run_step Hcopy' [] v Hv. clear Hcopy'.
  destruct (CopyTree_copies (source_root r) (path_join temp "data") (remove_all temp t1) v)
    as (u' & Hrun & Hwfu & Hin & Hout); [done..| | |done|].
  { rewrite Et3. by apply apart_under. }
  { intros x _. rewrite Et3, <- app_assoc. apply Hgone. }
  rewrite Hcopy in Hrun. injection Hrun as <-. rewrite Et3 in Hin, Hout.
  assert (Hsame : same_subtree t (target (source_root r)) u (target temp ++ ["data"])).
  { intros x. by rewrite Hin, Hsrc. }
  split_and!; [done|done| |].
  - specialize (Hsame []). rewrite !app_nil_r in Hsame. apply is_dir_node in Hd.
    rewrite Hd in Hsame. by apply (wf_above u (target temp) ["data"] Directory Hwfu).
  - destruct (Hout (target temp ++ ["snapshot.json"])) as [->|(_ & _ & y & E)]; [|apply Hgone|].
    + intros [y E]. rewrite <- app_assoc in E. by apply app_inv_head in E.
    + rewrite <- app_assoc in E. by apply app_inv_head in E.
Qed.

(** The steps that put a prepared snapshot into its place. *)
Lemma snapshot_activated temp root payload u w w' :
  wf_tree u -> simple_path temp -> simple_path root -> is_dir_at u (target temp) = true ->
  node_at u (target temp ++ ["snapshot.json"]) = None -> ~ under (target temp) (target root) ->
  WriteJsonFile (path_join temp "snapshot.json") payload u = (inr tt, w) ->
  rename temp root w = Some w' ->
  wf_tree w' /\ same_subtree u (target temp ++ ["data"]) w' (target root ++ ["data"])
  /\ exists text, json_dump_indented payload = inr text
     /\ node_at w' (target root ++ ["snapshot.json"]) = Some (Regular (text +:+ newline_text)).
Proof.
  intros Hwf Htemp Hroot Hd Hnone Hu Hw Hren.
  destruct (simple_join temp "snapshot.json" Htemp (proj2 (proj2 plain_tmp))) as (Hs4 & Et4 & _ & Epar4).
  destruct (WriteJsonFile_writes _ payload u w Hwf Hs4) as (text & Htext & Hwfw & Hnode); try done.
  { rewrite Epar4. by destruct Htemp. }
  { by rewrite Epar4. }
  { by rewrite Epar4. }
  { rewrite Et4, Epar4. apply removelast_last. }
  { by rewrite Et4. }
  assert (Hdw : is_dir_at w (target temp) = true).
  { apply is_dir_node. rewrite Hnode, bool_decide_eq_false_2; [by apply is_dir_node|].
    rewrite Et4. intros E. rewrite <- (app_nil_r (target temp)) in E at 1.
    by apply app_inv_head in E. }
  destruct (rename_directory temp root w w') as (Hwf' & Hmoved); [done..|].
  assert (Hat : forall x, node_at w' (target root ++ x) = node_at w (target temp ++ x)).
  { intros x. rewrite Hmoved, decide_True by apply under_app. by rewrite drop_app_length. }
  split_and!; [done| |].
  - intros x. rewrite <- !app_assoc, Hat, Hnode, bool_decide_eq_false_2; [done|].
    rewrite Et4. by intros E%app_inv_head.
  - exists text. split; [done|]. by rewrite Hat, Hnode, Et4, bool_decide_eq_true_2.
Qed.

(** What a snapshot that was made holds. *)
Lemma snapshot_created r t manifest t' :
  wf_tree t -> simple_path (source_root r) -> simple_path (snapshots_root r) ->
  plain (snapshot_id r) -> is_dir_at t (target (source_root r)) = true ->
  apart (target (source_root r)) (target (snapshots_root r)) ->
  CreateFilesystemSnapshot r t = (inr manifest, t') ->
  wf_tree t' /\ snapshot_held r t (source_root r) t' (target (snapshots_root r) ++ [snapshot_id r]).
Proof.
  intros Hwf Hr Hs Hid Hd Ha Hrun. destruct plain_tmp as (Ht & Hda & Hsj).
  unfold CreateFilesystemSnapshot in Hrun. destruct (is_empty (snapshot_id r)); [done|].
  run_step Hrun present t0 Hp. injection Hp as <- <-.
  destruct (exists_ _ _); [done|]. run_step Hrun [] t1 Hc. run_step Hrun [] t2 Hrm.
  injection Hrm as <-. run_step Hrun [] u Hcopy. run_step Hrun v u' Hv. injection Hv as <- <-.
  cbn [id] in Hrun. run_step Hrun files u' Hf. injection Hf as Hf <-.
  run_step Hrun [] w Hw. run_step Hrun [] w' Hren. injection Hrun as _ <-.
  destruct (simple_join (snapshots_root r) (snapshot_id r) Hs Hid) as (Hsr & Esr & _ & Epar).
  rewrite Epar in Hc.
  destruct (snapshot_prepared r t t1 u) as (Hwfu & Hsame & Hdu & Hnone); [done..|].
  destruct (simple_join (snapshots_root r) "_tmp" Hs Ht) as (Hs1 & Et1 & _).
  destruct (simple_join _ _ Hs1 Hid) as (Hs2 & Et2 & _).
  set (temp := path_join (path_join (snapshots_root r) "_tmp") (snapshot_id r)) in *.
  destruct (simple_join temp "data" Hs2 Hda) as (Hs3 & Et3 & _).
  assert (Hu : ~ under (target temp) (target (path_join (snapshots_root r) (snapshot_id r)))).
  { rewrite Et2, Et1, Esr. intros [x E]. apply (f_equal (@List.length _)) in E.
    rewrite !length_app in E. cbn in E. lia. }
  unfold or_throw in Hren. destruct (rename _ _ w) as [w''|] eqn:Er; [|done]. injection Hren as ->.
  destruct (snapshot_activated temp _ _ u w w' Hwfu Hs2 Hsr Hdu Hnone Hu Hw Er)
    as (Hwf' & Hdata & text & Htext & Hstored).
  rewrite Esr in Hdata, Hstored. split; [done|]. exists files, text. split_and!; [|done|done|].
  - rewrite <- Hf. symmetry. apply FileManifest_same; try done. by rewrite Et3.
  - intros x. by rewrite Hdata, Hsame.
Qed.
Lemma manifest_files r files : value_json (manifest_of r files) "files" (JArray []) = inr (JArray files).
Proof. reflexivity. Qed.

(** A tree copied over whatever was in its place. *)
Lemma CopyTree_fresh source to t :
  wf_tree t -> simple_path source -> simple_path to -> is_dir_at t (target source) = true ->
  apart (target source) (target to) -> is_dir_at t (removelast (target to)) = true ->
  exists t', CopyTree source to (remove_all to t) = (inr tt, t')
    /\ same_subtree t (target source) t' (target to)
    /\ (forall n, ~ under (target to) n -> node_at t' n = node_at t n).
Proof.
  intros Hwf Hs Ht Hd Ha Hdt. pose proof (wf_remove_all to t Hwf) as Hwf1.
  assert (Hout : forall n, ~ under (target to) n -> node_at (remove_all to t) n = node_at t n).
  { intros n Hn. rewrite simple_remove_all by done. destruct (bool_decide _ || _) eqn:E; [|done].
    by apply under_below in E. }
  assert (Hgone : forall x, node_at (remove_all to t) (target to ++ x) = None).
  { intros x. rewrite simple_remove_all by done. by rewrite (proj2 (under_below _ _) (under_app _ x)). }
  assert (Hsrc : same_subtree t (target source) (remove_all to t) (target source)).
  { intros x. apply Hout. by apply not_under_apart. }
  assert (Hd1 : is_dir_at (remove_all to t) (removelast (target to)) = true).
  { apply is_dir_node. rewrite Hout; [by apply is_dir_node|]. apply simple_target_ne in Ht.
    intros [x E]. apply (f_equal (@List.length _)) in E.
    rewrite length_app, removelast_firstn_len, length_take in E. destruct (target to); [done|].
    cbn in E. lia. }
  assert (Hds : is_dir_at (remove_all to t) (target source) = true).
  { apply is_dir_node. specialize (Hsrc []). rewrite !app_nil_r in Hsrc. rewrite Hsrc.
    by apply is_dir_node. }
  specialize (Hgone []) as Hn. rewrite app_nil_r in Hn.
  destruct (simple_create_succeeds (remove_all to t) to) as [v Hv]; [done..|by rewrite Hn|].
  destruct (CopyTree_copies source to (remove_all to t) v) as (t' & Hrun & _ & Hin & Hab); try done.
  { intros x _. apply Hgone. }
  exists t'. split_and!; [done| |].
  - intros x. by rewrite Hin, Hsrc.
  - intros n Hu. rewrite <- Hout by done. destruct (Hab n Hu) as [|(E & _ & x & Ex)]; [done|].
    exfalso. destruct x as [|y x]; [apply Hu; exists []; by rewrite Ex, !app_nil_r|].
    assert (Hn' : node_at (remove_all to t) n = Some Directory); [|congruence].
    apply is_dir_node. apply is_dir_node in Hd1. rewrite Ex, removelast_app_ne in Hd1 by done.
    destruct (removelast (y :: x)) as [|z l] eqn:El; [rewrite app_nil_r in Hd1; by apply is_dir_node|].
    by apply (wf_above _ n (z :: l) Directory Hwf1).
Qed.

(** Restoring a snapshot that is held. *)
Lemma snapshot_restored r t snapshots target_root at_time u :
  wf_tree t -> simple_path (source_root r) -> is_dir_at t (target (source_root r)) = true ->
  wf_tree u -> simple_path snapshots -> simple_path target_root -> plain (snapshot_id r) ->
  is_dir_at u (removelast (target target_root)) = true ->
  apart (target snapshots) (target target_root) ->
  snapshot_held r t (source_root r) u (target snapshots ++ [snapshot_id r]) ->
  exists result u', RestoreFilesystemSnapshot snapshots (snapshot_id r) target_root at_time u
                    = (inr result, u')
    /\ same_subtree t (target (source_root r)) u' (target target_root)
    /\ (forall n, ~ under (target target_root) n -> node_at u' n = node_at u n).
Proof.
  intros Hwf Hr Hd Hwfu Hs Ht Hid Hdt Ha (files & text & Hfiles & Htext & Hstored & Hsame).
  destruct plain_tmp as (_ & Hda & Hsj).
  destruct (simple_join snapshots (snapshot_id r) Hs Hid) as (Hs1 & Et1 & _).
  set (root := path_join snapshots (snapshot_id r)) in *.
  destruct (simple_join root "data" Hs1 Hda) as (Hsd & Ed & _).
  destruct (simple_join root "snapshot.json" Hs1 Hsj) as (Hsm & Em & _).
  rewrite <- Et1, <- Ed in Hsame. rewrite <- Et1, <- Em in Hstored.
  assert (Hdd : node_at u (target (path_join root "data")) = Some Directory).
  { pose proof (Hsame []) as E. rewrite !app_nil_r in E. rewrite E. by apply is_dir_node. }
  unfold RestoreFilesystemSnapshot. destruct Hid as (Hid & _). apply is_empty_false in Hid as ->.
  fold root. unfold m_bind at 1, gets. cbn [id]. unfold exists_.
  rewrite !simple_status, Hdd, Hstored by done. cbn [negb orb].
  unfold ReadJsonFile, parse_json, m_bind, lift. rewrite simple_open, Hstored by done.
  apply parse_dump_indented in Htext as Hparse. change (String "010" EmptyString) with newline_text in Hparse. rewrite Hparse, manifest_files.
  rewrite (FileManifest_same t (source_root r) u) by done.
  rewrite Hfiles, json_eqb_refl by exact (manifest_float_free t _ files Hwf Hr Hd Hfiles). cbn [negb].
  destruct (CopyTree_fresh (path_join root "data") target_root u) as (u' & Hrun & Hin & Hout); try done.
  { by apply is_dir_node. }
  { rewrite Ed, Et1, <- app_assoc. apply apart_sym, apart_under, apart_sym, Ha. }
  unfold modify. cbv beta iota. rewrite Hrun.
  eexists _, u'. split_and!; [done| |done]. intros x. by rewrite Hin, Hsame.
Qed.

(** C13. A recovery snapshot restores exactly what it was taken of: once
    [CreateFilesystemSnapshot] has returned, any later state of the file system that
    still has what the snapshot's directory then had passes the verification of
    [RestoreFilesystemSnapshot], the restore returns, the restored tree has at every
    path the entry, and the contents, the source had when the snapshot was taken, and
    nothing outside the restored directory changes. *)
Theorem snapshot_restores_exactly r t manifest t1 u target_root at_time :
  wf_tree t -> simple_path (source_root r) -> simple_path (snapshots_root r) ->
  plain (snapshot_id r) -> is_dir_at t (target (source_root r)) = true ->
  apart (target (source_root r)) (target (snapshots_root r)) ->
  CreateFilesystemSnapshot r t = (inr manifest, t1) ->
  wf_tree u ->
  same_subtree t1 (target (snapshots_root r) ++ [snapshot_id r])
    u (target (snapshots_root r) ++ [snapshot_id r]) ->
  simple_path target_root -> is_dir_at u (removelast (target target_root)) = true ->
  apart (target (snapshots_root r)) (target target_root) ->
  exists result u',
    RestoreFilesystemSnapshot (snapshots_root r) (snapshot_id r) target_root at_time u
    = (inr result, u')
    /\ same_subtree t (target (source_root r)) u' (target target_root)
    /\ (forall n, ~ under (target target_root) n -> node_at u' n = node_at u n).
Proof.
  intros Hwf Hr Hs Hid Hd Ha Hrun Hwfu Hkept Ht Hdt Hat.
  destruct (snapshot_created r t manifest t1) as (_ & files & text & Hf & Htx & Hst & Hsame); [done..|].
  apply snapshot_restored with (t := t); try done. exists files, text. split_and!; [done..| |].
  - by rewrite Hkept.
  - intros x. by rewrite <- app_assoc, Hkept, app_assoc, Hsame.
Qed.
End SnapshotFacts.

(** * A registry that is lost and restored *)

Section RecoveryDemo.
#[local] Existing Instances text_json_lib text_json_laws demo_host.

Definition demo_request_1 : RecoverySnapshotRequest :=
  mkSnapshotRequest "registry" "snaps" "s1" "manual" "2026-05-01T00:00:00Z".
Definition demo_registry : FileTree :=
  <[["registry"; "config.json"] := Regular "{}"]> (<[["registry"] := Directory]> ∅).

Lemma demo_registry_wf : wf_tree demo_registry.
Proof.
  unfold demo_registry.
  repeat (apply wf_insert; [|by repeat (constructor; [by repeat split|])|done|done|by (left + right)]).
  apply wf_empty.
Qed.

Lemma simple_name name : plain name -> simple_path name /\ target name = [name].
Proof.
  intros Hn. pose proof (components_plain _ Hn) as Hc. split.
  - split; [by destruct Hn|]. exists [name]. split_and!; [done|by constructor|by left].
  - unfold target, start. rewrite (plain_relative _ Hn), Hc. cbn.
    destruct (plain_tests _ Hn) as (-> & -> & ->). done.
Qed.

Lemma snapshot_restores_exactly_witness :
  exists manifest t1 result u',
    CreateFilesystemSnapshot demo_request_1 demo_registry = (inr manifest, t1)
    /\ RestoreFilesystemSnapshot "snaps" "s1" "registry" "later" (remove_all "registry" t1)
       = (inr result, u')
    /\ node_at u' ["registry"; "config.json"] = Some (Regular "{}").
Proof.
  destruct (simple_name "registry") as [Hr Er]; [done|].
  destruct (simple_name "snaps") as [Hs Es]; [done|].
  pose proof demo_registry_wf as Hwf.
  assert (Hd : is_dir_at demo_registry (target "registry") = true) by by rewrite Er.
  assert (Ha : apart (target "registry") (target "snaps")) by (rewrite Er, Es; by intros ? ? [=]).
  assert (Hid : plain "s1") by done.
  assert (Hroot : forall u, is_dir_at u (removelast (target "registry")) = true) by by rewrite Er.
  destruct (CreateFilesystemSnapshot demo_request_1 demo_registry) as [[e|manifest] t1] eqn:E.
  { exfalso. apply (f_equal (fun o => match o.1 with inl _ => true | inr _ => false end)) in E.
    vm_compute in E. discriminate E. }
  destruct (snapshot_created demo_request_1 demo_registry manifest t1 Hwf Hr Hs Hid Hd Ha E) as [Hwf1 _].
  assert (Hkept : same_subtree t1 (target "snaps" ++ ["s1"]) (remove_all "registry" t1)
                    (target "snaps" ++ ["s1"])).
  { clear E. intros x. rewrite simple_remove_all by done.
    destruct (bool_decide _ || _) eqn:Eb; [|done]. apply under_below in Eb as [y Eb].
    rewrite <- app_assoc in Eb. by apply apart_sym in Eb. }
  destruct (snapshot_restores_exactly demo_request_1 demo_registry manifest t1
    (remove_all "registry" t1) "registry" "later" Hwf Hr Hs Hid Hd Ha E
    (wf_remove_all _ _ Hwf1) Hkept Hr (Hroot _) (apart_sym _ _ Ha)) as (result & u' & Hrun & Hin & _).
  exists manifest, t1, result, u'. split_and!; [exact eq_refl|exact Hrun|]. clear E Hrun.
  specialize (Hin ["config.json"]). cbn [source_root demo_request_1] in Hin. rewrite Er in Hin.
  exact Hin.
Defined.
End RecoveryDemo.
