(* ===== verification/MirrorSync.v ===== *)
(** The registry mirror ([PlatformCloud/PackageRegistry/MirrorSync/MirrorSync.cpp]):
    the current publication of an origin is copied, verified, put in place and made the
    read plane of this registry. *)
From stdpp Require Import base list gmap strings.
From Stdlib Require Import ZArith Lia Ascii String.
From S2P Require Import Prelude Json StateRecords MemoryStateStore Http Config Paths FileSystem RouterSupport.
From S2P Require Import RegistryIndexStore.

(** The files and the PostgreSQL store the mirror opened, if it did. *)
Record MirrorWorld (DB : Type) := mkMirror { mirror_files : FileTree; mirror_store : option DB }.
Arguments mkMirror {DB}.
Arguments mirror_files {DB}.
Arguments mirror_store {DB}.

Section MirrorSync.
Context {DB : Type} `{JsonLib} `{Host} `{PostgresStore DB}.
Abbreviation FilesM := (M exn FileTree).

Definition PaddedNumber (value : nat) (width : nat) : string := pad_left "0" width (decimal (Z.of_nat value)).

Definition CountFiles (root : string) (t : FileTree) : nat :=
  if negb (exists_ t root) then 0
  else List.length (List.filter (is_regular_file t) (recursive_directory_iterator t root)).
Definition CountLogLeaves (root : string) (t : FileTree) : nat :=
  CountFiles (path_join (path_join root "log") "leaves") t.

Definition copy_over (message source to : string) : FilesM unit :=
  copied <- (fun t => let '(ok, t') := copy_recursive source to t in (inr ok, t')) ;;
  if copied then m_ret tt else throw (RuntimeError (message +:+ ec_message "copy" source)).

Definition CopyIfPresent (source_root target_root relative : string) : FilesM unit :=
  let source := path_join source_root relative in
  present <- gets (fun t => exists_ t source) ;;
  if negb present then m_ret tt
  else
    let to := path_join target_root relative in
    modify (fun t => (create_directories (parent_path to) t).2) ;;;
    copy_over ("mirror copy failed for " +:+ relative +:+ ": ") source to.

Definition ReadTextFile (path : string) (t : FileTree) : exn + string :=
  match open_in t path with
  | Some contents => inr contents
  | None => inl (RuntimeError ("failed to read " +:+ path))
  end.

Definition WriteJsonFile (path : string) (payload : json) : FilesM unit :=
  create_directories (parent_path path) ;;;
  modify (write_stream path EmptyString) ;;;
  text <- lift (json_dump_indented payload) ;;
  modify (append_stream path (text +:+ newline_text)).

Definition digest_of (root : string) (t : FileTree) (path : string) : exn + json :=
  sha256 <-? Sha256File t path ;;
  inr (obj [("path", JString (relative t path root)); ("sha256", JString sha256)]).
Definition DirectoryDigest (root : string) (t : FileTree) : exn + string :=
  files <-? (if negb (exists_ t root) then inr []
             else traverse (digest_of root t)
                    (sort_paths (List.filter (is_regular_file t) (recursive_directory_iterator t root)))) ;;
  text <-? json_dump (JArray files) ;;
  inr ("sha256:" +:+ Sha256Bytes text).

(** ** Verification *)

Definition demand (ok : bool) (message : string) : exn + unit :=
  if ok then inr tt else inl (RuntimeError message).

Definition VerifyPublicationSnapshot (publication_root : string) (publication : json) (t : FileTree)
  : exn + unit :=
  let file name := exists_ t (path_join publication_root name) in
  _ <-? demand (file "config.json" && exists_ t (path_join (path_join publication_root "trust") "root.json")
                && file "publication.json") "publication snapshot is incomplete" ;;
  verified <-? value_bool publication "verified" false ;;
  _ <-? demand verified "origin publication is not verified" ;;
  artifact_count <-? value_int publication "artifact_count" 0 ;;
  _ <-? demand (artifact_count =? i32 (Z.of_nat (CountFiles (path_join publication_root "artifacts") t)))
          "publication artifact count mismatch" ;;
  index_digest <-? value_string publication "index_digest" "" ;;
  index <-? DirectoryDigest (path_join publication_root "index") t ;;
  _ <-? demand (index_digest =s index) "publication index digest mismatch" ;;
  trust_digest <-? value_string publication "trust_digest" "" ;;
  trust <-? DirectoryDigest (path_join publication_root "trust") t ;;
  _ <-? demand (trust_digest =s trust) "publication trust digest mismatch" ;;
  tree_size <-? value_int publication "tree_size" 0 ;;
  demand (tree_size =? i32 (Z.of_nat (CountLogLeaves publication_root t))) "publication tree size mismatch".

(** ** The read plane *)

Definition replaced : list string := ["trust"; "artifacts"; "index"; "log"].
Definition mirror_plane : list string := ["config.json"; "trust"; "artifacts"; "index"; "log"].
Definition MaterializePublication (publication_root target_root : string) : FilesM unit :=
  modify (remove (path_join target_root "config.json")) ;;;
  traverse_m (fun relative => modify (remove_all (path_join target_root relative))) replaced ;;;
  traverse_m (CopyIfPresent publication_root target_root) mirror_plane ;;;
  m_ret tt.

(** ** A run of the mirror *)

Record OriginPublication := mkOrigin { publication_id : string; current : json; publication : json }.

Definition must_exist (t : FileTree) (path message : string) : exn + unit := demand (exists_ t path) message.

(** What the origin publishes now. *)
Definition read_origin (source_root : string) (t : FileTree) : exn + OriginPublication :=
  _ <-? demand (exists_ t source_root && is_directory t source_root)
          "mirror source root does not exist or is not a directory" ;;
  let pointer := path_join (path_join (path_join source_root "_distributions") "default") "current.json" in
  _ <-? must_exist t pointer "origin distribution current pointer is missing" ;;
  text <-? ReadTextFile pointer t ;;
  current <-? parse_json text ;;
  id <-? at_string current "publication_id" ;;
  let path := path_join (path_join (path_join source_root "_publications") id) "publication.json" in
  _ <-? must_exist t path "origin publication manifest is missing" ;;
  text <-? ReadTextFile path t ;;
  publication <-? parse_json text ;;
  inr (mkOrigin id current publication).

Definition origin_publication_root (source_root id : string) : string :=
  path_join (path_join source_root "_publications") id.
Definition temp_publication_root (target_root id : string) : string :=
  path_join (path_join (path_join target_root "_tmp") "mirror") id.
Definition final_publication_root (target_root id : string) : string :=
  path_join (path_join target_root "_publications") id.

Definition fetch_publication (source_root target_root id : string) : FilesM unit :=
  create_directories target_root ;;;
  let temp := temp_publication_root target_root id in
  modify (remove_all temp) ;;;
  create_directories (parent_path temp) ;;;
  copy_over "mirror publication copy failed: " (origin_publication_root source_root id) temp.

Definition activate_mirror (target_root id : string) : FilesM unit :=
  let temp := temp_publication_root target_root id in
  let final := final_publication_root target_root id in
  create_directories (parent_path final) ;;;
  modify (remove_all final) ;;;
  or_throw ("mirror publication activation failed: " +:+ ec_message "rename" temp) (rename temp final).

Definition sync_files (source_root target_root : string) : FilesM OriginPublication :=
  t <- gets id ;;
  origin <- lift (read_origin source_root t) ;;
  let id := publication_id origin in
  fetch_publication source_root target_root id ;;;
  t <- gets (fun t : FileTree => t) ;;
  lift (VerifyPublicationSnapshot (temp_publication_root target_root id) (publication origin) t) ;;;
  activate_mirror target_root id ;;;
  MaterializePublication (final_publication_root target_root id) target_root ;;;
  WriteJsonFile (path_join (path_join (path_join target_root "_distributions") "default") "current.json")
    (current origin) ;;;
  m_ret origin.

Definition on_mirror_files {A} (m : FilesM A) : M exn (MirrorWorld DB) A :=
  zoom mirror_files (fun t w => mkMirror t (mirror_store w)) m.

(** The state of the mirror, kept by a PostgreSQL store that is opened for it. *)
Definition record_state (config : PlatformConfig) (origin : OriginPublication) (tree_size : nat)
  : M exn (MirrorWorld DB) unit :=
  repository_version_id <- lift (value_string (publication origin) "repository_version_id" "") ;;
  updated_at <- lift (value_string (current origin) "updated_at" "") ;;
  fun w =>
    let '(outcome, store) :=
      pg_RecordMirrorState (config_mirror_id (registry config)) (config_region config)
        (mirror_origin (registry config)) "fresh" ("checkpoint-" +:+ PaddedNumber tree_size 4)
        (publication_id origin) repository_version_id updated_at (i32 (Z.of_nat tree_size))
        (pg_connect (postgres_dsn config)) in
    (outcome, mkMirror (mirror_files w) (Some store)).

Definition RunMirrorSyncOnce (config : PlatformConfig) : M exn (MirrorWorld DB) Z :=
  catch_std
    (let source_root := mirror_source_root (registry config) in
     if is_empty source_root
     then throw (RuntimeError "STYIO_PLATFORM_REGISTRY_MIRROR_SOURCE_ROOT is required")
     else
       let target_root := registry_root (registry config) in
       origin <- on_mirror_files (sync_files source_root target_root) ;;
       tree_size <- gets (fun w => CountLogLeaves (final_publication_root target_root (publication_id origin))
                                     (mirror_files w)) ;;
       (if state_backend config =s "postgres" then record_state config origin tree_size else m_ret tt) ;;;
       m_ret 0)
    (fun _ => m_ret 1).
End MirrorSync.
