(* ===== verification/MirrorFacts.v ===== *)
(** What the mirror promises: it publishes only what it verified, and then exactly what
    the origin publishes. *)
From stdpp Require Import base list gmap strings sorting.
From Stdlib Require Import ZArith Lia Ascii String.
From S2P Require Import Prelude Json JsonFacts StateRecords MemoryStateStore Http Config Paths FileSystem FileSystemFacts.
From S2P Require Import DirectoryFacts RouterSupport RegistryIndexStore RegistryAccess Recovery Demo MirrorSync.

(** ** Places below a path *)

Definition place (p : string) (names : list string) : string := fold_left path_join names p.

Section Places.
Context `{FileHost}.

Lemma place_simple p names : simple_path p -> Forall plain names ->
  simple_path (place p names) /\ target (place p names) = target p ++ names.
Proof.
  intros Hp Hn. revert p Hp. induction Hn as [|name names Hname _ IH]; intros p Hp; cbn.
  { by rewrite app_nil_r. }
  destruct (simple_join p name Hp Hname) as (Hj & Ej & _). destruct (IH _ Hj) as [Hs Et].
  split; [exact Hs|]. etrans; [exact Et|]. by rewrite Ej, <- app_assoc.
Qed.
Lemma place_parent p names name : simple_path p -> Forall plain names -> plain name ->
  parent_path (place p (names ++ [name])) = place p names.
Proof.
  intros Hp Hn Hname. unfold place. rewrite fold_left_app. cbn.
  by apply simple_join; [apply place_simple|].
Qed.

Lemma same_subtree_below t d t' d' names : same_subtree t d t' d' -> same_subtree t (d ++ names) t' (d' ++ names).
Proof. intros Hs s. rewrite <- !app_assoc. apply Hs. Qed.
Lemma exists_node t p : wf_tree t -> simple_path p ->
  exists_ t p = match node_at t (target p) with Some _ => true | None => false end.
Proof. intros. unfold exists_. by rewrite simple_status. Qed.
Lemma same_root t d t' d' : same_subtree t d t' d' -> node_at t' d' = node_at t d.
Proof. intros Hs. specialize (Hs []). by rewrite !app_nil_r in Hs. Qed.
Lemma iterator_empty t p : wf_tree t -> simple_path p -> is_dir_at t (target p) = false ->
  recursive_directory_iterator t p = [].
Proof.
  intros Hwf Hp Hd. unfold recursive_directory_iterator, entries_under.
  rewrite simple_resolve by done. destruct (is_dir_at t (removelast _)); [by rewrite Hd|done].
Qed.
End Places.

(** ** Verification depends on the publication only *)

Section Verification.
Context `{JsonLib} `{Host} (t t' : FileTree) (Hwf : wf_tree t) (Hwf' : wf_tree t').

Lemma CountFiles_same p p' : simple_path p -> simple_path p' ->
  same_subtree t (target p) t' (target p') -> CountFiles p' t' = CountFiles p t.
Proof.
  intros Hp Hp' Hs. unfold CountFiles. rewrite !exists_node, (same_root _ _ _ _ Hs) by done.
  destruct (node_at t (target p)) as [[|contents]|] eqn:En; [| |done]; cbn [negb].
  - assert (Hd : is_dir_at t (target p) = true) by by apply is_dir_node.
    assert (Hd' : is_dir_at t' (target p') = true) by (apply is_dir_node; by rewrite (same_root _ _ _ _ Hs)).
    assert (Hlen : forall u q, wf_tree u -> simple_path q -> is_dir_at u (target q) = true ->
              List.length (List.filter (is_regular_file u) (recursive_directory_iterator u q))
              = List.length (regular_names u (target q))).
    { intros u q Hu Hq Hdq. rewrite <- (length_map (below q)), <- sorted_files_below by done.
      apply Permutation_length. symmetry. apply merge_sort_Permutation. }
    rewrite !Hlen by done. by rewrite (regular_names_same _ _ _ _ Hs).
  - rewrite !iterator_empty; try done; unfold is_dir_at; by rewrite ?(same_root _ _ _ _ Hs), En.
Qed.

Definition digest_node (s : list string) (node : option file) : exn + json :=
  match node with
  | Some (Regular contents) =>
      match Sha256.Sha256Contents (map char_code (chars contents)) with
      | Some sha256 => inr (obj [("path", JString (rel_text s)); ("sha256", JString sha256)])
      | None => inl UndefinedBehaviour
      end
  | _ => inl UndefinedBehaviour
  end.
Lemma digest_below u q : wf_tree u -> simple_path q -> is_dir_at u (target q) = true ->
  traverse (digest_of q u) (sort_paths (List.filter (is_regular_file u) (recursive_directory_iterator u q)))
  = traverse (fun s => digest_node s (node_at u (target q ++ s))) (regular_names u (target q)).
Proof.
  intros Hu Hq Hd. rewrite sorted_files_below by done. apply traverse_below; [done..|].
  intros s Hs Hne. unfold is_regular_at, digest_of, Sha256File. rewrite below_status by done.
  destruct (node_at u (target q ++ s)) as [[|contents]|] eqn:En; try done. intros _.
  rewrite relative_below by (done || by rewrite En). cbn [digest_node].
  by destruct (Sha256.Sha256Contents _).
Qed.
Lemma DirectoryDigest_same p p' : simple_path p -> simple_path p' ->
  same_subtree t (target p) t' (target p') -> DirectoryDigest p' t' = DirectoryDigest p t.
Proof.
  intros Hp Hp' Hs. unfold DirectoryDigest. rewrite !exists_node, (same_root _ _ _ _ Hs) by done.
  destruct (node_at t (target p)) as [[|contents]|] eqn:En; [| |done]; cbn [negb].
  - rewrite !digest_below; try done; try (apply is_dir_node; by rewrite ?(same_root _ _ _ _ Hs)).
    rewrite (regular_names_same _ _ _ _ Hs). f_equal. apply traverse_ext. intros s. by rewrite (Hs s).
  - rewrite !iterator_empty; try done; unfold is_dir_at; by rewrite ?(same_root _ _ _ _ Hs), En.
Qed.

Lemma Verify_same p p' publication : simple_path p -> simple_path p' ->
  same_subtree t (target p) t' (target p') ->
  VerifyPublicationSnapshot p' publication t' = VerifyPublicationSnapshot p publication t.
Proof.
  intros Hp Hp' Hs.
  assert (Hat : forall names, Forall plain names ->
            simple_path (place p names) /\ simple_path (place p' names)
            /\ same_subtree t (target (place p names)) t' (target (place p' names))).
  { intros names Hn. destruct (place_simple p names Hp Hn) as [H1 ->].
    destruct (place_simple p' names Hp' Hn) as [H2 ->]. split_and!; [done|done|by apply same_subtree_below]. }
  assert (He : forall names, Forall plain names -> exists_ t' (place p' names) = exists_ t (place p names)).
  { intros names (H1 & H2 & H3)%Hat. rewrite !exists_node by done. by rewrite (same_root _ _ _ _ H3). }
  assert (Hc : forall names, Forall plain names -> CountFiles (place p' names) t' = CountFiles (place p names) t).
  { intros names (H1 & H2 & H3)%Hat. by apply CountFiles_same. }
  assert (Hd : forall names, Forall plain names -> DirectoryDigest (place p' names) t' = DirectoryDigest (place p names) t).
  { intros names (H1 & H2 & H3)%Hat. by apply DirectoryDigest_same. }
  unfold VerifyPublicationSnapshot, CountLogLeaves. cbv zeta beta.
  pose proof (He ["config.json"%string]) as E1. pose proof (He ["trust"; "root.json"]%string) as E2.
  pose proof (He ["publication.json"%string]) as E3. pose proof (Hc ["artifacts"%string]) as E4.
  pose proof (Hd ["index"%string]) as E5. pose proof (Hd ["trust"%string]) as E6.
  pose proof (Hc ["log"; "leaves"]%string) as E7. cbn [place fold_left] in E1, E2, E3, E4, E5, E6, E7.
  rewrite E1, E2, E3, E4, E5, E6, E7; [done|by repeat constructor..].
Qed.
End Verification.

(** ** Steps of a run *)

Section Steps.
Context `{JsonLib} `{Host} (S T id : string).
Context (HS : simple_path S) (HT : simple_path T) (Hid : plain id) (Ha : apart (target S) (target T)).
Abbreviation origin_root := (target S ++ ["_publications"; id]%string).
Abbreviation temp := (target T ++ ["_tmp"; "mirror"; id]%string).
Abbreviation final := (target T ++ ["_publications"; id]%string).

(** Outside the temporary directory nothing is touched, the directories above the
    target apart, which may be new. *)
Definition unpublished (t t' : FileTree) : Prop := forall n, ~ under (target T ++ ["_tmp"%string]) n ->
  node_at t' n = node_at t n
  \/ node_at t n = None /\ node_at t' n = Some Directory /\ exists u, target T = n ++ u.
(** The origin is left as it is. *)
Definition same_origin (t t' : FileTree) : Prop := forall x, node_at t' (target S ++ x) = node_at t (target S ++ x).

Lemma unpublished_refl t : unpublished t t.
Proof. intros n _. by left. Qed.
Lemma unpublished_trans t u v : unpublished t u -> unpublished u v -> unpublished t v.
Proof.
  intros H1 H2 n Hn. destruct (H2 n Hn) as [->|(E & -> & Hu)]; [by apply H1|].
  destruct (H1 n Hn) as [E'|(_ & E' & _)]; [|congruence]. right. by rewrite <- E'.
Qed.
Lemma unpublished_origin t t' : unpublished t t' -> same_origin t t'.
Proof.
  intros Hu x. destruct (Hu (target S ++ x)) as [|(_ & _ & u & E)]; [|done|].
  - intros [u E]. rewrite <- app_assoc in E. by apply (Ha x (["_tmp"%string] ++ u)).
  - exfalso. apply (Ha (x ++ u) []). by rewrite app_assoc, app_nil_r.
Qed.

Lemma tmp_plain : Forall plain ["_tmp"; "mirror"; id]%string /\ Forall plain ["_publications"; id]%string.
Proof. split; repeat constructor; done || apply Hid. Qed.
Lemma temp_place : simple_path (temp_publication_root T id) /\ target (temp_publication_root T id) = temp.
Proof. exact (place_simple T _ HT (proj1 tmp_plain)). Qed.
Lemma final_place : simple_path (final_publication_root T id) /\ target (final_publication_root T id) = final.
Proof. exact (place_simple T _ HT (proj2 tmp_plain)). Qed.
Lemma origin_place : simple_path (origin_publication_root S id) /\ target (origin_publication_root S id) = origin_root.
Proof. exact (place_simple S _ HS (proj2 tmp_plain)). Qed.

Lemma created_unpublished p t t' : simple_path p -> wf_tree t ->
  (target p = target T \/ under (target T ++ ["_tmp"%string]) (target p)) ->
  create_directories p t = (inr tt, t') -> wf_tree t' /\ is_dir_at t' (target p) = true /\ unpublished t t'.
Proof.
  intros Hp Hwf Hat Hc. destruct (simple_create_directories _ _ _ Hwf Hp Hc) as ((_ & _ & Hwf') & Hd & Hab).
  split_and!; [by apply Hwf'|done|]. intros n Hn. destruct (Hab n) as [|(E1 & E2 & u & E)]; [by left|].
  destruct Hat as [<-|[v Hv]]; [right; eauto|]. right. split_and!; [done|done|].
  rewrite E in Hv. rewrite <- app_assoc in Hv. apply app_eq_app in Hv as [l [[-> Hl]|[Hl Hv]]].
  - destruct l as [|y l]; [exists []; by rewrite !app_nil_r|]. exfalso. apply Hn. cbn in Hl. injection Hl as <- _.
    exists l. by rewrite <- app_assoc.
  - exists l. done.
Qed.

Lemma publication_fetched t res u : wf_tree t -> is_dir_at t origin_root = true ->
  fetch_publication S T id t = (res, u) ->
  unpublished t u
  /\ (res = inr tt -> wf_tree u /\ is_dir_at u (target T) = true
        /\ same_subtree t origin_root u temp).
Proof.
  intros Hwf Hd Hrun. destruct temp_place as [Htemp Et]. destruct origin_place as [Horigin Eo].
  assert (Hpar : parent_path (temp_publication_root T id) = place T ["_tmp"; "mirror"]%string).
  { exact (place_parent T ["_tmp"; "mirror"]%string id HT ltac:(by repeat constructor) Hid). }
  destruct (place_simple T ["_tmp"; "mirror"]%string HT ltac:(by repeat constructor)) as [Hup Eup].
  unfold fetch_publication, m_bind in Hrun.
  destruct (create_directories T t) as [[e|[]] t1] eqn:E1.
  { injection Hrun as <- <-. apply create_directories_error in E1 as ->. split; [apply unpublished_refl|done]. }
  destruct (created_unpublished T t t1 HT Hwf ltac:(by left) E1) as (Hwf1 & Hd1 & Hu1).
  unfold modify in Hrun. cbv beta iota zeta in Hrun. set (t2 := remove_all _ t1) in *.
  assert (Hwf2 : wf_tree t2) by by apply wf_remove_all.
  assert (Hu2 : unpublished t1 t2).
  { intros n Hn. left. unfold t2. rewrite simple_remove_all by done.
    destruct (bool_decide _ || _) eqn:E; [|done]. apply under_below in E as [v ->]. exfalso. apply Hn.
    rewrite Et. exists (["mirror"; id]%string ++ v). by rewrite <- !app_assoc. }
  rewrite Hpar in Hrun. destruct (create_directories _ t2) as [[e|[]] t3] eqn:E3.
  { injection Hrun as <- <-. apply create_directories_error in E3 as ->.
    split; [by eapply unpublished_trans|done]. }
  destruct (created_unpublished _ t2 t3 Hup Hwf2) as (Hwf3 & Hd3 & Hu3); [|done|].
  { right. rewrite Eup. exists ["mirror"%string]. by rewrite <- app_assoc. }
  assert (Hu : unpublished t t3) by (eapply unpublished_trans; [|eassumption]; by eapply unpublished_trans).
  pose proof (unpublished_origin t t3 Hu) as Hor.
  assert (Hfresh : forall x, node_at t3 (temp ++ x) = None).
  { intros x. destruct (simple_create_directories _ _ _ Hwf2 Hup E3) as (_ & _ & Hab).
    destruct (Hab (temp ++ x)) as [->|(_ & _ & v & E)].
    - unfold t2. rewrite simple_remove_all by done. rewrite Et.
      by rewrite (proj2 (under_below _ _) (under_app _ x)).
    - rewrite Eup in E. apply (f_equal List.length) in E. rewrite !length_app in E. cbn in E. lia. }
  assert (Hnode : node_at t3 origin_root = Some Directory) by (rewrite Hor; by apply is_dir_node).
  destruct (copy_recursive_copies (origin_publication_root S id) (temp_publication_root T id) t3 origin_root temp)
    as (t4 & Hcopy & Hwf4 & Hin & Hout).
  - done.
  - rewrite <- Eo. apply simple_resolve_node; [done|done|]. by rewrite Eo, Hnode.
  - rewrite simple_resolve, Et by done.
    replace (removelast temp) with (target T ++ ["_tmp"; "mirror"]%string)
      by (by rewrite removelast_app_ne).
    by rewrite <- Eup, Hd3.
  - by rewrite Hnode.
  - left. specialize (Hfresh []). by rewrite app_nil_r in Hfresh.
  - intros x _. apply Hfresh.
  - intros x y E. rewrite <- !app_assoc in E. by eapply Ha.
  - unfold copy_over, m_bind in Hrun. rewrite Hcopy in Hrun. injection Hrun as <- <-.
    assert (Hu4 : unpublished t3 t4).
    { intros n Hn. left. apply Hout. intros [v ->]. apply Hn. exists (["mirror"; id]%string ++ v).
      by rewrite <- !app_assoc. }
    split; [by eapply unpublished_trans|]. intros _. split_and!; [done| |].
    + apply is_dir_node. rewrite Hout.
      * apply is_dir_node. apply (wf_above t3 (target T) ["_tmp"; "mirror"]%string Directory); [done| |done].
        rewrite <- Eup. by apply is_dir_node.
      * intros [v E]. apply (f_equal List.length) in E. rewrite !length_app in E. cbn in E. lia.
    + intros x. rewrite Hin, <- !app_assoc. apply Hor.
Qed.

(** A verified copy moved into its place. *)
Lemma publication_activated t res u : wf_tree t -> is_dir_at t (target T) = true ->
  is_dir_at t temp = true -> activate_mirror T id t = (res, u) -> res = inr tt ->
  wf_tree u /\ is_dir_at u (target T) = true /\ same_subtree t temp u final
  /\ (forall name x, name <> "_publications"%string -> name <> "_tmp"%string ->
        node_at u (target T ++ name :: x) = node_at t (target T ++ name :: x)).
Proof.
  intros Hwf HdT Hd Hrun ->. destruct temp_place as [Htemp Et]. destruct final_place as [Hfinal Ef].
  assert (Hpar : parent_path (final_publication_root T id) = place T ["_publications"]%string).
  { exact (place_parent T ["_publications"]%string id HT ltac:(by repeat constructor) Hid). }
  destruct (place_simple T ["_publications"]%string HT ltac:(by repeat constructor)) as [Hup Eup].
  unfold activate_mirror, m_bind in Hrun. rewrite Hpar in Hrun.
  destruct (create_directories _ t) as [[e|[]] t1] eqn:E1; [done|].
  destruct (simple_create_directories _ _ _ Hwf Hup E1) as ((_ & _ & Hwf1) & _ & Hab). specialize (Hwf1 Hwf).
  unfold modify in Hrun. cbv beta iota in Hrun. set (t2 := remove_all _ t1) in *.
  assert (Hwf2 : wf_tree t2) by by apply wf_remove_all.
  assert (Hkeep : forall n f, node_at t n = Some f -> node_at t1 n = Some f).
  { intros n f Hn. destruct (Hab n) as [->|(E & _)]; [done|congruence]. }
  assert (Ht2 : forall n, ~ under final n -> node_at t2 n = node_at t1 n).
  { intros n Hn. unfold t2. rewrite simple_remove_all by done. rewrite Ef.
    destruct (bool_decide _ || _) eqn:E; [|done]. by apply under_below in E. }
  assert (Hoff : forall name x, name <> "_publications"%string ->
            node_at t2 (target T ++ name :: x) = node_at t (target T ++ name :: x)).
  { intros name x Hne. rewrite Ht2.
    - destruct (Hab (target T ++ name :: x)) as [|(_ & _ & v & E)]; [done|].
      rewrite Eup, <- app_assoc in E. by apply app_inv_head in E as [= <-].
    - intros [v E]. rewrite <- app_assoc in E. by apply app_inv_head in E as [= ->]. }
  assert (Hd2 : is_dir_at t2 temp = true).
  { apply is_dir_node. change temp with (target T ++ "_tmp"%string :: ["mirror"; id]%string).
    rewrite Hoff by done. by apply is_dir_node. }
  unfold or_throw in Hrun. destruct (rename _ _ t2) as [t3|] eqn:Er; [|done]. injection Hrun as <-.
  destruct (rename_directory _ _ t2 t3 Hwf2 Htemp Hfinal) as (Hwf3 & Hmoved); [by rewrite Et| |done|].
  { rewrite Et, Ef. intros [v E]. rewrite <- app_assoc in E. apply app_inv_head in E. done. }
  rewrite Et, Ef in Hmoved.
  assert (Hin : same_subtree t temp t3 final).
  { intros x. rewrite Hmoved, decide_True by apply under_app. rewrite drop_app_length.
    rewrite <- !app_assoc. cbn [app]. by apply Hoff. }
  split_and!; [done| |done|].
  - assert (Hf : node_at t3 final = Some Directory).
    { rewrite (same_root _ _ _ _ Hin). by apply is_dir_node. }
    by apply (wf_above t3 (target T) ["_publications"; id]%string Directory).
  - intros name x Hn1 Hn2. rewrite Hmoved, decide_False.
    + destruct (bool_decide _ || _) eqn:E; [|by apply Hoff]. apply under_below in E as [v E].
      rewrite <- app_assoc in E. by apply app_inv_head in E as [= ->].
    + intros [v E]. rewrite <- app_assoc in E. by apply app_inv_head in E as [= ->].
Qed.

(** ** The read plane *)

Definition clear (t : FileTree) (name : string) : Prop := forall x, node_at t (target T ++ name :: x) = None.
Definition plane_name (name : string) : Prop :=
  plain name /\ name <> "_publications"%string /\ name <> "_distributions"%string.

Lemma plane_place name : plain name -> simple_path (path_join T name)
  /\ target (path_join T name) = target T ++ [name] /\ parent_path (path_join T name) = T.
Proof. intros Hn. destruct (simple_join T name HT Hn) as (H1 & H2 & _ & H3). done. Qed.

(** What materializing keeps: well-formedness, the target and the publication. *)
Record plane_kept (t t' : FileTree) : Prop := {
  plane_wf : wf_tree t -> wf_tree t';
  plane_dir : is_dir_at t (target T) = true -> is_dir_at t' (target T) = true;
  plane_final : same_subtree t final t' final;
}.
Lemma plane_kept_trans t u v : plane_kept t u -> plane_kept u v -> plane_kept t v.
Proof.
  intros [W1 D1 F1] [W2 D2 F2]. split; [auto|auto|]. intros x. by rewrite F2, F1.
Qed.

Lemma final_elsewhere name x : name <> "_publications"%string -> ~ under (target T ++ [name]) (final ++ x).
Proof.
  intros Hn [v E]. rewrite <- !app_assoc in E. apply app_inv_head in E. cbn in E. injection E as E _. by apply Hn.
Qed.
Lemma above_plane (name : string) : ~ under (target T ++ [name]) (target T).
Proof. intros [v E]. apply (f_equal List.length) in E. rewrite !length_app in E. cbn in E. lia. Qed.

Lemma outside_kept name t t' : plane_name name -> (wf_tree t -> wf_tree t') ->
  (forall n, ~ under (target T ++ [name]) n -> node_at t' n = node_at t n) -> plane_kept t t'.
Proof.
  intros (_ & Hn & _) Hwf Hout. split; [done| |].
  - intros Hd. apply is_dir_node. rewrite Hout by apply above_plane. by apply is_dir_node.
  - intros x. apply Hout. by apply final_elsewhere.
Qed.

Lemma plane_removed name t : wf_tree t -> plane_name name ->
  plane_kept t (remove_all (path_join T name) t) /\ clear (remove_all (path_join T name) t) name
  /\ (forall other, other <> name -> clear t other -> clear (remove_all (path_join T name) t) other).
Proof.
  intros Hwf Hn. destruct (plane_place name (proj1 Hn)) as (Hp & Ep & _).
  assert (Hat : forall n, node_at (remove_all (path_join T name) t) n
                = if decide (under (target T ++ [name]) n) then None else node_at t n).
  { intros n. rewrite simple_remove_all, Ep by done. destruct (bool_decide _ || _) eqn:E.
    - apply under_below in E. by rewrite decide_True.
    - rewrite decide_False; [done|]. intros Hu. apply under_below in Hu. congruence. }
  split_and!.
  - apply (outside_kept name); [done|by intros; apply wf_remove_all|]. intros n Hu. by rewrite Hat, decide_False.
  - intros x. rewrite Hat, decide_True; [done|]. exists x. by rewrite <- app_assoc.
  - intros other Hne Hc x. rewrite Hat. destruct (decide _); [done|apply Hc].
Qed.

Lemma absent_below t a x : wf_tree t -> node_at t a = None -> node_at t (a ++ x) = None.
Proof.
  intros Hwf Hn. destruct x as [|y x]; [by rewrite app_nil_r|].
  destruct (node_at t (a ++ y :: x)) as [f|] eqn:E; [|done].
  pose proof (wf_above t a (y :: x) f Hwf E ltac:(done)) as Hd. apply is_dir_node in Hd. congruence.
Qed.
Lemma clear_below t name x : clear t name -> node_at t ((target T ++ [name]) ++ x) = None.
Proof. intros Hc. rewrite <- app_assoc. apply Hc. Qed.

(** A directory that is there is not made again. *)
Lemma created_same t n : wf_tree t -> is_dir_at t (target T) = true ->
  wf_tree (create_directories T t).2 /\ node_at (create_directories T t).2 n = node_at t n.
Proof.
  intros Hwf Hd. destruct (create_directories T t) as [[e|[]] t'] eqn:E; cbn [snd].
  { apply create_directories_error in E as ->. by split. }
  destruct (simple_create_directories _ _ _ Hwf HT E) as ((_ & _ & Hwf') & _ & Hab). split; [auto|].
  destruct (Hab n) as [|(E1 & _ & u & E2)]; [done|]. exfalso. rewrite E2 in Hd. apply is_dir_node in Hd.
  by rewrite (absent_below t n u Hwf E1) in Hd.
Qed.

Lemma plane_copied name t : wf_tree t -> is_dir_at t (target T) = true -> plane_name name -> clear t name ->
  exists t', CopyIfPresent (final_publication_root T id) T name t = (inr tt, t')
    /\ plane_kept t t' /\ same_subtree t (final ++ [name]) t' (target T ++ [name])
    /\ (forall other x, other <> name -> node_at t' (target T ++ other :: x) = node_at t (target T ++ other :: x)).
Proof.
  intros Hwf Hd Hn Hclear. destruct final_place as [Hfinal Ef].
  destruct (plane_place name (proj1 Hn)) as (Hto & Eto & Hpar).
  destruct (simple_join _ name Hfinal (proj1 Hn)) as (Hfrom & Efrom & _). rewrite Ef in Efrom.
  unfold CopyIfPresent, m_bind, gets. rewrite exists_node, Efrom by done.
  destruct (node_at t (final ++ [name])) as [f|] eqn:En; cbn [negb].
  2:{ exists t. split_and!; [done|by split| |done]. intros x.
      by rewrite (clear_below _ _ _ Hclear), (absent_below _ _ _ Hwf En). }
  unfold modify. rewrite Hpar. set (t1 := (create_directories T t).2).
  assert (Hsame : forall n, node_at t1 n = node_at t n) by (intros n; by apply created_same).
  assert (Hwf1 : wf_tree t1) by exact (proj1 (created_same t [] Hwf Hd)).
  assert (Hd1 : is_dir_at t1 (target T) = true) by (apply is_dir_node; rewrite Hsame; by apply is_dir_node).
  destruct (copy_recursive_copies (path_join (final_publication_root T id) name) (path_join T name) t1
              (final ++ [name]) (target T ++ [name])) as (t2 & Hcopy & Hwf2 & Hin & Hout).
  - done.
  - rewrite <- Efrom. apply simple_resolve_node; [done|done|]. by rewrite Efrom, Hsame, En.
  - by rewrite simple_resolve, Eto, removelast_last, Hd1.
  - by rewrite Hsame, En.
  - left. rewrite Hsame. by apply Hclear.
  - intros x _. rewrite Hsame. by apply clear_below.
  - intros x y E. rewrite <- !app_assoc in E. apply app_inv_head in E. cbn in E. injection E as E _.
    by apply (proj1 (proj2 Hn)).
  - exists t2. unfold copy_over, m_bind. rewrite Hcopy. split_and!; [done| | |].
    + apply (outside_kept name); [done|done|]. intros n Hu. rewrite Hout by done. apply Hsame.
    + intros x. by rewrite Hin, Hsame.
    + intros other x Ho. rewrite Hout; [apply Hsame|]. intros [v E]. rewrite <- app_assoc in E.
      apply app_inv_head in E as [= -> _]. done.
Qed.

Lemma plane_copies names t : NoDup names -> Forall plane_name names -> wf_tree t ->
  is_dir_at t (target T) = true -> Forall (clear t) names ->
  exists units t', traverse_m (CopyIfPresent (final_publication_root T id) T) names t = (inr units, t')
    /\ plane_kept t t'
    /\ Forall (fun name => same_subtree t (final ++ [name]) t' (target T ++ [name])) names
    /\ (forall other x, other ∉ names ->
          node_at t' (target T ++ other :: x) = node_at t (target T ++ other :: x)).
Proof.
  intros Hnd Hn. revert t. induction Hn as [|name names Hname Hn IH]; intros t Hwf Hd Hc.
  { exists [], t. split_and!; [done|by split|constructor|done]. }
  apply NoDup_cons in Hnd as [Hnew Hnd]. apply Forall_cons in Hc as [Hc Hcs].
  destruct (plane_copied name t Hwf Hd Hname Hc) as (t1 & E1 & K1 & S1 & O1).
  destruct (IH Hnd t1) as (units & t2 & E2 & K2 & S2 & O2).
  { by apply K1. }
  { by apply K1. }
  { apply Forall_forall. intros other Ho x. rewrite O1 by by intros ->. by apply (proj1 (Forall_forall _ _) Hcs). }
  exists (tt :: units), t2. split_and!.
  - cbn [traverse_m]. unfold m_bind. by rewrite E1, E2.
  - by eapply plane_kept_trans.
  - apply Forall_cons. split.
    + intros x. rewrite <- app_assoc. cbn [app]. rewrite O2 by done. pose proof (S1 x) as Ex.
      rewrite <- app_assoc in Ex. exact Ex.
    + eapply Forall_impl; [exact S2|]. intros other Ho x. rewrite Ho, <- (app_assoc final), (plane_final _ _ K1).
      done.
  - intros other x Ho. apply not_elem_of_cons in Ho as [Ho1 Ho2]. by rewrite O2, O1.
Qed.

Lemma plane_cleared names t : Forall plane_name names -> wf_tree t ->
  exists units t', traverse_m (fun name => modify (remove_all (path_join T name))) names t
                   = ((inr units : exn + list unit), t')
    /\ plane_kept t t' /\ Forall (clear t') names
    /\ (forall other, clear t other -> clear t' other).
Proof.
  intros Hn. revert t. induction Hn as [|name names Hname Hn IH]; intros t Hwf.
  { exists [], t. split_and!; [done|by split|constructor|done]. }
  destruct (plane_removed name t Hwf Hname) as (K1 & C1 & O1).
  destruct (IH (remove_all (path_join T name) t)) as (units & t2 & E2 & K2 & C2 & O2); [by apply K1|].
  exists (tt :: units), t2. split_and!.
  - cbn [traverse_m]. unfold m_bind, modify at 1. by rewrite E2.
  - by eapply plane_kept_trans.
  - constructor; [by apply O2|done].
  - intros other Ho. apply O2. destruct (decide (other = name)) as [->|]; [done|by apply O1].
Qed.

(** [fs::remove] of what is not a directory. *)
Lemma remove_leaf t p : wf_tree t -> simple_path p -> node_at t (target p) <> Some Directory ->
  remove p t = remove_all p t.
Proof.
  intros Hwf Hp Hn. unfold remove, remove_all. destruct (resolve t p) as [names|] eqn:E; [|done].
  apply resolve_target in E as ->.
  assert (is_dir_at t (target p) = false) as ->.
  { destruct (is_dir_at t (target p)) eqn:E; [|done]. by apply is_dir_node in E. }
  cbn [andb]. apply map_eq. intros n. rewrite lookup_remove_at.
  destruct (decide (n = target p)) as [->|Hne]; [by rewrite lookup_delete_eq, bool_decide_eq_true_2|].
  rewrite lookup_delete_ne by done. rewrite bool_decide_eq_false_2 by done. cbn [orb].
  destruct (is_below (target p) n) eqn:Eb; [|done]. apply is_below_spec in Eb as (x & Hx & ->).
  destruct (t !! (target p ++ x)) as [f|] eqn:Ef; [|done]. exfalso. apply Hn, is_dir_node.
  apply (wf_above t _ x f Hwf); [|done]. apply node_at_lookup; [by destruct (target p)|done].
Qed.

Lemma read_plane_names : Forall plane_name mirror_plane /\ NoDup mirror_plane /\ Forall plane_name replaced.
Proof. split_and!; [by repeat constructor|by apply (bool_decide_unpack _); vm_compute|by repeat constructor]. Qed.

Lemma publication_materialized t res u : wf_tree t -> is_dir_at t (target T) = true ->
  node_at t (target T ++ ["config.json"%string]) <> Some Directory ->
  MaterializePublication (final_publication_root T id) T t = (res, u) ->
  plane_kept t u /\ Forall (fun name => same_subtree t (final ++ [name]) u (target T ++ [name])) mirror_plane.
Proof.
  intros Hwf Hd Hconfig Hrun. destruct read_plane_names as (Hp & Hnd & Hr).
  destruct (plane_place "config.json" ltac:(done)) as (Hc & Ec & _).
  unfold MaterializePublication, m_bind, modify at 1 in Hrun.
  rewrite remove_leaf in Hrun by by rewrite ?Ec.
  destruct (plane_removed "config.json" t Hwf ltac:(by split_and!)) as (K1 & C1 & _).
  destruct (plane_cleared replaced (remove_all (path_join T "config.json") t) Hr) as (us & t2 & E2 & K2 & C2 & O2);
    [by apply K1|].
  rewrite E2 in Hrun.
  destruct (plane_copies mirror_plane t2 Hnd Hp) as (vs & t3 & E3 & K3 & S3 & _).
  { by apply K2, K1. }
  { by apply K2, K1. }
  { apply Forall_cons. split; [by apply O2|exact C2]. }
  rewrite E3 in Hrun. injection Hrun as _ <-.
  assert (K : plane_kept t t2) by by eapply plane_kept_trans. split; [by eapply plane_kept_trans|].
  eapply Forall_impl; [exact S3|]. intros name Hs x. rewrite Hs, <- (app_assoc final), (plane_final _ _ K).
  done.
Qed.

(** The pointer that is written last. *)
Lemma pointer_written payload t res u n : wf_tree t -> is_dir_at t (target T) = true ->
  WriteJsonFile (path_join (path_join (path_join T "_distributions") "default") "current.json") payload t = (res, u) ->
  ~ under (target T ++ ["_distributions"%string]) n -> node_at u n = node_at t n.
Proof.
  intros Hwf Hd Hrun Hn.
  pose proof (place_parent T ["_distributions"; "default"]%string "current.json" HT ltac:(by repeat constructor)
                ltac:(done)) as Hpar.
  destruct (place_simple T ["_distributions"; "default"]%string HT ltac:(by repeat constructor)) as [Hup Eup].
  destruct (place_simple T ["_distributions"; "default"; "current.json"]%string HT ltac:(by repeat constructor)) as [Hp Ep].
  change (path_join (path_join (path_join T "_distributions") "default") "current.json")
    with (place T ["_distributions"; "default"; "current.json"]%string) in Hrun.
  cbn [app] in Hpar. set (p := place T ["_distributions"; "default"; "current.json"]%string) in *.
  assert (Hwrite : forall f v, node_at (write_with f p v) n = node_at v n).
  { intros f v. destruct (write_with_spec f p v) as [->|(_ & Hne & _ & ->)]; [done|].
    rewrite node_at_insert by done. rewrite bool_decide_eq_false_2; [done|]. intros ->. apply Hn. rewrite Ep.
    exists ["default"; "current.json"]%string. by rewrite <- app_assoc. }
  unfold WriteJsonFile, m_bind in Hrun. rewrite Hpar in Hrun.
  destruct (create_directories _ t) as [[e|[]] t1] eqn:E1.
  { injection Hrun as _ <-. by apply create_directories_error in E1 as ->. }
  assert (Hn1 : node_at t1 n = node_at t n).
  { destruct (simple_create_directories _ _ _ Hwf Hup E1) as (_ & _ & Hab).
    destruct (Hab n) as [|(E & _ & v & Ev)]; [done|]. exfalso. rewrite Eup in Ev.
    apply app_eq_app in Ev as [l [[Hl _]|[Hl Hv]]].
    - apply is_dir_node in Hd. rewrite Hl in Hd. by rewrite (absent_below t n l Hwf E) in Hd.
    - destruct l as [|y l]; [rewrite app_nil_r in Hl; subst n; apply is_dir_node in Hd; congruence|].
      cbn in Hv. injection Hv as <- _. apply Hn. exists l. rewrite Hl. by rewrite <- app_assoc. }
  unfold modify at 1, lift in Hrun. cbv beta iota in Hrun.
  destruct (json_dump_indented payload); injection Hrun as _ <-; unfold append_stream, write_stream; by rewrite !Hwrite.
Qed.

(** What a publication found by [read_origin] says of the tree. *)
Lemma demanded {A} ok message (k : unit -> exn + A) a :
  r_bind (demand ok message) k = inr a -> ok = true /\ k tt = inr a.
Proof. by destruct ok. Qed.
Lemma origin_directory t origin : wf_tree t -> read_origin S t = inr origin -> publication_id origin = id ->
  is_dir_at t origin_root = true.
Proof.
  intros Hwf Hr Ho. unfold read_origin, must_exist in Hr.
  apply demanded in Hr as [_ Hr]. apply demanded in Hr as [_ Hr].
  destruct (ReadTextFile _ t) as [|text]; [done|]. cbn [r_bind] in Hr.
  destruct (parse_json text) as [|current]; [done|]. cbn [r_bind] in Hr.
  destruct (at_string current _) as [|i]; [done|]. cbn [r_bind] in Hr.
  apply demanded in Hr as [He Hr]. destruct (ReadTextFile _ t) as [|text']; [done|]. cbn [r_bind] in Hr.
  destruct (parse_json text') as [|publication]; [done|]. injection Hr as <-. cbn in Ho. subst i.
  change (path_join (path_join (path_join S "_publications") id) "publication.json")
    with (place S ["_publications"; id; "publication.json"]%string) in He.
  destruct (place_simple S ["_publications"; id; "publication.json"]%string HS) as [Hp Ep].
  { repeat constructor; done || apply Hid. }
  rewrite exists_node, Ep in He by done.
  destruct (node_at t (target S ++ _)) as [f|] eqn:En; [|done].
  apply (wf_above t _ ["publication.json"%string] f Hwf); [|done]. by rewrite <- app_assoc.
Qed.

(** A run on the files. *)
Lemma files_synced t origin res u : wf_tree t -> read_origin S t = inr origin -> publication_id origin = id ->
  node_at t (target T ++ ["config.json"%string]) <> Some Directory ->
  sync_files S T t = (res, u) ->
  let verified := VerifyPublicationSnapshot (origin_publication_root S id) (publication origin) t in
  (forall o, res = inr o -> verified = inr tt /\ same_subtree t origin_root u final
     /\ Forall (fun name => same_subtree t (origin_root ++ [name]) u (target T ++ [name])) mirror_plane)
  /\ (verified <> inr tt -> (exists e, res = inl e) /\ unpublished t u).
Proof.
  intros Hwf Ho Hi Hconfig Hrun verified. destruct origin_place as [Hos Eo]. destruct temp_place as [Hts Et].
  pose proof (origin_directory t origin Hwf Ho Hi) as Hd.
  unfold sync_files, m_bind, gets, lift in Hrun. cbn [Datatypes.id] in Hrun. rewrite Ho, Hi in Hrun.
  destruct (fetch_publication S T id t) as [[e|[]] t1] eqn:E1.
  { injection Hrun as <- <-. apply publication_fetched in E1 as [Hu _]; [|done..]. split; [done|]. eauto. }
  apply publication_fetched in E1 as [Hu Hf]; [|done..]. destruct (Hf eq_refl) as (Hwf1 & Hd1 & Hs1).
  assert (Hv : VerifyPublicationSnapshot (temp_publication_root T id) (publication origin) t1 = verified).
  { apply Verify_same; [done..|]. by rewrite Eo, Et. }
  rewrite Hv in Hrun. destruct verified as [e|[]].
  { injection Hrun as <- <-. split; [done|]. eauto. }
  split; [|done]. intros o ->. split; [done|].
  destruct (activate_mirror T id t1) as [[e|[]] t2] eqn:E2; [done|].
  assert (Hdt : is_dir_at t1 temp = true).
  { apply is_dir_node. rewrite (same_root _ _ _ _ Hs1). by apply is_dir_node. }
  apply publication_activated in E2 as (Hwf2 & Hd2 & Hs2 & Hout); [|done..].
  destruct (MaterializePublication _ T t2) as [[e|[]] t3] eqn:E3; [done|].
  apply publication_materialized in E3 as [[Kw Kd Kf] Hplane]; [|done|done|].
  2:{ change (target T ++ ["config.json"%string]) with (target T ++ "config.json"%string :: []) in Hconfig |- *.
      rewrite Hout by done. destruct (Hu (target T ++ ["config.json"%string])) as [->|(_ & _ & v & E)]; [|done|].
      - intros [v E]. rewrite <- app_assoc in E. by apply app_inv_head in E.
      - apply (f_equal List.length) in E. rewrite !length_app in E. cbn in E. lia. }
  destruct (WriteJsonFile _ _ t3) as [[e|[]] t4] eqn:E4; [done|]. injection Hrun as _ <-.
  assert (Hp : forall name x, name <> "_distributions"%string ->
            node_at t4 ((target T ++ [name]) ++ x) = node_at t3 ((target T ++ [name]) ++ x)).
  { intros name x Hn. eapply pointer_written; [by apply Kw|by apply Kd|exact E4|].
    intros [v E]. rewrite <- !app_assoc in E. apply app_inv_head in E. cbn in E. by injection E as E _. }
  assert (Hfin : same_subtree t origin_root t3 final) by (intros x; by rewrite Kf, Hs2, Hs1).
  split.
  - intros x. pose proof (Hp "_publications"%string (id :: x) ltac:(done)) as E.
    rewrite <- !app_assoc in E. rewrite <- (Hfin x), <- !app_assoc. exact E.
  - eapply Forall_impl; [apply Forall_and; split; [exact Hplane|apply read_plane_names]|].
    intros name [Hs (_ & _ & Hname)] x. rewrite Hp by done.
    rewrite Hs, <- (app_assoc final), Hs2, Hs1. by rewrite <- (app_assoc origin_root).
Qed.
End Steps.

(** The outcome of a run is that of its work on the files, unless what follows fails. *)
Lemma sync_outcome {DB} `{JsonLib} `{Host} `{PostgresStore DB} config (w w' : MirrorWorld DB) outcome :
  RunMirrorSyncOnce config w = (outcome, w') -> mirror_source_root (registry config) <> EmptyString ->
  exists synced u, sync_files (mirror_source_root (registry config)) (registry_root (registry config)) (mirror_files w)
                   = (synced, u)
    /\ u = mirror_files w' /\ (outcome = inr 0 -> exists o, synced = inr o).
Proof.
  intros Hrun Hne. apply is_empty_false in Hne. unfold RunMirrorSyncOnce in Hrun. rewrite Hne in Hrun.
  unfold catch_std, catch, m_bind at 1, on_mirror_files, zoom in Hrun.
  destruct (sync_files _ _ (mirror_files w)) as [[e|origin] u].
  - exists (inl e), u. split; [done|]. cbn [fst snd] in Hrun. cbv beta iota in Hrun.
    destruct e; injection Hrun as <- <-; by split.
  - exists (inr origin), u. split; [done|]. split; [|by eexists]. unfold gets, m_bind, lift in Hrun.
    destruct (state_backend config =s "postgres").
    + unfold record_state, m_bind, lift in Hrun. destruct (value_string (publication origin) _ _) as [e|];
        [destruct e; by injection Hrun as _ <-|].
      destruct (value_string (current origin) _ _) as [e|]; [destruct e; by injection Hrun as _ <-|].
      destruct (pg_RecordMirrorState _ _ _ _ _ _ _ _ _ _) as [[e|[]] store]; [|by injection Hrun as _ <-].
      destruct e; by injection Hrun as _ <-.
    + by injection Hrun as _ <-.
Qed.

(** ** Properties *)

(** C20. The mirror publishes only what it verified. Let the origin, a tree apart from
    the registry, publish what [read_origin] finds there. When a run returns 0, that
    publication passed its verification as it stands at the origin, its copy in the
    registry is equal to it entry for entry, and so is each part of the read plane -
    configuration, trust, artifacts, index and log - which it replaced. When it
    does not pass, the run does not return 0, and nothing in the registry outside
    the temporary directory has changed. *)
Theorem mirrors_publish_what_they_verified {DB} `{JsonLib} `{Host} `{PostgresStore DB} config
    (w w' : MirrorWorld DB) outcome origin :
  let S := mirror_source_root (registry config) in
  let T := registry_root (registry config) in
  let t := mirror_files w in
  let published := target S ++ ["_publications"%string; publication_id origin] in
  let verified := VerifyPublicationSnapshot (origin_publication_root S (publication_id origin))
                    (publication origin) t in
  simple_path S -> simple_path T -> apart (target S) (target T) -> wf_tree t ->
  read_origin S t = inr origin -> plain (publication_id origin) ->
  node_at t (target T ++ ["config.json"%string]) <> Some Directory ->
  RunMirrorSyncOnce config w = (outcome, w') ->
  (outcome = inr 0 -> verified = inr tt
     /\ same_subtree t published (mirror_files w') (target T ++ ["_publications"%string; publication_id origin])
     /\ Forall (fun name => same_subtree t (published ++ [name]) (mirror_files w') (target T ++ [name])) mirror_plane)
  /\ (verified <> inr tt -> outcome <> inr 0 /\ unpublished T t (mirror_files w')).
Proof.
  intros S T t published verified HS HT Ha Hwf Horigin Hid Hconfig Hrun.
  destruct (sync_outcome config w w' outcome Hrun) as (synced & u & Hsync & Hu & Hzero).
  { by destruct HS. }
  destruct (files_synced S T (publication_id origin) HS HT Hid Ha t origin synced u) as [Hok Hbad]; try done.
  subst u. split.
  - intros ->. destruct (Hzero eq_refl) as [o ->]. by apply (Hok o).
  - intros Hv. destruct (Hbad Hv) as [[e ->] Hun]. split; [|done]. intros ->. by destruct (Hzero eq_refl) as [o ?].
Qed.

(** ** The property on a concrete origin *)

Section Demo.
#[local] Existing Instances text_json_lib demo_host demo_postgres.

Definition demo_plane (root : string) (t : FileTree) : FileTree :=
  <[[root; "_publications"; "p1"; "trust"; "root.json"] := Regular "{}"]>
  (<[[root; "_publications"; "p1"; "trust"] := Directory]>
  (<[[root; "_publications"; "p1"; "config.json"] := Regular "{}"]>
  (<[[root; "_publications"; "p1"] := Directory]>
  (<[[root; "_publications"] := Directory]> (<[[root] := Directory]> t)))))%string.
Definition demo_digest (name : string) : string :=
  match DirectoryDigest (path_join (origin_publication_root "origin" "p1") name) (demo_plane "origin" ∅) with
  | inr digest => digest
  | inl _ => EmptyString
  end.
Definition demo_publication (verified : bool) : json :=
  obj [("verified", JBool verified); ("artifact_count", JInt 0); ("index_digest", JString (demo_digest "index"));
       ("trust_digest", JString (demo_digest "trust")); ("tree_size", JInt 0)]%string.
Definition demo_current : json := obj [("publication_id", JString "p1")]%string.
Definition demo_origin_tree (verified : bool) : FileTree :=
  <[["origin"; "_publications"; "p1"; "publication.json"] := Regular (print_json (demo_publication verified))]>
  (<[["origin"; "_distributions"; "default"; "current.json"] := Regular (print_json demo_current)]>
  (<[["origin"; "_distributions"; "default"] := Directory]>
  (<[["origin"; "_distributions"] := Directory]> (demo_plane "origin" ∅))))%string.
Definition demo_config : PlatformConfig :=
  LoadPlatformConfigFromEnvironment (fun name =>
    if (name =s "STYIO_PLATFORM_REGISTRY_MIRROR_SOURCE_ROOT")%string then Some "origin"%string
    else if (name =s "STYIO_PLATFORM_REGISTRY_ROOT")%string then Some "registry"%string else None).

Lemma demo_origin_wf verified : wf_tree (demo_origin_tree verified).
Proof.
  unfold demo_origin_tree, demo_plane. generalize (print_json (demo_publication verified)). intros text.
  repeat (apply wf_insert; [|by repeat (constructor; [by repeat split|])|done|done|by (left + right)]).
  apply wf_empty.
Qed.
Definition demo_mirror (verified : bool) : MirrorWorld unit := mkMirror (demo_origin_tree verified) None.

(** A publication that is not marked as verified is refused. *)
Example demo_refused : (RunMirrorSyncOnce demo_config (demo_mirror false)).1 = inr 1.
Proof. vm_compute. reflexivity. Qed.

Lemma mirrors_publish_what_they_verified_witness :
  let '(outcome, w') := RunMirrorSyncOnce demo_config (demo_mirror true) in
  outcome = inr 0
  /\ same_subtree (demo_origin_tree true) ["origin"; "_publications"; "p1"]%string
       (mirror_files w') ["registry"; "_publications"; "p1"]%string.
Proof.
  destruct (simple_name "origin") as [Ho Eo]; [done|]. destruct (simple_name "registry") as [Hr Er]; [done|].
  assert (Ha : apart (target "origin") (target "registry")) by (rewrite Eo, Er; by intros x y [=]).
  assert (Hp : plain "p1") by done.
  assert (Hc : node_at (demo_origin_tree true) (target "registry" ++ ["config.json"%string]) <> Some Directory)
    by by rewrite Er.
  assert (Hread : read_origin "origin" (demo_origin_tree true)
                  = inr (mkOrigin "p1" demo_current (demo_publication true))) by (vm_compute; reflexivity).
  assert (Hz : (RunMirrorSyncOnce demo_config (demo_mirror true)).1 = inr 0) by (vm_compute; reflexivity).
  destruct (RunMirrorSyncOnce demo_config (demo_mirror true)) as [outcome w'] eqn:E. cbn [fst] in Hz.
  split; [exact Hz|].
  destruct (mirrors_publish_what_they_verified demo_config (demo_mirror true) w' outcome
              (mkOrigin "p1" demo_current (demo_publication true))
              Ho Hr Ha (demo_origin_wf true) Hread Hp Hc E) as [Hok _].
  destruct (Hok Hz) as (_ & Hs & _). clear E.
  change (same_subtree (demo_origin_tree true) (target "origin" ++ ["_publications"; "p1"]%string) (mirror_files w')
            (target "registry" ++ ["_publications"; "p1"]%string)) in Hs.
  rewrite Eo, Er in Hs. exact Hs.
Defined.
End Demo.
