(* ===== verification/Router.v ===== *)
(** The router ([PlatformService/Router.cpp]): construction, identity check, rate
    limiting, dispatch, and the node, work-group and operations handlers
    ([PlatformService/PlatformOps/OpsRoutes.cpp]). *)
From stdpp Require Import base list gmap strings.
From Stdlib Require Import ZArith Lia Ascii String.
From S2P Require Import Prelude Json StateRecords MemoryStateStore Identity Http Config.
From S2P Require Import FileSystem RouterSupport JobQueue Workspace ObjectStore Governance.
From S2P Require Import ExternalIdentity Toml RegistryAccess RegistryQueries RegistryTrust.
From S2P Require Import RegistryPublish RegistryDistribution Recovery Demo DemoServices.

(** [PlatformRouter::RequireIdentity]. *)
Definition RequireIdentity (config : PlatformConfig) (m : RouteMatch) (request : HttpRequest)
  : HttpResponse :=
  let operation := operation_id (route m) in
  if operation =s "exchangeExternalIdentity" then JsonResponse 200 JNull
  else if negb (mtls_required (mtls config)) then JsonResponse 200 JNull
  else
    match req_identity request with
    | None =>
        if internal (route m) && IsRegistryTokenCapableOperation operation
           && match RegistryTokenFromHeaders (req_headers request) with
              | Some _ => true | None => false end
        then JsonResponse 200 JNull
        else FailureResponse 401 "mTLS identity is required" "missing client certificate identity"
               "AuthError" operation 2
    | Some identity =>
        if internal (route m) && negb (IsInternalRole identity)
        then FailureResponse 403 "mTLS identity is not authorized"
               "internal route requires a service role" "AuthError" operation 2
        else if negb (IsAuthorizedForOperation operation identity)
        then FailureResponse 403 "mTLS identity is not authorized"
               "identity role is not allowed for this operation" "AuthError" operation 2
        else JsonResponse 200 JNull
    end.

Section Router.
Context {DB : Type} `{JsonLib} `{Host} `{PostgresStore DB} `{CurlHost curl_history} `{SigningHost} `{TomlLib}
  (config : PlatformConfig).

(** The state the constructor leaves. *)
Definition initial_router (files : FileTree) : PlatformRouter DB :=
  mkRouter
    (MemoryStateStore.RecordMirrorState (config_mirror_id (registry config)) (config_region config)
       (mirror_origin (registry config)) "lagging" "checkpoint-0000" "" "" "" 0 initial_store).2
    (if UsesPostgresState config then Some (pg_connect (postgres_dsn config)) else None)
    ∅ (mkMetrics 0 ∅ ∅) 0 0 files [].

Definition HandleHealth : RouterM DB HttpResponse :=
  let postgres_ready := negb (UsesPostgresState config)
                        || (LooksLikePostgresDsn (postgres_dsn config) && PostgresDriverAvailable) in
  let ready := postgres_ready && IsObjectStoreProviderImplemented
                 (ParseObjectStoreProvider (provider (object_store config))) in
  let payload :=
    obj [("service", JString "styio-platformd");
         ("status", JString (if ready then "ready" else "degraded"));
         ("region", JString (config_region config));
         ("node_id", JString (config_node_id config));
         ("contract_version", JString "v1");
         ("roles", strings (roles config));
         ("state_backend", JString (state_backend config));
         ("postgres_driver_available", JBool PostgresDriverAvailable)] in
  m_ret (JsonResponse 200 (SuccessEnvelope
    (if ready then "styio-platform is ready" else "styio-platform is degraded") payload)).

Definition HandleNodeSelf : RouterM DB HttpResponse :=
  let payload :=
    obj [("node_id", JString (config_node_id config));
         ("region", JString (config_region config));
         ("roles", strings (roles config));
         ("state_backend", JString (state_backend config));
         ("postgres_configured", JBool (LooksLikePostgresDsn (postgres_dsn config)));
         ("postgres_driver_available", JBool PostgresDriverAvailable);
         ("object_store_provider",
          JString (ProviderToString (ParseObjectStoreProvider (provider (object_store config)))));
         ("mtls_required", JBool (mtls_required (mtls config)))] in
  m_ret (JsonResponse 200 (SuccessEnvelope "resolved current platform node" payload)).

Definition HandleRegisterWorkgroupCluster (m : RouteMatch) (request : HttpRequest)
  : RouterM DB HttpResponse :=
  let rejected := "workgroup registration rejected"%string in
  let operation := "registerWorkgroupCluster"%string in
  let body := req_body request in
  workgroup_id <- lift (parameter m "workgroup_id") ;;
  if negb (workgroup_enabled (workgroup config))
  then reject 403 rejected "workgroup support is disabled" "PolicyError" operation 2
  else if match req_identity request with
          | Some identity =>
              identity_tenant_id identity <>s registration_tenant (workgroup config)
          | None => false
          end
  then reject 403 rejected "identity tenant is not allowed to register clusters" "AuthError"
         operation 2
  else
    bad_token <- (if negb (is_empty (registration_token (workgroup config)))
                  then token <- lift (value_string body "registration_token" "") ;;
                       m_ret (token <>s registration_token (workgroup config))
                  else m_ret false) ;;
    if (bad_token : bool)
    then reject 403 rejected "registration token is invalid" "AuthError" operation 2
    else
      match ValidateWorkgroupClusterRegistration workgroup_id body with
      | Some error => reject 400 rejected error "ValidationError" operation 2
      | None =>
          cluster <- lift (BuildWorkgroupClusterRecord workgroup_id body config
                             (req_identity request)) ;;
          if_postgres
            (or_postgres_error "workgroup registration failed" operation
               (payload <- on_postgres (pg_RegisterWorkgroupCluster workgroup_id cluster) ;;
                ok "registered workgroup cluster" payload))
            (payload <- on_memory (RegisterWorkgroupCluster workgroup_id cluster) ;;
             ok "registered workgroup cluster" payload)
      end.

Definition HandleListWorkgroupClusters (m : RouteMatch) : RouterM DB HttpResponse :=
  workgroup_id <- lift (parameter m "workgroup_id") ;;
  let respond (clusters : json) :=
    ok "loaded workgroup clusters"
      (obj [("workgroup_id", JString workgroup_id); ("policy", WorkgroupPolicyPayload config);
            ("clusters", clusters)]) in
  if negb (IsSafeWorkgroupId workgroup_id)
  then reject 400 "workgroup lookup rejected" "workgroup_id is invalid" "ValidationError"
         "listWorkgroupClusters" 2
  else
    if_postgres
      (clusters <- catch_std (c <- on_postgres (pg_ListWorkgroupClusters workgroup_id) ;;
                              m_ret (inr c))
         (fun e => m_ret (inl (FailureResponse 503 "workgroup lookup failed" (what e)
                                 "PostgresError" "listWorkgroupClusters" 17))) ;;
       match (clusters : HttpResponse + json) with
       | inl response => m_ret response
       | inr clusters => respond clusters
       end)
      (clusters <- on_memory (gets (ListWorkgroupClusters workgroup_id)) ;; respond clusters).

Definition HandleListAuditEvents : RouterM DB HttpResponse :=
  events <- if_postgres (on_postgres pg_ListRegistryAuditEvents)
              (on_memory (gets ListRegistryAuditEvents)) ;;
  ok "loaded audit events" (obj [("events", events)]).

Definition HandleMetrics : RouterM DB HttpResponse :=
  fun r =>
    ok "loaded platform metrics"
      (obj [("requests", MetricsSnapshot (metrics_ r));
            ("rate_limiter", RateLimiterSnapshot (rate_limiter_ r))]) r.

Definition HandleExchangeExternalIdentity (request : HttpRequest) : RouterM DB HttpResponse :=
  catch_std
    (record <- lift (NormalizeExternalIdentity (req_body request)) ;;
     ok "exchanged external identity" (SerializeExternalIdentityRecord record))
    (fun error => m_ret (FailureResponse 400 "external identity exchange failed" (what error)
                           "ExternalIdentityError" "exchangeExternalIdentity" 2)).

(** The five dispatchers: the handler of an operation, when it is theirs. *)
Definition DispatchPlatformNodeOperation (m : RouteMatch) (request : HttpRequest)
  : option (RouterM DB HttpResponse) :=
  let operation := operation_id (route m) in
  if operation =s "health" then Some HandleHealth
  else if operation =s "nodeSelf" then Some HandleNodeSelf
  else if operation =s "registerWorkgroupCluster"
    then Some (HandleRegisterWorkgroupCluster m request)
  else if operation =s "listWorkgroupClusters" then Some (HandleListWorkgroupClusters m)
  else None.

Definition DispatchWorkspaceOperation (m : RouteMatch) (request : HttpRequest)
  : option (RouterM DB HttpResponse) :=
  let operation := operation_id (route m) in
  if operation =s "submitJob" then Some (HandleSubmitJob config request)
  else if operation =s "getJob" then Some (HandleGetJob m)
  else if operation =s "getJobEvents" then Some (HandleGetJobEvents m)
  else if operation =s "cancelJob" then Some (HandleCancelJob m request)
  else if operation =s "registerWorker" then Some (HandleRegisterWorker request)
  else if operation =s "registerCompileContainer"
    then Some (HandleRegisterCompileContainer request)
  else if operation =s "getCompileContainer" then Some (HandleGetCompileContainer m)
  else if operation =s "switchCompileContainerWorkspace"
    then Some (HandleSwitchCompileContainerWorkspace m request)
  else if operation =s "claimJob" then Some (HandleClaimJob request)
  else if operation =s "heartbeatJob" then Some (HandleHeartbeatJob m request)
  else if operation =s "completeJob" then Some (HandleCompleteJob m request)
  else None.

Definition DispatchGovernanceOperation (m : RouteMatch) (request : HttpRequest)
  : option (RouterM DB HttpResponse) :=
  let operation := operation_id (route m) in
  if operation =s "listDocumentationGovernance" then Some HandleListDocumentationGovernance
  else if operation =s "planDocumentationChange" then Some (HandlePlanDocumentationChange request)
  else if operation =s "listEcosystemRepositories" then Some HandleListEcosystemRepositories
  else if operation =s "planEcosystemRelease" then Some (HandlePlanEcosystemRelease request)
  else None.

Definition DispatchRegistryOperation (m : RouteMatch) (request : HttpRequest)
  : option (RouterM DB HttpResponse) :=
  let operation := operation_id (route m) in
  if operation =s "mirrorStatus" then Some (HandleMirrorStatus m)
  else if operation =s "registryStatus" then Some (HandleRegistryStatus config)
  else if operation =s "registryDescriptor" then Some (HandleRegistryDescriptor config)
  else if operation =s "publishRelease" then Some (HandlePublishRelease config request)
  else if operation =s "verifyRegistry" then Some (HandleVerifyRegistry config request)
  else if operation =s "getPackage" then Some (HandleGetPackage config m)
  else if operation =s "listPackageReleases" then Some (HandleListPackageReleases config m)
  else if operation =s "getPackageRelease" then Some (HandleGetPackageRelease config m)
  else if operation =s "yankPackageRelease"
    then Some (HandleSetPackageReleaseYanked config m request true)
  else if operation =s "unyankPackageRelease"
    then Some (HandleSetPackageReleaseYanked config m request false)
  else if operation =s "listPackageOwners" then Some (HandleListPackageOwners config m)
  else if operation =s "addPackageOwner" then Some (HandleAddPackageOwner config m request)
  else if operation =s "removePackageOwner" then Some (HandleRemovePackageOwner m request)
  else if operation =s "createPublishToken" then Some (HandleCreatePublishToken request)
  else if operation =s "listPublishTokens" then Some (HandleListPublishTokens request)
  else if operation =s "revokePublishToken" then Some (HandleRevokePublishToken m request)
  else if operation =s "listRepositories" then Some HandleListRepositories
  else if operation =s "listRepositoryVersions" then Some (HandleListRepositoryVersions m)
  else if operation =s "getPublication" then Some (HandleGetPublication config m)
  else if operation =s "verifyPublication" then Some (HandleVerifyPublication config m request)
  else if operation =s "listDistributions" then Some (HandleListDistributions config)
  else if operation =s "promoteDistribution" then Some (HandlePromoteDistribution config m request)
  else if operation =s "rollbackDistribution" then Some (HandleRollbackDistribution config m request)
  else if operation =s "listReleaseChannels" then Some (HandleListReleaseChannels config)
  else if operation =s "rolloutReleaseChannel" then Some (HandleRolloutReleaseChannel config m request)
  else None.

Definition DispatchOperationsOperation (m : RouteMatch) (request : HttpRequest)
  : option (RouterM DB HttpResponse) :=
  let operation := operation_id (route m) in
  if operation =s "createRecoverySnapshot" then Some (HandleCreateRecoverySnapshot config request)
  else if operation =s "listRecoverySnapshots" then Some (HandleListRecoverySnapshots config)
  else if operation =s "restoreRecoverySnapshot"
    then Some (HandleRestoreRecoverySnapshot config m request)
  else if operation =s "listAuditEvents" then Some HandleListAuditEvents
  else if operation =s "platformMetrics" then Some HandleMetrics
  else if operation =s "storageStatus" then Some (HandleStorageStatus config)
  else if operation =s "exchangeExternalIdentity"
    then Some (HandleExchangeExternalIdentity request)
  else None.

Definition DispatchMatchedOperation (m : RouteMatch) (request : HttpRequest)
  : RouterM DB HttpResponse :=
  match DispatchPlatformNodeOperation m request with
  | Some h => h
  | None =>
  match DispatchWorkspaceOperation m request with
  | Some h => h
  | None =>
  match DispatchGovernanceOperation m request with
  | Some h => h
  | None =>
  match DispatchRegistryOperation m request with
  | Some h => h
  | None =>
  match DispatchOperationsOperation m request with
  | Some h => h
  | None =>
      let operation := operation_id (route m) in
      m_ret (JsonResponse 500 (FailureEnvelope "route handler missing" operation "InternalError"
                                 operation 17))
  end end end end end.

(** [rate_limiter_.Allow(...)] and [metrics_.Record(...)] on the router. *)
Definition router_allow (subject operation : string) (now : Z) : RouterM DB bool :=
  fun r => let '(allowed, buckets) := Allow subject operation 600 60 now (rate_limiter_ r) in
           (inr allowed, mkRouter (memory_ r) (postgres_ r) buckets (metrics_ r)
                           (clock_readings r) (random_draws r) (files_ r) (curl_calls r)).
Definition router_record (operation : string) (status : Z) : RouterM DB unit :=
  modify (fun r => mkRouter (memory_ r) (postgres_ r) (rate_limiter_ r)
                     (RecordMetric operation status (metrics_ r)) (clock_readings r)
                     (random_draws r) (files_ r) (curl_calls r)).

Definition Dispatch (request : HttpRequest) : RouterM DB HttpResponse :=
  match MatchRoute PlatformRoutes (req_method request) (req_path request) with
  | None => m_ret (JsonResponse 404 (FailureEnvelope "route not found" (req_path request)
                     "NotFound" "unknown" 17))
  | Some m =>
      let identity_response := RequireIdentity config m request in
      if negb (status_code identity_response =? 200) then m_ret identity_response
      else
        let operation := operation_id (route m) in
        now <- UnixSecondsNow ;;
        allowed <- router_allow (RequestSubject request) operation now ;;
        if negb allowed then
          router_record operation 429 ;;;
          m_ret (FailureResponse 429 "request rate limited" "rate limit exceeded"
                   "RateLimitError" operation 17)
        else
          router_record operation 0 ;;;
          DispatchMatchedOperation m request
  end.
End Router.

(** ** What the gate promises *)

(** Who may run an operation. *)
Definition entitled (config : PlatformConfig) (m : RouteMatch) (request : HttpRequest) : bool :=
  let operation := operation_id (route m) in
  (operation =s "exchangeExternalIdentity")
  || negb (mtls_required (mtls config))
  || match req_identity request with
     | None => internal (route m) && IsRegistryTokenCapableOperation operation
               && negb (bool_decide (RegistryTokenFromHeaders (req_headers request) = None))
     | Some identity => (negb (internal (route m)) || IsInternalRole identity)
                        && IsAuthorizedForOperation operation identity
     end.

(** The operations a client without a certificate can reach at all. *)
Definition anonymous_operations : list string :=
  ["exchangeExternalIdentity"; "publishRelease"; "yankPackageRelease"; "unyankPackageRelease";
   "addPackageOwner"; "removePackageOwner"; "promoteDistribution"; "rollbackDistribution"].

(** Successive [Allow] calls of one subject and operation: how many succeed. *)
Fixpoint allowed_count (subject operation : string) (limit window : Z) (times : list Z)
    (buckets : RateLimiter) : Z :=
  match times with
  | [] => 0
  | now :: times =>
      let '(ok, buckets) := Allow subject operation limit window now buckets in
      (if ok then 1 else 0) + allowed_count subject operation limit window times buckets
  end.

(** The count of the bucket a call at [now] would use. *)
Definition stored_bucket (subject operation : string) (buckets : RateLimiter) : Bucket :=
  default (mkBucket 0 0) (buckets !! (subject +:+ ":" +:+ operation)).

(** The workspace operation behind an operation id. *)
Definition workspace_op_of (operation : string) : option workspace_op :=
  if operation =s "submitJob" then Some OpSubmitJob
  else if operation =s "getJob" then Some OpGetJob
  else if operation =s "getJobEvents" then Some OpGetJobEvents
  else if operation =s "cancelJob" then Some OpCancelJob
  else if operation =s "registerWorker" then Some OpRegisterWorker
  else if operation =s "registerCompileContainer" then Some OpRegisterCompileContainer
  else if operation =s "getCompileContainer" then Some OpGetCompileContainer
  else if operation =s "switchCompileContainerWorkspace" then Some OpSwitchWorkspace
  else if operation =s "claimJob" then Some OpClaimJob
  else if operation =s "heartbeatJob" then Some OpHeartbeatJob
  else if operation =s "completeJob" then Some OpCompleteJob
  else None.

(** Whether the route of an operation binds the path parameter its handler reads. *)
Definition parameters_provided (r : RouteSpec) : bool :=
  match workspace_op_of (operation_id r) with
  | Some op => match op_parameter op with
               | Some name => string_in name (parameter_names r)
               | None => true
               end
  | None => true
  end.

(** The operations of each dispatcher, in the order it tests them. *)
Definition node_operations : list string :=
  ["health"; "nodeSelf"; "registerWorkgroupCluster"; "listWorkgroupClusters"].
Definition workspace_operations : list string :=
  ["submitJob"; "getJob"; "getJobEvents"; "cancelJob"; "registerWorker";
   "registerCompileContainer"; "getCompileContainer"; "switchCompileContainerWorkspace";
   "claimJob"; "heartbeatJob"; "completeJob"].
Definition governance_operations : list string :=
  ["listDocumentationGovernance"; "planDocumentationChange"; "listEcosystemRepositories";
   "planEcosystemRelease"].
Definition registry_operations : list string :=
  ["mirrorStatus"; "registryStatus"; "registryDescriptor"; "publishRelease"; "verifyRegistry";
   "getPackage"; "listPackageReleases"; "getPackageRelease"; "yankPackageRelease";
   "unyankPackageRelease"; "listPackageOwners"; "addPackageOwner"; "removePackageOwner";
   "createPublishToken"; "listPublishTokens"; "revokePublishToken"; "listRepositories";
   "listRepositoryVersions"; "getPublication"; "verifyPublication"; "listDistributions";
   "promoteDistribution"; "rollbackDistribution"; "listReleaseChannels";
   "rolloutReleaseChannel"].
Definition operations_operations : list string :=
  ["createRecoverySnapshot"; "listRecoverySnapshots"; "restoreRecoverySnapshot";
   "listAuditEvents"; "platformMetrics"; "storageStatus"; "exchangeExternalIdentity"].
Definition operation_lists : list (list string) :=
  [node_operations; workspace_operations; governance_operations; registry_operations;
   operations_operations].

(** The answers of the five dispatchers to a matched request. *)
Definition dispatcher_answers {DB} `{JsonLib} `{Host} `{PostgresStore DB} `{CurlHost curl_history} `{SigningHost} `{TomlLib}
    (config : PlatformConfig) (m : RouteMatch) (request : HttpRequest)
  : list (RouterM DB HttpResponse) :=
  omap id [DispatchPlatformNodeOperation config m request;
           DispatchWorkspaceOperation config m request;
           DispatchGovernanceOperation m request; DispatchRegistryOperation config m request;
           DispatchOperationsOperation config m request].

(** * Lemmas *)

Lemma FailureResponse_status s message detail category operation rc :
  status_code (FailureResponse s message detail category operation rc) = s.
Proof. unfold FailureResponse. by destruct (IsRegistryOperation _). Qed.

Lemma RequireIdentity_entitled config m request :
  if entitled config m request then status_code (RequireIdentity config m request) = 200
  else status_code (RequireIdentity config m request) = 401 /\ req_identity request = None
       \/ status_code (RequireIdentity config m request) = 403 /\ req_identity request <> None.
Proof.
  unfold entitled, RequireIdentity. destruct (_ =s "exchangeExternalIdentity"); [done|].
  destruct (negb _); [done|]. cbn [orb]. destruct (req_identity request) as [i|].
  - destruct (internal _); cbn [negb andb orb].
    + destruct (IsInternalRole i); cbn [negb andb];
        [destruct (IsAuthorizedForOperation _ _); cbn [negb]|];
        rewrite ?FailureResponse_status; auto.
    + destruct (IsAuthorizedForOperation _ _); cbn [negb];
        rewrite ?FailureResponse_status; auto.
  - destruct (RegistryTokenFromHeaders _); cbn;
      destruct (internal _ && IsRegistryTokenCapableOperation _); cbn;
      rewrite ?FailureResponse_status; auto.
Qed.

Lemma anonymous_entitled config m request :
  mtls_required (mtls config) = true -> req_identity request = None ->
  entitled config m request = true -> operation_id (route m) ∈ anonymous_operations.
Proof.
  unfold entitled. intros -> ->. cbn [negb]. rewrite orb_false_r.
  intros [H%str_eqb_iff|H]%orb_true_iff; [rewrite H; by apply list_elem_of_In; left|].
  apply andb_true_iff in H as [[_ H]%andb_true_iff _].
  unfold IsRegistryTokenCapableOperation in H.
  repeat (apply orb_true_iff in H as [H|H]); apply str_eqb_iff in H;
    rewrite H; apply string_in_iff; reflexivity.
Qed.

Lemma routed_operation_in routes method path m :
  MatchRoute routes method path = Some m ->
  route m ∈ routes
  /\ forall k, k ∈ parameter_names (route m) -> is_Some (parameters m !! k).
Proof.
  intros H. unfold MatchRoute in H.
  pose proof (MatchRoute_parts_spec routes method path) as Hs. rewrite H in Hs.
  destruct Hs as (b & a & Hl & _ & Hfit & Hp). split.
  { rewrite Hl, elem_of_app. right. apply list_elem_of_here. }
  intros k Hk. unfold route_fits in Hfit. apply andb_true_iff in Hfit as [_ Hfit].
  apply (match_segments_dom _ _ _ _ (fits_length _ _ Hfit) Hp). by right.
Qed.

Lemma routed_operation method path m :
  MatchRoute PlatformRoutes method path = Some m ->
  route m ∈ PlatformRoutes
  /\ forall k, k ∈ parameter_names (route m) -> is_Some (parameters m !! k).
Proof. apply routed_operation_in. Qed.

(** A check over the whole table, read off by evaluation. *)
Lemma forall_routes (P : RouteSpec -> bool) :
  forallb P PlatformRoutes = true -> forall r, r ∈ PlatformRoutes -> P r = true.
Proof. rewrite forallb_forall. intros H r Hr. apply H. by apply list_elem_of_In. Qed.

Lemma parameters_provided_ok : forallb parameters_provided PlatformRoutes = true.
Proof. vm_compute. reflexivity. Qed.

Lemma workspace_parameters r op name :
  r ∈ PlatformRoutes -> workspace_op_of (operation_id r) = Some op ->
  op_parameter op = Some name -> name ∈ parameter_names r.
Proof.
  intros Hr Hop Hn. pose proof (forall_routes _ parameters_provided_ok r Hr) as Hp.
  unfold parameters_provided in Hp. rewrite Hop, Hn in Hp. by apply string_in_iff in Hp.
Qed.

Section RouterLemmas.
Context {DB : Type} `{JsonLib} `{Host} `{PostgresStore DB} `{CurlHost curl_history} `{SigningHost} `{TomlLib}
  (config : PlatformConfig).

Lemma DispatchWorkspace_run m request :
  DispatchWorkspaceOperation (DB := DB) config m request
  = (fun op => run_workspace config op m request) <$> workspace_op_of (operation_id (route m)).
Proof.
  unfold DispatchWorkspaceOperation, workspace_op_of.
  repeat match goal with |- context [?a =s ?b] => destruct (a =s b); [reflexivity|] end.
  reflexivity.
Qed.

Lemma DispatchNode_none m request op :
  workspace_op_of (operation_id (route m)) = Some op ->
  DispatchPlatformNodeOperation (DB := DB) config m request = None.
Proof.
  unfold DispatchPlatformNodeOperation. intros Hop.
  repeat match goal with |- context [?a =s ?b] =>
    destruct (a =s b) eqn:E; [apply str_eqb_iff in E; by rewrite E in Hop|clear E] end.
  reflexivity.
Qed.

(** Dispatch of a matched, entitled request: the clock is read, the limiter and
    the metrics advance, and then either 429 or the handler. *)
Lemma Dispatch_matched request m r :
  MatchRoute PlatformRoutes (req_method request) (req_path request) = Some m ->
  entitled config m request = true ->
  let operation := operation_id (route m) in
  let '(allowed, buckets) := Allow (RequestSubject request) operation 600 60
                               (clock_unix_seconds (clock_readings r)) (rate_limiter_ r) in
  Dispatch config request r
  = if allowed
    then DispatchMatchedOperation config m request
           (mkRouter (memory_ r) (postgres_ r) buckets (RecordMetric operation 0 (metrics_ r))
              (S (clock_readings r)) (random_draws r) (files_ r) (curl_calls r))
    else (inr (FailureResponse 429 "request rate limited" "rate limit exceeded"
                 "RateLimitError" operation 17),
          mkRouter (memory_ r) (postgres_ r) buckets (RecordMetric operation 429 (metrics_ r))
            (S (clock_readings r)) (random_draws r) (files_ r) (curl_calls r)).
Proof.
  intros Hm He operation.
  pose proof (RequireIdentity_entitled config m request) as Hi. rewrite He in Hi.
  unfold Dispatch. rewrite Hm, Hi. cbn [Z.eqb negb Pos.eqb].
  unfold UnixSecondsNow, m_bind, next_reading, m_ret, router_allow, router_record, modify.
  cbn [memory_ postgres_ rate_limiter_ metrics_ clock_readings]. fold operation.
  destruct (Allow _ _ _ _ _ _) as [allowed buckets]. by destruct allowed.
Qed.
End RouterLemmas.

(** ** The rate limiter *)

Lemma i32_small z : - 2 ^ 31 <= z < 2 ^ 31 -> i32 z = z.
Proof. intros Hz. unfold i32. rewrite Z.mod_small; lia. Qed.

(** One call, on the bucket. *)
Lemma Allow_bucket subject operation limit window now buckets :
  0 < limit -> 0 < window ->
  let b := stored_bucket subject operation buckets in
  let fresh := (window_start b =? 0) || (window <=? now - window_start b) in
  let start := if fresh then now else window_start b in
  let count := i32 ((if fresh then 0 else bucket_count b) + 1) in
  (Allow subject operation limit window now buckets).1 = (count <=? limit)
  /\ stored_bucket subject operation (Allow subject operation limit window now buckets).2
     = mkBucket start count.
Proof.
  intros Hl Hw. unfold Allow. assert ((limit <=? 0) || (window <=? 0) = false) as ->.
  { apply orb_false_iff. split; apply Z.leb_gt; lia. }
  fold (stored_bucket subject operation buckets).
  set (b := stored_bucket subject operation buckets). unfold stored_bucket.
  unfold RateLimiter in *. cbn zeta. cbn [fst snd].
  rewrite lookup_insert_eq. cbn [default].
  by destruct ((window_start b =? 0) || (window <=? now - window_start b)).
Qed.

(** Within the window of the bucket, calls succeed until the limit is reached. *)
Lemma allowed_count_open subject operation limit window times buckets :
  0 < limit -> 0 < window ->
  let b := stored_bucket subject operation buckets in
  window_start b <> 0 -> 0 <= bucket_count b ->
  bucket_count b + Z.of_nat (List.length times) < 2 ^ 31 ->
  Forall (fun t => t - window_start b < window) times ->
  allowed_count subject operation limit window times buckets
  = Z.max 0 (Z.min (Z.of_nat (List.length times)) (limit - bucket_count b)).
Proof.
  intros Hl Hw. revert buckets. induction times as [|now times IH]; intros buckets b Hs Hc Hn Ht.
  { cbn. lia. }
  apply Forall_cons in Ht as [Hnow Ht]. cbn [List.length] in Hn |- *.
  destruct (Allow_bucket subject operation limit window now buckets Hl Hw) as [Hok Hb].
  fold b in Hok, Hb.
  assert ((window_start b =? 0) || (window <=? now - window_start b) = false) as Hf.
  { apply orb_false_iff. split; [apply Z.eqb_neq; done|apply Z.leb_gt; lia]. }
  rewrite Hf, i32_small in Hok, Hb by lia.
  cbn [allowed_count]. destruct (Allow _ _ _ _ _ _) as [ok buckets']. cbn [fst snd] in Hok, Hb.
  rewrite IH; rewrite Hb; cbn [window_start bucket_count]; [|done|lia|lia|done].
  subst ok. destruct (Z.leb_spec (bucket_count b + 1) limit); lia.
Qed.

(** A bucket that is new or expired at the first call starts over. *)
Lemma allowed_count_fresh subject operation limit window now times buckets :
  0 < limit -> 0 < window -> now <> 0 ->
  let b := stored_bucket subject operation buckets in
  window_start b = 0 \/ window <= now - window_start b ->
  Z.of_nat (List.length (now :: times)) < 2 ^ 31 ->
  Forall (fun t => t - now < window) times ->
  allowed_count subject operation limit window (now :: times) buckets
  = Z.min (Z.of_nat (List.length (now :: times))) limit.
Proof.
  intros Hl Hw Hnow b Hf Hn Ht. cbn [List.length] in Hn |- *.
  destruct (Allow_bucket subject operation limit window now buckets Hl Hw) as [Hok Hb].
  fold b in Hok, Hb.
  assert ((window_start b =? 0) || (window <=? now - window_start b) = true) as Ht'.
  { apply orb_true_iff. rewrite Z.eqb_eq, Z.leb_le. done. }
  rewrite Ht' in Hok, Hb. change (i32 (0 + 1)) with 1 in Hok, Hb.
  cbn [allowed_count]. destruct (Allow _ _ _ _ _ _) as [ok buckets']. cbn [fst snd] in Hok, Hb.
  rewrite allowed_count_open; rewrite ?Hb; cbn [window_start bucket_count]; try lia; [|done].
  subst ok. destruct (Z.leb_spec 1 limit); lia.
Qed.

Lemma Forall_span (window first now : Z) times :
  first <= now -> Forall (fun t => first <= t < first + window) times ->
  Forall (fun t => t - now < window) times.
Proof. intros Hn H. eapply Forall_impl; [exact H|]. cbn. lia. Qed.

Lemma allowed_count_bound subject operation limit window first times buckets :
  0 < limit -> 0 < window -> 0 < first ->
  let b := stored_bucket subject operation buckets in
  0 <= bucket_count b -> bucket_count b + Z.of_nat (List.length times) < 2 ^ 31 ->
  Forall (fun t => first <= t < first + window) times ->
  allowed_count subject operation limit window times buckets
  <= Z.max 0 (limit - bucket_count b) + limit.
Proof.
  intros Hl Hw Hf. revert buckets. induction times as [|now times IH]; intros buckets b Hc Hn Ht.
  { cbn. lia. }
  pose proof Ht as Ht0. apply Forall_cons in Ht as [Hnow Ht]. cbn [List.length] in Hn.
  destruct ((window_start b =? 0) || (window <=? now - window_start b)) eqn:E.
  - apply orb_true_iff in E. rewrite Z.eqb_eq, Z.leb_le in E.
    rewrite allowed_count_fresh; [lia|lia|lia|lia|done|cbn [List.length]; lia|].
    by apply (Forall_span window first); [lia|].
  - destruct (Allow_bucket subject operation limit window now buckets Hl Hw) as [Hok Hb].
    fold b in Hok, Hb. rewrite E, i32_small in Hok, Hb by lia.
    cbn [allowed_count]. destruct (Allow _ _ _ _ _ _) as [ok buckets'].
    cbn [fst snd] in Hok, Hb. specialize (IH buckets'). rewrite Hb in IH.
    cbn [window_start bucket_count] in IH.
    specialize (IH ltac:(lia) ltac:(lia) Ht). subst ok.
    destruct (Z.leb_spec (bucket_count b + 1) limit); lia.
Qed.

(** A call leaves the buckets of other subjects and operations alone. *)
Lemma Allow_other subject operation limit window now buckets subject' operation' :
  str_contains_char operation ":" = false -> str_contains_char operation' ":" = false ->
  (subject, operation) <> (subject', operation') ->
  stored_bucket subject' operation' (Allow subject operation limit window now buckets).2
  = stored_bucket subject' operation' buckets.
Proof.
  intros Ho Ho' Hne. unfold Allow. destruct ((limit <=? 0) || (window <=? 0)); [done|].
  unfold stored_bucket, RateLimiter in *. cbn zeta. cbn [fst snd].
  rewrite lookup_insert_ne; [done|]. intros Heq.
  destruct (join_char_inj_r ":" subject operation subject' operation' Ho Ho' Heq). congruence.
Qed.

(** ** Dispatch *)

Section DispatchLemmas.
Context {DB : Type} `{JsonLib} `{Host} `{PostgresStore DB} `{CurlHost curl_history} `{SigningHost} `{TomlLib}
  (config : PlatformConfig).

Ltac dispatcher_cases :=
  repeat match goal with
         | |- context [?a =s ?b] => destruct (a =s b); [cbn; reflexivity|]
         end; reflexivity.

Lemma DispatchNode_operations m request :
  bool_decide (is_Some (DispatchPlatformNodeOperation (DB := DB) config m request))
  = string_in (operation_id (route m)) node_operations.
Proof.
  unfold DispatchPlatformNodeOperation, string_in, node_operations. cbn -[String.eqb].
  dispatcher_cases.
Qed.
Lemma DispatchWorkspace_operations m request :
  bool_decide (is_Some (DispatchWorkspaceOperation (DB := DB) config m request))
  = string_in (operation_id (route m)) workspace_operations.
Proof.
  unfold DispatchWorkspaceOperation, string_in, workspace_operations. cbn -[String.eqb].
  dispatcher_cases.
Qed.
Lemma DispatchGovernance_operations m request :
  bool_decide (is_Some (DispatchGovernanceOperation (DB := DB) m request))
  = string_in (operation_id (route m)) governance_operations.
Proof.
  unfold DispatchGovernanceOperation, string_in, governance_operations. cbn -[String.eqb].
  dispatcher_cases.
Qed.
Lemma DispatchRegistry_operations m request :
  bool_decide (is_Some (DispatchRegistryOperation (DB := DB) config m request))
  = string_in (operation_id (route m)) registry_operations.
Proof.
  unfold DispatchRegistryOperation, string_in, registry_operations. cbn -[String.eqb].
  dispatcher_cases.
Qed.
Lemma DispatchOperations_operations m request :
  bool_decide (is_Some (DispatchOperationsOperation (DB := DB) config m request))
  = string_in (operation_id (route m)) operations_operations.
Proof.
  unfold DispatchOperationsOperation, string_in, operations_operations. cbn -[String.eqb].
  dispatcher_cases.
Qed.

Lemma dispatcher_count m request :
  List.length (dispatcher_answers (DB := DB) config m request)
  = List.length (List.filter (string_in (operation_id (route m))) operation_lists).
Proof.
  unfold dispatcher_answers, operation_lists. cbn [List.filter].
  rewrite <- DispatchNode_operations with (request := request).
  rewrite <- DispatchWorkspace_operations with (request := request).
  rewrite <- DispatchGovernance_operations with (request := request).
  rewrite <- DispatchRegistry_operations with (request := request).
  rewrite <- DispatchOperations_operations with (request := request).
  destruct (DispatchPlatformNodeOperation _ _ _), (DispatchWorkspaceOperation _ _ _),
    (DispatchGovernanceOperation _ _), (DispatchRegistryOperation _ _),
    (DispatchOperationsOperation _ _); reflexivity.
Qed.

Lemma DispatchMatched_answers m request h :
  dispatcher_answers (DB := DB) config m request = [h] ->
  DispatchMatchedOperation config m request = h.
Proof.
  unfold dispatcher_answers, DispatchMatchedOperation.
  destruct (DispatchPlatformNodeOperation _ _ _), (DispatchWorkspaceOperation _ _ _),
    (DispatchGovernanceOperation _ _), (DispatchRegistryOperation _ _),
    (DispatchOperationsOperation _ _); cbn; congruence.
Qed.
End DispatchLemmas.

Lemma operations_partitioned :
  forallb (fun r => Nat.eqb (List.length (List.filter (string_in (operation_id r)) operation_lists)) 1
                    && negb (str_contains_char (operation_id r) ":")) PlatformRoutes = true.
Proof. vm_compute. reflexivity. Qed.

(** ** Work-group registration *)

(** What storing the cluster of a valid registration leaves. *)
Definition cluster_recorded {DB} (config : PlatformConfig) (workgroup_id : string)
    (request : HttpRequest) (r : PlatformRouter DB) (outcome : exn + HttpResponse)
    (r' : PlatformRouter DB) : Prop :=
  exists cluster cluster_id,
    ValidateWorkgroupClusterRegistration workgroup_id (req_body request) = None
    /\ BuildWorkgroupClusterRecord workgroup_id (req_body request) config (req_identity request)
       = inr cluster
    /\ field_string cluster "cluster_id" = inr cluster_id
    /\ outcome = inr (JsonResponse 200 (SuccessEnvelope "registered workgroup cluster" cluster))
    /\ r' = with_store (set_workgroups_
              (<[workgroup_id := <[cluster_id := cluster]>
                   (default ∅ (workgroups_ (memory_ r) !! workgroup_id))]>
                 (workgroups_ (memory_ r))) (memory_ r)) r.

Lemma register_step {DB} `{PostgresStore DB} config workgroup_id request (r : PlatformRouter DB)
    rejected operation p :
  postgres_ r = None ->
  let '(outcome, r') :=
    match ValidateWorkgroupClusterRegistration workgroup_id (req_body request) with
    | Some error => reject 400 rejected error "ValidationError" operation 2
    | None =>
        cluster <- lift (BuildWorkgroupClusterRecord workgroup_id (req_body request) config
                           (req_identity request)) ;;
        if_postgres (p cluster)
          (payload <- on_memory (RegisterWorkgroupCluster workgroup_id cluster) ;;
           ok "registered workgroup cluster" payload)
    end r in
  r' <> r -> cluster_recorded config workgroup_id request r outcome r'.
Proof.
  intros Hr. destruct (ValidateWorkgroupClusterRegistration _ _) eqn:Hv; [cbn; congruence|].
  unfold m_bind at 1, lift at 1.
  destruct (BuildWorkgroupClusterRecord _ _ _ _) as [e|cluster] eqn:Hb; [cbn; congruence|].
  unfold if_postgres. rewrite Hr. unfold m_bind at 1, on_memory, zoom, RegisterWorkgroupCluster.
  unfold m_bind, lift. destruct (field_string cluster "cluster_id") as [e|cluster_id] eqn:Hc.
  - destruct r. cbn. congruence.
  - intros _. exists cluster, cluster_id. done.
Qed.

(** * Properties *)

#[local] Existing Instance demo_host.
#[local] Existing Instance demo_json_lib.
#[local] Existing Instance demo_postgres.

#[local] Existing Instance demo_curl.
#[local] Existing Instance demo_signing.
#[local] Existing Instance demo_toml.

Definition demo_job_request : HttpRequest :=
  mkRequest Post "/jobs" ∅ (demo_submission (JString "eu")) None.

(** C1. Nothing of the platform changes before a request has passed its gate. A
    path of no route is answered 404 and leaves the router as it was. A matched
    request whose caller is not entitled to its operation is answered 401
    without a certificate identity and 403 with one, and leaves the router as it
    was: no handler runs, the limiter and the metrics are not charged and the
    clock is not read. When certificates are required, a caller without one
    gets past the gate only for the external-identity exchange and, with a
    publish token in a header, the seven registry operations that accept one;
    a caller with one gets into an internal route only with a service role
    that is allowed its operation. *)
Theorem unauthorized_requests_change_nothing {DB} `{JsonLib} `{Host} `{PostgresStore DB}
    `{CurlHost curl_history} `{SigningHost} `{TomlLib} (config : PlatformConfig) request (r : PlatformRouter DB) :
  match MatchRoute PlatformRoutes (req_method request) (req_path request) with
  | None =>
      exists response, Dispatch config request r = (inr response, r) /\ status_code response = 404
  | Some m =>
      (entitled config m request = false ->
       exists response, Dispatch config request r = (inr response, r)
         /\ status_code response = match req_identity request with None => 401 | Some _ => 403 end)
      /\ (entitled config m request = true -> mtls_required (mtls config) = true ->
          match req_identity request with
          | None => operation_id (route m) ∈ anonymous_operations
          | Some i =>
              operation_id (route m) = "exchangeExternalIdentity"
              \/ (internal (route m) = true -> role i ∈ kRoles)
                 /\ IsAuthorizedForOperation (operation_id (route m)) i = true
          end)
  end.
Proof.
  destruct (MatchRoute _ _ _) as [m|] eqn:Hm; [split|].
  - intros He. pose proof (RequireIdentity_entitled config m request) as Hi. rewrite He in Hi.
    exists (RequireIdentity config m request). unfold Dispatch. rewrite Hm.
    destruct Hi as [[Hi Hid]|[Hi Hid]]; rewrite Hi; cbn; (split; [done|]);
      destruct (req_identity request); done.
  - intros He Hmtls. destruct (req_identity request) as [i|] eqn:Hid.
    + unfold entitled in He. rewrite Hmtls, Hid in He. cbn [negb orb] in He.
      rewrite orb_false_r in He. apply orb_true_iff in He as [He|He].
      * left. by apply str_eqb_iff.
      * right. apply andb_true_iff in He as [Hint Hop]. split; [|done]. intros Hr.
        rewrite Hr in Hint. cbn in Hint. rewrite internal_role_is_service_role in Hint.
        by apply string_in_iff.
    + by eapply anonymous_entitled.
  - unfold Dispatch. rewrite Hm. eauto.
Qed.

(** Every operation of the route table has exactly one dispatcher that
    answers it, so that a matched request never ends in the "route handler
    missing" answer: the dispatch of the request is that dispatcher's handler. *)
Theorem every_route_has_one_handler {DB} `{JsonLib} `{Host} `{PostgresStore DB}
    `{CurlHost curl_history} `{SigningHost} `{TomlLib} (config : PlatformConfig) request m :
  MatchRoute PlatformRoutes (req_method request) (req_path request) = Some m ->
  exists handler, dispatcher_answers (DB := DB) config m request = [handler]
    /\ DispatchMatchedOperation config m request = handler.
Proof.
  intros Hm. apply routed_operation in Hm as [Hr _].
  pose proof (forall_routes _ operations_partitioned _ Hr) as Hc. cbn beta in Hc.
  apply andb_true_iff in Hc as [Hc%Nat.eqb_eq _].
  rewrite <- (dispatcher_count (DB := DB) config m request) in Hc.
  destruct (dispatcher_answers config m request) as [|h [|]] eqn:E; try discriminate Hc.
  exists h. split; [done|]. by apply DispatchMatched_answers.
Qed.

Lemma every_route_has_one_handler_witness :
  exists handler,
    dispatcher_answers (DB := unit) default_config
      (mkMatch (mkRoute "submitJob" Post "/jobs" false) ∅) demo_job_request = [handler]
    /\ DispatchMatchedOperation default_config
         (mkMatch (mkRoute "submitJob" Post "/jobs" false) ∅) demo_job_request = handler.
Proof. apply every_route_has_one_handler. vm_compute. reflexivity. Defined.

(** C31. The limiter, over any sequence of calls of one subject and operation at
    times that lie within one window: from a new or expired bucket exactly the
    first [limit] calls succeed, from any bucket at most twice that many, and
    the calls of another subject or another routed operation use other buckets.
    (The counts are the code's 32-bit integers: fewer than 2^31 calls.) *)
Theorem rate_limit_is_enforced subject operation limit window first times buckets :
  0 < limit -> 0 < window -> 0 < first ->
  let b := stored_bucket subject operation buckets in
  0 <= bucket_count b -> bucket_count b + Z.of_nat (List.length (first :: times)) < 2 ^ 31 ->
  Forall (fun t => first <= t < first + window) times ->
  allowed_count subject operation limit window (first :: times) buckets <= 2 * limit
  /\ (window_start b = 0 \/ window <= first - window_start b ->
      allowed_count subject operation limit window (first :: times) buckets
      = Z.min (Z.of_nat (List.length (first :: times))) limit)
  /\ (forall subject' r r', r ∈ PlatformRoutes -> r' ∈ PlatformRoutes ->
      (subject, operation_id r) <> (subject', operation_id r') ->
      stored_bucket subject' (operation_id r')
        (Allow subject (operation_id r) limit window first buckets).2
      = stored_bucket subject' (operation_id r') buckets).
Proof.
  intros Hl Hw Hf b Hc Hn Ht. split_and!.
  - pose proof (allowed_count_bound subject operation limit window first (first :: times) buckets
                  Hl Hw Hf Hc Hn) as Hb. fold b in Hb.
    assert (Hall : Forall (fun t => first <= t < first + window) (first :: times))
      by (constructor; [lia|done]).
    specialize (Hb Hall). lia.
  - intros Hfresh. apply allowed_count_fresh; try lia; [done|].
    by apply (Forall_span window first); [lia|].
  - intros subject' r r' Hr Hr' Hne.
    pose proof (forall_routes _ operations_partitioned _ Hr) as H1.
    pose proof (forall_routes _ operations_partitioned _ Hr') as H2. cbn beta in H1, H2.
    apply andb_true_iff in H1 as [_ H1%negb_true_iff].
    apply andb_true_iff in H2 as [_ H2%negb_true_iff]. by apply Allow_other.
Qed.

Lemma rate_limit_is_enforced_witness :
  allowed_count "t1" "submitJob" 2 60 [100; 110; 120] ∅ = 2.
Proof.
  refine (proj1 (proj2 (rate_limit_is_enforced "t1" "submitJob" 2 60 100 [110; 120] ∅
                          _ _ _ _ _ _)) _).
  1-5: (vm_compute; first [reflexivity|discriminate]).
  - repeat constructor; lia.
  - left. reflexivity.
Defined.

(** C10. The workspace API, end to end on the memory store: a request that matches
    a workspace route is answered with one of the statuses 200, 400, 401, 403,
    404, 409 and 429, whatever its headers, body and identity, the
    configuration and the state, or ends in a JSON type error of a body field of
    the wrong type; it never misses a path parameter, never dereferences an
    empty optional, never ends in "route handler missing", and never turns the
    store into a PostgreSQL one. *)
Theorem workspace_requests_are_answered {DB} `{JsonLib} `{Host} `{PostgresStore DB}
    `{CurlHost curl_history} `{SigningHost} `{TomlLib} (config : PlatformConfig) request m op (r : PlatformRouter DB) :
  postgres_ r = None ->
  MatchRoute PlatformRoutes (req_method request) (req_path request) = Some m ->
  workspace_op_of (operation_id (route m)) = Some op ->
  match Dispatch config request r with
  | (inl e, r') => (exists id j, e = JsonTypeError id j) /\ postgres_ r' = None
  | (inr response, r') =>
      status_code response ∈ [200; 400; 401; 403; 404; 409; 429] /\ postgres_ r' = None
  end.
Proof.
  intros Hr Hm Hop. destruct (entitled config m request) eqn:He.
  - pose proof (Dispatch_matched config request m r Hm He) as Hd. cbv zeta in Hd.
    destruct (Allow _ _ _ _ _ _) as [allowed buckets]. destruct allowed; rewrite Hd.
    + unfold DispatchMatchedOperation.
      rewrite (DispatchNode_none _ _ _ _ Hop), DispatchWorkspace_run, Hop. cbn [fmap option_fmap option_map].
      destruct (routed_operation _ _ _ Hm) as [Hin Hp].
      assert (Hs : outcome is_type_error expected_status (run_workspace config op m request)).
      { apply safe_workspace. intros name Hn. apply Hp. by eapply workspace_parameters. }
      match goal with |- context [run_workspace _ _ _ _ ?r0] => specialize (Hs r0 Hr) end.
      destruct (run_workspace _ _ _ _ _) as [[e|response] r']; [done|].
      destruct Hs as [Hs Hr']. split; [|done]. unfold expected_status in Hs. set_solver.
    + rewrite FailureResponse_status. split; [set_solver|done].
  - pose proof (RequireIdentity_entitled config m request) as Hi. rewrite He in Hi.
    unfold Dispatch. rewrite Hm.
    destruct Hi as [[Hi _]|[Hi _]]; rewrite Hi; cbn; (split; [rewrite Hi; set_solver|done]).
Qed.

Lemma workspace_requests_are_answered_witness :
  match Dispatch default_config demo_job_request (demo_router initial_store) with
  | (inl e, r') => (exists id j, e = JsonTypeError id j) /\ postgres_ r' = None
  | (inr response, r') =>
      status_code response ∈ [200; 400; 401; 403; 404; 409; 429] /\ postgres_ r' = None
  end.
Proof.
  apply (workspace_requests_are_answered default_config demo_job_request
           (mkMatch (mkRoute "submitJob" Post "/jobs" false) ∅) OpSubmitJob); reflexivity.
Defined.

(** A work-group cluster is only recorded for a registration that passes
    every check: when the memory store changes, work groups are enabled, the
    certificate (if the caller has one) is of the registration tenant, the body
    carries the configured registration token (if one is configured) and passes
    [ValidateWorkgroupClusterRegistration], and the change is that cluster's
    entry alone. *)
Theorem workgroup_registration_is_guarded {DB} `{JsonLib} `{Host} `{PostgresStore DB}
    `{CurlHost curl_history} `{SigningHost} `{TomlLib} (config : PlatformConfig) m request (r : PlatformRouter DB) :
  postgres_ r = None ->
  let '(outcome, r') := HandleRegisterWorkgroupCluster config m request r in
  r' <> r ->
  workgroup_enabled (workgroup config) = true
  /\ (forall i, req_identity request = Some i ->
      identity_tenant_id i = registration_tenant (workgroup config))
  /\ (registration_token (workgroup config) <> EmptyString ->
      value_string (req_body request) "registration_token" ""
      = inr (registration_token (workgroup config)))
  /\ exists workgroup_id, parameter m "workgroup_id" = inr workgroup_id
     /\ cluster_recorded config workgroup_id request r outcome r'.
Proof.
  intros Hr. unfold HandleRegisterWorkgroupCluster, m_bind at 1, lift at 1.
  destruct (parameter m "workgroup_id") as [e|workgroup_id] eqn:Hp; [cbn; congruence|].
  destruct (workgroup_enabled _); cbn [negb]; [|cbn; congruence].
  destruct (match req_identity request with Some _ => _ | None => _ end) eqn:Ht;
    [cbn; congruence|].
  assert (Htenant : forall i, req_identity request = Some i ->
            identity_tenant_id i = registration_tenant (workgroup config)).
  { intros i Hi. rewrite Hi in Ht. by apply negb_false_iff, str_eqb_iff in Ht. }
  pose proof (register_step config workgroup_id request r
    "workgroup registration rejected" "registerWorkgroupCluster"
    (fun cluster => or_postgres_error "workgroup registration failed" "registerWorkgroupCluster"
       (payload <- on_postgres (pg_RegisterWorkgroupCluster workgroup_id cluster) ;;
        ok "registered workgroup cluster" payload)) Hr) as Hs.
  cbv beta in Hs. destruct (is_empty (registration_token (workgroup config))) eqn:Etok;
    cbn [negb]; unfold m_bind at 1.
  - apply is_empty_true in Etok. unfold m_ret at 1.
    match type of Hs with match ?X with (_, _) => _ end => destruct X as [o r'] end.
    intros Hne. split_and!; eauto. congruence.
  - unfold m_bind at 1, lift at 1.
    destruct (value_string _ _ _) as [e|token] eqn:Htok; [cbn; congruence|].
    unfold m_ret at 1.
    destruct (token <>s registration_token (workgroup config)) eqn:Eq; [cbn; congruence|].
    apply negb_false_iff, str_eqb_iff in Eq. subst token.
    match type of Hs with match ?X with (_, _) => _ end => destruct X as [o r'] end.
    intros Hne. split_and!; eauto.
Qed.

Lemma workgroup_registration_is_guarded_witness :
  let body := obj [("cluster_id", JString "c1"); ("region", JString "eu");
                   ("node_id", JString "n1");
                   ("control_plane_endpoint", JString "https://c1.example.org")] in
  let request := demo_request body in
  let m := demo_match "workgroup_id" "wg1" in
  let '(outcome, r') :=
    HandleRegisterWorkgroupCluster default_config m request (demo_router initial_store) in
  exists workgroup_id, parameter m "workgroup_id" = inr workgroup_id
    /\ cluster_recorded default_config workgroup_id request (demo_router initial_store) outcome r'.
Proof.
  cbv zeta.
  match goal with |- context [HandleRegisterWorkgroupCluster ?c ?m ?q ?r] =>
    pose proof (workgroup_registration_is_guarded c m q r eq_refl) as Hg;
    assert (Hne : (HandleRegisterWorkgroupCluster c m q r).2 <> r)
      by (vm_compute; discriminate);
    destruct (HandleRegisterWorkgroupCluster c m q r) as [o r'] end.
  destruct (Hg Hne) as (_ & _ & _ & Hrec). exact Hrec.
Defined.
