(* ===== verification/HttpWire.v ===== *)
(** HTTP over a socket, as [PlatformService/BeastServer.cpp] reads and writes it: request
    targets, headers, the parser of raw requests, the loops that receive and send, and
    the identity a request carries. *)
From stdpp Require Import base list gmap strings.
From Stdlib Require Import ZArith Lia Ascii String.
From S2P Require Import Prelude Json Identity Http Config RegistryIndexStore.

(** ** Targets and headers *)

Definition kPlatformApiBase : string := "/api/styio-platform/v1".
Definition kIdentityHeader : string := "x-styio-mtls-uri-san".

Definition StripQuery (target : string) : string :=
  let target := match find_char "?" (chars target) with
                | Some query => str_take query target
                | None => target
                end in
  if is_empty target then "/" else target.

Definition NormalizePlatformPath (target : string) : string :=
  let target := StripQuery target in
  if target =s kPlatformApiBase then "/"
  else if str_starts_with target (kPlatformApiBase +:+ "/") then str_drop (str_length kPlatformApiBase) target
  else target.

Definition LowerAscii (value : string) : string := str_map to_lower value.

Definition IdentityFromHeaders (headers : gmap string string) (config : PlatformConfig)
  : option MtlsIdentity :=
  if negb (trust_proxy_identity_headers (mtls config)) then None
  else match headers !! kIdentityHeader with
       | Some uri => ParseMtlsUriSan uri
       | None => None
       end.

(** A subject alternative name of a certificate, as OpenSSL decodes it. *)
Inductive GeneralName := GenUri (uri : string) | GenOther.

(** The first URI that names an identity. *)
Fixpoint identity_of_names (names : list GeneralName) : option MtlsIdentity :=
  match names with
  | [] => None
  | GenUri uri :: names =>
      match (if is_empty uri then None else ParseMtlsUriSan uri) with
      | Some peer => Some peer
      | None => identity_of_names names
      end
  | GenOther :: names => identity_of_names names
  end.
Definition IdentityFromPeerCertificate (certificate : option (list GeneralName)) : option MtlsIdentity :=
  match certificate with
  | Some names => identity_of_names names
  | None => None
  end.

Definition IdentityForRequest (headers : gmap string string) (config : PlatformConfig)
    (peer_identity : option MtlsIdentity) : option MtlsIdentity :=
  match peer_identity with
  | Some peer => Some peer
  | None => IdentityFromHeaders headers config
  end.

Definition BadRequestBody (detail : string) : json :=
  FailureEnvelope "malformed HTTP request" detail "UsageError" "httpAdapter" 2.

(** ** Parsing *)

Record RawHttpRequest := mkRaw {
  raw_method : string;
  raw_target : string;
  raw_headers : gmap string string;
  raw_body : string;
}.

Definition crlf : string := String "013" newline_text.
Definition blank_line : string := crlf +:+ crlf.

Definition trim_char (c : ascii) : bool := char_in c [" "; "009"; "013"]%char.
Definition TrimAscii (value : string) : string :=
  of_chars (drop_while_end trim_char (drop_while trim_char (chars value))).

Definition HttpReason (status_code : Z) : string :=
  if status_code =? 200 then "OK"
  else if status_code =? 400 then "Bad Request"
  else if status_code =? 401 then "Unauthorized"
  else if status_code =? 403 then "Forbidden"
  else if status_code =? 404 then "Not Found"
  else if status_code =? 405 then "Method Not Allowed"
  else if status_code =? 409 then "Conflict"
  else if status_code =? 422 then "Unprocessable Entity"
  else if status_code =? 500 then "Internal Server Error"
  else if status_code =? 503 then "Service Unavailable"
  else "Status".

Definition ContentLength (headers : gmap string string) : option Z :=
  match headers !! "content-length"%string with
  | Some value => stoul value
  | None => Some 0
  end.

(** [stream >> word]: white space skipped, then characters up to white space. *)
Fixpoint span_word (l : list ascii) : list ascii * list ascii :=
  match l with
  | [] => ([], [])
  | c :: r => if is_space c then ([], l) else let '(word, rest) := span_word r in (c :: word, rest)
  end.
Definition read_word (l : list ascii) : option (string * list ascii) :=
  match span_word (drop_while is_space l) with
  | ([], _) => None
  | (word, rest) => Some (of_chars word, rest)
  end.
Definition read_request_line (line : string) : option (string * string) :=
  match read_word (chars line) with
  | Some (method, rest) =>
      match read_word rest with
      | Some (target, rest) => match read_word rest with Some _ => Some (method, target) | None => None end
      | None => None
      end
  | None => None
  end.

(** [line.substr(0, colon)] lower-cased and what follows the colon, trimmed. *)
Definition header_at (line : string) (colon : nat) : string * string :=
  (LowerAscii (str_take colon line), TrimAscii (str_drop (S colon) line)).
Fixpoint read_headers_of (headers : gmap string string) (lines : list string)
  : string + gmap string string :=
  match lines with
  | [] => inr headers
  | line :: lines =>
      let line := TrimAscii line in
      if is_empty line then read_headers_of headers lines
      else match find_char ":" (chars line) with
           | None => inl "HTTP header line is missing ':'"%string
           | Some colon =>
               let '(name, value) := header_at line colon in
               read_headers_of (<[name := value]> headers) lines
           end
  end.

Definition size_of (s : string) : Z := Z.of_nat (str_length s).
(** [raw.substr(position, count)], the count a [size_t]. *)
Definition substr (s : string) (position : nat) (count : Z) : string :=
  str_take (Z.to_nat (Z.min count (size_of s))) (str_drop position s).

Definition ParseRawHttpRequest (raw : string) : string + RawHttpRequest :=
  match str_find blank_line raw with
  | None => inl "HTTP request headers are incomplete"%string
  | Some header_end =>
      match getline_all "010" (str_take header_end raw) with
      | [] => inl "HTTP request line is missing"%string
      | line :: lines =>
          match read_request_line (TrimAscii line) with
          | None => inl "HTTP request line must include method, target, and version"%string
          | Some (method, target) =>
              headers <-? read_headers_of ∅ lines ;;
              match ContentLength headers with
              | None => inl "Content-Length must be an integer"%string
              | Some content_length =>
                  let body_start := (header_end + 4)%nat in
                  if size_of raw <? u64 (Z.of_nat body_start + content_length)
                  then inl "HTTP request body is incomplete"%string
                  else inr (mkRaw method target headers (substr raw body_start content_length))
              end
          end
      end
  end.

Definition BuildRawHttpResponse `{JsonLib} (status_code : Z) (body : json) : exn + string :=
  payload <-? json_dump_indented body ;;
  let payload := payload +:+ newline_text in
  inr ("HTTP/1.1 " +:+ decimal status_code +:+ " " +:+ HttpReason status_code +:+ crlf
       +:+ "Content-Type: application/json; charset=utf-8" +:+ crlf
       +:+ "Content-Length: " +:+ decimal (size_of payload) +:+ crlf
       +:+ "Connection: close" +:+ crlf
       +:+ crlf
       +:+ payload).

(** ** Receiving and sending *)

Definition kMaxRequestBytes : Z := 1024 * 1024.

(** The lines of a request that did not parse, read again for the length alone. *)
Definition lenient_header (headers : gmap string string) (line : string) : gmap string string :=
  let line := TrimAscii line in
  match find_char ":" (chars line) with
  | None => headers
  | Some colon => let '(name, value) := header_at line colon in <[name := value]> headers
  end.
Definition header_end_of (raw : string) : nat := default 0%nat (str_find blank_line raw).
Definition declared_length (raw : string) : string + Z :=
  match ParseRawHttpRequest raw with
  | inr parsed => inr (size_of (raw_body parsed))
  | inl parse_error =>
      let lines := List.tl (getline_all "010" (str_take (header_end_of raw) raw)) in
      match ContentLength (fold_left lenient_header lines ∅) with
      | None => inl parse_error
      | Some length => inr length
      end
  end.

(** [ReadHttpRequest] and [ReadSslHttpRequest] over what the successive [recv] or
    [SSL_read] calls give: an empty text, and the end of the list, stand for a call
    that returns zero or an error.  [tls] is "" or "TLS ". *)
Section Receive.
Context (tls : string).

Fixpoint receive_headers (raw : string) (received : list string) : string + (string * list string) :=
  if str_contains raw blank_line then inr (raw, received)
  else match received with
       | [] => inl ("failed to read " +:+ tls +:+ "HTTP request headers")
       | bytes :: received =>
           if is_empty bytes then inl ("failed to read " +:+ tls +:+ "HTTP request headers")
           else if kMaxRequestBytes <? size_of (raw +:+ bytes)
           then inl "HTTP request exceeds maximum size"%string
           else receive_headers (raw +:+ bytes) received
       end.
Fixpoint receive_body (needed : Z) (raw : string) (received : list string) : string + string :=
  if size_of raw <? needed then
    match received with
    | [] => inl ("failed to read " +:+ tls +:+ "HTTP request body")
    | bytes :: received =>
        if is_empty bytes then inl ("failed to read " +:+ tls +:+ "HTTP request body")
        else if kMaxRequestBytes <? size_of (raw +:+ bytes)
        then inl "HTTP request exceeds maximum size"%string
        else receive_body needed (raw +:+ bytes) received
    end
  else inr raw.
Definition ReadHttpRequest (received : list string) : string + string :=
  head <-? receive_headers "" received ;;
  let '(raw, received) := head in
  content_length <-? declared_length raw ;;
  receive_body (u64 (Z.of_nat (header_end_of raw + 4) + content_length)) raw received.
End Receive.

(** The loop over [send] (or [SSL_write]): what was sent, and whether it was all.
    Each element is how many bytes a call takes, the end of the list an error. *)
Fixpoint SendAll (accepted : list nat) (payload : string) : string * bool :=
  if is_empty payload then (EmptyString, true)
  else match accepted with
       | [] | O :: _ => (EmptyString, false)
       | written :: accepted =>
           let '(sent, all) := SendAll accepted (str_drop written payload) in
           (str_take written payload +:+ sent, all)
       end.
