(* ===== verification/Certificates.v ===== *)
(** The managed certificate authority
    ([PlatformSecurity/PlatformCA/CertificateAuthority.cpp]): a CA and certificates for
    platform services, issued once and kept as files.  Keys, signatures, PEM texts and
    the failures of OpenSSL calls are parameters. *)
From stdpp Require Import base list gmap strings.
From Stdlib Require Import ZArith Lia Ascii String.
From S2P Require Import Prelude Json Identity Paths FileSystem Config HttpWire.

Record PlatformCertificateAuthorityConfig := mkCaConfig {
  root_dir : string;
  spiffe_trust_domain : string;
  key_bits : Z;
  ca_valid_days : Z;
  leaf_valid_days : Z;
}.
Definition default_ca_config (root : string) : PlatformCertificateAuthorityConfig :=
  mkCaConfig root "styio-platform" 2048 3650 397.

Record PlatformCertificateSubject := mkSubject {
  subject_role : string;
  tenant_id : string;
  subject_node_id : string;
  common_name : string;
}.

Record PlatformCertificateBundle := mkBundle {
  ca_certificate_path : string;
  ca_private_key_path : string;
  certificate_path : string;
  private_key_path : string;
  identity_uri_san : string;
}.

(** OpenSSL: keys, signatures over what a certificate says, PEM texts, the names of an
    alternative-name extension, the random bytes and clock of a serial number, and
    which calls fail, by a running number, with which error text. *)
Class OpenSsl := {
  EVP_PKEY : Type;
  PublicKey : Type;
  Signature : Type;
  public_key : EVP_PKEY -> PublicKey;
  keygen : Z -> nat -> EVP_PKEY;
  sign : EVP_PKEY -> string -> Signature;
  alt_names : string -> list GeneralName;
  serial_bytes : nat -> option (list Z);
  clock_count : nat -> Z;
  call_error : nat -> option string;
}.

Inductive Nid := NID_basic_constraints | NID_key_usage | NID_ext_key_usage | NID_subject_key_identifier
  | NID_subject_alt_name.

(** What is set in a certificate; the validity is in seconds from now. *)
Record X509 `{OpenSsl} := mkX509 {
  x_serial : Z;
  x_valid : Z * Z;
  x_public_key : PublicKey;
  x_subject : string;
  x_issuer : string;
  x_extensions : list (Nid * string);
  x_signature : Signature;
}.

Arguments mkX509 {_} _ _ _ _ _ _ _.

(** PEM texts and what is signed, for a choice of OpenSSL. *)
Class Pem `{OpenSsl} := {
  PEM_write_PrivateKey : EVP_PKEY -> string;
  PEM_read_PrivateKey : string -> option EVP_PKEY;
  PEM_write_X509 : X509 -> string;
  PEM_read_X509 : string -> option X509;
  to_be_signed : Z -> Z * Z -> PublicKey -> string -> string -> list (Nid * string) -> string;
}.

(** The files and the number of OpenSSL calls so far. *)
Record CaState := mkCaState { ca_files : FileTree; ca_calls : nat }.
Abbreviation CaM := (M exn CaState).
Definition ca_looks {A} (f : FileTree -> A) : CaM A := gets (fun s => f (ca_files s)).
Definition in_ca_files {A} (m : M exn FileTree A) : CaM A :=
  zoom ca_files (fun t s => mkCaState t (ca_calls s)) m.

Definition part_char (c : ascii) : ascii := if is_alnum c || char_in c ["-"; "_"; "."]%char then c else "-".
Definition SanitizePathPart (value : string) : string :=
  let result := str_map part_char value in
  if is_empty result then "unknown" else result.

Definition RequireSubjectValue (value field : string) : exn + string :=
  if is_empty value
  then inl (InvalidArgument (field +:+ " is required for platform certificate subject")) else inr value.

Definition BuildPlatformNodeCertificateSubject (role tenant_id node_id : string)
  : exn + PlatformCertificateSubject :=
  role <-? RequireSubjectValue role "role" ;;
  tenant_id <-? RequireSubjectValue tenant_id "tenant_id" ;;
  node_id <-? RequireSubjectValue node_id "node_id" ;;
  if negb (IsPlatformServiceRole role)
  then inl (InvalidArgument ("unsupported platform certificate role: " +:+ role))
  else inr (mkSubject role tenant_id node_id (role +:+ "/" +:+ node_id)).

Definition BuildPlatformMtlsUriSan (config : PlatformCertificateAuthorityConfig)
    (subject : PlatformCertificateSubject) : string :=
  "spiffe://" +:+ spiffe_trust_domain config +:+ "/tenant/" +:+ tenant_id subject
  +:+ "/role/" +:+ subject_role subject +:+ "/node/" +:+ subject_node_id subject.

Definition CaCertificatePath (config : PlatformCertificateAuthorityConfig) : string :=
  path_join (path_join (root_dir config) "ca") "ca.crt".
Definition CaPrivateKeyPath (config : PlatformCertificateAuthorityConfig) : string :=
  path_join (path_join (root_dir config) "ca") "ca.key".
Definition IssuedCertificateDir (config : PlatformCertificateAuthorityConfig)
    (subject : PlatformCertificateSubject) : string :=
  path_join (path_join (path_join (path_join (root_dir config) "issued")
    (SanitizePathPart (tenant_id subject))) (SanitizePathPart (subject_role subject)))
    (SanitizePathPart (subject_node_id subject)).
Definition BundleForSubject (config : PlatformCertificateAuthorityConfig)
    (subject : PlatformCertificateSubject) : PlatformCertificateBundle :=
  let issued_dir := IssuedCertificateDir config subject in
  mkBundle (CaCertificatePath config) (CaPrivateKeyPath config) (path_join issued_dir "tls.crt")
    (path_join issued_dir "tls.key") (BuildPlatformMtlsUriSan config subject).

Section Authority.
Context `{FileHost} `{OpenSsl} `{!Pem}.

Definition next_call : CaM nat :=
  fun s => (inr (ca_calls s), mkCaState (ca_files s) (S (ca_calls s))).
(** [RequireOpenSsl(call(...), message)]. *)
Definition RequireOpenSsl (message : string) : CaM unit :=
  n <- next_call ;;
  match call_error n with
  | Some text => throw (RuntimeError (message +:+ ": " +:+ text))
  | None => m_ret tt
  end.

Definition ExistingFile (path : string) : CaM bool := ca_looks (fun t => is_regular_file t path).

Definition EnsureParentDirectory (path : string) : CaM unit :=
  let directory := parent_path path in
  catch (in_ca_files (create_directories directory)) (fun _ =>
    throw (RuntimeError ("failed to create certificate directory " +:+ directory +:+ ": error"))).

Definition GeneratePrivateKey (bits : Z) : CaM EVP_PKEY :=
  RequireOpenSsl "failed to create key generation context" ;;;
  RequireOpenSsl "failed to initialize key generation" ;;;
  RequireOpenSsl "failed to set RSA key size" ;;;
  RequireOpenSsl "failed to generate private key" ;;;
  draw <- next_call ;;
  m_ret (keygen bits draw).

(** [fopen(path, "wb")]: the file is empty from then on. *)
Definition fopen_write (path failure : string) : CaM unit :=
  s <- gets id ;;
  match resolve (ca_files s) path with
  | Some names =>
      if is_dir_at (ca_files s) names then throw (RuntimeError (failure +:+ path))
      else in_ca_files (modify (write_stream path EmptyString))
  | None => throw (RuntimeError (failure +:+ path))
  end.
Definition WritePrivateKey (path : string) (key : EVP_PKEY) : CaM unit :=
  EnsureParentDirectory path ;;;
  fopen_write path "failed to open private key for writing: " ;;;
  RequireOpenSsl "failed to write private key" ;;;
  in_ca_files (modify (write_stream path (PEM_write_PrivateKey key))).
Definition WriteCertificate (path : string) (certificate : X509) : CaM unit :=
  EnsureParentDirectory path ;;;
  fopen_write path "failed to open certificate for writing: " ;;;
  RequireOpenSsl "failed to write certificate" ;;;
  in_ca_files (modify (write_stream path (PEM_write_X509 certificate))).

Definition LoadPrivateKey (path : string) : CaM EVP_PKEY :=
  text <- ca_looks (fun t => open_in t path) ;;
  match text with
  | None => throw (RuntimeError ("failed to open private key: " +:+ path))
  | Some text => match PEM_read_PrivateKey text with
                 | None => throw (RuntimeError "failed to read private key: error")
                 | Some key => m_ret key
                 end
  end.
Definition LoadCertificate (path : string) : CaM X509 :=
  text <- ca_looks (fun t => open_in t path) ;;
  match text with
  | None => throw (RuntimeError ("failed to open certificate: " +:+ path))
  | Some text => match PEM_read_X509 text with
                 | None => throw (RuntimeError "failed to read certificate: error")
                 | Some certificate => m_ret certificate
                 end
  end.

(** Sixteen bytes, of the clock where there are no random ones, the first below 128,
    as a big-endian number. *)
Definition clock_bytes (now : Z) : list Z :=
  map (fun index => Z.land (Z.shiftr now (Z.of_nat (index mod 8) * 8)) 255) (seq 0 16).
Definition BN_bin2bn (bytes : list Z) : Z := fold_left (fun n byte => n * 256 + byte) bytes 0.
Definition clear_sign (bytes : list Z) : list Z :=
  match bytes with [] => [] | byte :: bytes => Z.land byte 127 :: bytes end.
Definition SetRandomSerial : CaM Z :=
  n <- next_call ;;
  let bytes := match serial_bytes n with Some bytes => bytes | None => clock_bytes (clock_count n) end in
  RequireOpenSsl "failed to create certificate serial" ;;;
  RequireOpenSsl "failed to convert certificate serial" ;;;
  RequireOpenSsl "failed to set certificate serial" ;;;
  m_ret (BN_bin2bn (clear_sign bytes)).

(** The common name is passed as a C string. *)
Fixpoint c_text (s : string) : string :=
  match s with
  | EmptyString => EmptyString
  | String c s => if Ascii.eqb c "000" then EmptyString else String c (c_text s)
  end.
Definition SetSubjectName (common_name : string) : CaM string :=
  RequireOpenSsl "failed to access certificate subject" ;;;
  RequireOpenSsl "failed to set certificate common name" ;;;
  m_ret (c_text common_name).

Definition AddExtension (extension : Nid * string) : CaM (Nid * string) :=
  RequireOpenSsl "failed to create certificate extension" ;;;
  RequireOpenSsl "failed to add certificate extension" ;;;
  m_ret (extension.1, c_text extension.2).

Definition seconds_of_days (days : Z) : Z := days * 24 * 60 * 60.

Definition CreateCaCertificate (private_key : EVP_PKEY) (config : PlatformCertificateAuthorityConfig)
  : CaM X509 :=
  RequireOpenSsl "failed to create CA certificate" ;;;
  RequireOpenSsl "failed to set CA certificate version" ;;;
  serial <- SetRandomSerial ;;
  let valid := (0, seconds_of_days (ca_valid_days config)) in
  RequireOpenSsl "failed to set CA public key" ;;;
  subject <- SetSubjectName "Styio Platform Local CA" ;;
  RequireOpenSsl "failed to set CA issuer" ;;;
  extensions <- traverse_m AddExtension
    [(NID_basic_constraints, "critical,CA:TRUE"); (NID_key_usage, "critical,keyCertSign,cRLSign");
     (NID_subject_key_identifier, "hash")]%string ;;
  RequireOpenSsl "failed to sign CA certificate" ;;;
  let key := public_key private_key in
  m_ret (mkX509 serial valid key subject subject extensions
           (sign private_key (to_be_signed serial valid key subject subject extensions))).

Definition CreateLeafCertificate (private_key : EVP_PKEY) (ca_certificate : X509)
    (ca_private_key : EVP_PKEY) (config : PlatformCertificateAuthorityConfig)
    (subject : PlatformCertificateSubject) : CaM X509 :=
  RequireOpenSsl "failed to create leaf certificate" ;;;
  RequireOpenSsl "failed to set leaf certificate version" ;;;
  serial <- SetRandomSerial ;;
  let valid := (0, seconds_of_days (leaf_valid_days config)) in
  RequireOpenSsl "failed to set leaf public key" ;;;
  name <- SetSubjectName (common_name subject) ;;
  let issuer := x_subject ca_certificate in
  RequireOpenSsl "failed to set leaf issuer" ;;;
  extensions <- traverse_m AddExtension
    [(NID_basic_constraints, "critical,CA:FALSE");
     (NID_key_usage, "critical,digitalSignature,keyEncipherment");
     (NID_ext_key_usage, "serverAuth,clientAuth");
     (NID_subject_alt_name, "URI:" +:+ BuildPlatformMtlsUriSan config subject)]%string ;;
  RequireOpenSsl "failed to sign leaf certificate" ;;;
  let key := public_key private_key in
  m_ret (mkX509 serial valid key name issuer extensions
           (sign ca_private_key (to_be_signed serial valid key name issuer extensions))).

Definition EnsurePlatformCertificateAuthority (config : PlatformCertificateAuthorityConfig)
  : CaM PlatformCertificateBundle :=
  let certificate_path := CaCertificatePath config in
  let key_path := CaPrivateKeyPath config in
  let bundle := mkBundle certificate_path key_path EmptyString EmptyString EmptyString in
  certificate <- ExistingFile certificate_path ;;
  key <- ExistingFile key_path ;;
  if certificate && key then m_ret bundle
  else
    private_key <- GeneratePrivateKey (key_bits config) ;;
    certificate <- CreateCaCertificate private_key config ;;
    WritePrivateKey key_path private_key ;;;
    WriteCertificate certificate_path certificate ;;;
    m_ret bundle.

Definition EnsurePlatformMtlsCertificate (config : PlatformCertificateAuthorityConfig)
    (subject : PlatformCertificateSubject) : CaM PlatformCertificateBundle :=
  let bundle := BundleForSubject config subject in
  EnsurePlatformCertificateAuthority config ;;;
  certificate <- ExistingFile (certificate_path bundle) ;;
  key <- ExistingFile (private_key_path bundle) ;;
  if certificate && key then m_ret bundle
  else
    ca_private_key <- LoadPrivateKey (ca_private_key_path bundle) ;;
    ca_certificate <- LoadCertificate (ca_certificate_path bundle) ;;
    private_key <- GeneratePrivateKey (key_bits config) ;;
    certificate <- CreateLeafCertificate private_key ca_certificate ca_private_key config subject ;;
    WritePrivateKey (private_key_path bundle) private_key ;;;
    WriteCertificate (certificate_path bundle) certificate ;;;
    m_ret bundle.

(** ** The certificate of a server ([PlatformService/BeastServer.cpp]) *)

Definition PreferredCertificateRole (config : PlatformConfig) : string :=
  if string_in "control-plane" (roles config) then "control-plane"
  else match roles config with role :: _ => role | [] => "control-plane" end.

Definition ResolveTlsMaterialPaths (config : PlatformConfig) : CaM (string * string * string) :=
  let mtls := mtls config in
  let no_explicit_paths := is_empty (ca_path mtls) && is_empty (cert_path mtls) && is_empty (key_path mtls) in
  if auto_provision mtls && no_explicit_paths then
    subject <- lift (BuildPlatformNodeCertificateSubject (PreferredCertificateRole config)
                       (registration_tenant (workgroup config)) (config_node_id config)) ;;
    bundle <- EnsurePlatformMtlsCertificate (default_ca_config (ca_root mtls)) subject ;;
    m_ret (ca_certificate_path bundle, certificate_path bundle, private_key_path bundle)
  else m_ret (ca_path mtls, cert_path mtls, key_path mtls).

(** The verification a TLS context asks for; what OpenSSL makes of the files is its
    own. *)
Inductive VerifyMode := VerifyPeer | VerifyPeerRequired.
Definition BuildTlsContext (config : PlatformConfig) : CaM VerifyMode :=
  paths <- ResolveTlsMaterialPaths config ;;
  let '(ca_path, cert_path, key_path) := paths in
  if is_empty cert_path || is_empty key_path then
    throw (RuntimeError "TLS mode requires STYIO_PLATFORM_MTLS_CERT and STYIO_PLATFORM_MTLS_KEY, or STYIO_PLATFORM_MTLS_AUTO_PROVISION=1")
  else if mtls_required (mtls config) && is_empty ca_path then
    throw (RuntimeError "mTLS mode requires STYIO_PLATFORM_MTLS_CA, or STYIO_PLATFORM_MTLS_AUTO_PROVISION=1")
  else
    RequireOpenSsl "failed to create TLS context" ;;;
    RequireOpenSsl "failed to load TLS certificate" ;;;
    RequireOpenSsl "failed to load TLS private key" ;;;
    (if is_empty ca_path then m_ret tt else RequireOpenSsl "failed to load mTLS CA") ;;;
    m_ret (if mtls_required (mtls config) then VerifyPeerRequired else VerifyPeer).
End Authority.
