(* ===== verification/CertificateFacts.v ===== *)
(** What the managed certificate authority promises: a certificate names its service,
    and is issued once. *)
From stdpp Require Import base list gmap strings.
From Stdlib Require Import ZArith Lia Ascii String.
From S2P Require Import Prelude Json Identity Paths FileSystem FileSystemFacts Config RegistryIdentifiers Frames.
From S2P Require Import HttpWire Certificates.

(** ** Identity URIs *)

(** A name that stays one segment of the URI and is not one of the two keys that follow
    it. *)
Definition segment (name : string) : Prop :=
  char_in "/" (chars name) = false /\ name <> "role"%string /\ name <> "node"%string.

(** The values that a textual extension keeps as they are: OpenSSL cuts the list at
    commas and line breaks, strips blanks around a value and refuses an empty one, so a
    value of visible ASCII characters without a comma is safe. *)
Definition value_char (c : ascii) : bool :=
  (33 <=? char_code c) && (char_code c <? 127) && negb (char_code c =? 44).
Definition extension_value (text : string) : bool :=
  negb (is_empty text) && forallb value_char (chars text).

Lemma no_separator c s : char_in c (chars s) = false ->
  forallb (fun d => negb (Ascii.eqb d c)) (chars s) = true.
Proof. apply char_in_forallb. Qed.

Lemma getline_segments parts : Forall (fun part => char_in "/" (chars part) = false) parts ->
  forall last, char_in "/" (chars last) = false -> last <> EmptyString ->
  getline_all_aux "/" [] (foldr (fun part l => chars part ++ "/"%char :: l) (chars last) parts)
  = parts ++ [last].
Proof.
  intros HF last Hl Hne. induction HF as [|part parts Hp HF IH]; cbn [foldr].
  - rewrite getline_single; [|by apply no_separator|by destruct last]. cbn. by rewrite of_chars_chars.
  - rewrite getline_join by (by apply no_separator). cbn [rev app]. by rewrite of_chars_chars, IH.
Qed.

Lemma service_role_segment role : IsPlatformServiceRole role = true ->
  segment role /\ role <> EmptyString.
Proof.
  intros Hr. apply string_in_iff in Hr. unfold kRoles in Hr.
  repeat (apply elem_of_cons in Hr as [-> | Hr]; [by split|]). by apply elem_of_nil in Hr.
Qed.

Lemma uri_parts tenant role node : segment tenant -> segment role -> segment node ->
  tenant <> EmptyString -> role <> EmptyString -> node <> EmptyString ->
  SplitPath ("tenant/" +:+ tenant +:+ "/role/" +:+ role +:+ "/node/" +:+ node)
  = ["tenant"; tenant; "role"; role; "node"; node]%string.
Proof.
  intros [Ht _] [Hr _] [Hn _] Hte Hre Hne. unfold SplitPath, getline_all.
  assert (chars ("tenant/" +:+ tenant +:+ "/role/" +:+ role +:+ "/node/" +:+ node)
          = foldr (fun part l => chars part ++ "/"%char :: l) (chars node)
              ["tenant"; tenant; "role"; role; "node"]%string) as ->.
  { rewrite !chars_app. cbn [foldr]. change (chars "tenant/") with (chars "tenant" ++ ["/"%char]).
    change (chars "/role/") with ("/"%char :: chars "role" ++ ["/"%char]).
    change (chars "/node/") with ("/"%char :: chars "node" ++ ["/"%char]).
    by rewrite <- ?app_assoc; cbn [app]; rewrite <- ?app_assoc. }
  rewrite getline_segments by (repeat constructor; done).
  cbn [app List.filter]. apply is_empty_false in Hte, Hre, Hne. by rewrite Hte, Hre, Hne.
Qed.

Lemma uri_is_parsed config subject :
  spiffe_trust_domain config = "styio-platform"%string ->
  segment (tenant_id subject) -> segment (subject_node_id subject) ->
  tenant_id subject <> EmptyString -> subject_node_id subject <> EmptyString ->
  IsPlatformServiceRole (subject_role subject) = true ->
  ParseMtlsUriSan (BuildPlatformMtlsUriSan config subject)
  = Some (mkIdentity (subject_role subject) (tenant_id subject) (subject_node_id subject)).
Proof.
  intros Hdomain Ht Hn Hte Hne Hrole.
  destruct (service_role_segment _ Hrole) as [Hr Hre].
  unfold BuildPlatformMtlsUriSan. rewrite Hdomain.
  set (rest := "tenant/" +:+ tenant_id subject +:+ "/role/" +:+ subject_role subject +:+ "/node/"
               +:+ subject_node_id subject).
  change ("spiffe://" +:+ "styio-platform" +:+ "/tenant/" +:+ tenant_id subject +:+ "/role/"
          +:+ subject_role subject +:+ "/node/" +:+ subject_node_id subject) with (spiffe_prefix +:+ rest).
  unfold ParseMtlsUriSan.
  assert (str_starts_with (spiffe_prefix +:+ rest) spiffe_prefix = true) as -> by done.
  cbn [negb]. assert (str_drop (str_length spiffe_prefix) (spiffe_prefix +:+ rest) = rest) as ->.
  { apply chars_inj. unfold str_drop. rewrite chars_of_chars, chars_app, str_length_chars. by rewrite drop_app_length. }
  subst rest. rewrite uri_parts by done. cbn [ValueAfter].
  destruct Ht as (_ & Htr & Htn), Hr as (_ & Hrr & Hrn).
  apply str_eqb_false in Htr, Htn, Hrr, Hrn. rewrite Htr, Htn, Hrn.
  change ("tenant" =s "role") with false. change ("tenant" =s "node") with false.
  change ("role" =s "role") with true. change ("role" =s "node") with false.
  change ("tenant" =s "tenant") with true. change ("node" =s "node") with true.
  cbv iota. cbn [role node_id]. rewrite Hrole. apply is_empty_false in Hne. by rewrite Hne.
Qed.

(** The names a verifier reads in a certificate. *)
Definition certificate_names `{OpenSsl} (certificate : X509) : list GeneralName :=
  flat_map (fun extension => match extension.1 with
                             | NID_subject_alt_name => alt_names extension.2
                             | _ => []
                             end) (x_extensions certificate).

(** ** Files only grow *)

Definition grows (t t' : FileTree) : Prop :=
  (forall n, is_dir_at t n = true -> is_dir_at t' n = true)
  /\ (forall n, is_Some (contents_at t n) -> is_Some (contents_at t' n)).
Definition files_grow (s s' : CaState) : Prop := grows (ca_files s) (ca_files s').
#[export] Instance files_grow_preorder : PreOrder files_grow.
Proof.
  split; [by intros s; split|]. intros s1 s2 s3 [A1 B1] [A2 B2]. split; auto.
Qed.

Lemma walk_grows t t' cur parts names : grows t t' -> walk t cur parts = Some names ->
  walk t' cur parts = Some names.
Proof.
  intros [Hd _]. revert cur. induction parts as [|part parts IH]; intros cur; cbn; [done|].
  destruct (is_dir_at t cur) eqn:E; cbn [negb]; [|done]. rewrite (Hd _ E). cbn [negb].
  destruct (is_empty part || _); [apply IH|]. destruct (part =s ".."); apply IH.
Qed.
Lemma grows_more t t' : more_directories t t' -> grows t t'.
Proof.
  intros Hm. split; [intros n; by apply is_dir_more|]. destruct Hm as (_ & Hc & _). intros n. by rewrite Hc.
Qed.
Lemma grows_write f t p `{FileHost} : grows t (write_with f p t).
Proof.
  split; [intros n; by rewrite write_with_dirs|]. intros n Hn.
  destruct (write_with_spec f p t) as [->|(_ & Hne & _ & ->)]; [done|].
  rewrite contents_insert by done. case_bool_decide; [by eexists|done].
Qed.

Create HintDb certificates.

(** Follows a computation that only adds files. *)
Ltac growing :=
  repeat first
    [ solve [eauto with certificates] | apply keeps_ret | apply keeps_throw | apply keeps_lift
    | apply keeps_gets | apply keeps_traverse; intros ? | apply keeps_catch; [apply _| |intros ?]
    | apply keeps_bind; [apply _| |intros ?] | apply _
    | match goal with
      | |- keeps _ (if ?b then _ else _) => destruct b
      | |- keeps _ (match ?x with _ => _ end) => destruct x
      end ].

Section Files.
Context `{FileHost} `{OpenSsl} `{!Pem}.

Lemma regular_grows t t' p : grows t t' -> is_regular_file t p = true -> is_regular_file t' p = true.
Proof.
  intros Hg. unfold is_regular_file, status, resolve. destruct (is_empty p); [done|].
  destruct (walk t _ _) as [names|] eqn:Hw; [|done]. rewrite (walk_grows _ _ _ _ _ Hg Hw). cbn.
  destruct Hg as [_ Hc]. specialize (Hc names). unfold contents_at in Hc.
  destruct (node_at t names) as [[|c]|]; try done.
  destruct Hc as [c' E]; [by eexists|]. by destruct (node_at t' names) as [[|]|].
Qed.

Lemma grow_next : keeps files_grow next_call.
Proof. by intros s. Qed.
Lemma grow_require message : keeps files_grow (RequireOpenSsl message).
Proof.
  unfold RequireOpenSsl. pose proof grow_next. growing.
Qed.
Lemma grow_directories p : keeps files_grow (in_ca_files (create_directories p)).
Proof.
  intros [t n]. unfold files_grow, in_ca_files, zoom. cbn.
  destruct (create_directories p t) as [[e|[]] t'] eqn:E; cbn.
  - by apply create_directories_error in E as ->.
  - by apply create_directories_spec in E as [E _]; apply grows_more.
Qed.
Lemma grow_write f p : keeps files_grow (in_ca_files (modify (write_with f p))).
Proof. intros [t n]. apply grows_write. Qed.
Lemma grow_fopen p failure : keeps files_grow (fopen_write p failure).
Proof.
  unfold fopen_write. pose proof grow_write. growing.
Qed.
End Files.

#[export] Hint Resolve grow_next grow_require grow_directories grow_write grow_fopen : certificates.

Section Issuing.
Context `{FileHost} `{OpenSsl} `{!Pem}.

Lemma grow_parent p : keeps files_grow (EnsureParentDirectory p).
Proof. unfold EnsureParentDirectory. growing. Qed.
Lemma grow_WriteKey p key : keeps files_grow (WritePrivateKey p key).
Proof. unfold WritePrivateKey. pose proof grow_parent. growing. Qed.
Lemma grow_WriteCertificate p c : keeps files_grow (WriteCertificate p c).
Proof. unfold WriteCertificate. pose proof grow_parent. growing. Qed.
Lemma grow_GeneratePrivateKey bits : keeps files_grow (GeneratePrivateKey bits).
Proof. unfold GeneratePrivateKey. growing. Qed.
Lemma grow_Leaf key c ca config subject : keeps files_grow (CreateLeafCertificate key c ca config subject).
Proof. unfold CreateLeafCertificate, SetRandomSerial, SetSubjectName, AddExtension. growing. Qed.
Lemma grow_Ca key config : keeps files_grow (CreateCaCertificate key config).
Proof. unfold CreateCaCertificate, SetRandomSerial, SetSubjectName, AddExtension. growing. Qed.
Lemma grow_LoadKey p : keeps files_grow (LoadPrivateKey p).
Proof. unfold LoadPrivateKey, ca_looks. growing. Qed.
Lemma grow_LoadCertificate p : keeps files_grow (LoadCertificate p).
Proof. unfold LoadCertificate, ca_looks. growing. Qed.
End Issuing.

#[export] Hint Resolve grow_parent grow_WriteKey grow_WriteCertificate grow_GeneratePrivateKey grow_Leaf
  grow_Ca grow_LoadKey grow_LoadCertificate : certificates.

Section Once.
Context `{FileHost} `{OpenSsl} `{!Pem}.

Lemma ca_bind_inr {A B} (m : CaM A) (k : A -> CaM B) s b s' : m_bind m k s = (inr b, s') ->
  exists a s1, m s = (inr a, s1) /\ k a s1 = (inr b, s').
Proof. apply m_bind_inr. Qed.
Lemma grown {A} (m : CaM A) s r s' p : keeps files_grow m -> m s = (r, s') ->
  is_regular_file (ca_files s) p = true -> is_regular_file (ca_files s') p = true.
Proof. intros Hk E. apply regular_grows. exact (keeps_run files_grow m s r s' Hk E). Qed.

(** An opened file is there. *)
Lemma fopen_regular p failure s s' : fopen_write p failure s = (inr tt, s') ->
  is_regular_file (ca_files s') p = true.
Proof.
  unfold fopen_write, m_bind, gets. cbn [id].
  destruct (resolve (ca_files s) p) as [names|] eqn:Hr; [|done].
  destruct (is_dir_at (ca_files s) names) eqn:Hd; [done|].
  pose proof (resolve_target _ _ _ Hr) as ->.
  unfold in_ca_files, zoom, modify. cbn. intros [= <-]. cbn [ca_files].
  assert (Hg : resolve (write_stream p EmptyString (ca_files s)) p = Some (target p)).
  { revert Hr. unfold resolve. destruct (is_empty p); [done|]. apply walk_grows, grows_write. }
  unfold is_regular_file, status. rewrite Hg. cbn.
  unfold write_stream, write_with. rewrite Hr.
  assert (Hne : target p <> []) by (intros E; by rewrite E in Hd).
  unfold is_dir_at in Hd.
  destruct (node_at (ca_files s) (target p)) as [[|old]|]; [done| |];
    rewrite node_at_insert by done; by rewrite bool_decide_eq_true_2.
Qed.

Lemma written_regular p (text : string) message failure s s' :
  (EnsureParentDirectory p ;;; fopen_write p failure ;;; RequireOpenSsl message ;;;
   in_ca_files (modify (write_stream p text))) s = (inr tt, s') ->
  is_regular_file (ca_files s') p = true.
Proof.
  intros E. run_step E [] s1 E1. run_step E [] s2 E2. apply fopen_regular in E2.
  eapply grown; [|exact E|exact E2]. growing.
Qed.

Lemma authority_exists config s b s' : EnsurePlatformCertificateAuthority config s = (inr b, s') ->
  is_regular_file (ca_files s') (CaCertificatePath config) = true
  /\ is_regular_file (ca_files s') (CaPrivateKeyPath config) = true.
Proof.
  unfold EnsurePlatformCertificateAuthority, ExistingFile, ca_looks. intros E.
  run_step E certificate s1 E1. injection E1 as <- <-. run_step E key s1 E1. injection E1 as <- <-.
  destruct (is_regular_file (ca_files s) (CaCertificatePath config)) eqn:Hc,
    (is_regular_file (ca_files s) (CaPrivateKeyPath config)) eqn:Hk; cbn [andb] in E;
    [by injection E as <- <-|..].
  all: run_step E private_key s1 E1; run_step E certificate s2 E2; run_step E [] s3 E3;
    run_step E [] s4 E4; injection E as <- <-; (split; [by eapply written_regular|]);
    eapply grown; [| exact E4 | by eapply written_regular]; growing.
Qed.
Lemma authority_kept config s :
  is_regular_file (ca_files s) (CaCertificatePath config) = true ->
  is_regular_file (ca_files s) (CaPrivateKeyPath config) = true ->
  exists b, EnsurePlatformCertificateAuthority config s = (inr b, s).
Proof.
  intros Hc Hk. unfold EnsurePlatformCertificateAuthority, ExistingFile, ca_looks, m_bind, gets.
  rewrite Hc, Hk. by eexists.
Qed.

Lemma certificate_exists config subject s b s' :
  EnsurePlatformMtlsCertificate config subject s = (inr b, s') ->
  b = BundleForSubject config subject
  /\ is_regular_file (ca_files s') (CaCertificatePath config) = true
  /\ is_regular_file (ca_files s') (CaPrivateKeyPath config) = true
  /\ is_regular_file (ca_files s') (certificate_path b) = true
  /\ is_regular_file (ca_files s') (private_key_path b) = true.
Proof.
  unfold EnsurePlatformMtlsCertificate, ExistingFile, ca_looks.
  change (CaPrivateKeyPath config) with (ca_private_key_path (BundleForSubject config subject)).
  change (CaCertificatePath config) with (ca_certificate_path (BundleForSubject config subject)).
  remember (BundleForSubject config subject) as bundle eqn:Hb. intros E. run_step E ca s1 E1. apply authority_exists in E1 as [Hc Hk].
  assert (CaCertificatePath config = ca_certificate_path bundle) as Hp1 by (by subst).
  assert (CaPrivateKeyPath config = ca_private_key_path bundle) as Hp2 by (by subst).
  rewrite Hp1 in Hc. rewrite Hp2 in Hk. clear Hp1 Hp2.
  run_step E certificate s2 E1. injection E1 as <- <-. run_step E key s2 E1. injection E1 as <- <-.
  destruct (is_regular_file (ca_files s1) (certificate_path bundle)) eqn:Hl,
    (is_regular_file (ca_files s1) (private_key_path bundle)) eqn:Hp; cbn [andb] in E;
    [by unfold m_ret in E; injection E as <- <-|..].
  all: assert (Hg : files_grow s1 s') by (eapply (keeps_run files_grow); [|exact E]; growing).
  all: run_step E ca_key s2 E2; run_step E ca_certificate s3 E3; run_step E private_key s4 E4;
    run_step E certificate s5 E5; run_step E [] s6 E6; run_step E [] s7 E7; injection E as <- <-;
    (split; [done|]); (split; [by eapply regular_grows|]); (split; [by eapply regular_grows|]);
    (split; [by eapply written_regular|]); eapply grown; [|exact E7|by eapply written_regular]; growing.
Qed.
Lemma certificate_kept config subject s :
  is_regular_file (ca_files s) (CaCertificatePath config) = true ->
  is_regular_file (ca_files s) (CaPrivateKeyPath config) = true ->
  is_regular_file (ca_files s) (certificate_path (BundleForSubject config subject)) = true ->
  is_regular_file (ca_files s) (private_key_path (BundleForSubject config subject)) = true ->
  EnsurePlatformMtlsCertificate config subject s = (inr (BundleForSubject config subject), s).
Proof.
  intros Hc Hk Hl Hp. unfold EnsurePlatformMtlsCertificate, m_bind.
  destruct (authority_kept config s Hc Hk) as [b ->]. unfold ExistingFile, ca_looks, gets.
  by rewrite Hl, Hp.
Qed.
End Once.

(** *** What a leaf certificate says *)

Section Leaf.
Context `{OpenSsl} `{!Pem}.

Lemma added_extensions l s l' s' : traverse_m AddExtension l s = (inr l', s') ->
  l' = map (fun extension => (extension.1, c_text extension.2)) l.
Proof.
  revert s l' s'. induction l as [|extension l IH]; intros s l' s' E; [by injection E|].
  cbn [traverse_m] in E. run_step E b s1 E1. run_step E bs s2 E2. injection E as <- <-.
  apply IH in E2 as ->. unfold AddExtension in E1. run_step E1 [] s3 E3. run_step E1 [] s4 E4.
  by injection E1 as <- <-.
Qed.
Lemma c_text_plain s : char_in "000" (chars s) = false -> c_text s = s.
Proof.
  induction s as [|c s IH]; [done|]. unfold char_in in *. cbn -[Ascii.eqb].
  rewrite (Ascii.eqb_sym "000" c). destruct (Ascii.eqb c "000"); [done|]. intros Hs. cbn in Hs. by rewrite IH.
Qed.

Lemma leaf_names config subject private_key ca_certificate ca_private_key s certificate s' :
  CreateLeafCertificate private_key ca_certificate ca_private_key config subject s
    = (inr certificate, s') ->
  certificate_names certificate
  = alt_names (c_text ("URI:" +:+ BuildPlatformMtlsUriSan config subject)).
Proof.
  unfold CreateLeafCertificate. intros E. run_step E [] s1 E1. run_step E [] s2 E2. run_step E serial s3 E3.
  run_step E [] s4 E4. run_step E name s5 E5. run_step E [] s6 E6. run_step E extensions s7 E7.
  run_step E [] s8 E8. unfold m_ret in E. injection E as <- <-. apply added_extensions in E7 as ->.
  unfold certificate_names. cbn [x_extensions map flat_map fst snd app]. apply app_nil_r.
Qed.
End Leaf.

Lemma extension_value_app a b : extension_value a = true -> forallb value_char (chars b) = true ->
  extension_value (a +:+ b) = true.
Proof.
  unfold extension_value. rewrite chars_app, forallb_app. intros [Ha ->]%andb_true_iff Hb. rewrite Hb.
  by destruct a.
Qed.
Lemma extension_value_chars s : extension_value s = true -> forallb value_char (chars s) = true.
Proof. by intros [_ Hs]%andb_true_iff. Qed.
(** No character of a value ends a C string. *)
Lemma extension_value_text s : extension_value s = true -> char_in "000" (chars s) = false.
Proof.
  intros Hs%extension_value_chars. unfold char_in. induction (chars s) as [|c l IH]; [done|].
  cbn [forallb existsb] in *. apply andb_true_iff in Hs as [Hc Hl]. rewrite (IH Hl), orb_false_r.
  destruct (Ascii.eqb "000" c) eqn:E; [|done]. apply Ascii.eqb_eq in E as <-. discriminate Hc.
Qed.
Lemma service_role_value role : IsPlatformServiceRole role = true -> extension_value role = true.
Proof.
  intros Hr. apply string_in_iff in Hr. unfold kRoles in Hr.
  repeat (apply elem_of_cons in Hr as [-> | Hr]; [reflexivity|]). by apply elem_of_nil in Hr.
Qed.
Lemma uri_value config subject : spiffe_trust_domain config = "styio-platform"%string ->
  extension_value (tenant_id subject) = true -> extension_value (subject_role subject) = true ->
  extension_value (subject_node_id subject) = true ->
  extension_value (BuildPlatformMtlsUriSan config subject) = true.
Proof.
  intros Hd Ht%extension_value_chars Hr%extension_value_chars Hn%extension_value_chars.
  unfold BuildPlatformMtlsUriSan. rewrite Hd.
  apply extension_value_app; [reflexivity|]. by rewrite !chars_app, !forallb_app, Ht, Hr, Hn.
Qed.

(** ** Properties *)

(** C21. A certificate names the service it was issued to. For a subject that
    [BuildPlatformNodeCertificateSubject] accepts, whose tenant and node are plain
    names (visible ASCII characters other than slash and comma, and not "role" or
    "node"), with the default trust domain and an OpenSSL that reads one URI of visible
    characters without a comma as one name, a leaf certificate that is created carries
    exactly the identity the server reads back from it when its holder connects. *)
Theorem certificates_name_their_service `{OpenSsl} `{!Pem} config role tenant node subject
    private_key ca_certificate ca_private_key s certificate s' :
  spiffe_trust_domain config = "styio-platform"%string ->
  (forall uri, extension_value uri = true -> alt_names ("URI:" +:+ uri) = [GenUri uri]) ->
  BuildPlatformNodeCertificateSubject role tenant node = inr subject ->
  segment tenant -> segment node -> extension_value tenant = true -> extension_value node = true ->
  CreateLeafCertificate private_key ca_certificate ca_private_key config subject s
    = (inr certificate, s') ->
  IdentityFromPeerCertificate (Some (certificate_names certificate)) = Some (mkIdentity role tenant node).
Proof.
  intros Hdomain Halt Hbuild Ht Hn Htv Hnv Hleaf.
  unfold BuildPlatformNodeCertificateSubject, RequireSubjectValue in Hbuild.
  destruct (is_empty role) eqn:Hr0, (is_empty tenant) eqn:Ht0, (is_empty node) eqn:Hn0; try done.
  cbn [r_bind] in Hbuild. destruct (IsPlatformServiceRole role) eqn:Hrole; [|done]. injection Hbuild as <-.
  set (subject := mkSubject role tenant node (role +:+ "/" +:+ node)) in *.
  pose proof (uri_value config subject Hdomain Htv (service_role_value _ Hrole) Hnv) as Hv.
  apply is_empty_false in Ht0, Hn0. apply leaf_names in Hleaf.
  assert (Hc : c_text ("URI:" +:+ BuildPlatformMtlsUriSan config subject)
               = ("URI:" +:+ BuildPlatformMtlsUriSan config subject)%string).
  { apply c_text_plain, extension_value_text, extension_value_app; [done|by apply extension_value_chars]. }
  unfold IdentityFromPeerCertificate. rewrite Hleaf, Hc, Halt by done. cbn [identity_of_names].
  rewrite (uri_is_parsed config subject) by done. by destruct (is_empty _) eqn:E; [apply is_empty_true in E|].
Qed.

(** Certificates are issued once. When [EnsurePlatformMtlsCertificate] has returned,
    the files of the authority and of the certificate are there, and asking again, for
    this subject or for any other that is kept in the same directory, returns the
    bundle of that subject without generating, writing or reading anything: the state
    is untouched and no OpenSSL call is made. *)
Theorem certificates_are_issued_once `{FileHost} `{OpenSsl} `{!Pem} config subject other s bundle s' :
  EnsurePlatformMtlsCertificate config subject s = (inr bundle, s') ->
  IssuedCertificateDir config other = IssuedCertificateDir config subject ->
  bundle = BundleForSubject config subject
  /\ is_regular_file (ca_files s') (certificate_path bundle) = true
  /\ is_regular_file (ca_files s') (private_key_path bundle) = true
  /\ EnsurePlatformMtlsCertificate config other s' = (inr (BundleForSubject config other), s').
Proof.
  intros E Hdir. apply certificate_exists in E as (-> & Hc & Hk & Hl & Hp).
  split_and!; [done..|]. unfold BundleForSubject in Hl, Hp. cbn in Hl, Hp. rewrite <- Hdir in Hl, Hp.
  by apply certificate_kept.
Qed.

(** ** The properties on a concrete authority *)

Section Demo.
#[local] Existing Instance Demo.demo_file_host.

Definition demo_openssl : OpenSsl :=
  {| EVP_PKEY := nat; PublicKey := nat; Signature := string; public_key := fun key => key;
     keygen := fun _ draw => draw; sign := fun _ text => text;
     alt_names := fun text =>
       if str_starts_with text "URI:" && extension_value (str_drop 4 text) then [GenUri (str_drop 4 text)] else [];
     serial_bytes := fun _ => None; clock_count := fun n => Z.of_nat n; call_error := fun _ => None |}.
#[local] Existing Instance demo_openssl.
Definition demo_certificate : X509 := mkX509 1 (0, 0) 0%nat "Styio Platform Local CA" "" [] "signature".
Definition demo_pem : Pem :=
  {| PEM_write_PrivateKey := fun key => decimal (Z.of_nat key); PEM_read_PrivateKey := fun _ => Some 0%nat;
     PEM_write_X509 := x_subject; PEM_read_X509 := fun _ => Some demo_certificate;
     to_be_signed := fun _ _ _ subject _ _ => subject |}.
#[local] Existing Instance demo_pem.

Definition demo_key : EVP_PKEY := 1%nat.

Definition demo_ca_state : CaState := mkCaState ∅ 0.
Lemma certificates_name_their_service_witness : exists certificate s',
  CreateLeafCertificate demo_key demo_certificate demo_key (default_ca_config "/ca")
    (mkSubject "worker" "tenant-a" "node-1" "worker/node-1") demo_ca_state = (inr certificate, s')
  /\ IdentityFromPeerCertificate (Some (certificate_names certificate))
     = Some (mkIdentity "worker" "tenant-a" "node-1").
Proof.
  eexists _, _. split; [vm_compute; reflexivity|].
  eapply (certificates_name_their_service (default_ca_config "/ca") "worker" "tenant-a" "node-1"
            (mkSubject "worker" "tenant-a" "node-1" "worker/node-1") demo_key demo_certificate demo_key demo_ca_state);
    [reflexivity|intros uri Huri; cbn [alt_names demo_openssl]|reflexivity|by split_and!|by split_and!
    |reflexivity|reflexivity|vm_compute; reflexivity].
  assert (str_starts_with ("URI:" +:+ uri) "URI:" = true) as -> by (by destruct uri).
  change (str_drop 4 ("URI:" +:+ uri)) with (of_chars (chars uri)). by rewrite of_chars_chars, Huri.
Defined.

Definition demo_subject : PlatformCertificateSubject := mkSubject "worker" "tenant-a" "node-1" "worker/node-1".
Definition other_subject : PlatformCertificateSubject := mkSubject "worker" "tenant/a" "node-1" "worker/node-1".
Lemma certificates_are_issued_once_witness :
  match EnsurePlatformMtlsCertificate (default_ca_config "/ca") demo_subject demo_ca_state with
  | (inr bundle, s') =>
      EnsurePlatformMtlsCertificate (default_ca_config "/ca") other_subject s'
      = (inr (BundleForSubject (default_ca_config "/ca") other_subject), s')
  | (inl _, _) => False
  end.
Proof.
  destruct (EnsurePlatformMtlsCertificate _ demo_subject demo_ca_state) as [[e|bundle] s'] eqn:E.
  - apply (f_equal (fun r => match r.1 with inl _ => true | inr _ => false end)) in E.
    vm_compute in E. discriminate.
  - eapply (certificates_are_issued_once (default_ca_config "/ca") demo_subject other_subject demo_ca_state);
      [exact E|reflexivity].
Defined.
End Demo.
