(* ===== verification/HttpServer.v ===== *)
(** The HTTP server around the router ([PlatformService/BeastServer.cpp]): a request
    dispatched, a connection handled, and the accept loops of the plain, the TLS and
    the Boost.Beast listener.  Sockets, TLS and Beast's own parser are given by what
    they deliver. *)
From stdpp Require Import base list gmap strings.
From Stdlib Require Import ZArith Lia Ascii String.
From S2P Require Import Prelude Json Certificates MemoryStateStore Identity Http Config FileSystem Toml RouterSupport.
From S2P Require Import RegistryIndexStore ObjectStore RegistryTrust Router HttpWire.

(** An accepted connection: what [recv] gives, what [send] takes of an answer, whether the TLS
    handshake succeeds, by what the context verifies, and the certificate the peer showed in it. *)
Record Client := mkClient {
  received : list string;
  takes : string -> list nat;
  handshake : VerifyMode -> bool;
  certificate : option (list GeneralName);
}.

(** How a server ends: it still waits in [accept], it returned an exit code, or it ran
    into undefined behaviour. *)
Inductive ServerEnd := Waiting | Exited (code : Z) | Crashed.
Definition stopped_by (e : exn) : ServerEnd := match e with UndefinedBehaviour => Crashed | _ => Exited 1 end.

(** ** Listening *)

(** The socket calls of a listener: which one fails, with which error text, by the
    address it is given; [make_address] and the acceptor of Boost are one call. *)
Class ListenHost := {
  socket_error : option string;
  inet_pton : string -> bool;
  bind_error : string -> Z -> option string;
  listen_error : option string;
  acceptor_error : string -> Z -> option string;
}.
Definition succeeds (error : option string) (label : string) : exn + unit :=
  match error with Some reason => inl (RuntimeError (label +:+ reason)) | None => inr tt end.

(** [static_cast<uint16_t>(config.bind_port)], of an [int] that nothing has checked. *)
Definition port_number (config : PlatformConfig) : Z := bind_port config mod 2 ^ 16.

(** The port that a new socket listens on. *)
Definition CreateTcpListener `{ListenHost} (config : PlatformConfig) : exn + Z :=
  let port := port_number config in
  _ <-? succeeds socket_error "failed to create listener socket: " ;;
  _ <-? (if inet_pton (bind_host config) then inr tt
         else inl (RuntimeError "TLS listener supports only IPv4 bind addresses")) ;;
  _ <-? succeeds (bind_error (bind_host config) port) "failed to bind listener socket: " ;;
  _ <-? succeeds listen_error "failed to listen on socket: " ;;
  inr port.
Definition CreateListener `{ListenHost} (config : PlatformConfig) : exn + Z :=
  let port := port_number config in
  _ <-? succeeds socket_error "socket failed: " ;;
  _ <-? (if inet_pton (bind_host config) then inr tt
         else inl (RuntimeError "POSIX fallback only supports IPv4 bind hosts")) ;;
  _ <-? succeeds (bind_error (bind_host config) port) "bind failed: " ;;
  _ <-? succeeds listen_error "listen failed: " ;;
  inr port.
Definition OpenAcceptor `{ListenHost} (config : PlatformConfig) : exn + Z :=
  _ <-? succeeds (acceptor_error (bind_host config) (port_number config)) EmptyString ;;
  inr (port_number config).

Section Server.
Context {DB : Type} `{JsonLib} `{Host} `{PostgresStore DB} `{CurlHost curl_history} `{SigningHost} `{TomlLib}
  (config : PlatformConfig).

(** [body = json::parse(text)], or the 400 that answers a text that is none. *)
Definition request_json (text : string) : HttpResponse + json :=
  if is_empty text then inr (JObject ∅)
  else match parse_json text with
       | inl e => inl (mkResponse 400 (BadRequestBody (what e)))
       | inr body => inr body
       end.

Definition DispatchRawRequest (request : RawHttpRequest) (peer_identity : option MtlsIdentity)
  : RouterM DB HttpResponse :=
  match ParseHttpMethod (raw_method request) with
  | None => m_ret (mkResponse 405 (BadRequestBody "method must be GET, POST, or DELETE"))
  | Some method =>
      match request_json (raw_body request) with
      | inl refused => m_ret refused
      | inr body =>
          Dispatch config
            (mkRequest method (NormalizePlatformPath (raw_target request)) (raw_headers request) body
               (IdentityForRequest (raw_headers request) config peer_identity))
      end
  end.

(** A response for what was received, whichever listener received it. *)
Definition respond (read : string + string) (peer_identity : option MtlsIdentity)
  : RouterM DB HttpResponse :=
  match (raw <-? read ;; ParseRawHttpRequest raw) with
  | inl error => m_ret (mkResponse 400 (BadRequestBody error))
  | inr request => DispatchRawRequest request peer_identity
  end.
Definition response_text (response : HttpResponse) : exn + string :=
  BuildRawHttpResponse (status_code response) (resp_body response).

(** ** The plain listener *)

(** What a connection was sent; a [send] that fails is ignored. *)
Definition HandlePosixConnection (client : Client) : RouterM DB string :=
  response <- respond (ReadHttpRequest "" (received client)) None ;;
  text <- lift (response_text response) ;;
  m_ret (SendAll (takes client text) text).1.

(** [do { accept; ... } while (!options.once)]: the texts sent, how it ends, and the
    router.  [None] is an [accept] that fails. *)
Section Accept.
Context {C T : Type} (once : bool) (handle : C -> RouterM DB T).

Fixpoint accept_loop (clients : list (option C)) (r : PlatformRouter DB)
  : list T * ServerEnd * PlatformRouter DB :=
  match clients with
  | [] => ([], Waiting, r)
  | None :: _ => ([], Exited 1, r)
  | Some client :: clients =>
      match handle client r with
      | (inl e, r') => ([], stopped_by e, r')
      | (inr sent, r') =>
          if once then ([sent], Exited 0, r')
          else let '(texts, stop, r'') := accept_loop clients r' in (sent :: texts, stop, r'')
      end
  end.
End Accept.

(** ** The TLS listener *)

(** A failed handshake closes the connection; a response that cannot be written whole
    throws out of the loop. *)
Definition HandleTlsConnection (mode : VerifyMode) (client : Client) : RouterM DB string :=
  if negb (handshake client mode) then m_ret EmptyString
  else
    response <- respond (ReadHttpRequest "TLS " (received client))
                  (IdentityFromPeerCertificate (certificate client)) ;;
    text <- lift (response_text response) ;;
    let '(sent, all) := SendAll (takes client text) text in
    if all then m_ret sent else throw (RuntimeError "failed writing TLS response").

(** ** The Boost.Beast listener *)

(** What [http::read] gives: the end of the stream, an error, or a request; and
    whether the response can be written. *)
Record BeastRequest := mkBeast {
  method_string : string;
  target : string;
  fields : list (string * string);
  beast_body : string;
}.
Inductive BeastConnection :=
| EndOfStream
| ReadFailed
| Requested (request : BeastRequest) (written : bool).

Definition RequestHeaders (fields : list (string * string)) : gmap string string :=
  fold_left (fun headers field => <[LowerAscii field.1 := field.2]> headers) fields ∅.

(** The status and the body of the response. *)
Definition BuildHttpResponse (response : HttpResponse) : exn + (Z * string) :=
  payload <-? json_dump_indented (resp_body response) ;;
  inr (status_code response, payload +:+ newline_text).

Definition DispatchHttpRequest (request : BeastRequest) : RouterM DB (Z * string) :=
  let headers := RequestHeaders (fields request) in
  response <-
    match ParseHttpMethod (method_string request) with
    | None => m_ret (mkResponse 405 (BadRequestBody "method must be GET, POST, or DELETE"))
    | Some method =>
        match request_json (beast_body request) with
        | inl refused => m_ret refused
        | inr body =>
            Dispatch config (mkRequest method (NormalizePlatformPath (target request)) headers body
                               (IdentityForRequest headers config None))
        end
    end ;;
  lift (BuildHttpResponse response).

Definition HandleConnection (connection : BeastConnection) : RouterM DB (option (Z * string)) :=
  match connection with
  | EndOfStream => m_ret None
  | ReadFailed => throw (RuntimeError "beast::system_error")
  | Requested request written =>
      response <- DispatchHttpRequest request ;;
      if written then m_ret (Some response) else throw (RuntimeError "beast::system_error")
  end.

(** ** The servers *)

(** What the clients of a server were answered. *)
Inductive Answers := BeastAnswers (l : list (option (Z * string))) | PosixAnswers (l : list string).

(** The router is made once the listener is; a server that fails before leaves the
    files alone. *)
Definition serve {C T} (once : bool) (handle : C -> RouterM DB T) (listener : exn + Z)
    (files : FileTree) (clients : list (option C)) : list T * ServerEnd * (FileTree + PlatformRouter DB) :=
  match listener with
  | inl e => ([], stopped_by e, inl files)
  | inr _ => let '(texts, stop, r) := accept_loop once handle clients (initial_router config files) in
             (texts, stop, inr r)
  end.

Context `{ListenHost} `{OpenSsl} `{!Pem}.

Definition RunOpenSslServer (once : bool) (files : FileTree) (clients : list (option Client))
  : list string * ServerEnd * (FileTree + PlatformRouter DB) :=
  match BuildTlsContext config (mkCaState files 0) with
  | (inl e, s) => ([], stopped_by e, inl (ca_files s))
  | (inr mode, s) =>
      serve once (HandleTlsConnection mode) (CreateTcpListener config) (ca_files s) clients
  end.
Definition RunPosixServer (once : bool) (files : FileTree) (clients : list (option Client)) :=
  serve once HandlePosixConnection (CreateListener config) files clients.
Definition RunBoostServer (once : bool) (files : FileTree) (connections : list (option BeastConnection)) :=
  serve once HandleConnection (OpenAcceptor config) files connections.

(** [RunBeastServer], where the headers of Boost.Beast were there to compile with and
    where they were not. *)
Definition RunBeastServer (has_boost_beast once : bool) (files : FileTree)
    (connections : list (option BeastConnection)) (clients : list (option Client))
  : Answers * ServerEnd * (FileTree + PlatformRouter DB) :=
  if tls_enabled (mtls config) then
    let '(texts, stop, r) := RunOpenSslServer once files clients in (PosixAnswers texts, stop, r)
  else if has_boost_beast then
    let '(answers, stop, r) := RunBoostServer once files connections in (BeastAnswers answers, stop, r)
  else
    let '(texts, stop, r) := RunPosixServer once files clients in (PosixAnswers texts, stop, r).
End Server.
