(* ===== verification/HttpWireFacts.v ===== *)
(** What the wire promises: a request is read back as it was rendered, however the
    bytes are cut into segments. *)
From stdpp Require Import base list gmap strings.
From Stdlib Require Import ZArith Lia Ascii String.
From S2P Require Import Prelude Json Identity Http Config RegistryIndexStore RegistryIdentifiers ObjectStore.
From S2P Require Import HttpWire.

(** ** Texts *)

Lemma str_app_empty a : a +:+ EmptyString = a.
Proof. apply chars_inj. by rewrite chars_app, app_nil_r. Qed.
Lemma size_of_app a b : size_of (a +:+ b) = size_of a + size_of b.
Proof. unfold size_of. rewrite str_length_app. lia. Qed.

(** ** Finding a mark *)

Lemma prefix_app m a b : (str_length m <= str_length a)%nat ->
  String.prefix m (a +:+ b) = String.prefix m a.
Proof.
  revert a. induction m as [|c m IH]; intros [|d a]; cbn [str_length String.length]; intros Hl;
    [by destruct b|done|cbn in Hl; lia|].
  change (String.prefix (String c m) (String d (a +:+ b)) = String.prefix (String c m) (String d a)).
  cbn [String.prefix]. destruct (ascii_dec c d); [|done]. apply IH. cbn in Hl. unfold str_length. lia.
Qed.
Lemma prefix_length m s : String.prefix m s = true -> (str_length m <= str_length s)%nat.
Proof.
  revert s. induction m as [|c m IH]; intros [|d s]; cbn; try lia; try done.
  destruct (ascii_dec c d); [|done]. intros Hp. apply IH in Hp. unfold str_length in *. lia.
Qed.
Lemma str_find_cons m c s :
  str_find m (String c s) = if String.prefix m (String c s) then Some 0%nat else S <$> str_find m s.
Proof. reflexivity. Qed.
Lemma str_find_bound m s n : m <> EmptyString -> str_find m s = Some n ->
  (n + str_length m <= str_length s)%nat.
Proof.
  intros Hm. revert n. induction s as [|c s IH]; intros n.
  - unfold str_find. cbn. by destruct m.
  - rewrite str_find_cons. destruct (String.prefix m (String c s)) eqn:E.
    + intros [= <-]. by apply prefix_length in E.
    + destruct (str_find m s) as [k|]; [|done]. intros [= <-]. specialize (IH k eq_refl).
      unfold str_length in *. cbn [String.length]. lia.
Qed.
Lemma str_find_app m a b n : m <> EmptyString -> str_find m a = Some n -> str_find m (a +:+ b) = Some n.
Proof.
  intros Hm. revert n. induction a as [|c a IH]; intros n.
  - unfold str_find. cbn. by destruct m.
  - intros Hf. pose proof (str_find_bound _ _ _ Hm Hf) as Hb.
    change ((String c a) +:+ b) with (String c (a +:+ b)). rewrite str_find_cons in Hf |- *.
    change (String c (a +:+ b)) with ((String c a) +:+ b). rewrite prefix_app by lia.
    destruct (String.prefix m (String c a)); [done|].
    destruct (str_find m a) as [k|]; [|done]. by rewrite (IH k eq_refl).
Qed.

Lemma blank_line_text : blank_line <> EmptyString.
Proof. done. Qed.

(** Lines without a carriage return do not hide the blank line. *)
Definition no_char (c : ascii) (s : string) : bool := forallb (fun d => negb (Ascii.eqb d c)) (chars s).
Lemma blank_after_line line rest : no_char "013" line = true ->
  str_find blank_line (line +:+ crlf +:+ rest)
  = if String.prefix crlf rest then Some (str_length line)
    else (fun n => str_length line + (2 + n))%nat <$> str_find blank_line rest.
Proof.
  induction line as [|c line IH]; intros Hl.
  - change (EmptyString +:+ crlf +:+ rest) with (String "013" (String "010" rest)).
    rewrite !str_find_cons.
    assert (String.prefix blank_line (String "013" (String "010" rest)) = String.prefix crlf rest) as ->
      by (destruct rest; reflexivity).
    assert (String.prefix blank_line (String "010" rest) = false) as -> by done.
    destruct (String.prefix crlf rest); [done|]. by destruct (str_find blank_line rest).
  - unfold no_char in Hl. cbn in Hl. apply andb_true_iff in Hl as [Hc Hl].
    change ((String c line) +:+ crlf +:+ rest) with (String c (line +:+ crlf +:+ rest)).
    rewrite str_find_cons, (IH Hl).
    assert (String.prefix blank_line (String c (line +:+ crlf +:+ rest)) = false) as ->.
    { change ((if ascii_dec "013" c
               then String.prefix (String "010" crlf) (line +:+ crlf +:+ rest) else false) = false).
      destruct (ascii_dec "013" c) as [<-|]; [discriminate Hc|reflexivity]. }
    destruct (String.prefix crlf rest); [done|]. by destruct (str_find blank_line rest).
Qed.

(** ** Segments *)

Definition text_of (segments : list string) : string := foldr (fun a b => a +:+ b) EmptyString segments.
Definition segmented (segments : list string) (text : string) : Prop :=
  text_of segments = text /\ Forall (fun bytes => is_empty bytes = false) segments.

Lemma contains_find m s n : str_find m s = Some n -> str_contains s m = true.
Proof. unfold str_contains. by intros ->. Qed.

Lemma receive_headers_found tls raw received s h :
  str_find blank_line s = Some h -> raw +:+ text_of received = s ->
  Forall (fun bytes => is_empty bytes = false) received -> size_of s <= kMaxRequestBytes ->
  exists raw' received', receive_headers tls raw received = inr (raw', received')
    /\ raw' +:+ text_of received' = s /\ str_find blank_line raw' = Some h
    /\ Forall (fun bytes => is_empty bytes = false) received'.
Proof.
  intros Hh Hs HF Hsize. revert raw Hs. induction HF as [|bytes received Hb HF IH]; intros raw Hs;
    cbn [receive_headers]; destruct (str_contains raw blank_line) eqn:Hc.
  1, 3: unfold str_contains in Hc; destruct (str_find blank_line raw) as [h'|] eqn:Hf; [|done];
    (assert (Some h = Some h') as [= <-];
       [by rewrite <- Hh, <- Hs; apply str_find_app|]); do 2 eexists; split_and!; [reflexivity|exact Hs|done|by repeat constructor].
  - cbn in Hs. assert (raw = s) as <-.
    { rewrite <- Hs. by rewrite str_app_empty. }
    by rewrite (contains_find _ _ _ Hh) in Hc.
  - rewrite Hb. cbn [text_of foldr] in Hs. rewrite <- str_app_assoc in Hs.
    assert ((kMaxRequestBytes <? size_of (raw +:+ bytes)) = false) as ->.
    { apply Z.ltb_ge. rewrite <- Hs, size_of_app in Hsize. unfold size_of in *. lia. }
    by apply IH.
Qed.

Lemma receive_body_reaches tls needed raw received s :
  raw +:+ text_of received = s -> Forall (fun bytes => is_empty bytes = false) received ->
  size_of s <= kMaxRequestBytes -> needed <= size_of s ->
  exists raw' rest, receive_body tls needed raw received = inr raw' /\ raw' +:+ rest = s
    /\ needed <= size_of raw' /\ exists more, raw' = raw +:+ more.
Proof.
  intros Hs HF Hsize Hn. revert raw Hs. induction HF as [|bytes received Hb HF IH]; intros raw Hs;
    cbn [receive_body]; destruct (Z.ltb_spec (size_of raw) needed) as [Hlt|Hge].
  2, 4: do 2 eexists; split_and!; [reflexivity|exact Hs|done|]; exists EmptyString; by rewrite str_app_empty.
  - cbn in Hs. rewrite <- Hs, size_of_app in Hn. unfold size_of in *. cbn in Hn. lia.
  - rewrite Hb. cbn [text_of foldr] in Hs. rewrite <- str_app_assoc in Hs.
    assert ((kMaxRequestBytes <? size_of (raw +:+ bytes)) = false) as ->.
    { apply Z.ltb_ge. rewrite <- Hs, size_of_app in Hsize. unfold size_of in *. lia. }
    destruct (IH _ Hs) as (raw' & rest & E & Hr & Hge & more & ->).
    exists ((raw +:+ bytes) +:+ more), rest. split_and!; [done|done|done|].
    exists (bytes +:+ more). by rewrite str_app_assoc.
Qed.

(** The lenient reading agrees with the strict one where that succeeds. *)
Lemma lenient_agrees lines headers headers' :
  read_headers_of headers lines = inr headers' -> fold_left lenient_header lines headers = headers'.
Proof.
  revert headers. induction lines as [|line lines IH]; intros headers; cbn; [by intros [= ->]|].
  unfold lenient_header at 2. destruct (is_empty (TrimAscii line)) eqn:He.
  - apply is_empty_true in He. rewrite He. cbn. apply IH.
  - destruct (find_char ":" (chars (TrimAscii line))) as [colon|]; [|done]. apply IH.
Qed.

Lemma content_length_bounds headers n : ContentLength headers = Some n -> 0 <= n < 2 ^ 64.
Proof.
  unfold ContentLength. destruct (headers !! _); [|intros [= <-]; lia]. unfold stoul.
  destruct (match drop_while is_space (chars s) with | [] => _ | _ => _ end) as [sign l].
  destruct l as [|c l]; [done|]. destruct (is_digit c); [|done].
  destruct (_ <? _); [|done]. intros [= <-]. apply Z.mod_pos_bound. lia.
Qed.

(** A request that is complete and says so. *)
Definition complete (s : string) (request : RawHttpRequest) : Prop :=
  ParseRawHttpRequest s = inr request
  /\ exists h n, str_find blank_line s = Some h /\ ContentLength (raw_headers request) = Some n
     /\ Z.of_nat (h + 4) + n <= size_of s /\ size_of s <= kMaxRequestBytes.

Lemma substr_app a b p n : 0 <= n -> Z.of_nat p + n <= size_of a ->
  substr (a +:+ b) p n = substr a p n.
Proof.
  intros Hn Hp. unfold substr. rewrite size_of_app. unfold size_of in *.
  rewrite !Z.min_l by lia. rewrite str_drop_app_le by lia. apply str_take_app_le.
  rewrite (str_length_chars (str_drop p a)), chars_str_drop, length_drop, <- str_length_chars. lia.
Qed.
Lemma size_substr s p n : 0 <= n -> Z.of_nat p + n <= size_of s -> size_of (substr s p n) = n.
Proof.
  intros Hn Hp. unfold substr, size_of in *.
  rewrite str_length_chars, chars_str_take, chars_str_drop, length_take, length_drop, <- str_length_chars.
  lia.
Qed.

Lemma header_end_found s h : str_find blank_line s = Some h -> header_end_of s = h.
Proof. unfold header_end_of. by intros ->. Qed.

(** What a parser that has the blank line and part of the body makes of it. *)
Lemma parse_part s request raw rest : complete s request -> raw +:+ rest = s ->
  is_Some (str_find blank_line raw) ->
  header_end_of raw = header_end_of s
  /\ exists n, ContentLength (raw_headers request) = Some n
     /\ declared_length raw = inr n /\ 0 <= n
     /\ u64 (Z.of_nat (header_end_of raw + 4) + n) = Z.of_nat (header_end_of raw + 4) + n
     /\ Z.of_nat (header_end_of raw + 4) + n <= size_of s
     /\ (Z.of_nat (header_end_of raw + 4) + n <= size_of raw -> ParseRawHttpRequest raw = inr request).
Proof.
  intros (Hp & h & n & Hh & Hn & Hsize & Hmax) <- [h' Hh'].
  pose proof (str_find_app _ _ rest _ blank_line_text Hh') as E. rewrite Hh in E. injection E as <-.
  rewrite (header_end_found _ _ Hh), (header_end_found _ _ Hh'). split; [done|].
  pose proof (content_length_bounds _ _ Hn) as Hn0.
  pose proof (str_find_bound _ _ _ blank_line_text Hh') as Hb. cbn [str_length String.length blank_line] in Hb.
  assert (Hu : u64 (Z.of_nat (h + 4) + n) = Z.of_nat (h + 4) + n).
  { apply Z.mod_small. unfold kMaxRequestBytes in Hmax. lia. }
  unfold ParseRawHttpRequest in Hp. rewrite Hh in Hp.
  rewrite str_take_app_le in Hp by lia.
  destruct (getline_all "010" (str_take h raw)) as [|line lines] eqn:Hl; [done|].
  destruct (read_request_line (TrimAscii line)) as [[method target]|] eqn:Hline; [|done].
  destruct (read_headers_of ∅ lines) as [|headers] eqn:Hheaders; [done|]. cbn [r_bind] in Hp.
  destruct (ContentLength headers) as [n'|] eqn:Hcl; [|done].
  destruct (_ <? _) eqn:Hlt; [done|]. injection Hp as <-. cbn [raw_headers] in Hn.
  rewrite Hcl in Hn. injection Hn as ->. exists n. cbn [raw_headers].
  assert (Hparse : ParseRawHttpRequest raw
                   = if size_of raw <? Z.of_nat (h + 4) + n then inl "HTTP request body is incomplete"%string
                     else inr (mkRaw method target headers (substr raw (h + 4) n))).
  { unfold ParseRawHttpRequest. rewrite Hh', Hl, Hline, Hheaders. cbn [r_bind]. by rewrite Hcl, Hu. }
  split_and!; [done| |lia|done|done|].
  - unfold declared_length. rewrite Hparse.
    destruct (Z.ltb_spec (size_of raw) (Z.of_nat (h + 4) + n)) as [Hshort|Hlong].
    + rewrite (header_end_found _ _ Hh'), Hl. cbn [List.tl].
      by rewrite (lenient_agrees _ _ _ Hheaders), Hcl.
    + cbn [raw_body]. by rewrite size_substr by lia.
  - intros Hlong. rewrite Hparse. destruct (Z.ltb_spec (size_of raw) (Z.of_nat (h + 4) + n)); [lia|].
    by rewrite substr_app by lia.
Qed.

(** Reading does not depend on how the bytes arrive. *)
Lemma reading_ignores_segments tls s request received :
  complete s request -> segmented received s ->
  exists raw, ReadHttpRequest tls received = inr raw /\ ParseRawHttpRequest raw = inr request.
Proof.
  intros Hc [Hs HF]. pose proof Hc as (_ & h & n0 & Hh & _ & _ & Hmax).
  destruct (receive_headers_found tls EmptyString received s h Hh Hs HF Hmax)
    as (raw & received' & E & Hr & Hf & HF'). unfold ReadHttpRequest. rewrite E. cbn [r_bind].
  destruct (parse_part s request raw (text_of received') Hc Hr) as (_ & n & Hn & Hd & Hn0 & Hu & Hle & _);
    [by eexists|]. rewrite Hd. cbn [r_bind]. rewrite Hu.
  destruct (receive_body_reaches tls _ raw received' s Hr HF' Hmax Hle)
    as (raw' & rest & E' & Hr' & Hge & more & ->).
  exists (raw +:+ more). split; [done|].
  assert (Hf' : str_find blank_line (raw +:+ more) = Some h) by by apply str_find_app.
  destruct (parse_part s request (raw +:+ more) rest Hc Hr') as (_ & n' & Hn' & _ & _ & _ & _ & Hp);
    [by eexists|]. rewrite Hn in Hn'. injection Hn' as <-. apply Hp.
  revert Hge. by rewrite (header_end_found _ _ Hf), (header_end_found _ _ Hf').
Qed.

(** ** Trimming *)

Lemma drop_while_end_tail {A} (p : A -> bool) l tail :
  forallb p tail = true -> drop_while_end p (l ++ tail) = drop_while_end p l.
Proof.
  intros Ht. unfold drop_while_end. rewrite rev_app_distr. f_equal.
  assert (Hr : forallb p (rev tail) = true).
  { apply forallb_forall. intros c Hc. rewrite <- in_rev in Hc. rewrite forallb_forall in Ht. by apply Ht. }
  induction (rev tail) as [|c r IH]; [done|]. cbn in Hr |- *. apply andb_true_iff in Hr as [-> Hr]. by apply IH.
Qed.
Lemma drop_while_end_keep {A} (p : A -> bool) x c y :
  p c = false -> drop_while_end p (x ++ c :: y) = x ++ c :: drop_while_end p y.
Proof.
  intros Hc. unfold drop_while_end. rewrite rev_app_distr. cbn [rev]. rewrite <- app_assoc.
  set (tail := [c] ++ rev x).
  assert (Hd : drop_while p (rev y ++ tail) = drop_while p (rev y) ++ tail).
  { induction (rev y) as [|d r IH]; cbn; [by rewrite Hc|]. by destruct (p d). }
  rewrite Hd. subst tail. rewrite !rev_app_distr, rev_involutive. cbn. by rewrite <- app_assoc.
Qed.
Lemma drop_while_length {A} (p : A -> bool) l : (List.length (drop_while p l) <= List.length l)%nat.
Proof. induction l as [|c l IH]; cbn; [lia|]. destruct (p c); cbn; lia. Qed.

Lemma trim_char_space c : is_space c = false -> trim_char c = false.
Proof.
  intros Hc. destruct (trim_char c) eqn:E; [|done]. unfold trim_char, char_in in E. cbn [existsb] in E.
  repeat (apply orb_true_iff in E as [E%Ascii.eqb_eq|E]; [by subst|]). done.
Qed.

(** A text that trimming leaves alone is empty or begins and ends with other
    characters. *)
Lemma trimmed_ends v : TrimAscii v = v ->
  v = EmptyString
  \/ (exists c r, chars v = c :: r /\ trim_char c = false)
     /\ (exists r c, chars v = r ++ [c] /\ trim_char c = false).
Proof.
  intros Hv. apply (f_equal chars) in Hv. unfold TrimAscii in Hv. rewrite chars_of_chars in Hv.
  destruct (chars v) as [|c r] eqn:E; [left; by apply chars_inj|right].
  pose proof (drop_while_length trim_char (c :: r)) as H1.
  assert (H2 : (List.length (drop_while_end trim_char (drop_while trim_char (c :: r)))
                <= List.length (drop_while trim_char (c :: r)))%nat).
  { unfold drop_while_end. rewrite length_rev. etrans; [apply drop_while_length|]. by rewrite length_rev. }
  rewrite Hv in H2. assert (Hc : trim_char c = false).
  { destruct (trim_char c) eqn:Hc; [|done]. cbn [drop_while] in H2. rewrite Hc in H2.
    pose proof (drop_while_length trim_char r). cbn in H2. lia. }
  split; [by exists c, r|]. cbn [drop_while] in Hv. rewrite Hc in Hv.
  destruct (exists_last (l := c :: r) ltac:(done)) as (init & d & El). exists init, d. split; [done|].
  destruct (trim_char d) eqn:Hd; [|done]. rewrite El in Hv.
  rewrite drop_while_end_tail in Hv by (cbn [forallb]; by rewrite Hd).
  apply (f_equal List.length) in Hv. rewrite length_app in Hv. unfold drop_while_end in Hv.
  rewrite length_rev in Hv. pose proof (drop_while_length trim_char (rev init)) as H3.
  rewrite length_rev in H3. cbn in Hv. lia.
Qed.

(** ** Rendered requests *)

Definition no_space (s : string) : bool := forallb (fun c => negb (is_space c)) (chars s).
Definition word (s : string) : Prop := s <> EmptyString /\ no_space s = true.
Definition one_line (s : string) : Prop := no_char "013" s = true /\ no_char "010" s = true.
(** A header that can be sent: a name without white space and colon, a trimmed value
    on one line. *)
Definition sendable (header : string * string) : Prop :=
  word header.1 /\ no_char ":" header.1 = true /\ one_line header.2 /\ TrimAscii header.2 = header.2.

Definition header_line (header : string * string) : string := header.1 +:+ ": " +:+ header.2.
Fixpoint lines_text (lines : list string) : string :=
  match lines with
  | [] => EmptyString
  | [line] => line
  | line :: lines => line +:+ crlf +:+ lines_text lines
  end.
(** A request as clients write it. *)
Definition request_lines (method target : string) (headers : list (string * string)) (body : string)
  : list string :=
  (method +:+ " " +:+ target +:+ " HTTP/1.1")
    :: map header_line (headers ++ [("Content-Length"%string, decimal (size_of body))]).
Definition request_text (method target : string) (headers : list (string * string)) (body : string)
  : string :=
  lines_text (request_lines method target headers body) +:+ crlf +:+ crlf +:+ body.

(** Lines that end neither the head nor each other. *)
Definition plain_line (line : string) : Prop := one_line line /\ line <> EmptyString.

Lemma crlf_not_next line rest : no_char "013" line = true -> line <> EmptyString ->
  String.prefix crlf (line +:+ rest) = false.
Proof.
  destruct line as [|c line]; [done|]. intros Hl _.
  unfold no_char in Hl. cbn in Hl. apply andb_true_iff in Hl as [Hc _].
  change ((if ascii_dec "013" c then String.prefix newline_text (line +:+ rest) else false) = false).
  destruct (ascii_dec "013" c) as [<-|]; [discriminate Hc|reflexivity].
Qed.

Lemma find_head_end lines body : lines <> [] -> Forall plain_line lines ->
  str_find blank_line (lines_text lines +:+ crlf +:+ crlf +:+ body) = Some (str_length (lines_text lines)).
Proof.
  intros Hne HF. induction HF as [|line lines [[Hcr Hlf] Hl] HF IH]; [done|].
  destruct lines as [|next lines].
  - cbn [lines_text]. rewrite blank_after_line by done.
    replace (String.prefix crlf (crlf +:+ body)) with true; [done|]. by destruct body.
  - change (lines_text (line :: next :: lines)) with (line +:+ crlf +:+ lines_text (next :: lines)).
    rewrite !str_app_assoc, blank_after_line by done.
    apply Forall_cons in HF as [[[Hcr' _] Hl'] _].
    assert (Hp : forall rest, String.prefix crlf (lines_text (next :: lines) +:+ rest) = false).
    { intros rest. destruct lines as [|l2 lines]; cbn [lines_text]; [|rewrite str_app_assoc];
        by apply crlf_not_next. }
    rewrite Hp, IH by done. cbn [fmap option_fmap option_map]. f_equal.
    rewrite !str_length_app. change (str_length crlf) with 2%nat. lia.
Qed.

(** The lines as [std::getline] gives them: all but the last keep their carriage
    return. *)
Fixpoint lines_read (lines : list string) : list string :=
  match lines with
  | [] => []
  | [line] => [line]
  | line :: lines => (line +:+ String "013" EmptyString) :: lines_read lines
  end.
Lemma getline_lines lines : Forall plain_line lines ->
  getline_all "010" (lines_text lines) = lines_read lines.
Proof.
  unfold getline_all. intros HF. induction HF as [|line lines [[_ Hlf] Hl] HF IH]; [done|].
  destruct lines as [|next lines].
  - cbn [lines_text lines_read]. rewrite getline_single; [|done|by destruct line].
    cbn [rev app]. by rewrite of_chars_chars.
  - change (lines_text (line :: next :: lines)) with (line +:+ crlf +:+ lines_text (next :: lines)).
    assert (Hch : forall rest, chars (line +:+ crlf +:+ rest)
                  = (chars line ++ ["013"%char]) ++ "010"%char :: chars rest).
    { intros rest. rewrite !chars_app. by rewrite <- app_assoc. }
    rewrite Hch, getline_join.
    + rewrite IH. cbn [rev app lines_read]. by rewrite of_chars_app, of_chars_chars.
    + unfold no_char in Hlf. by rewrite forallb_app, Hlf.
Qed.

(** A line trimmed, with or without its carriage return. *)
Definition carriage (tail : string) : Prop := forallb trim_char (chars tail) = true.

Lemma trim_header header tail : sendable header -> carriage tail ->
  exists rest, TrimAscii (header_line header +:+ tail) = header.1 +:+ ":" +:+ rest
    /\ TrimAscii rest = header.2.
Proof.
  intros ([Hne Hsp] & _ & _ & Htrim) Ht. destruct header as [name value]. cbn [fst snd] in *.
  exists (of_chars (drop_while_end trim_char (" "%char :: chars value))). split.
  - apply chars_inj. unfold TrimAscii, header_line. cbn [fst snd].
    rewrite chars_of_chars, !chars_app, chars_of_chars.
    assert (drop_while trim_char ((chars name ++ chars ": " ++ chars value) ++ chars tail)
            = (chars name ++ chars ": " ++ chars value) ++ chars tail) as ->.
    { apply drop_while_id. destruct name as [|c name]; [done|]. unfold no_space in Hsp. cbn in Hsp.
      apply andb_true_iff in Hsp as [Hc%negb_true_iff _]. by apply trim_char_space. }
    rewrite drop_while_end_tail by done. by apply drop_while_end_keep.
  - destruct (trimmed_ends value Htrim) as [->|[(c & r & E & Hc) (r' & c' & E' & Hc')]]; [done|].
    unfold TrimAscii. rewrite chars_of_chars.
    change (" "%char :: chars value) with ([" "%char] ++ chars value).
    assert (drop_while_end trim_char ([" "%char] ++ chars value) = [" "%char] ++ chars value) as ->.
    { rewrite E', (assoc_L (++)). by rewrite drop_while_end_keep. }
    cbn [app drop_while]. change (trim_char " ") with true. cbv iota.
    rewrite (drop_while_id _ (chars value)) by (rewrite E; exact Hc).
    rewrite E', drop_while_end_keep by done. cbn. rewrite <- E'. apply of_chars_chars.
Qed.

Lemma read_header header tail lines headers : sendable header -> carriage tail ->
  read_headers_of headers ((header_line header +:+ tail) :: lines)
  = read_headers_of (<[LowerAscii header.1 := header.2]> headers) lines.
Proof.
  intros Hs Ht. destruct (trim_header header tail Hs Ht) as (rest & E & Hrest).
  destruct Hs as ([Hne _] & Hcolon & _). cbn [read_headers_of]. rewrite E.
  destruct (is_empty (header.1 +:+ ":" +:+ rest)) eqn:He.
  { apply is_empty_true in He. by destruct header.1. }
  rewrite chars_app. change (chars (":" +:+ rest)) with (":"%char :: chars rest).
  rewrite find_char_at by exact Hcolon. unfold header_at.
  rewrite <- str_length_chars, str_take_all. do 3 f_equal.
  change (":" +:+ rest) with (String ":" rest).
  replace (str_drop (S (str_length header.1)) (header.1 +:+ String ":" rest)) with rest; [exact Hrest|].
  apply chars_inj. rewrite chars_str_drop, chars_app, str_length_chars.
  rewrite drop_app_ge by lia. by replace (S _ - _)%nat with 1%nat by lia.
Qed.

(** The map the headers of a request make. *)
Definition headers_map (headers : list (string * string)) : gmap string string :=
  fold_left (fun headers header => <[LowerAscii header.1 := header.2]> headers) headers ∅.

Lemma read_all_headers l headers : Forall sendable l ->
  read_headers_of headers (lines_read (map header_line l))
  = inr (fold_left (fun headers header => <[LowerAscii header.1 := header.2]> headers) l headers).
Proof.
  intros HF. revert headers. induction HF as [|header l Hs HF IH]; intros headers; [done|].
  destruct l as [|next l].
  - cbn [map lines_read]. etrans; [|exact (read_header header EmptyString [] headers Hs eq_refl)].
    do 2 f_equal. apply chars_inj. by rewrite chars_app, app_nil_r.
  - change (lines_read (map header_line (header :: next :: l)))
      with ((header_line header +:+ String "013" EmptyString) :: lines_read (map header_line (next :: l))).
    rewrite read_header by done. apply IH.
Qed.

(** ** The request line *)

Lemma span_word_all w rest : no_space w = true ->
  match rest with [] => True | c :: _ => is_space c = true end ->
  span_word (chars w ++ rest) = (chars w, rest).
Proof.
  intros Hw Hr. unfold no_space in Hw. induction (chars w) as [|c l IH]; cbn [app span_word].
  - destruct rest as [|c rest]; [done|]. cbn. by rewrite Hr.
  - cbn in Hw. apply andb_true_iff in Hw as [Hc Hw]. apply negb_true_iff in Hc. rewrite Hc.
    by rewrite (IH Hw).
Qed.
Lemma read_word_text w rest : word w ->
  match rest with [] => True | c :: _ => is_space c = true end ->
  read_word (chars w ++ rest) = Some (w, rest).
Proof.
  intros [Hne Hw] Hr. unfold read_word.
  rewrite drop_while_id; [|unfold no_space in Hw; destruct w as [|c w]; [done|]; cbn in Hw |- *;
    by apply andb_true_iff in Hw as [Hc%negb_true_iff _]].
  rewrite span_word_all by done. destruct w as [|c w]; [done|].
  change (Some (of_chars (chars (String c w)), rest) = Some (String c w, rest)). by rewrite of_chars_chars.
Qed.
Lemma read_word_space w rest : word w ->
  match rest with [] => True | c :: _ => is_space c = true end ->
  read_word (" "%char :: chars w ++ rest) = Some (w, rest).
Proof.
  intros Hw Hr. unfold read_word. cbn [drop_while]. change (is_space " ") with true. cbv iota.
  by apply read_word_text.
Qed.

Definition request_line (method target : string) : string := method +:+ " " +:+ target +:+ " HTTP/1.1".
Lemma trim_request_line method target : word method ->
  TrimAscii (request_line method target +:+ String "013" EmptyString) = request_line method target.
Proof.
  intros [Hne Hsp]. apply chars_inj. unfold TrimAscii. rewrite chars_of_chars, chars_app.
  assert (Hhead : forall rest, drop_while trim_char (chars (request_line method target) ++ rest)
                               = chars (request_line method target) ++ rest).
  { intros rest. apply drop_while_id. destruct method as [|c method]; [done|]. unfold no_space in Hsp.
    cbn in Hsp. apply andb_true_iff in Hsp as [Hc%negb_true_iff _]. by apply trim_char_space. }
  rewrite Hhead, drop_while_end_tail by done. unfold request_line.
  rewrite !chars_app. change (chars " HTTP/1.1") with (chars " HTTP/1." ++ ["1"%char]).
  rewrite !(assoc_L (++)). by rewrite drop_while_end_keep.
Qed.
Lemma read_request_line_text method target : word method -> word target ->
  read_request_line (request_line method target) = Some (method, target).
Proof.
  intros Hm Ht. unfold read_request_line, request_line.
  rewrite chars_app. change (chars (" " +:+ target +:+ " HTTP/1.1"))
    with (" "%char :: chars (target +:+ " HTTP/1.1")).
  rewrite read_word_text by done. rewrite chars_app, read_word_space by done. done.
Qed.

(** ** The length of a body *)

Lemma stoul_decimal z : 0 <= z < 2 ^ 64 -> stoul (decimal z) = Some z.
Proof.
  intros Hz. destruct (decimal_digits z ltac:(lia)) as [Hd Hne]. unfold stoul.
  pose proof (decimal_value_pretty z ltac:(lia)) as Hv.
  destruct (chars (decimal z)) as [|c l] eqn:E; [destruct Hne; by apply chars_inj|].
  pose proof Hd as Hall. cbn in Hd. apply andb_true_iff in Hd as [Hc _].
  destruct (digit_not_space c Hc) as (Hs & Hm & Hp & _).
  cbn [drop_while]. rewrite Hs, Hm, Hp. cbv iota beta. rewrite Hc, take_digits_value by done.
  change (Z.to_N 0) with 0%N. rewrite Hv, Z2N.id by lia.
  rewrite (proj2 (Z.ltb_lt z (2 ^ 64))) by lia. f_equal. rewrite Z.mul_1_l. by apply Z.mod_small.
Qed.
Lemma digits_plain s : forallb is_digit (chars s) = true -> no_space s = true.
Proof.
  intros Hd. apply forallb_forall. intros c Hc. rewrite forallb_forall in Hd.
  by apply Hd, digit_not_space in Hc as [-> _].
Qed.
Lemma no_space_one_line s : no_space s = true -> one_line s.
Proof.
  unfold one_line, no_char, no_space. intros Hs. split; apply forallb_forall; intros c Hc;
    rewrite forallb_forall in Hs; specialize (Hs c Hc); apply negb_true_iff, Ascii.eqb_neq; by intros ->.
Qed.
Lemma no_space_trimmed s : no_space s = true -> TrimAscii s = s.
Proof.
  intros Hs. unfold TrimAscii. assert (Ht : Forall (fun c => trim_char c = false) (chars s)).
  { apply Forall_forall. intros c Hc. unfold no_space in Hs. rewrite forallb_forall in Hs.
    apply list_elem_of_In in Hc. specialize (Hs c Hc). apply trim_char_space. by apply negb_true_iff. }
  rewrite drop_while_id by (by destruct Ht). unfold drop_while_end.
  rewrite drop_while_id, rev_involutive; [apply of_chars_chars|].
  apply Forall_rev in Ht. by destruct Ht.
Qed.

(** ** A rendered request is read back *)

Lemma no_char_app c a b : no_char c (a +:+ b) = no_char c a && no_char c b.
Proof. unfold no_char. by rewrite chars_app, forallb_app. Qed.
Lemma one_line_app a b : one_line a -> one_line b -> one_line (a +:+ b).
Proof. intros [H1 H2] [H3 H4]. split; rewrite no_char_app; by apply andb_true_iff. Qed.
Lemma plain_request_line method target : word method -> word target ->
  plain_line (request_line method target).
Proof.
  intros [Hm1 Hm2] [Ht1 Ht2]. split; [|by destruct method].
  repeat apply one_line_app; try by apply no_space_one_line. all: done.
Qed.
Lemma plain_header header : sendable header -> plain_line (header_line header).
Proof.
  intros ([Hn1 Hn2] & _ & Hv & _). split; [|by destruct header as [[|c n] v]].
  repeat apply one_line_app; [by apply no_space_one_line|done|done].
Qed.

Definition length_header (body : string) : string * string := ("Content-Length"%string, decimal (size_of body)).
Lemma length_sendable body : sendable (length_header body).
Proof.
  destruct (decimal_digits (size_of body) ltac:(unfold size_of; lia)) as [Hd%digits_plain _].
  split_and!; [done|done| |]; [by apply no_space_one_line|by apply no_space_trimmed].
Qed.

Lemma parse_request method target headers body :
  word method -> word target -> Forall sendable headers ->
  size_of (request_text method target headers body) <= kMaxRequestBytes ->
  complete (request_text method target headers body)
    (mkRaw method target (headers_map (headers ++ [length_header body])) body).
Proof.
  intros Hm Ht Hh Hmax.
  assert (Hall : Forall sendable (headers ++ [length_header body])).
  { apply Forall_app. split; [done|]. constructor; [apply length_sendable|done]. }
  set (lines := request_lines method target headers body).
  assert (Hlines : lines = request_line method target :: map header_line (headers ++ [length_header body])) by done.
  assert (Hplain : Forall plain_line lines).
  { rewrite Hlines. constructor; [by apply plain_request_line|].
    apply Forall_map. eapply Forall_impl; [exact Hall|]. apply plain_header. }
  assert (Hfind : str_find blank_line (request_text method target headers body)
                  = Some (str_length (lines_text lines))) by (apply find_head_end; [by rewrite Hlines|done]).
  assert (Hsize : size_of (request_text method target headers body)
                  = Z.of_nat (str_length (lines_text lines) + 4) + size_of body).
  { unfold request_text. rewrite !size_of_app. unfold size_of. change (str_length crlf) with 2%nat. fold lines. lia. }
  assert (Hlen : ContentLength (headers_map (headers ++ [length_header body])) = Some (size_of body)).
  { unfold ContentLength, headers_map. rewrite fold_left_app. cbn [fold_left].
    change (LowerAscii (length_header body).1) with "content-length"%string. rewrite lookup_insert_eq.
    apply stoul_decimal. unfold size_of, kMaxRequestBytes in *. lia. }
  split; [|by exists (str_length (lines_text lines)), (size_of body); rewrite <- Hsize].
  unfold ParseRawHttpRequest. rewrite Hfind. unfold request_text at 1. fold lines.
  rewrite str_take_all, getline_lines by done.
  assert (lines_read lines = (request_line method target +:+ String "013" EmptyString)
                               :: lines_read (map header_line (headers ++ [length_header body]))) as ->.
  { rewrite Hlines. by destruct headers. }
  rewrite trim_request_line, read_request_line_text, read_all_headers by done. cbn [r_bind].
  fold (headers_map (headers ++ [length_header body])). rewrite Hlen.
  assert (Hu : u64 (Z.of_nat (str_length (lines_text lines) + 4) + size_of body)
               = size_of (request_text method target headers body)).
  { rewrite Hsize. apply Z.mod_small. unfold size_of, kMaxRequestBytes in *. lia. }
  rewrite Hu, Z.ltb_irrefl. do 2 f_equal.
  assert (Htext : request_text method target headers body
                  = (lines_text lines +:+ crlf +:+ crlf) +:+ body) by (by rewrite !str_app_assoc).
  unfold substr. rewrite Z.min_l by (unfold size_of in *; lia). unfold size_of. rewrite Nat2Z.id, Htext.
  replace (str_length (lines_text lines) + 4)%nat with (str_length (lines_text lines +:+ crlf +:+ crlf))
    by (rewrite !str_length_app; change (str_length crlf) with 2%nat; lia).
  rewrite str_drop_all. etrans; [|exact (str_take_all body EmptyString)]. f_equal.
  apply chars_inj. by rewrite chars_app, app_nil_r.
Qed.
