(* ===== verification/HttpServerFacts.v ===== *)
(** What the HTTP server promises: requests reach the router as they were sent, bytes
    of strangers change nothing, and what makes a server stop. *)
From stdpp Require Import base list gmap strings.
From Stdlib Require Import ZArith Lia Ascii String.
From S2P Require Import Prelude Json Certificates MemoryStateStore Identity Http Config FileSystem Toml RouterSupport.
From S2P Require Import RegistryIndexStore ObjectStore RegistryTrust Demo DemoServices Router.
From S2P Require Import HttpWire HttpServer HttpWireFacts.

Lemma word_method method : word (ToString method).
Proof. split; by destruct method. Qed.

(** A socket of the server listens on the port that the configuration names only when
    it is one: any other number is reduced, not refused. *)
Lemma listening_port `{ListenHost} config port :
  CreateTcpListener config = inr port \/ CreateListener config = inr port \/ OpenAcceptor config = inr port ->
  0 <= port < 65536 /\ (port = bind_port config <-> 0 <= bind_port config < 65536).
Proof.
  intros Hport. assert (port = port_number config) as ->.
  { unfold CreateTcpListener, CreateListener, OpenAcceptor, succeeds in Hport.
    destruct Hport as [Hp|[Hp|Hp]]; repeat (case_match; try done); cbn in Hp; congruence. }
  unfold port_number. change (2 ^ 16) with 65536.
  pose proof (Z.mod_pos_bound (bind_port config) 65536 eq_refl) as Hb. split; [exact Hb|].
  split; [intros <-; exact Hb|intros Hin; by apply Z.mod_small].
Qed.

Section Facts.
Context {DB : Type} `{JsonLib} `{Host} `{PostgresStore DB} `{CurlHost curl_history} `{SigningHost} `{TomlLib}
  (config : PlatformConfig).

(** A complete request that is read is dispatched. *)
Lemma respond_complete tls s request segments peer (r : PlatformRouter DB) :
  complete s request -> segmented segments s ->
  respond config (ReadHttpRequest tls segments) peer r = DispatchRawRequest config request peer r.
Proof.
  intros Hc Hs. unfold respond.
  destruct (reading_ignores_segments tls s request segments Hc Hs) as (raw & -> & E).
  cbn [r_bind]. by rewrite E.
Qed.
Lemma DispatchRaw_method (method : HttpMethod) target headers body document peer (r : PlatformRouter DB) :
  request_json body = inr document ->
  DispatchRawRequest config (mkRaw (ToString method) target headers body) peer r
  = Dispatch config (mkRequest method (NormalizePlatformPath target) headers document
                       (IdentityForRequest headers config peer)) r.
Proof.
  intros Hb. unfold DispatchRawRequest. cbn [raw_method raw_target raw_headers raw_body].
  rewrite Hb. by destruct method.
Qed.
Lemma respond_request tls (method : HttpMethod) target headers body document segments peer
    (r : PlatformRouter DB) :
  word target -> Forall sendable headers -> request_json body = inr document ->
  size_of (request_text (ToString method) target headers body) <= kMaxRequestBytes ->
  segmented segments (request_text (ToString method) target headers body) ->
  let all := headers_map (headers ++ [length_header body]) in
  respond config (ReadHttpRequest tls segments) peer r
  = Dispatch config (mkRequest method (NormalizePlatformPath target) all document
                       (IdentityForRequest all config peer)) r.
Proof.
  intros Ht Hh Hb Hmax Hs. cbv zeta.
  erewrite respond_complete; [|apply parse_request; [apply word_method|done|done|done]|done].
  by apply DispatchRaw_method.
Qed.

(** What is dispatched for bytes that carry no identity changes nothing, unless it is
    one of the anonymous operations. *)
Lemma untrusted_dispatch request (r : PlatformRouter DB) :
  mtls_required (mtls config) = true -> req_identity request = None ->
  (Dispatch config request r).2 = r
  \/ exists m, MatchRoute PlatformRoutes (req_method request) (req_path request) = Some m
       /\ operation_id (route m) ∈ anonymous_operations.
Proof.
  intros Hmtls Hid. destruct (MatchRoute PlatformRoutes (req_method request) (req_path request)) as [m|] eqn:Hm.
  - destruct (entitled config m request) eqn:He.
    + right. exists m. split; [done|]. by eapply anonymous_entitled.
    + left. pose proof (RequireIdentity_entitled config m request) as Hi. rewrite He in Hi.
      unfold Dispatch. rewrite Hm. by destruct Hi as [[-> _]|[-> _]].
  - left. unfold Dispatch. by rewrite Hm.
Qed.
Lemma untrusted_response read (r : PlatformRouter DB) :
  mtls_required (mtls config) = true -> trust_proxy_identity_headers (mtls config) = false ->
  (respond config read None r).2 = r
  \/ exists raw request method m, read = inr raw /\ ParseRawHttpRequest raw = inr request
       /\ ParseHttpMethod (raw_method request) = Some method
       /\ MatchRoute PlatformRoutes method (NormalizePlatformPath (raw_target request)) = Some m
       /\ operation_id (route m) ∈ anonymous_operations.
Proof.
  intros Hmtls Htrust. unfold respond. destruct read as [error|raw]; [by left|]. cbn [r_bind].
  destruct (ParseRawHttpRequest raw) as [error|request] eqn:Hp; [by left|]. unfold DispatchRawRequest.
  destruct (ParseHttpMethod (raw_method request)) as [method|] eqn:Hm; [|by left].
  destruct (request_json (raw_body request)) as [refused|body]; [by left|].
  set (dispatched := mkRequest _ _ _ _ _).
  assert (Hid : req_identity dispatched = None).
  { cbn. unfold IdentityFromHeaders. by rewrite Htrust. }
  destruct (untrusted_dispatch dispatched r Hmtls Hid) as [E|(m & Hroute & Hop)]; [by left|right].
  by exists raw, request, method, m.
Qed.

(** The text of a response does not touch the router. *)
Lemma after_response {A} (response : RouterM DB HttpResponse) (k : HttpResponse -> exn + string)
    (f : string -> RouterM DB A) (r : PlatformRouter DB) :
  (forall text r', (f text r').2 = r') ->
  ((response <- response ;; text <- lift (k response) ;; f text) r).2 = (response r).2.
Proof.
  intros Hf. unfold m_bind, lift. destruct (response r) as [[e|answer] r']; [done|].
  destruct (k answer); [done|]. apply Hf.
Qed.
End Facts.

(** ** Properties *)

(** C19. Requests arrive as they were sent. A request rendered as clients render it -
    method, target, headers, the length and the body - and cut into any segments, is
    read by the server as exactly that request: the connection is answered with what
    [Dispatch] makes of its method, its path, its headers and its JSON body.  Over TLS
    the caller is, besides, whom the certificate of the connection names. *)
Theorem requests_arrive_as_sent {DB} `{JsonLib} `{Host} `{PostgresStore DB} `{CurlHost curl_history}
    `{SigningHost} `{TomlLib} (config : PlatformConfig) method target headers body document client mode
    (r : PlatformRouter DB) :
  word target -> Forall sendable headers -> request_json body = inr document ->
  size_of (request_text (ToString method) target headers body) <= kMaxRequestBytes ->
  segmented (received client) (request_text (ToString method) target headers body) ->
  let all := headers_map (headers ++ [length_header body]) in
  let request peer := mkRequest method (NormalizePlatformPath target) all document
                        (IdentityForRequest all config peer) in
  HandlePosixConnection config client r
  = (response <- Dispatch config (request None) ;;
     text <- lift (response_text response) ;;
     m_ret (SendAll (takes client text) text).1) r
  /\ (handshake client mode = true ->
      HandleTlsConnection config mode client r
      = (response <- Dispatch config (request (IdentityFromPeerCertificate (certificate client))) ;;
         text <- lift (response_text response) ;;
         let '(sent, all) := SendAll (takes client text) text in
         if all then m_ret sent else throw (RuntimeError "failed writing TLS response")) r).
Proof.
  intros Ht Hh Hb Hmax Hs all request. subst all request. split.
  - unfold HandlePosixConnection, m_bind.
    by rewrite (respond_request config "" method target headers body document (received client) None r).
  - intros Hshake. unfold HandleTlsConnection, m_bind. rewrite Hshake. cbn [negb].
    by rewrite (respond_request config "TLS " method target headers body document (received client) _ r).
Qed.

(** The bytes of a connection are a request of an operation that is open to callers
    without a certificate. *)
Definition anonymous_request (tls : string) (client : Client) : Prop :=
  exists raw request method m, ReadHttpRequest tls (received client) = inr raw
    /\ ParseRawHttpRequest raw = inr request
    /\ ParseHttpMethod (raw_method request) = Some method
    /\ MatchRoute PlatformRoutes method (NormalizePlatformPath (raw_target request)) = Some m
    /\ operation_id (route m) ∈ anonymous_operations.

(** C18. Bytes of strangers change nothing. When certificates are required and identity
    headers are not trusted, whatever bytes reach the plain listener, in whatever
    segments - requests, half requests, or none - the platform is left as it was,
    unless they are a request of one of the eight operations that are open to callers
    without a certificate; and so are the bytes of a TLS client whose certificate, if
    it shows one, names no identity. *)
Theorem untrusted_bytes_change_nothing {DB} `{JsonLib} `{Host} `{PostgresStore DB}
    `{CurlHost curl_history} `{SigningHost} `{TomlLib} (config : PlatformConfig) client mode (r : PlatformRouter DB) :
  mtls_required (mtls config) = true -> trust_proxy_identity_headers (mtls config) = false ->
  ((HandlePosixConnection config client r).2 = r \/ anonymous_request "" client)
  /\ (IdentityFromPeerCertificate (certificate client) = None ->
      (HandleTlsConnection config mode client r).2 = r \/ anonymous_request "TLS " client).
Proof.
  intros Hmtls Htrust. split.
  - unfold HandlePosixConnection. rewrite after_response by done. by apply untrusted_response.
  - intros Hid. unfold HandleTlsConnection. destruct (handshake client mode); [|by left]. cbn [negb].
    rewrite Hid, after_response; [by apply untrusted_response|].
    intros text r'. by destruct (SendAll (takes client text) text) as [sent []].
Qed.

(** C37. One request stops the server. A path of no route is quoted in the answer, and
    the answer is printed outside every handler: when the JSON library refuses to
    print the path (one that is not UTF-8), the exception leaves the connection and
    the accept loop, the process exits with code 1, and no later client is served,
    whoever they are. *)
Theorem one_request_stops_the_server {DB} `{JsonLib} `{Host} `{PostgresStore DB}
    `{CurlHost curl_history} `{SigningHost} `{TomlLib} (config : PlatformConfig) once method target client later e
    (r : PlatformRouter DB) :
  word target -> MatchRoute PlatformRoutes method (NormalizePlatformPath target) = None ->
  json_dump_indented (FailureEnvelope "route not found" (NormalizePlatformPath target) "NotFound"
                        "unknown" 17) = inl e ->
  e <> UndefinedBehaviour ->
  size_of (request_text (ToString method) target [] "") <= kMaxRequestBytes ->
  segmented (received client) (request_text (ToString method) target [] "") ->
  accept_loop once (HandlePosixConnection config) (Some client :: later) r = ([], Exited 1, r).
Proof.
  intros Ht Hroute He Hub Hmax Hs. cbn [accept_loop]. unfold HandlePosixConnection, m_bind.
  rewrite (respond_request config "" method target [] "" (JObject ∅) (received client) None r) by done.
  unfold Dispatch. cbn [req_method req_path]. rewrite Hroute.
  unfold m_ret, lift, response_text, BuildRawHttpResponse, JsonResponse. cbn [status_code resp_body].
  rewrite He. cbn [r_bind]. by destruct e.
Qed.

(** ** The properties on concrete connections *)

Section Demo.
#[local] Existing Instances demo_host demo_postgres demo_curl demo_signing demo_toml.

Definition health_text : string := request_text "GET" "/health?verbose" [("Host", "node")]%string "".
Definition health_client : Client :=
  mkClient [str_take 20 health_text; str_drop 20 health_text] (fun _ => [1000%nat]) (fun _ => false) None.
Definition guarded_config : PlatformConfig :=
  mkConfig "127.0.0.1" 8787 "local-dev" "node-local" [] "memory" "" (object_store default_config)
    (registry default_config) (workgroup default_config)
    (mkMtls false true false false "" "" "" "").

(** Port 65616 is port 80. *)
Example ports_wrap_around :
  let host := {| socket_error := None; inet_pton := fun _ => true; bind_error := fun _ _ => None;
                 listen_error := None; acceptor_error := fun _ _ => None |} in
  CreateListener (H := host)
    (LoadPlatformConfigFromEnvironment (fun name =>
       if name =s "STYIO_PLATFORM_BIND_PORT" then Some "65616"%string else None)) = inr 80.
Proof. vm_compute. reflexivity. Qed.

Lemma health_segments : segmented (received health_client) health_text.
Proof. split; [vm_compute; reflexivity|by repeat constructor]. Qed.

Section AnswersPrint.
#[local] Existing Instance demo_json_lib.

Lemma requests_arrive_as_sent_witness :
  let all := headers_map [("Host", "node"); ("Content-Length", "0")]%string in
  HandlePosixConnection default_config health_client (demo_router initial_store)
  = (response <- Dispatch default_config
       (mkRequest Get "/health" all (JObject ∅) (IdentityForRequest all default_config None)) ;;
     text <- lift (response_text response) ;;
     m_ret (SendAll [1000%nat] text).1) (demo_router initial_store).
Proof.
  apply (requests_arrive_as_sent default_config Get "/health?verbose" [("Host", "node")]%string "" (JObject ∅)
           health_client VerifyPeer); [by split| |reflexivity|vm_compute; discriminate|apply health_segments].
  repeat constructor; by (split || vm_compute).
Defined.

Lemma untrusted_bytes_change_nothing_witness :
  ((HandlePosixConnection guarded_config health_client (demo_router initial_store)).2
   = demo_router initial_store \/ anonymous_request "" health_client)
  /\ ((HandleTlsConnection guarded_config VerifyPeer health_client (demo_router initial_store)).2
      = demo_router initial_store \/ anonymous_request "TLS " health_client).
Proof.
  destruct (untrusted_bytes_change_nothing guarded_config health_client VerifyPeer (demo_router initial_store))
    as [Hplain Htls]; [reflexivity..|]. split; [exact Hplain|]. apply Htls. reflexivity.
Defined.
End AnswersPrint.

(** A library that refuses to print what is not ASCII in the detail of a failure. *)
Definition strict_json_lib : JsonLib :=
  {| json_parse := fun _ => None; json_dump := fun _ => inr EmptyString;
     json_dump_indented := fun j =>
       match j_lookup j "stderr" with
       | Some (JString detail) =>
           if forallb (fun c => char_code c <? 128) (chars detail) then inr EmptyString
           else inl (JsonTypeError 316 j)
       | _ => inr EmptyString
       end;
     library_what := fun _ => "error"%string; float_to_Z := fun _ => 0; numbers_equal := fun _ _ => false |}.
Definition odd_path : string := String "/" (String "255" EmptyString).
Definition odd_client : Client := mkClient [request_text "GET" odd_path [] ""] (fun _ => [1000%nat]) (fun _ => false) None.

Lemma one_request_stops_the_server_witness :
  @accept_loop unit _ _ false (@HandlePosixConnection _ strict_json_lib _ _ _ _ _ default_config)
    [Some odd_client; Some health_client] (demo_router initial_store)
  = ([], Exited 1, demo_router initial_store).
Proof.
  apply (@one_request_stops_the_server _ strict_json_lib _ _ _ _ _ default_config false Get odd_path
           odd_client [Some health_client]
           (JsonTypeError 316 (FailureEnvelope "route not found" odd_path "NotFound" "unknown" 17)));
    [by split|vm_compute; reflexivity|reflexivity|discriminate|vm_compute; discriminate|].
  split; [vm_compute; reflexivity|by repeat constructor].
Defined.
End Demo.
