(* ===== verification/OperatingSystem.v ===== *)
(** The operating-system adapter of the workers
    ([PlatformCore/System/OperatingSystemAdapter.cpp]): text files, and TCP exchanges
    over the sockets of the host. *)
From stdpp Require Import base list gmap strings.
From Stdlib Require Import ZArith Lia Ascii String.
From S2P Require Import Prelude Json Paths FileSystem Process HttpWire.

Record TcpRequest := mkTcp {
  tcp_host : string;
  tcp_port : string;
  tcp_payload : string;
  tcp_context : string;
}.

(** An address [getaddrinfo] gave: no socket for it, a refused connection, or one
    that takes so many bytes per [send]. *)
Inductive candidate := NoSocket | Refuses | Connects (takes : list nat).
Inductive recv_result := Received (bytes : string) | RecvEnd | RecvFailed.

(** The sockets of a host: how a name resolves, and what a peer that was sent some
    bytes answers; and a [curl] that talks to the same peers. *)
Class Sockets (Net : Type) := {
  getaddrinfo : TcpRequest -> Net -> string + list candidate;
  peer : TcpRequest -> string -> Net -> list recv_result * Net;
  curl : ProcessRequest -> Net -> (string + ProcessResult) * Net;
}.

Fixpoint first_connection (candidates : list candidate) : option (list nat) :=
  match candidates with
  | [] => None
  | Connects takes :: _ => Some takes
  | _ :: candidates => first_connection candidates
  end.

Fixpoint ReadAll (results : list recv_result) : exn + string :=
  match results with
  | [] | RecvEnd :: _ => inr EmptyString
  | RecvFailed :: _ => inl (RuntimeError "failed reading TCP response")
  | Received bytes :: results => rest <-? ReadAll results ;; inr (bytes +:+ rest)
  end.

Section Adapter.
Context {Net : Type} `{Sockets Net} `{FileHost}.

Definition ConnectTcp (request : TcpRequest) : M exn Net (list nat) :=
  addresses <- gets (getaddrinfo request) ;;
  match addresses with
  | inl reason => throw (RuntimeError ("failed resolving " +:+ tcp_context request +:+ ": " +:+ reason))
  | inr candidates =>
      match first_connection candidates with
      | Some takes => m_ret takes
      | None => throw (RuntimeError ("failed connecting for " +:+ tcp_context request))
      end
  end.

(** The peer gets what was sent, also when the rest could not be. *)
Definition SendTcpRequest (request : TcpRequest) : M exn Net string :=
  takes <- ConnectTcp request ;;
  let '(sent, all) := SendAll takes (tcp_payload request) in
  answer <- (fun net => let '(results, net) := peer request sent net in (inr results, net)) ;;
  if negb all then throw (RuntimeError "failed writing TCP request") else lift (ReadAll answer).

Definition WriteTextFile (path text : string) : M exn FileTree unit :=
  (if is_empty (parent_path path) then m_ret tt else create_directories (parent_path path)) ;;;
  opens <- gets (can_open path) ;;
  if opens then modify (write_stream path text)
  else throw (RuntimeError ("failed to write file: " +:+ path)).
End Adapter.
