(* ===== verification/Worker.v ===== *)
(** The worker ([PlatformCloud/DeveloperWorkspace/Worker.cpp],
    [WorkerRuntimeFactory.cpp]): it registers with the control plane, claims jobs,
    fetches their source, builds them and reports back.

    Programs, files and sockets are the host's.  The heartbeat thread talks to the
    control plane while the build runs on the files; the two share no state, so a
    schedule says how many heartbeats each build is accompanied by. *)
From stdpp Require Import base list gmap strings.
From Stdlib Require Import ZArith Lia Ascii String.
From S2P Require Import Prelude Json Config Paths FileSystem Process RegistrySecurity CachePaths.
From S2P Require Import SourceFetch GitFetcher RegistryIndexStore ObjectStore HttpWire OperatingSystem.

Record WorkerRuntimeConfig := mkWorker {
  control_url : string;
  worker_id : string;
  worker_pool_key : string;
  workspace_root : string;
  worker_artifact_root : string;
  spio_bin : string;
  styio_bin : string;
  compile_container_id : string;
  compile_container_tenant_id : string;
  compile_container_user_id : string;
  compile_container_workspace_id : string;
  compile_container_capacity : Z;
  mtls_ca_path : string;
  mtls_cert_path : string;
  mtls_key_path : string;
  poll_interval_ms : Z;
}.

Definition LoadWorkerRuntimeConfig (env : environment) : WorkerRuntimeConfig :=
  let text name fallback := EnvString env name fallback in
  mkWorker
    (text "STYIO_PLATFORM_CONTROL_URL" "http://127.0.0.1:8787/api/styio-platform/v1")
    (text "STYIO_PLATFORM_WORKER_ID" "worker-local")
    (text "STYIO_PLATFORM_WORKER_POOL_KEY" "linux/x86_64/build/nightly/minimal")
    (text "STYIO_PLATFORM_WORKSPACE_ROOT" ".styio-platform/workspaces")
    (text "STYIO_PLATFORM_ARTIFACT_ROOT" ".styio-platform/artifacts")
    (text "STYIO_PLATFORM_WORKER_SPIO_BIN" "spio")
    (text "STYIO_PLATFORM_WORKER_STYIO_BIN" "styio")
    (text "STYIO_PLATFORM_COMPILE_CONTAINER_ID" "")
    (text "STYIO_PLATFORM_COMPILE_CONTAINER_TENANT_ID" "")
    (text "STYIO_PLATFORM_COMPILE_CONTAINER_USER_ID" "")
    (text "STYIO_PLATFORM_COMPILE_CONTAINER_WORKSPACE_ID" "")
    (EnvInt env "STYIO_PLATFORM_COMPILE_CONTAINER_CAPACITY" 1)
    (text "STYIO_PLATFORM_MTLS_CA" "")
    (text "STYIO_PLATFORM_MTLS_CERT" "")
    (text "STYIO_PLATFORM_MTLS_KEY" "")
    (EnvInt env "STYIO_PLATFORM_WORKER_POLL_INTERVAL_MS" 2000).

(** ** The control plane's URL *)

Record ParsedUrl := mkUrl { scheme : string; url_host : string; port : string; base_path : string; origin : string }.

Definition ParseHttpUrl (url : string) : exn + ParsedUrl :=
  split <-? (if str_starts_with url "http://" then inr ("http", 7%nat, "80")
             else if str_starts_with url "https://" then inr ("https", 8%nat, "443")
             else inl (RuntimeError "only http:// or https:// control URLs are supported"))%string ;;
  let '(scheme, prefix_size, default_port) := split in
  let rest := str_drop prefix_size url in
  let '(authority, base_path) :=
    match find_char "/" (chars rest) with
    | Some slash => (str_take slash rest, str_drop slash rest)
    | None => (rest, EmptyString)
    end in
  let '(host, port) :=
    match rfind_char ":" (chars authority) with
    | Some colon => (str_take colon authority, str_drop (S colon) authority)
    | None => (authority, default_port)
    end in
  if is_empty host then inl (RuntimeError "control URL host is empty")
  else inr (mkUrl scheme host port base_path (scheme +:+ "://" +:+ authority)).

Definition JoinUrlPath (base suffix : string) : string :=
  if is_empty base then suffix
  else if str_ends_with base "/" then str_take (str_length base - 1) base +:+ suffix
  else base +:+ suffix.

(** ** Compile containers and workspaces *)

Record WorkerCompileContainerSpec := mkSpec {
  spec_enabled : bool;
  spec_container_id : string;
  spec_worker_id : string;
  spec_tenant_id : string;
  spec_user_id : string;
  spec_workspace_id : string;
  spec_region : string;
  spec_worker_pool_key : string;
  spec_capacity : Z;
}.
Definition no_container : WorkerCompileContainerSpec := mkSpec false "" "" "" "" "" "" "" 1.

Definition RegistrationRequest (spec : WorkerCompileContainerSpec) : json :=
  obj [("container_id", JString (spec_container_id spec)); ("worker_id", JString (spec_worker_id spec));
       ("tenant_id", JString (spec_tenant_id spec)); ("user_id", JString (spec_user_id spec));
       ("workspace_id", JString (spec_workspace_id spec)); ("region", JString (spec_region spec));
       ("worker_pool_key", JString (spec_worker_pool_key spec)); ("capacity", JInt (spec_capacity spec))]%string.

(** [WorkerCompileContainerFactory::Create]. *)
Definition CreateCompileContainer (worker : WorkerRuntimeConfig) (platform : PlatformConfig)
  : exn + WorkerCompileContainerSpec :=
  let given := map (fun text => negb (is_empty text))
                 [compile_container_id worker; compile_container_tenant_id worker;
                  compile_container_user_id worker; compile_container_workspace_id worker] in
  let any := existsb id given in
  let all := forallb id given in
  if any && negb all then
    inl (RuntimeError "STYIO_PLATFORM_COMPILE_CONTAINER_ID, _TENANT_ID, _USER_ID, and _WORKSPACE_ID must be set together")
  else if negb all then inr no_container
  else inr (mkSpec true (compile_container_id worker) (worker_id worker)
              (compile_container_tenant_id worker) (compile_container_user_id worker)
              (compile_container_workspace_id worker) (config_region platform) (worker_pool_key worker)
              (compile_container_capacity worker)).

Definition IsSafeRelativePath (path : string) : bool :=
  if is_empty path || is_absolute path then false
  else negb (existsb (fun part => part =s "..") (components path)).

Record WorkerWorkspace := mkWorkspace {
  manifest_path : string;
  checkout_root : string;
  artifact_root : string;
  stdout_path : string;
  stderr_path : string;
  result_path : string;
}.

(** The world of a worker: its own files and programs, the network, and the number of
    builds it has started. *)
Record WorkerWorld (Net : Type) := mkWorkerWorld { client : ClientWorld; net : Net; builds : nat }.
Arguments mkWorkerWorld {Net}.
Arguments client {Net}.
Arguments net {Net}.
Arguments builds {Net}.

Class Schedule := { heartbeats_during : nat -> nat }.

Section Worker.
Context {Net : Type} `{JsonLib} `{FileHost} `{ProgramHost} {Network : Sockets Net} `{Schedule}.
Abbreviation WorkerM := (M exn (WorkerWorld Net)).

Definition on_client {A} (m : ClientM A) : WorkerM A :=
  zoom client (fun c w => mkWorkerWorld c (net w) (builds w)) m.
Definition on_net {A} (m : M exn Net A) : WorkerM A :=
  zoom net (fun n w => mkWorkerWorld (client w) n (builds w)) m.
Definition on_worker_files {A} (m : M exn FileTree A) : WorkerM A := on_client (in_files m).
Definition next_build : WorkerM nat :=
  fun w => (inr (builds w), mkWorkerWorld (client w) (net w) (S (builds w))).

(** [WorkerWorkspaceFactory::Create]. *)
Definition checkout_of (worker : WorkerRuntimeConfig) (job_id : string) : string :=
  if is_empty (compile_container_id worker)
  then path_join (path_join (workspace_root worker) job_id) "source"
  else path_join (path_join (path_join (workspace_root worker) "containers") (compile_container_id worker)) "source".
Definition CreateWorkspace (worker : WorkerRuntimeConfig) (job : json) : WorkerM WorkerWorkspace :=
  job_id <- lift (at_string job "job_id") ;;
  job_request <- lift (j_at job "job_request") ;;
  manifest_path <- lift (at_string job_request "manifest_path") ;;
  if negb (IsSafeRelativePath manifest_path)
  then throw (RuntimeError "manifest_path must be relative for source fetch jobs")
  else
    let checkout_root := checkout_of worker job_id in
    tenant_id <- lift (at_string job "tenant_id") ;;
    workspace_id <- lift (at_string job "workspace_id") ;;
    let artifact_root :=
      parent_path (path_join (worker_artifact_root worker)
                     (BuildArtifactObjectKey tenant_id workspace_id job_id "result.json")) in
    on_worker_files (
      modify (remove_all checkout_root) ;;;
      create_directories (parent_path checkout_root) ;;;
      create_directories artifact_root) ;;;
    m_ret (mkWorkspace manifest_path checkout_root artifact_root (path_join artifact_root "stdout.log")
             (path_join artifact_root "stderr.log") (path_join artifact_root "result.json")).

(** ** Talking to the control plane *)

Definition worker_uri_san (worker : WorkerRuntimeConfig) : string :=
  "spiffe://styio-platform/tenant/platform/role/worker/node/" +:+ worker_id worker.

Definition curl_request (url : ParsedUrl) (method path payload : string) (worker : WorkerRuntimeConfig)
  : ProcessRequest :=
  let option name value := if is_empty value then [] else [name; value] in
  mkProcess "curl"
    (["-sS"; "-f"; "-X"; method; origin url +:+ JoinUrlPath (base_path url) path; "-H";
      "Content-Type: application/json"; "-H"; "X-Styio-Mtls-Uri-San: " +:+ worker_uri_san worker;
      "--data-binary"; "@-"]%string
     ++ option "--cacert"%string (mtls_ca_path worker) ++ option "--cert"%string (mtls_cert_path worker)
     ++ option "--key"%string (mtls_key_path worker))
    None true ∅ false (Some kExternalProcessProbeTimeout) (16 * 2 ^ 20)%nat (2 ^ 20)%nat payload true
    "worker HTTPS control-plane request".

Definition http_request (url : ParsedUrl) (method path payload : string) (worker : WorkerRuntimeConfig)
  : TcpRequest :=
  mkTcp (url_host url) (port url)
    (method +:+ " " +:+ JoinUrlPath (base_path url) path +:+ " HTTP/1.1" +:+ crlf
     +:+ "Host: " +:+ url_host url +:+ crlf
     +:+ "Connection: close" +:+ crlf
     +:+ "Content-Type: application/json" +:+ crlf
     +:+ "X-Styio-Mtls-Uri-San: " +:+ worker_uri_san worker +:+ crlf
     +:+ "Content-Length: " +:+ decimal (size_of payload) +:+ crlf +:+ crlf
     +:+ payload)
    "worker HTTP control-plane request".

(** The response that came back over TCP. *)
Definition read_response (raw : string) : exn + json :=
  match str_find blank_line raw with
  | None => inl (RuntimeError "malformed HTTP response from control plane")
  | Some header_end =>
      let status_line := str_take (default 0%nat (str_find crlf raw)) raw in
      let body := str_drop (header_end + 4) raw in
      if str_contains status_line " 2" then parse_json body
      else inl (RuntimeError ("control plane returned non-success status: " +:+ status_line +:+ " body=" +:+ body))
  end.

Definition HttpJson (url : ParsedUrl) (method path : string) (body : json) (worker : WorkerRuntimeConfig)
  : WorkerM json :=
  payload <- lift (if is_null body then inr EmptyString else json_dump body) ;;
  if scheme url =s "https" then
    result <- on_net (fun n => let '(outcome, n) := curl (curl_request url method path payload worker) n in
                               (match outcome with inl text => inl (RuntimeError text) | inr r => inr r end, n)) ;;
    if negb (exit_code result =? 0) || timed_out result
    then throw (RuntimeError ("control plane returned non-success status: " +:+ DescribeProcessFailure result))
    else lift (parse_json (stdout_text result))
  else
    raw <- on_net (SendTcpRequest (http_request url method path payload worker)) ;;
    lift (read_response raw).

Definition complete_path (job_id : string) : string := "/jobs/" +:+ job_id +:+ "/complete".
Definition complete_body (worker : WorkerRuntimeConfig) (status message : string) (artifacts result : json)
  : json :=
  obj [("worker_id", JString (worker_id worker)); ("status", JString status);
       ("message", JString message); ("artifacts", artifacts); ("result", result)]%string.
Definition Complete (control : ParsedUrl) (worker : WorkerRuntimeConfig)
    (job_id status message : string) (artifacts result : json) : WorkerM unit :=
  HttpJson control "POST" (complete_path job_id) (complete_body worker status message artifacts result) worker ;;;
  m_ret tt.

Definition Heartbeat (control : ParsedUrl) (worker : WorkerRuntimeConfig) (job_id message : string)
  : WorkerM unit :=
  HttpJson control "POST" ("/jobs/" +:+ job_id +:+ "/heartbeat")
    (obj [("worker_id", JString (worker_id worker)); ("message", JString message)]%string) worker ;;;
  m_ret tt.

(** The turns of the thread that send something: a failure is only logged. *)
Fixpoint RunHeartbeatLoop (turns : nat) (control : ParsedUrl) (worker : WorkerRuntimeConfig)
    (job_id : string) : WorkerM unit :=
  match turns with
  | O => m_ret tt
  | S turns =>
      catch_std (Heartbeat control worker job_id "worker build still running") (fun _ => m_ret tt) ;;;
      RunHeartbeatLoop turns control worker job_id
  end.

(** ** Running a job *)

Definition WriteText (path text : string) : WorkerM unit := on_worker_files (WriteTextFile path text).

Definition BuildSpioArgs (job_request : json) (styio_bin : string) : exn + list string :=
  manifest_path <-? at_string job_request "manifest_path" ;;
  dry_run <-? match j_lookup job_request "workflow" with
              | Some (JObject workflow) => value_bool (JObject workflow) "dry_run" false
              | _ => inr false
              end ;;
  inr (["build"; "--manifest-path"; manifest_path]%string
       ++ (if (dry_run : bool) then ["--dry-run"%string] else [])
       ++ (if is_empty styio_bin then [] else ["--styio-bin"%string; styio_bin])
       ++ match j_lookup job_request "profile" with
          | Some (JString profile) => ["--profile"%string; profile]
          | _ => []
          end).

Definition Artifact (job : json) (artifact_root name kind : string) : exn + json :=
  tenant_id <-? at_string job "tenant_id" ;;
  workspace_id <-? at_string job "workspace_id" ;;
  job_id <-? at_string job "job_id" ;;
  let object_key := BuildArtifactObjectKey tenant_id workspace_id job_id name in
  inr (obj [("artifact_id", JString name); ("object_key", JString (path_join artifact_root object_key));
            ("kind", JString kind)]%string).

Definition build_request (platform : PlatformConfig) (worker : WorkerRuntimeConfig)
    (workspace : WorkerWorkspace) (args : list string) : ProcessRequest :=
  mkProcess (spio_bin worker) args (Some (checkout_root workspace)) true
    (list_to_map [("SPIO_STYIO_BIN", Some (styio_bin worker));
                  ("STYIO_PLATFORM_REGION", Some (config_region platform));
                  ("STYIO_PLATFORM_COMPILE_CONTAINER_ID", Some (compile_container_id worker))]%string)
    false (Some kExternalProcessBuildTimeout) (2 ^ 20) (2 ^ 20) EmptyString true
    "spio build for platform worker".
(** The build: the arguments are made inside the [try]. *)
Definition run_build (platform : PlatformConfig) (worker : WorkerRuntimeConfig)
    (workspace : WorkerWorkspace) (job_request : json) : WorkerM ProcessResult :=
  args <- lift (BuildSpioArgs job_request (styio_bin worker)) ;;
  on_client (run_with RuntimeError (build_request platform worker workspace args)).

Definition build_succeeded (build : ProcessResult) : bool :=
  (exit_code build =? 0) && negb (timed_out build) && negb (terminated_by_signal build).
Definition build_result (build : ProcessResult) : json :=
  obj [("exit_code", JInt (exit_code build)); ("timed_out", JBool (timed_out build));
       ("terminated_by_signal", JBool (terminated_by_signal build));
       ("stdout_truncated", JBool (stdout_truncated build));
       ("stderr_truncated", JBool (stderr_truncated build))]%string.

Definition worktree_request (worker_checkout origin : string) (revision : option string) : GitWorktreeRequest :=
  mkWorktree origin worker_checkout revision true true 1 false PublicGitSourcePolicy
    "git fetch for platform worker".

(** What stops the job before its build: the exception and the report that answers
    it. *)
Definition fetch_failed (control : ParsedUrl) (worker : WorkerRuntimeConfig) (workspace : WorkerWorkspace)
    (job_id : string) (e : exn) : WorkerM unit :=
  match e with
  | SourceFetchError operation _ _ exit_code stderr_text =>
      WriteText (stderr_path workspace) (if is_empty stderr_text then what e else stderr_text) ;;;
      Complete control worker job_id "failed"
        (if is_empty operation then "source fetch failed" else operation +:+ " failed")
        (JArray []) (obj [("source_fetch", JInt exit_code)]%string)
  | FetchError _ =>
      WriteText (stderr_path workspace) (what e) ;;;
      Complete control worker job_id "failed" "source fetch failed" (JArray [])
        (obj [("source_fetch", JInt 1)]%string)
  | _ => throw e
  end.

(** From the heartbeat that precedes the build to the report of its result. *)
Definition build_and_report (control : ParsedUrl) (platform : PlatformConfig) (worker : WorkerRuntimeConfig)
    (workspace : WorkerWorkspace) (job job_request : json) (job_id : string) : WorkerM unit :=
  Heartbeat control worker job_id "worker starting build" ;;;
  n <- next_build ;;
  RunHeartbeatLoop (heartbeats_during n) control worker job_id ;;;
  build <- catch_std (build <- run_build platform worker workspace job_request ;; m_ret (inr build))
             (fun e => m_ret (inl e)) ;;
  match build with
  | inl e =>
      WriteText (stderr_path workspace) (what e) ;;;
      Complete control worker job_id "failed" "spio build failed to launch" (JArray [])
        (obj [("error", JString (what e))]%string)
  | inr build =>
      WriteText (stdout_path workspace) (stdout_text build) ;;;
      WriteText (stderr_path workspace) (stderr_text build) ;;;
      let result := build_result build in
      text <- lift (json_dump_indented result) ;;
      WriteText (result_path workspace) (text +:+ newline_text) ;;;
      stdout_log <- lift (Artifact job (worker_artifact_root worker) "stdout.log" "log") ;;
      stderr_log <- lift (Artifact job (worker_artifact_root worker) "stderr.log" "log") ;;
      result_json <- lift (Artifact job (worker_artifact_root worker) "result.json" "metadata") ;;
      let succeeded := build_succeeded build in
      Complete control worker job_id (if succeeded then "succeeded" else "failed")
        (if succeeded then "build completed" else "build failed")
        (JArray [stdout_log; stderr_log; result_json]) result
  end.

Definition ExecuteClaimedJob (control : ParsedUrl) (platform : PlatformConfig)
    (worker : WorkerRuntimeConfig) (job : json) : WorkerM unit :=
  job_id <- lift (at_string job "job_id") ;;
  job_request <- lift (j_at job "job_request") ;;
  created <- catch_std (workspace <- CreateWorkspace worker job ;; m_ret (inr workspace))
               (fun e => m_ret (inl e)) ;;
  match created with
  | inl e => Complete control worker job_id "failed" (what e) (JArray []) JNull
  | inr workspace =>
      source <- lift (j_at job_request "source") ;;
      origin <- lift (at_string source "origin") ;;
      let revision := match j_lookup source "requested_revision" with
                      | Some (JString revision) => Some revision
                      | _ => None
                      end in
      fetched <- catch (on_client (EnsureWorktree (worktree_request (checkout_root workspace) origin revision)) ;;;
                        m_ret None)
                   (fun e => m_ret (Some e)) ;;
      match fetched with
      | Some e => fetch_failed control worker workspace job_id e
      | None => build_and_report control platform worker workspace job job_request job_id
      end
  end.

(** ** The worker's loop *)

Definition register_worker (config : PlatformConfig) (worker : WorkerRuntimeConfig) (control : ParsedUrl)
    (container : WorkerCompileContainerSpec) : WorkerM unit :=
  HttpJson control "POST" "/workers/register"
    (obj [("worker_id", JString (worker_id worker)); ("region", JString (config_region config));
          ("worker_pool_key", JString (worker_pool_key worker)); ("capacity", JInt 1)]%string) worker ;;;
  when (spec_enabled container)
    (HttpJson control "POST" "/compile-containers/register" (RegistrationRequest container) worker ;;; m_ret tt).

Definition claim_request (config : PlatformConfig) (worker : WorkerRuntimeConfig)
    (container : WorkerCompileContainerSpec) : json :=
  j_set_if (spec_enabled container) "compile_container_id" (JString (spec_container_id container))
    (obj [("worker_id", JString (worker_id worker)); ("region", JString (config_region config));
          ("worker_pool_key", JString (worker_pool_key worker))]%string).

(** One turn of the loop: a job is claimed and run, or there is none. *)
Definition work_once (config : PlatformConfig) (worker : WorkerRuntimeConfig) (control : ParsedUrl)
    (container : WorkerCompileContainerSpec) : WorkerM unit :=
  claim <- HttpJson control "POST" "/jobs/claim" (claim_request config worker container) worker ;;
  payload <- lift (j_at claim "payload") ;;
  claimed <- lift (value_bool payload "claimed" false) ;;
  if (claimed : bool) then job <- lift (j_at payload "job") ;; ExecuteClaimedJob control config worker job
  else m_ret tt.
Fixpoint work (turns : nat) (config : PlatformConfig) (worker : WorkerRuntimeConfig) (control : ParsedUrl)
    (container : WorkerCompileContainerSpec) : WorkerM unit :=
  match turns with
  | O => m_ret tt
  | S turns => work_once config worker control container ;;; work turns config worker control container
  end.

(** [RunWorker] as far as so many turns take it: still at work, or the code it
    returned. *)
Definition RunWorker (config : PlatformConfig) (once : bool) (turns : nat) : WorkerM (option Z) :=
  catch_std
    (let worker := LoadWorkerRuntimeConfig get_env in
     control <- lift (ParseHttpUrl (control_url worker)) ;;
     container <- lift (CreateCompileContainer worker config) ;;
     on_worker_files (create_directories (workspace_root worker) ;;; create_directories (worker_artifact_root worker)) ;;;
     register_worker config worker control container ;;;
     if once then work_once config worker control container ;;; m_ret (Some 0)
     else work turns config worker control container ;;; m_ret None)
    (fun _ => m_ret (Some 1)).
End Worker.
