(* ===== verification/CloudFacts.v ===== *)
(** Facts about cloud execution: what a resolved policy guarantees, and what becomes of
    the jobs a client builds when the control plane queues them and a worker claims
    them. *)
From stdpp Require Import base list gmap strings.
From Stdlib Require Import ZArith Lia Ascii String.
From S2P Require Import Prelude CompilePlan Json Paths FileSystem Process RegistrySecurity CachePaths Toolchain ToolchainFacts SourceFetch CloudExecution.
From S2P Require Import StateRecords Config Demo RouterSupport RegistryIndexStore JobQueue OperatingSystem Worker.

(** * The policy *)

Section Policy.
Context `{BuildTarget} `{ProgramHost}.

(** The routing as a table. *)
Definition safe_risk (risk : string) : string :=
  if IsSupportedCloudRiskClass risk then risk else kRiskClassUntrustedUser.
Definition may_share (state : ProjectToolchainState) : bool :=
  (risk_class state =s kRiskClassTrustedInternal)
  && (preferred_execution_lane state =s kExecutionLaneWarmShared).
Definition safe_lane (state : ProjectToolchainState) : string :=
  if may_share state then kExecutionLaneWarmShared else kExecutionLaneIsolated.

Lemma supported_risk_cases risk : IsSupportedCloudRiskClass risk = true ->
  risk = kRiskClassTrustedInternal \/ risk = kRiskClassPartnerControlled \/ risk = kRiskClassUntrustedUser.
Proof.
  intros Hr%vocabulary_spec. repeat (apply elem_of_cons in Hr as [->|Hr]; [by auto|]).
  by apply elem_of_nil in Hr.
Qed.
Lemma supported_lane_cases lane : IsSupportedCloudExecutionLane lane = true ->
  lane = kExecutionLaneIsolated \/ lane = kExecutionLaneWarmShared.
Proof.
  intros Hr%vocabulary_spec. repeat (apply elem_of_cons in Hr as [->|Hr]; [by auto|]).
  by apply elem_of_nil in Hr.
Qed.

Lemma routed state :
  routed_risk (route_state state) = safe_risk (risk_class state)
  /\ routed_lane (route_state state) = safe_lane state
  /\ (fell_back (route_state state) = true <->
      safe_risk (risk_class state) <> risk_class state
      \/ safe_lane state <> preferred_execution_lane state)
  /\ reason (route_state state) <> EmptyString.
Proof.
  unfold route_state, safe_lane, may_share, safe_risk, check_risk_class. cbn [routed_risk routed_lane].
  destruct (IsSupportedCloudRiskClass (risk_class state)) eqn:Er; cbn [negb].
  - unfold check_execution_lane. cbn [routed_risk routed_lane].
    destruct (IsSupportedCloudExecutionLane _) eqn:El; cbn [negb].
    + apply supported_risk_cases in Er. apply supported_lane_cases in El.
      destruct Er as [->|[->| ->]], El as [->| ->]; cbn; naive_solver.
    + assert (Hs : (preferred_execution_lane state =s kExecutionLaneWarmShared) = false).
      { apply str_eqb_false. intros E. by rewrite E in El. }
      assert (Hi : kExecutionLaneIsolated <> preferred_execution_lane state).
      { intros E. by rewrite <- E in El. }
      rewrite Hs, andb_false_r. apply supported_risk_cases in Er.
      destruct Er as [->|[->| ->]]; cbn; naive_solver.
  - assert (Hs : (risk_class state =s kRiskClassTrustedInternal) = false).
    { apply str_eqb_false. intros E. by rewrite E in Er. }
    assert (Hu : kRiskClassUntrustedUser <> risk_class state).
    { intros E. by rewrite <- E in Er. }
    rewrite Hs. unfold check_execution_lane. cbn [routed_risk routed_lane].
    destruct (IsSupportedCloudExecutionLane _) eqn:El; cbn [negb].
    + apply supported_lane_cases in El. destruct El as [->| ->]; cbn; naive_solver.
    + cbn. naive_solver.
Qed.

Lemma default_profile_supported risk lane :
  IsSupportedCloudSecurityProfile (DefaultSecurityProfile risk lane) = true.
Proof.
  unfold DefaultSecurityProfile. destruct (lane =s _); [done|]. by destruct (risk =s _).
Qed.

Lemma resolved_profile state :
  let p := ResolveCloudExecutionPolicy state in
  policy_security_profile p = DefaultSecurityProfile (policy_risk_class p) (policy_execution_lane p).
Proof.
  unfold ResolveCloudExecutionPolicy. cbn.
  destruct (negb _ || _) eqn:E; [done|]. apply orb_false_iff in E as [_ E].
  by apply negb_false_iff, str_eqb_iff in E.
Qed.

(** The state that asks for what a policy grants. *)
Definition granted (state : ProjectToolchainState) (p : CloudExecutionPolicy) : ProjectToolchainState :=
  mkToolchainState (state_manifest_path state) (state_path state) (state_file_exists state)
    (state_mode state) (state_channel state) (state_build_mode state) (policy_risk_class p)
    (policy_execution_lane p) (policy_security_profile p) (source_revision state).

Lemma granted_lane state p : policy_risk_class p = safe_risk (risk_class state) ->
  policy_execution_lane p = safe_lane state ->
  safe_risk (policy_risk_class p) = policy_risk_class p
  /\ safe_lane (granted state p) = policy_execution_lane p.
Proof.
  intros Hr Hl. unfold safe_lane, may_share, granted. cbn. rewrite Hr, Hl. unfold safe_lane, may_share.
  destruct (risk_class state =s kRiskClassTrustedInternal) eqn:Et; cbn [andb].
  - apply str_eqb_iff in Et as ->. by destruct (preferred_execution_lane state =s kExecutionLaneWarmShared).
  - unfold safe_risk. destruct (IsSupportedCloudRiskClass (risk_class state)) eqn:E; [|done].
    by rewrite E, Et.
Qed.

(** A fallback is recorded when, and only when, something granted was not asked for. *)
Lemma fallback_spec state : let p := ResolveCloudExecutionPolicy state in
  fallback_applied p = true <->
  policy_risk_class p <> risk_class state
  \/ policy_execution_lane p <> preferred_execution_lane state
  \/ policy_security_profile p <> security_profile state.
Proof.
  destruct (routed state) as (Hr & Hl & Hf & _). unfold ResolveCloudExecutionPolicy.
  cbn [fallback_applied policy_risk_class policy_execution_lane policy_security_profile].
  rewrite Hr, Hl. set (expected := DefaultSecurityProfile _ _).
  assert (Hrep : negb (IsSupportedCloudSecurityProfile (security_profile state))
                 || (security_profile state <>s expected) = true <-> expected <> security_profile state).
  { rewrite orb_true_iff, !negb_true_iff, str_eqb_false. split; [|auto].
    intros [Hs|Hs]; [|done]. intros E. rewrite <- E in Hs. unfold expected in Hs.
    by rewrite default_profile_supported in Hs. }
  rewrite orb_true_iff, Hf. destruct (negb _ || _).
  - assert (expected <> security_profile state) by by apply Hrep. tauto.
  - split; [|tauto]. intros [?|?]; [tauto|done].
Qed.

Lemma policy_routed state : let p := ResolveCloudExecutionPolicy state in
  policy_risk_class p = safe_risk (risk_class state) /\ policy_execution_lane p = safe_lane state.
Proof. destruct (routed state) as (Hr & Hl & _). by split. Qed.

Lemma policy_cache state : let p := ResolveCloudExecutionPolicy state in
  worker_local_reuse (cache_policy p) = (policy_execution_lane p =s kExecutionLaneWarmShared)
  /\ shared_cache_promotion_eligible (cache_policy p) = (policy_risk_class p =s kRiskClassTrustedInternal)
  /\ routing_reason p <> EmptyString.
Proof. split; [reflexivity|]. split; [reflexivity|]. apply (routed state). Qed.

Lemma safe_risk_trusted risk :
  (safe_risk risk =s kRiskClassTrustedInternal) = (risk =s kRiskClassTrustedInternal).
Proof.
  unfold safe_risk. destruct (IsSupportedCloudRiskClass risk) eqn:E; [done|].
  symmetry. apply str_eqb_false. intros ->. by vm_compute in E.
Qed.

Lemma trusted_profile_shared risk state :
  DefaultSecurityProfile risk (safe_lane state) = kSecurityProfileTrustedWarm <-> may_share state = true.
Proof.
  unfold DefaultSecurityProfile, safe_lane. destruct (may_share state); [done|].
  cbn. by destruct (risk =s kRiskClassPartnerControlled).
Qed.

(** C22. Whatever a project's state says, the policy it resolves to protects the
    platform.  The risk class is the state's or, if unknown, untrusted-user; the lane is
    warm-shared for trusted-internal work that asks for it and isolated for all other
    work; the security profile is the one of the class and the lane, so that only
    warm-shared work has the trusted-warm profile; results stay on the worker for
    warm-shared work only and are promoted for trusted-internal work only.  A fallback
    is recorded exactly when something granted differs from what was asked for, a reason
    is always given, and asking for what was granted is granted without fallback. *)
Theorem cloud_policy_protects_the_platform state :
  let p := ResolveCloudExecutionPolicy state in
  policy_risk_class p = safe_risk (risk_class state)
  /\ policy_execution_lane p = safe_lane state
  /\ policy_security_profile p = DefaultSecurityProfile (policy_risk_class p) (policy_execution_lane p)
  /\ (policy_security_profile p = kSecurityProfileTrustedWarm <-> may_share state = true)
  /\ worker_local_reuse (cache_policy p) = may_share state
  /\ shared_cache_promotion_eligible (cache_policy p) = (risk_class state =s kRiskClassTrustedInternal)
  /\ (fallback_applied p = true <->
      policy_risk_class p <> risk_class state
      \/ policy_execution_lane p <> preferred_execution_lane state
      \/ policy_security_profile p <> security_profile state)
  /\ routing_reason p <> EmptyString
  /\ let q := ResolveCloudExecutionPolicy (granted state p) in
     fallback_applied q = false /\ policy_risk_class q = policy_risk_class p
     /\ policy_execution_lane q = policy_execution_lane p
     /\ policy_security_profile q = policy_security_profile p.
Proof.
  destruct (policy_routed state) as [Hr Hl]. cbn zeta in Hr, Hl.
  destruct (granted_lane state _ Hr Hl) as [Hgr Hgl].
  destruct (policy_routed (granted state (ResolveCloudExecutionPolicy state))) as [Hqr Hql].
  cbn zeta in Hqr, Hql |- *. rewrite Hgl in Hql. cbn [granted risk_class] in Hqr. rewrite Hgr in Hqr.
  assert (Hp := resolved_profile state). cbn zeta in Hp.
  assert (Hqp := resolved_profile (granted state (ResolveCloudExecutionPolicy state))).
  cbn zeta in Hqp. rewrite Hqr, Hql, <- Hp in Hqp.
  split; [exact Hr|]. split; [exact Hl|]. split; [exact Hp|].
  split; [rewrite Hp, Hl; apply trusted_profile_shared|].
  destruct (policy_cache state) as (Hreuse & Hpromote & Hreason). cbn zeta in Hreuse, Hpromote, Hreason.
  split; [rewrite Hreuse, Hl; unfold safe_lane; by destruct (may_share state)|].
  split; [rewrite Hpromote, Hr; apply safe_risk_trusted|].
  split; [apply fallback_spec|]. split; [exact Hreason|].
  split_and!; [|exact Hqr|exact Hql|exact Hqp].
  apply not_true_iff_false. rewrite (fallback_spec (granted state _)). rewrite Hqr, Hql, Hqp.
  cbn [granted risk_class preferred_execution_lane security_profile].
  intros [E|[E|E]]; by apply E.
Qed.
End Policy.

(** * Build jobs *)

(** What a client sends to [POST /jobs] for a build job. *)
Definition submission (tenant user workspace action : string) (payload : json) : json :=
  obj [("tenant_id", JString tenant); ("user_id", JString user); ("workspace_id", JString workspace);
       ("action", JString action); ("job_request", payload)]%string.

Section Jobs.
Context `{FileHost} `{ProgramHost}.

Lemma absolute_path_absolute path text : absolute_path path = inr text ->
  is_absolute text = true /\ is_empty text = false.
Proof.
  unfold absolute_path. destruct (is_empty path) eqn:Ep; [done|].
  destruct (is_absolute path) eqn:Ea; intros [= <-]; [done|]. unfold path_join. rewrite Ea.
  pose proof (PathFacts.absolute_text_absolute FileSystem.working_directory false) as Hr.
  assert (Hab : forall a b, is_absolute a = true ->
            is_absolute (a +:+ b) = true /\ is_empty (a +:+ b) = false).
  { intros a b Ha%str_starts_with_iff. destruct Ha as [rest ->]. split; [|done].
    apply str_starts_with_iff. exists (rest +:+ b). by rewrite str_app_assoc. }
  destruct (_ || _); by apply Hab.
Qed.

(** The fields of a payload its readers look at. *)
Lemma payload_fields job payload : BuildCloudBuildJobRequestPayload job = inr payload ->
  exists path source,
    payload = JObject source /\ is_absolute path = true /\ is_empty path = false
    /\ source !! "schema_version"%string = Some (JInt (schema_version job))
    /\ source !! "manifest_path"%string = Some (JString path)
    /\ Forall (fun field => exists m, source !! field = Some (JObject m)) ["toolchain"; "workflow"; "target"]%string
    /\ source !! "cloud"%string = Some (SerializeCloudExecutionPolicy (cloud_policy job))
    /\ exists m, source !! "source"%string = Some (JObject m)
         /\ m !! "origin"%string = Some (JString (source_origin (build_source job)))
         /\ m !! "requested_revision"%string = JString <$> requested_revision (build_source job).
Proof.
  unfold BuildCloudBuildJobRequestPayload.
  destruct (absolute_path (build_manifest_path job)) as [|path] eqn:Ep; [done|]. cbn [r_bind].
  apply absolute_path_absolute in Ep as [Ha He].
  destruct (match explicit_source_root (build_source job) with Some _ => _ | None => _ end)
    as [|root]; [done|]. cbn [r_bind]. intros Hp. apply (inj inr) in Hp as <-.
  exists path. eexists. split; [reflexivity|]. split; [done|]. split; [done|].
  split; [reflexivity|]. split; [reflexivity|]. split.
  { rewrite !Forall_cons. split_and!; [eexists; reflexivity..|done]. }
  split; [reflexivity|].
  destruct root as [root|], (requested_revision (build_source job)) as [asked|],
    (resolved_revision (build_source job)) as [resolved|];
    (eexists; split; [reflexivity|]; split; reflexivity).
Qed.

Lemma build_request_fields action request state options policy job :
  BuildCloudBuildJobRequest action request state options policy = inr job ->
  IsAction action = true /\ cloud_policy job = policy /\ schema_version job = 1
  /\ source_origin (build_source job) = ResolveSourceOriginBaseline
  /\ requested_revision (build_source job) = option_source_revision options.
Proof.
  unfold BuildCloudBuildJobRequest. destruct (ValidateWorkflowInvocationImpl _ _ _ _) eqn:E; [done|].
  intros Hj. apply (inj inr) in Hj as <-. split; [|by split_and!].
  unfold ValidateWorkflowInvocationImpl in E. unfold IsAction.
  destruct (action =s "build"), (action =s "run"), (action =s "test"); done.
Qed.

Lemma payload_accepted job payload : BuildCloudBuildJobRequestPayload job = inr payload ->
  GitSourcePolicyViolation (source_origin (build_source job)) PublicGitSourcePolicy = None ->
  requested_revision (build_source job) <> Some EmptyString ->
  ValidateCloudBuildRequest payload = None.
Proof.
  intros (path & m & -> & _ & He & Hs & Hm & Hf & Hc & source & Hsource & Ho & Hr)%payload_fields Hv Hne.
  rewrite !Forall_cons in Hf. destruct Hf as ((m1 & H1) & (m2 & H2) & (m3 & H3) & _).
  unfold ValidateCloudBuildRequest, has_integer, HasNonEmptyString. cbn [j_lookup].
  rewrite Hs, Hm, Hsource, He. cbn [is_number_integer negb j_lookup]. unfold string_at. cbn [j_lookup].
  rewrite Ho. destruct (is_empty (source_origin (build_source job))) eqn:Eo.
  { apply is_empty_true in Eo. rewrite Eo in Hv. done. }
  cbn [negb]. rewrite Hv, Hr. cbn [first_non_object j_lookup]. rewrite H1, H2, H3, Hc.
  cbn [is_object negb]. destruct (requested_revision (build_source job)) as [asked|]; [|done].
  cbn [fmap option_fmap option_map non_empty_string]. destruct (is_empty asked) eqn:Ea; [|done].
  apply is_empty_true in Ea. by rewrite Ea in Hne.
Qed.

Lemma submission_accepted tenant user workspace action payload :
  tenant <> EmptyString -> user <> EmptyString -> workspace <> EmptyString ->
  IsAction action = true -> is_object payload = true -> ValidateCloudBuildRequest payload = None ->
  ValidateSubmitJobRequest (submission tenant user workspace action payload) = None.
Proof.
  intros Ht Hu Hw Ha Ho Hv. apply is_empty_false in Ht, Hu, Hw.
  assert (Hne : is_empty action = false) by by destruct action.
  assert (Hf : forall field value, j_lookup (submission tenant user workspace action payload) field
                 = Some (JString value) -> is_empty value = false ->
               HasNonEmptyString (submission tenant user workspace action payload) field = true).
  { intros field value Hl He. unfold HasNonEmptyString. by rewrite Hl, He. }
  unfold ValidateSubmitJobRequest. cbn [first_missing_string].
  rewrite (Hf "tenant_id" tenant), (Hf "user_id" user), (Hf "workspace_id" workspace),
    (Hf "action" action)%string by (reflexivity || done).
  assert (Es : string_at (submission tenant user workspace action payload) "action" = action) by reflexivity.
  assert (Ej : j_lookup (submission tenant user workspace action payload) "job_request" = Some payload)
    by reflexivity.
  rewrite Es, Ha, Ej. cbn [negb is_object submission obj]. by destruct payload.
Qed.

Lemma pool_key_is_no_string tenant user workspace action m policy :
  m !! "cloud"%string = Some (SerializeCloudExecutionPolicy policy) ->
  WorkerPoolFromRequest (submission tenant user workspace action (JObject m)) = default_worker_pool.
Proof.
  intros Hc. unfold WorkerPoolFromRequest.
  assert (E1 : j_lookup (submission tenant user workspace action (JObject m)) "preferred_worker_pool" = None)
    by reflexivity.
  assert (E2 : j_lookup (submission tenant user workspace action (JObject m)) "job_request" = Some (JObject m))
    by reflexivity.
  rewrite E1, E2, Hc. reflexivity.
Qed.

Context {Net : Type} `{JsonLib}.

Lemma absolute_manifest_refused worker job w m path : job_request job = JObject m ->
  m !! "manifest_path"%string = Some (JString path) -> is_absolute path = true ->
  CreateWorkspace (Net := Net) worker (SerializeJobRecord job) w
  = (inl (RuntimeError "manifest_path must be relative for source fetch jobs"), w).
Proof.
  intros Hj Hm Ha. unfold CreateWorkspace, m_bind, lift.
  assert (Hid : at_string (SerializeJobRecord job) "job_id" = inr (job_id job)).
  { unfold SerializeJobRecord. by destruct (is_empty (job_worker_id job)), (is_empty (job_finished_at job)),
      (j_empty (job_request job)), (job_artifacts job). }
  assert (Hr : j_at (SerializeJobRecord job) "job_request" = inr (JObject m)).
  { assert (He : j_empty (job_request job) = false).
    { rewrite Hj. cbn. apply bool_decide_eq_false. intros ->. by rewrite lookup_empty in Hm. }
    unfold SerializeJobRecord. rewrite He, Hj.
    by destruct (is_empty (job_worker_id job)), (is_empty (job_finished_at job)), (job_artifacts job). }
  rewrite Hid, Hr. unfold at_string, j_at. rewrite Hm. cbn [r_bind get_string].
  unfold IsSafeRelativePath. rewrite Ha, orb_true_r. reflexivity.
Qed.

(** C23. What becomes of the build jobs clients build.  A payload built from a valid
    invocation is accepted when submitted with identifiers, provided the source origin
    is one the git policy admits and no empty revision is asked for.  But the pool the
    policy chose is an object where the queue reads a text, so the job is queued for the
    default pool whatever the policy; and its manifest path is absolute, so every worker
    that claims the job, in whatever state the record has reached by then, refuses it
    before it touches a file. *)
Theorem client_jobs_are_queued_and_never_built action request state options policy job payload
    tenant user workspace :
  BuildCloudBuildJobRequest action request state options policy = inr job ->
  BuildCloudBuildJobRequestPayload job = inr payload ->
  tenant <> EmptyString -> user <> EmptyString -> workspace <> EmptyString ->
  GitSourcePolicyViolation ResolveSourceOriginBaseline PublicGitSourcePolicy = None ->
  option_source_revision options <> Some EmptyString ->
  let s := submission tenant user workspace action payload in
  ValidateSubmitJobRequest s = None
  /\ WorkerPoolFromRequest s = default_worker_pool
  /\ forall record, job_request record = payload ->
     forall worker w, CreateWorkspace (Net := Net) worker (SerializeJobRecord record) w
       = (inl (RuntimeError "manifest_path must be relative for source fetch jobs"), w).
Proof.
  intros (Ha & Hc & _ & Ho & Hr)%build_request_fields Hp Ht Hu Hw Hv Hne. cbn zeta.
  rewrite <- Ho in Hv. rewrite <- Hr in Hne. pose proof (payload_accepted _ _ Hp Hv Hne) as Hok.
  apply payload_fields in Hp as (path & m & -> & Habs & _ & _ & Hm & _ & Hcloud & _).
  split; [by apply submission_accepted|]. split; [by eapply pool_key_is_no_string|].
  intros record Hj worker w. by eapply absolute_manifest_refused.
Qed.
End Jobs.

(** ** A project that asks for warm-shared nightly builds *)

Definition demo_programs : ProgramHost :=
  {| get_env := fun _ => None; run_program := fun _ _ t => (inl "no programs"%string, t) |}.
Definition demo_build_target : BuildTarget := {| target_system := Linux; target_processor := X86_64 |}.
#[local] Existing Instances demo_programs demo_build_target demo_file_host demo_json_lib.

Definition demo_state : ProjectToolchainState :=
  mkToolchainState "spio.toml" "spio-toolchain.lock" true kToolchainModeBuild kChannelNightly
    kBuildModeMinimal kRiskClassTrustedInternal kExecutionLaneWarmShared kSecurityProfileTrustedWarm
    (Some "nightly-head"%string).
Definition demo_request : BuildPlanRequest :=
  mkPlanRequest "spio.toml" "build" (Some "acme/demo"%string) (Some "demo"%string) None false "dev" "minimal" None false None.
Definition demo_invocation : WorkflowInvocationOptions :=
  mkInvocation false false None true false true None (Some "nightly-head"%string).

Example demo_policy_shares :
  policy_execution_lane (ResolveCloudExecutionPolicy demo_state) = kExecutionLaneWarmShared
  /\ pool_toolchain_mode (worker_pool (ResolveCloudExecutionPolicy demo_state)) = kToolchainModeBuild.
Proof. by split. Qed.

Lemma client_jobs_are_queued_and_never_built_witness :
  match BuildCloudBuildJobRequest "build" demo_request demo_state demo_invocation
          (ResolveCloudExecutionPolicy demo_state) with
  | inr job =>
      match BuildCloudBuildJobRequestPayload job with
      | inr payload =>
          ValidateSubmitJobRequest (submission "acme" "ada" "main" "build" payload) = None
          /\ WorkerPoolFromRequest (submission "acme" "ada" "main" "build" payload) = default_worker_pool
      | inl _ => False
      end
  | inl _ => False
  end.
Proof.
  destruct (BuildCloudBuildJobRequest "build" demo_request demo_state demo_invocation
              (ResolveCloudExecutionPolicy demo_state)) as [e|job] eqn:Ej; [discriminate Ej|].
  destruct (BuildCloudBuildJobRequestPayload job) as [e|payload] eqn:Ep.
  { apply (inj inr) in Ej as <-. discriminate Ep. }
  pose proof (client_jobs_are_queued_and_never_built (Net := unit) _ _ _ _ _ job payload "acme" "ada" "main"
                Ej Ep) as H.
  destruct H as (H1 & H2 & _); [discriminate..|reflexivity|discriminate|]. by split.
Defined.
