(* ===== verification/WorkerFacts.v ===== *)
(** What the worker promises: its calls reach the router of a server as they were made,
    and a job it runs is reported exactly once. *)
From stdpp Require Import base list gmap strings.
From Stdlib Require Import ZArith Lia Ascii String.
From S2P Require Import Prelude Json JsonFacts MemoryStateStore Demo DemoServices Identity Http Config Paths.
From S2P Require Import FileSystem Process RegistrySecurity CachePaths.
From S2P Require Import SourceFetch GitFetcher RouterSupport Toml RegistryIndexStore ObjectStore RegistryTrust Router.
From S2P Require Import HttpWire HttpServer HttpWireFacts HttpServerFacts OperatingSystem Worker.
From S2P Require Import Certificates CertificateFacts.

(** ** A control plane in reach *)

(** The sockets of a host on which the plain server listens: what is sent to it arrives
    in the segments [cut] makes of it, and what it answers arrives whole. *)
Definition served_by {DB} `{JsonLib} `{Host} `{PostgresStore DB} `{CurlHost curl_history} `{SigningHost}
    `{TomlLib} (config : PlatformConfig) (cut : string -> list string) : Sockets (PlatformRouter DB) :=
  {| getaddrinfo := fun request _ => inr [Refuses; Connects [str_length (tcp_payload request)]];
     peer := fun _ sent r =>
       match HandlePosixConnection config (mkClient (cut sent) (fun text => [str_length text]) (fun _ => false) None) r with
       | (inr text, r') => ([Received text; RecvEnd], r')
       | (inl _, r') => ([RecvEnd], r')
       end;
     curl := fun _ r => (inl "no curl"%string, r) |}.

Lemma SendAll_whole payload : SendAll [str_length payload] payload = (payload, true).
Proof.
  destruct payload as [|c payload]; [done|]. cbn [SendAll is_empty str_length String.length].
  change (S (String.length payload)) with (str_length (String c payload)).
  rewrite str_take_ge, str_drop_ge by done. cbn [SendAll is_empty]. by rewrite str_app_empty.
Qed.

(** ** Responses *)

Definition status_line (status : Z) : string := "HTTP/1.1 " +:+ decimal status +:+ " " +:+ HttpReason status.
Definition response_lines (status : Z) (payload : string) : list string :=
  [status_line status; "Content-Type: application/json; charset=utf-8";
   "Content-Length: " +:+ decimal (size_of payload); "Connection: close"]%string.
Lemma response_is_lines `{JsonLib} status body dumped : json_dump_indented body = inr dumped ->
  let payload := dumped +:+ newline_text in
  BuildRawHttpResponse status body
  = inr (lines_text (response_lines status payload) +:+ crlf +:+ crlf +:+ payload).
Proof.
  intros Hd. unfold BuildRawHttpResponse. rewrite Hd. cbn [r_bind]. apply (f_equal inr).
  unfold response_lines, status_line. cbn [lines_text]. rewrite !str_app_assoc. reflexivity.
Qed.

Lemma one_line_reason status : one_line (HttpReason status).
Proof. unfold HttpReason. repeat case_match; done. Qed.
Lemma decimal_one_line z : 0 <= z -> one_line (decimal z).
Proof. intros Hz. apply no_space_one_line, digits_plain. by apply (decimal_digits z Hz). Qed.
Lemma status_line_plain status : 0 <= status -> plain_line (status_line status).
Proof.
  intros Hs. split; [|done]. repeat apply one_line_app;
    [done|by apply decimal_one_line|done|apply one_line_reason].
Qed.
Lemma response_lines_plain status payload : 0 <= status -> Forall plain_line (response_lines status payload).
Proof.
  intros Hs. unfold response_lines. rewrite !Forall_cons.
  split; [by apply status_line_plain|]. split; [by split|]. split; [|by split; [split|]].
  split; [|done]. apply one_line_app; [done|]. apply decimal_one_line. unfold size_of. lia.
Qed.

(** Success is read off the status line. *)
Definition is_success (status : Z) : bool := (200 <=? status) && (status <? 300).
Lemma status_lines_checked :
  forallb (fun n => Bool.eqb (str_contains (status_line (Z.of_nat n)) " 2") (is_success (Z.of_nat n)))
    (seq 100 900) = true.
Proof. vm_compute. reflexivity. Qed.
Lemma status_line_success status : 100 <= status < 1000 ->
  str_contains (status_line status) " 2" = is_success status.
Proof.
  intros Hs. pose proof status_lines_checked as Hall. rewrite forallb_forall in Hall.
  specialize (Hall (Z.to_nat status)). rewrite Z2Nat.id in Hall by lia. apply Bool.eqb_prop, Hall.
  apply in_seq. lia.
Qed.

Lemma find_crlf_line line rest : no_char "013" line = true ->
  str_find crlf (line +:+ crlf +:+ rest) = Some (str_length line).
Proof.
  induction line as [|c line IH]; intros Hl; [by destruct rest|].
  unfold no_char in Hl. cbn in Hl. apply andb_true_iff in Hl as [Hc Hl].
  change ((String c line) +:+ crlf +:+ rest) with (String c (line +:+ crlf +:+ rest)).
  rewrite str_find_cons, (IH Hl).
  assert (String.prefix crlf (String c (line +:+ crlf +:+ rest)) = false) as ->; [|done].
  change ((if ascii_dec "013" c then String.prefix newline_text (line +:+ crlf +:+ rest) else false) = false).
  destruct (ascii_dec "013" c) as [<-|]; [discriminate Hc|reflexivity].
Qed.

Lemma read_rendered `{JsonLib} `{!JsonTextLaws} status body dumped text :
  100 <= status < 1000 -> json_dump_indented body = inr dumped -> BuildRawHttpResponse status body = inr text ->
  if is_success status then read_response text = inr body
  else exists detail, read_response text = inl (RuntimeError detail).
Proof.
  intros Hs Hd Ht. rewrite (response_is_lines status body dumped Hd) in Ht.
  apply (inj inr) in Ht. subst text.
  set (payload := dumped +:+ newline_text). unfold read_response.
  rewrite find_head_end by (done || apply response_lines_plain; lia).
  assert (Hline : str_find crlf (lines_text (response_lines status payload) +:+ crlf +:+ crlf +:+ payload)
                  = Some (str_length (status_line status))).
  { cbn [response_lines lines_text]. rewrite str_app_assoc, str_app_assoc. apply find_crlf_line.
    by destruct (status_line_plain status ltac:(lia)) as [[Hcr _] _]. }
  rewrite Hline. cbn [from_option]. unfold id.
  assert (str_take (str_length (status_line status))
            (lines_text (response_lines status payload) +:+ crlf +:+ crlf +:+ payload) = status_line status) as ->.
  { unfold response_lines. cbn [lines_text]. rewrite str_app_assoc. apply str_take_all. }
  rewrite status_line_success by done.
  assert (str_drop (str_length (lines_text (response_lines status payload)) + 4)
            (lines_text (response_lines status payload) +:+ crlf +:+ crlf +:+ payload) = payload) as ->.
  { rewrite <- !str_app_assoc.
    replace (str_length (lines_text (response_lines status payload)) + 4)%nat
      with (str_length ((lines_text (response_lines status payload) +:+ crlf) +:+ crlf))
      by (rewrite !str_length_app; change (str_length crlf) with 2%nat; lia).
    apply str_drop_all. }
  destruct (is_success status); [|by eexists]. subst payload. unfold parse_json.
  unfold newline_text. by rewrite (parse_dump_indented body dumped Hd).
Qed.

(** ** A call of the worker *)

Lemma no_space_app a b : no_space a = true -> no_space b = true -> no_space (a +:+ b) = true.
Proof. unfold no_space. rewrite chars_app, forallb_app. by intros -> ->. Qed.
Lemma san_word worker : word (worker_id worker) -> word (worker_uri_san worker).
Proof. intros [_ Hn]. split; [done|]. by apply no_space_app. Qed.
Lemma sendable_word name value : word name -> no_char ":" name = true -> word value -> sendable (name, value).
Proof.
  intros Hn Hc [_ Hv]. split_and!; [done|done|by apply no_space_one_line|by apply no_space_trimmed].
Qed.

Definition call_headers (url : ParsedUrl) (worker : WorkerRuntimeConfig) : list (string * string) :=
  [("Host", url_host url); ("Connection", "close"); ("Content-Type", "application/json");
   ("X-Styio-Mtls-Uri-San", worker_uri_san worker)]%string.
Lemma call_is_request url method path payload worker :
  tcp_payload (http_request url method path payload worker)
  = request_text method (JoinUrlPath (base_path url) path) (call_headers url worker) payload.
Proof.
  unfold request_text, request_lines, call_headers, header_line. cbn [tcp_payload http_request map app lines_text fst snd].
  rewrite !str_app_assoc. reflexivity.
Qed.
Lemma call_headers_sendable url worker : word (url_host url) -> word (worker_id worker) ->
  Forall sendable (call_headers url worker).
Proof.
  intros Hh Hw. pose proof (san_word worker Hw) as Hs. unfold call_headers. rewrite !Forall_cons.
  split; [by apply sendable_word|]. split; [by apply sendable_word|].
  split; [by apply sendable_word|]. split; [by apply sendable_word|done].
Qed.
Lemma call_san url worker payload :
  headers_map (call_headers url worker ++ [length_header payload]) !! kIdentityHeader = Some (worker_uri_san worker).
Proof.
  unfold headers_map, call_headers. cbn [app fold_left fst snd length_header].
  change (LowerAscii "Content-Length") with "content-length"%string.
  change (LowerAscii "X-Styio-Mtls-Uri-San") with kIdentityHeader.
  by rewrite lookup_insert_ne, lookup_insert_eq.
Qed.
Lemma worker_is_identified worker : word (worker_id worker) -> segment (worker_id worker) ->
  ParseMtlsUriSan (worker_uri_san worker) = Some (mkIdentity "worker" "platform" (worker_id worker)).
Proof.
  intros [Hne _] Hs.
  exact (uri_is_parsed (default_ca_config "") (mkSubject "worker" "platform" (worker_id worker) "") eq_refl
           ltac:(by split_and!) Hs ltac:(done) Hne eq_refl).
Qed.

Section Reach.
Context {DB : Type} `{JsonLib} `{!JsonTextLaws} `{Host} `{PostgresStore DB} `{CurlHost curl_history}
  `{SigningHost} `{TomlLib} (config : PlatformConfig) (cut : string -> list string).
#[local] Instance reach : Sockets (PlatformRouter DB) := served_by config cut.

Lemma call_over_tcp url (method : HttpMethod) path payload worker (r : PlatformRouter DB) text r' :
  HandlePosixConnection config
    (mkClient (cut (tcp_payload (http_request url (ToString method) path payload worker)))
       (fun text => [str_length text]) (fun _ => false) None) r = (inr text, r') ->
  SendTcpRequest (http_request url (ToString method) path payload worker) r = (inr text, r').
Proof.
  intros Hh. unfold SendTcpRequest, ConnectTcp, m_bind, gets. cbn [getaddrinfo reach served_by first_connection].
  unfold m_ret at 1. rewrite SendAll_whole. cbn [peer reach served_by]. rewrite Hh. cbn [negb].
  unfold lift. cbn [ReadAll r_bind]. by rewrite str_app_empty.
Qed.
Lemma payload_document (body : json) payload : json_dump body = inr payload -> request_json payload = inr body.
Proof.
  intros Hd. unfold request_json. destruct (dump_one_line _ _ Hd) as [Hne _].
  apply is_empty_false in Hne. rewrite Hne. unfold parse_json. by rewrite (parse_dump _ _ Hd).
Qed.
Lemma call_is_served url (method : HttpMethod) path (body : json) payload worker response
    (r r' : PlatformRouter DB) text :
  let target := JoinUrlPath (base_path url) path in
  let all := headers_map (call_headers url worker ++ [length_header payload]) in
  word (url_host url) -> word target -> word (worker_id worker) -> segment (worker_id worker) ->
  trust_proxy_identity_headers (mtls config) = true -> (forall text, segmented (cut text) text) ->
  json_dump body = inr payload ->
  size_of (tcp_payload (http_request url (ToString method) path payload worker)) <= kMaxRequestBytes ->
  Dispatch config (mkRequest method (NormalizePlatformPath target) all body
                     (Some (mkIdentity "worker" "platform" (worker_id worker)))) r = (inr response, r') ->
  response_text response = inr text ->
  SendTcpRequest (http_request url (ToString method) path payload worker) r = (inr text, r').
Proof.
  intros target all Hhost Ht Hw Hseg Htrust Hcut Hd Hmax Hdis Htext. apply call_over_tcp.
  unfold HandlePosixConnection, m_bind. cbn [received takes].
  assert (Hid : IdentityForRequest all config None = Some (mkIdentity "worker" "platform" (worker_id worker))).
  { unfold IdentityForRequest, IdentityFromHeaders. rewrite Htrust. unfold all. cbn [negb].
    rewrite call_san. by apply worker_is_identified. }
  erewrite (respond_request config "" method target (call_headers url worker) payload body).
  - fold all. rewrite Hid, Hdis. unfold lift. rewrite Htext. unfold m_ret. by rewrite SendAll_whole.
  - done.
  - by apply call_headers_sendable.
  - by apply payload_document.
  - by rewrite call_is_request in Hmax.
  - rewrite call_is_request. apply Hcut.
Qed.
End Reach.

(** ** What a worker says *)

(** A control plane that is asked by TCP or by [curl], and the sockets that keep what
    they were asked. *)
Inductive control_request := OverTcp (request : TcpRequest) | OverTls (request : ProcessRequest).
Definition recording {Net} (S : Sockets Net) : Sockets (Net * list control_request) :=
  {| getaddrinfo := fun request n => getaddrinfo request n.1;
     peer := fun request sent n =>
       let '(answer, n') := peer request sent n.1 in (answer, (n', n.2 ++ [OverTcp request]));
     curl := fun request n => let '(answer, n') := curl request n.1 in (answer, (n', n.2 ++ [OverTls request])) |}.

Section Reports.
Context {Net : Type} `{JsonLib} `{FileHost} `{ProgramHost} (S : Sockets Net) `{Schedule}.
#[local] Instance recorded : Sockets (Net * list control_request) := recording S.
Abbreviation World := (WorkerWorld (Net * list control_request)).
Abbreviation WorkerR := (M exn World).

(** What is asked, whatever comes of it. *)
Definition says {A} (m : WorkerR A) (Q : exn + A -> list control_request -> Prop) : Prop :=
  forall w o w', m w = (o, w') -> exists new, (net w').2 = (net w).2 ++ new /\ Q o new.
Definition silent {A} : exn + A -> list control_request -> Prop := fun _ new => new = [].

Lemma says_mono {A} (m : WorkerR A) (Q Q' : exn + A -> list control_request -> Prop) :
  says m Q -> (forall o new, Q o new -> Q' o new) -> says m Q'.
Proof. intros Hm HQ w o w' E. destruct (Hm w o w' E) as (new & Hn & Hq). exists new. auto. Qed.
Lemma says_bind {A B} (m : WorkerR A) (k : A -> WorkerR B) Q (Q' : exn + B -> list control_request -> Prop) :
  says m Q -> (forall e new, Q (inl e) new -> Q' (inl e) new) ->
  (forall a before, Q (inr a) before -> says (k a) (fun o new => Q' o (before ++ new))) -> says (m_bind m k) Q'.
Proof.
  intros Hm He Hk w o w' E. unfold m_bind in E. destruct (m w) as [[e|a] w1] eqn:E1.
  - injection E as <- <-. destruct (Hm _ _ _ E1) as (new & Hn & Hq). exists new. auto.
  - destruct (Hm _ _ _ E1) as (before & Hb & Hq). destruct (Hk a before Hq _ _ _ E) as (new & Hn & Hq').
    exists (before ++ new). by rewrite Hn, Hb, app_assoc.
Qed.
Lemma says_ret {A} (a : A) (Q : exn + A -> list control_request -> Prop) : Q (inr a) [] -> says (m_ret a) Q.
Proof. intros HQ w o w' [= <- <-]. exists []. by rewrite app_nil_r. Qed.
Lemma says_throw {A} e (Q : exn + A -> list control_request -> Prop) : Q (inl e) [] -> says (throw e) Q.
Proof. intros HQ w o w' [= <- <-]. exists []. by rewrite app_nil_r. Qed.
Lemma says_lift {A} (r : exn + A) (Q : exn + A -> list control_request -> Prop) : Q r [] -> says (lift r) Q.
Proof. intros HQ w o w' [= <- <-]. exists []. by rewrite app_nil_r. Qed.
Lemma says_client {A} (m : ClientM A) (Q : exn + A -> list control_request -> Prop) :
  (forall c o c', m c = (o, c') -> Q o []) -> says (on_client m) Q.
Proof.
  intros HQ w o w' E. unfold on_client, zoom in E. destruct (m (client w)) as [r c] eqn:Em.
  injection E as <- <-. exists []. cbn [net]. rewrite app_nil_r. split; [done|]. by eapply HQ.
Qed.
Lemma says_files {A} (m : M exn FileTree A) : says (on_worker_files m) silent.
Proof. by apply says_client. Qed.
Lemma says_catch_std {A} (m : WorkerR A) (h : exn -> WorkerR A) Q (Q' : exn + A -> list control_request -> Prop) :
  says m Q -> (forall a new, Q (inr a) new -> Q' (inr a) new) ->
  (forall e before, Q (inl e) before -> says (h e) (fun o new => Q' o (before ++ new))) ->
  (forall before, Q (inl UndefinedBehaviour) before -> Q' (inl UndefinedBehaviour) before) ->
  says (catch_std m h) Q'.
Proof.
  intros Hm Ha Hh Hu w o w' E. unfold catch_std, catch in E. destruct (m w) as [[e|a] w1] eqn:E1.
  - destruct (Hm _ _ _ E1) as (before & Hb & Hq). assert (e = UndefinedBehaviour \/ e <> UndefinedBehaviour) as [->|Hne]
      by (destruct e; (by left) || (by right)).
    + injection E as <- <-. exists before. auto.
    + assert (E' : h e w1 = (o, w')) by (by destruct e).
      destruct (Hh e before Hq _ _ _ E') as (new & Hn & Hq'). exists (before ++ new). by rewrite Hn, Hb, app_assoc.
  - injection E as <- <-. destruct (Hm _ _ _ E1) as (new & Hn & Hq). exists new. auto.
Qed.

(** A request that is sent, if it can be. *)
Definition call_to (url : ParsedUrl) (method path payload : string) (worker : WorkerRuntimeConfig)
  : control_request :=
  if scheme url =s "https" then OverTls (curl_request url method path payload worker)
  else OverTcp (http_request url method path payload worker).
Lemma says_tcp request : says (on_net (SendTcpRequest request))
  (fun o new => new = [] /\ (exists e, o = inl e) \/ new = [OverTcp request]).
Proof.
  intros w o w' E. unfold on_net, zoom, SendTcpRequest, ConnectTcp, m_bind, gets in E.
  cbn [getaddrinfo recorded recording] in E.
  destruct (getaddrinfo request (net w).1) as [reason|candidates].
  { injection E as <- <-. exists []. cbn [net]. rewrite app_nil_r. split; [done|]. left. eauto. }
  destruct (first_connection candidates) as [takes|].
  2:{ injection E as <- <-. exists []. cbn [net]. rewrite app_nil_r. split; [done|]. left. eauto. }
  unfold m_ret at 1 in E. destruct (SendAll takes (tcp_payload request)) as [sent all].
  cbn [peer recorded recording] in E. destruct (peer request sent (net w).1) as [answer n'].
  exists [OverTcp request]. destruct all; injection E as <- <-; cbn [net snd]; auto.
Qed.
Lemma says_call url method path (body : json) worker : is_null body = false ->
  says (HttpJson url method path body worker)
    (fun o new => new = [] /\ (exists e, o = inl e)
                  \/ exists payload, json_dump body = inr payload /\ new = [call_to url method path payload worker]).
Proof.
  intros Hb. unfold HttpJson, call_to. rewrite Hb.
  eapply says_bind; [apply (says_lift _ (fun o new => o = json_dump body /\ new = [])); done| |].
  { intros e new [_ ->]. left. eauto. }
  intros payload before [Hd ->]. cbn [app]. destruct (scheme url =s "https").
  - eapply says_bind with (Q := fun _ new => new = [OverTls (curl_request url method path payload worker)]).
    + intros w o w' E. unfold on_net, zoom in E. cbn [curl recorded recording] in E.
      destruct (curl _ (net w).1) as [[text|r] n']; injection E as <- <-;
        by exists [OverTls (curl_request url method path payload worker)].
    + intros e new ->. right. eauto.
    + intros r before ->. destruct (_ || _); [apply says_throw|apply says_lift]; right; eauto.
  - eapply says_bind; [apply says_tcp| |].
    + intros e new [[-> He]| ->]; [left; eauto|right; eauto].
    + intros raw before [[-> [e He]]| ->]; [done|]. apply says_lift. right. eauto.
Qed.

Context (control : ParsedUrl) (platform : PlatformConfig) (worker : WorkerRuntimeConfig) (job_id : string).
Definition heartbeat (r : control_request) : Prop := exists message payload,
  json_dump (obj [("worker_id", JString (worker_id worker)); ("message", JString message)]%string) = inr payload
  /\ r = call_to control "POST" ("/jobs/" +:+ job_id +:+ "/heartbeat") payload worker.
Definition report (status : string) (result : json) (r : control_request) : Prop :=
  exists message artifacts payload,
    json_dump (complete_body worker status message artifacts result) = inr payload
    /\ r = call_to control "POST" (complete_path job_id) payload worker.
(** A build that ran. *)
Definition built (build : ProcessResult) : Prop := exists workspace args world world',
  run_with RuntimeError (build_request platform worker workspace args) world = (inr build, world').
Definition succeeded (build : ProcessResult) : Prop :=
  built build /\ exit_code build = 0 /\ timed_out build = false /\ terminated_by_signal build = false.
Definition faithful (r : control_request) : Prop := exists status result, report status result r
  /\ (status = "failed"%string
      \/ status = "succeeded"%string /\ exists build, succeeded build /\ result = build_result build).

(** What is left to say once the job is running: heartbeats, then at most one report,
    and one if all goes well. *)
Definition reporting {A} (o : exn + A) (new : list control_request) : Prop :=
  exists beats last, new = beats ++ option_list last /\ Forall heartbeat beats
    /\ (forall r, last = Some r -> faithful r) /\ (forall a, o = inr a -> is_Some last).
Definition beating {A} (_ : exn + A) (new : list control_request) : Prop := Forall heartbeat new.

Lemma beating_reporting {A} (e : exn) new : Forall heartbeat new -> reporting (A := A) (inl e) new.
Proof. intros Hn. exists new, None. cbn. by rewrite app_nil_r. Qed.
Lemma beats_before {A} (o : exn + A) before new :
  Forall heartbeat before -> reporting o new -> reporting o (before ++ new).
Proof.
  intros Hb (beats & last & -> & Hf & Hl & Ho). exists (before ++ beats), last.
  split_and!; [by rewrite app_assoc|by apply Forall_app|done|done].
Qed.
Lemma says_beats {A B} (m : WorkerR A) (k : A -> WorkerR B) :
  says m beating -> (forall a, says (k a) reporting) -> says (m_bind m k) reporting.
Proof.
  intros Hm Hk. eapply says_bind; [exact Hm| |].
  - intros e new. apply beating_reporting.
  - intros a before Hb. eapply says_mono; [apply Hk|]. intros o new. by apply beats_before.
Qed.
Lemma says_quiet {A B} (m : WorkerR A) (k : A -> WorkerR B) :
  says m silent -> (forall a, says (k a) reporting) -> says (m_bind m k) reporting.
Proof. intros Hm. apply says_beats. eapply says_mono; [exact Hm|]. intros o new ->. constructor. Qed.
Lemma says_pure {A B} (r : exn + A) (k : A -> WorkerR B) :
  (forall a, r = inr a -> says (k a) reporting) -> says (m_bind (lift r) k) reporting.
Proof.
  intros Hk. eapply says_bind; [apply (says_lift _ (fun o new => o = r /\ new = [])); done| |].
  - intros e new [_ ->]. apply beating_reporting. constructor.
  - intros a before [Ha ->]. by apply Hk.
Qed.

Lemma says_heartbeat message : says (Heartbeat control worker job_id message) beating.
Proof.
  eapply says_bind; [by apply says_call| |].
  - intros e new [[-> _]|(payload & Hd & ->)]; repeat constructor. by exists message, payload.
  - intros a before [[-> _]|(payload & Hd & ->)]; apply says_ret; repeat constructor. by exists message, payload.
Qed.
Lemma says_heartbeats turns : says (RunHeartbeatLoop turns control worker job_id) beating.
Proof.
  induction turns as [|turns IH]; [apply says_ret; constructor|]. cbn [RunHeartbeatLoop].
  eapply says_bind with (Q := beating).
  - eapply says_catch_std; [apply says_heartbeat|done| |done].
    intros e before Hb. apply says_ret. by rewrite app_nil_r.
  - done.
  - intros ? before Hb. eapply says_mono; [exact IH|]. intros o new Hn. by apply Forall_app.
Qed.
Lemma says_complete status message artifacts result :
  (status = "failed"%string
   \/ status = "succeeded"%string /\ exists build, succeeded build /\ result = build_result build) ->
  says (Complete control worker job_id status message artifacts result) reporting.
Proof.
  intros Hs.
  assert (Hr : forall (o : exn + unit) payload, json_dump (complete_body worker status message artifacts result) = inr payload ->
            reporting o [call_to control "POST" (complete_path job_id) payload worker]).
  { intros o payload Hd. exists [], (Some (call_to control "POST" (complete_path job_id) payload worker)).
    split_and!; [done|constructor| |by eexists]. intros r [= <-]. exists status, result.
    split; [by exists message, artifacts, payload|done]. }
  eapply says_bind; [by apply says_call| |].
  - intros e new [[-> _]|(payload & Hd & ->)]; [apply beating_reporting; constructor|by apply Hr].
  - intros a before [[-> [e He]]|(payload & Hd & ->)]; [done|]. apply says_ret. by apply Hr.
Qed.

Lemma says_failed_fetch workspace e : says (fetch_failed control worker workspace job_id e) reporting.
Proof.
  destruct e; try (apply says_throw, beating_reporting; constructor).
  all: apply says_quiet; [apply says_files|]; intros _; apply says_complete; by left.
Qed.
Lemma says_run_build workspace job_request :
  says (run_build platform worker workspace job_request)
    (fun o new => new = [] /\ forall build, o = inr build -> built build).
Proof.
  unfold run_build. eapply says_bind; [apply (says_lift _ (fun o new => new = [])); done| |].
  - intros e new ->. done.
  - intros args before ->. apply says_client. intros c o c' E. split; [done|]. intros build ->.
    by exists workspace, args, c, c'.
Qed.
Lemma says_build workspace job job_request :
  says (build_and_report control platform worker workspace job job_request job_id) reporting.
Proof.
  unfold build_and_report. apply says_beats; [apply says_heartbeat|]. intros _.
  apply says_quiet; [intros w o w' [= <- <-]; exists []; by rewrite app_nil_r|]. intros n.
  apply says_beats; [apply says_heartbeats|]. intros _.
  eapply says_bind with
    (Q := fun o new => new = [] /\ forall result, o = inr result ->
                         match result with inl e => True | inr build => built build end).
  - eapply says_catch_std with
      (Q := fun o new => new = [] /\ forall result, o = inr result ->
                         match result with inl e => True | inr build => built build end).
    + eapply says_bind; [apply says_run_build| |].
      * intros e new [-> _]. by split.
      * intros build before [-> Hb]. apply says_ret. split; [done|]. intros result [= <-]. by apply Hb.
    + done.
    + intros e before [-> _]. apply says_ret. split; [done|]. by intros result [= <-].
    + intros before [-> _]. by split.
  - intros e new [-> _]. apply beating_reporting. constructor.
  - intros [e|build] before [-> Hb]; cbn [app].
    + apply says_quiet; [apply says_files|]. intros _. apply says_complete. by left.
    + apply says_quiet; [apply says_files|]. intros _. apply says_quiet; [apply says_files|]. intros _.
      apply says_pure. intros text _. apply says_quiet; [apply says_files|]. intros _.
      do 3 (apply says_pure; intros ? _). apply says_complete.
      destruct (build_succeeded build) eqn:E; [right|by left]. split; [done|]. exists build.
      unfold build_succeeded in E. apply andb_true_iff in E as [E Es%negb_true_iff].
      apply andb_true_iff in E as [Ez%Z.eqb_eq Et%negb_true_iff].
      split; [|done]. split_and!; [exact (Hb _ eq_refl)|done..].
Qed.
Lemma says_job job : at_string job "job_id" = inr job_id ->
  says (ExecuteClaimedJob control platform worker job) reporting.
Proof.
  intros Hid. unfold ExecuteClaimedJob. apply says_pure. intros id Hid'. rewrite Hid in Hid'. injection Hid' as <-.
  apply says_pure. intros job_request _. apply says_quiet.
  { eapply says_catch_std with (Q := silent).
    - eapply says_bind with (Q := silent); [|by intros e new ->|intros a before ->; by apply says_ret].
      unfold CreateWorkspace.
      repeat (eapply says_bind with (Q := silent); [by apply says_lift|by intros e new ->|intros ? ? ->]).
      destruct (negb _); [by apply says_throw|].
      repeat (eapply says_bind with (Q := silent); [by apply says_lift|by intros e new ->|intros ? ? ->]).
      eapply says_bind with (Q := silent); [apply says_files|by intros e new ->|intros ? ? ->]. by apply says_ret.
    - done.
    - intros e before ->. by apply says_ret.
    - done. }
  intros [e|workspace]; [apply says_complete; by left|].
  apply says_pure. intros source _. apply says_pure. intros origin _. apply says_quiet.
  { intros w o w' E. unfold catch, m_bind in E.
    destruct (on_client _ w) as [[e|a] w1] eqn:E1; injection E as <- <-.
    all: by eapply (says_client _ silent) in E1. }
  intros [e|]; [apply says_failed_fetch|apply says_build].
Qed.
End Reports.

(** ** Properties *)

(** C16. Calls of the worker reach the router. Over plain HTTP, with a control plane
    that trusts identity headers, whatever segments the network makes of the request:
    a call with a body is dispatched with the method, the path and the JSON body it was made
    with and with the identity of this worker; and what the call returns is the body of
    the router's response when its status is one of the 2xx, an exception otherwise,
    with the control plane left as the router left it. *)
Theorem worker_calls_reach_the_router {DB} `{JsonLib} `{!JsonTextLaws} `{Host} `{PostgresStore DB}
    `{CurlHost curl_history} `{SigningHost} `{TomlLib} (config : PlatformConfig) cut
    url (method : HttpMethod) path (body : json) payload worker response dumped
    (w : WorkerWorld (PlatformRouter DB)) r' :
  let target := JoinUrlPath (base_path url) path in
  let all := headers_map (call_headers url worker ++ [length_header payload]) in
  scheme url = "http"%string -> word (url_host url) -> word target ->
  word (worker_id worker) -> segment (worker_id worker) ->
  trust_proxy_identity_headers (mtls config) = true -> (forall text, segmented (cut text) text) ->
  is_null body = false -> json_dump body = inr payload ->
  size_of (tcp_payload (http_request url (ToString method) path payload worker)) <= kMaxRequestBytes ->
  Dispatch config (mkRequest method (NormalizePlatformPath target) all body
                     (Some (mkIdentity "worker" "platform" (worker_id worker)))) (net w) = (inr response, r') ->
  100 <= status_code response < 1000 -> json_dump_indented (resp_body response) = inr dumped ->
  exists outcome,
    HttpJson (Network := served_by config cut) url (ToString method) path body worker w
    = (outcome, mkWorkerWorld (client w) r' (builds w))
    /\ (if is_success (status_code response) then outcome = inr (resp_body response)
        else exists detail, outcome = inl (RuntimeError detail)).
Proof.
  intros target all Hscheme Hhost Ht Hw Hseg Htrust Hcut Hbody Hd Hmax Hdis Hstatus Hdumped.
  destruct (response_text response) as [|text] eqn:Htext;
    [unfold response_text, BuildRawHttpResponse in Htext; by rewrite Hdumped in Htext|].
  exists (read_response text). split.
  - unfold HttpJson. rewrite Hbody, Hd, Hscheme. unfold m_bind, lift, on_net, zoom.
    change ("http" =s "https") with false. cbv iota.
    pose proof (call_is_served config cut url method path body payload worker response (net w) r' text) as E.
    unfold reach in E. cbv beta. by rewrite E.
  - pose proof (read_rendered _ _ _ _ Hstatus Hdumped Htext) as Hr. by destruct (is_success _).
Qed.

(** C17. Claimed jobs are reported. Whatever the control plane, the source, the files
    and the build do, all that running a claimed job asks of the control plane is
    heartbeats of that job and, after the last of them, at most one report of it; when
    [ExecuteClaimedJob] returns there was exactly one; and a report says "succeeded"
    only of a build that ran and ended with exit code 0, neither timed out nor killed
    by a signal, whose result it carries. *)
Theorem claimed_jobs_are_reported {Net} `{JsonLib} `{FileHost} `{ProgramHost} (S : Sockets Net) `{Schedule}
    control platform worker job job_id (w : WorkerWorld (Net * list control_request)) outcome w' :
  at_string job "job_id" = inr job_id ->
  ExecuteClaimedJob (Network := recording S) control platform worker job w = (outcome, w') ->
  exists beats last, (net w').2 = (net w).2 ++ beats ++ option_list last
    /\ Forall (heartbeat control worker job_id) beats
    /\ (forall r, last = Some r -> faithful control platform worker job_id r)
    /\ (outcome = inr tt -> is_Some last).
Proof.
  intros Hid E. destruct (says_job S control platform worker job_id job Hid w outcome w' E)
    as (new & Hnew & beats & last & -> & Hb & Hl & Ho).
  exists beats, last. split_and!; [done|done|done|]. intros ->. by eapply Ho.
Qed.

(** ** The properties on a concrete worker *)

Section Demo.
#[local] Existing Instances demo_file_host demo_host demo_postgres demo_curl demo_signing demo_toml.
#[local] Existing Instances text_json_lib text_json_laws.

Definition demo_worker : WorkerRuntimeConfig := LoadWorkerRuntimeConfig (fun _ => None).
Definition demo_control : ParsedUrl :=
  mkUrl "http" "127.0.0.1" "8787" "/api/styio-platform/v1" "http://127.0.0.1:8787".
Definition demo_client_world : ClientWorld := mkWorld ∅ 0 initial_slots.
Definition one_segment (text : string) : list string := if is_empty text then [] else [text].
Lemma one_segment_ok text : segmented (one_segment text) text.
Proof.
  unfold one_segment. destruct text as [|c text]; [done|]. cbn [is_empty]. split; [|by repeat constructor].
  cbn [text_of foldr]. apply str_app_empty.
Qed.

Definition registration : json :=
  obj [("worker_id", JString "worker-local"); ("region", JString "local-dev"); ("worker_pool_key", JString "any");
       ("capacity", JInt 1)]%string.
Definition registration_payload : string :=
  match json_dump registration with inr payload => payload | inl _ => EmptyString end.
Definition registration_request : HttpRequest :=
  mkRequest Post "/workers/register"
    (headers_map (call_headers demo_control demo_worker ++ [length_header registration_payload]))
    registration (Some (mkIdentity "worker" "platform" "worker-local")).
Lemma worker_calls_reach_the_router_witness :
  match Dispatch default_config registration_request (demo_router initial_store) with
  | (inr response, r') =>
      exists outcome,
        HttpJson (Network := served_by default_config one_segment) demo_control "POST" "/workers/register"
          registration demo_worker (mkWorkerWorld demo_client_world (demo_router initial_store) 0)
        = (outcome, mkWorkerWorld demo_client_world r' 0)
        /\ (if is_success (status_code response) then outcome = inr (resp_body response)
            else exists detail, outcome = inl (RuntimeError detail))
  | (inl _, _) => False
  end.
Proof.
  destruct (Dispatch default_config registration_request (demo_router initial_store)) as [[e|response] r'] eqn:E.
  - apply (f_equal (fun r => match r.1 with inl _ => true | inr _ => false end)) in E.
    vm_compute in E. discriminate.
  - pose proof (f_equal (fun r => match r.1 with inl _ => 0 | inr a => status_code a end) E) as Hs.
    cbn [fst] in Hs. apply eq_sym in Hs.
    eapply (worker_calls_reach_the_router default_config one_segment demo_control Post "/workers/register"
              registration registration_payload demo_worker response _
              (mkWorkerWorld demo_client_world (demo_router initial_store) 0));
      [reflexivity|by split|by split|by split|by split_and!|reflexivity|apply one_segment_ok|reflexivity|reflexivity
      |vm_compute; discriminate|exact E| |reflexivity].
    rewrite Hs. vm_compute. by split.
Defined.

(** A control plane that accepts everything, and programs that all succeed. *)
Definition accepting : Sockets unit :=
  {| getaddrinfo := fun request _ => inr [Connects [str_length (tcp_payload request)]];
     peer := fun _ _ n =>
       (match BuildRawHttpResponse 200 (obj []) with inr text => [Received text; RecvEnd] | inl _ => [RecvFailed] end, n);
     curl := fun _ n => (inl "no curl"%string, n) |}.
Definition demo_programs : ProgramHost :=
  {| get_env := fun _ => None;
     run_program := fun _ _ t =>
       (inr (mkResult 0 false 0 false false false "0123456789012345678901234567890123456789" ""), t) |}.
Definition demo_schedule : Schedule := {| heartbeats_during := fun _ => 2%nat |}.
#[local] Existing Instances demo_programs demo_schedule.

Definition demo_job : json :=
  obj [("job_id", JString "job-1"); ("tenant_id", JString "t1"); ("workspace_id", JString "ws1");
       ("job_request",
         obj [("manifest_path", JString "spio.toml");
              ("source", obj [("origin", JString "https://github.com/styio/demo.git")])])]%string.
Definition demo_world : WorkerWorld (unit * list control_request) := mkWorkerWorld demo_client_world (tt, []) 0.
Definition demo_run :=
  ExecuteClaimedJob (Network := recording accepting) demo_control default_config demo_worker demo_job demo_world.

(** Three heartbeats and a report. *)
Example demo_run_asks : (match demo_run.1 with inr _ => true | _ => false end, List.length (net demo_run.2).2) = (true, 4%nat).
Proof. vm_compute. reflexivity. Qed.

Lemma claimed_jobs_are_reported_witness :
  let '(outcome, w') := demo_run in
  exists beats last, (net w').2 = beats ++ option_list last
    /\ Forall (heartbeat demo_control demo_worker "job-1") beats
    /\ (forall r, last = Some r -> faithful demo_control default_config demo_worker "job-1" r)
    /\ (outcome = inr tt -> is_Some last).
Proof.
  destruct demo_run as [outcome w'] eqn:E.
  exact (claimed_jobs_are_reported accepting demo_control default_config demo_worker demo_job "job-1" demo_world
           outcome w' eq_refl E).
Defined.
End Demo.
