(* ===== verification/Daemon.v ===== *)
(** The entry point of [styio-platformd] ([PlatformService/Daemon.cpp]): the
    configuration is loaded, the command of the first argument is run, and the process
    ends with its exit code. *)
From stdpp Require Import base list gmap strings.
From Stdlib Require Import ZArith Lia Ascii String.
From S2P Require Import Prelude Json Certificates StateRecords MemoryStateStore Identity Http Config FileSystem Process RegistrySecurity CachePaths.
From S2P Require Import Toml RouterSupport ObjectStore RegistryTrust JobQueue Postgres Workspace Router OperatingSystem Worker MirrorSync HttpServer.

(** How the process ends: it is still running, it returned a code, an exception left
    [main], or behaviour is undefined. *)
Inductive DaemonEnd := Running | Exit (code : Z) | Terminated (e : exn) | Undefined.

Definition end_of_server (e : ServerEnd) : DaemonEnd :=
  match e with Waiting => Running | Exited code => Exit code | Crashed => Undefined end.
(** A computation of [main] that nothing catches. *)
Definition end_of {A} (outcome : exn + A) (code : A -> DaemonEnd) : DaemonEnd :=
  match outcome with
  | inl UndefinedBehaviour => Undefined
  | inl e => Terminated e
  | inr a => code a
  end.

Definition usage_text : string :=
  "Usage: styio-platformd [--check-config|--migrate|--serve|--serve-once|--worker|--worker-once|--sync-mirror-once|--self-test|--print-routes|--print-migrations]" +:+ newline_text.
Definition SelfTestIdentity : MtlsIdentity := mkIdentity "operator" "tenant-demo" "node-local".

Definition health_request : HttpRequest :=
  mkRequest Get "/health" ∅ JNull (Some SelfTestIdentity).
Definition self_test_job : json :=
  obj [("tenant_id", JString "tenant-demo"); ("user_id", JString "user-demo");
       ("workspace_id", JString "workspace-demo"); ("action", JString "build");
       ("preferred_worker_pool", JString "linux/x86_64/build/nightly/minimal");
       ("job_request", obj
         [("schema_version", JInt 1); ("api_path", JString "/api/styio-platform/v1/jobs");
          ("action", JString "build"); ("manifest_path", JString "spio.toml");
          ("source", obj [("origin", JString "file:///tmp/styio-platform-self-test")]);
          ("toolchain", obj []); ("workflow", obj []); ("target", obj []); ("cloud", obj [])])]%string.
Definition submit_request : HttpRequest :=
  mkRequest Post "/jobs" ∅ self_test_job (Some SelfTestIdentity).

Definition route_payload (route : RouteSpec) : json :=
  obj [("operation_id", JString (operation_id route)); ("method", JString (ToString (route_method route)));
       ("path", JString (route_path route)); ("internal", JBool (internal route))]%string.
Definition migration_text (m : SqlMigration) : string :=
  "-- " +:+ migration_id m +:+ newline_text +:+ migration_sql m +:+ newline_text.
Definition DescribeBeastServerCapability (has_boost_beast : bool) : json :=
  obj [("target", JString "Boost.Beast/Asio"); ("headers_available", JBool has_boost_beast);
       ("role", JString "production HTTP adapter for PlatformRouter");
       ("fallback_listener_available", JBool true);
       ("fallback", JString "POSIX synchronous HTTP listener is used when Boost.Beast/Asio headers are unavailable")]%string.

Section Daemon.
Context {Server Net : Type} `{JsonLib} `{Host} `{LibPq Server} `{CurlHost curl_history} `{SigningHost} `{TomlLib}
  `{ProgramHost} {Network : Sockets Net} `{Schedule} `{ListenHost} `{OpenSsl} `{!Pem}.
Abbreviation DB := (PgStore Server).

(** What a run is given: what its listener accepts, as Beast parses it or as bytes, the
    files, programs and sockets around it, and the turns a worker is watched for. *)
Record Surroundings := mkSurroundings {
  connections : list (option BeastConnection);
  clients : list (option Client);
  machine : WorkerWorld Net;
  watched_turns : nat;
}.
Definition surrounding_files (s : Surroundings) : FileTree := world_files (client (machine s)).

(** What it leaves. *)
Inductive Aftermath :=
| NothingChanged
| Served (answers : Answers) (left : FileTree + PlatformRouter DB)
| Migrated (store : DB)
| Worked (world : WorkerWorld Net)
| Mirrored (world : MirrorWorld DB)
| Tested (router : PlatformRouter DB).
Record DaemonRun := mkRun { output : string; ended : DaemonEnd; aftermath : Aftermath }.

Definition run_server (has_boost_beast : bool) (config : PlatformConfig) (once : bool) (s : Surroundings)
  : DaemonRun :=
  let '(answers, stop, r) :=
    RunBeastServer config has_boost_beast once (surrounding_files s) (connections s) (clients s) in
  mkRun EmptyString (end_of_server stop) (Served answers r).

Definition run_migrate (config : PlatformConfig) : DaemonRun :=
  let '(outcome, store) :=
    catch_std (ApplyMigrations ;;; UpsertNode config ;;;
               m_ret ("styio-platform postgres migrations applied" +:+ newline_text, 0))
      (fun _ => m_ret (EmptyString, 1)) (pg_connect (postgres_dsn config)) in
  mkRun (match outcome with inr (text, _) => text | inl _ => EmptyString end)
    (end_of outcome (fun result => Exit result.2)) (Migrated store).

Definition run_worker (config : PlatformConfig) (once : bool) (s : Surroundings) : DaemonRun :=
  let '(outcome, world) := RunWorker config once (watched_turns s) (machine s) in
  mkRun EmptyString
    (end_of outcome (fun code => match code with Some code => Exit code | None => Running end))
    (Worked world).

Definition run_mirror (config : PlatformConfig) (s : Surroundings) : DaemonRun :=
  let '(outcome, world) := RunMirrorSyncOnce config (mkMirror (surrounding_files s) None) in
  mkRun EmptyString (end_of outcome Exit) (Mirrored world).

(** [std::cout << payload.dump(2) << "\n"]. *)
Definition print_json (payload : json) (code : Z) (after : Aftermath) : DaemonRun :=
  match json_dump_indented payload with
  | inl e => mkRun EmptyString (end_of (A := unit) (inl e) (fun _ => Exit code)) after
  | inr text => mkRun (text +:+ newline_text) (Exit code) after
  end.

Definition self_test (config : PlatformConfig) : RouterM DB (HttpResponse * HttpResponse) :=
  health <- Dispatch config health_request ;;
  submit <- Dispatch config submit_request ;;
  m_ret (health, submit).
Definition run_self_test (config : PlatformConfig) (s : Surroundings) : DaemonRun :=
  match self_test config (initial_router config (surrounding_files s)) with
  | (inl e, r) => mkRun EmptyString (end_of (A := unit) (inl e) (fun _ => Exit 1)) (Tested r)
  | (inr (health, submit), r) =>
      print_json (obj [("health", resp_body health); ("submit", resp_body submit)]%string)
        (if (status_code health =? 200) && (status_code submit =? 200) then 0 else 1) (Tested r)
  end.

(** [main(argc, argv)]: [argument] is [argv[1]], if there is one. *)
Definition main (has_boost_beast : bool) (argument : option string) (s : Surroundings) : DaemonRun :=
  let command := default "--check-config"%string argument in
  let config := LoadPlatformConfigFromEnvironment get_env in
  if (command =s "--help") || (command =s "-h") then mkRun usage_text (Exit 0) NothingChanged
  else if command =s "--check-config" then
    print_json (j_set (SerializePublicConfig config) "http_adapter"
                  (DescribeBeastServerCapability has_boost_beast)) 0 NothingChanged
  else if command =s "--serve" then run_server has_boost_beast config false s
  else if command =s "--serve-once" then run_server has_boost_beast config true s
  else if command =s "--migrate" then run_migrate config
  else if command =s "--worker" then run_worker config false s
  else if command =s "--worker-once" then run_worker config true s
  else if command =s "--sync-mirror-once" then run_mirror config s
  else if command =s "--print-routes" then
    print_json (JArray (map route_payload PlatformRoutes)) 0 NothingChanged
  else if command =s "--print-migrations" then
    mkRun (String.concat "" (map migration_text CloudKernelMigrations)) (Exit 0) NothingChanged
  else if command =s "--self-test" then run_self_test config s
  else mkRun usage_text (Exit 2) NothingChanged.
End Daemon.
