(* ===== verification/DaemonFacts.v ===== *)
(** Facts about the entry point: the self test of a daemon on its memory store passes,
    and every run ends with a code of its command. *)
From stdpp Require Import base list gmap strings.
From Stdlib Require Import ZArith Lia Ascii String.
From S2P Require Import Prelude Json Certificates StateRecords MemoryStateStore Identity Http Config FileSystem Process RegistrySecurity CachePaths.
From S2P Require Import Toml RouterSupport ObjectStore RegistryTrust JobQueue Postgres Workspace Router OperatingSystem Worker MirrorSync HttpServer Daemon Demo DemoServices.

Definition health_match : RouteMatch :=
  default (demo_match "" "") (MatchRoute PlatformRoutes Get "/health").
Definition submit_match : RouteMatch :=
  default (demo_match "" "") (MatchRoute PlatformRoutes Post "/jobs").
Lemma self_test_routes :
  MatchRoute PlatformRoutes Get "/health" = Some health_match
  /\ operation_id (route health_match) = "health"%string
  /\ MatchRoute PlatformRoutes Post "/jobs" = Some submit_match
  /\ operation_id (route submit_match) = "submitJob"%string.
Proof. vm_compute. by split_and!. Qed.

Section SelfTest.
Context {DB : Type} `{JsonLib} `{Host} `{PostgresStore DB} `{CurlHost curl_history} `{SigningHost} `{TomlLib}
  (config : PlatformConfig).

Lemma self_test_entitled :
  entitled config health_match health_request = true /\ entitled config submit_match submit_request = true.
Proof. unfold entitled. split; apply orb_true_iff; right; vm_compute; reflexivity. Qed.

Lemma first_call_allowed subject operation now buckets :
  buckets !! (subject +:+ ":" +:+ operation)%string = None ->
  Allow subject operation 600 60 now buckets
  = (true, <[(subject +:+ ":" +:+ operation)%string := mkBucket now 1]> buckets).
Proof. intros Hb. unfold Allow. cbn [Z.leb orb]. rewrite Hb. reflexivity. Qed.

(** The router a dispatched request is handled in. *)
Definition admitted (subject operation : string) (r : PlatformRouter DB) : PlatformRouter DB :=
  mkRouter (memory_ r) (postgres_ r)
    (<[(subject +:+ ":" +:+ operation)%string := mkBucket (clock_unix_seconds (clock_readings r)) 1]> (rate_limiter_ r))
    (RecordMetric operation 0 (metrics_ r)) (S (clock_readings r)) (random_draws r) (files_ r) (curl_calls r).
Lemma first_dispatch request m r operation :
  MatchRoute PlatformRoutes (req_method request) (req_path request) = Some m ->
  operation_id (route m) = operation -> entitled config m request = true ->
  rate_limiter_ r !! (RequestSubject request +:+ ":" +:+ operation)%string = None ->
  Dispatch config request r
  = DispatchMatchedOperation config m request (admitted (RequestSubject request) operation r).
Proof.
  intros Hm Ho He Hb. pose proof (Dispatch_matched config request m r Hm He) as Hd. cbv zeta in Hd.
  rewrite Ho in Hd. rewrite first_call_allowed in Hd by done. exact Hd.
Qed.

(** The health of a platform is always answered. *)
Lemma health_answered r : rate_limiter_ r !! "node-local:health"%string = None ->
  exists response, status_code response = 200
    /\ Dispatch config health_request r = (inr response, admitted "node-local" "health" r).
Proof.
  intros Hb. destruct self_test_routes as (Hm & Ho & _). destruct self_test_entitled as [He _].
  assert (Hs : RequestSubject health_request = "node-local"%string) by reflexivity.
  rewrite (first_dispatch health_request health_match r "health" Hm Ho He), Hs by by rewrite Hs.
  unfold DispatchMatchedOperation, DispatchPlatformNodeOperation. rewrite Ho. cbn [String.eqb Ascii.eqb].
  eexists. split; [|reflexivity]. reflexivity.
Qed.

Lemma submit_handler r :
  rate_limiter_ r !! "node-local:submitJob"%string = None ->
  Dispatch config submit_request r
  = HandleSubmitJob config submit_request (admitted "node-local" "submitJob" r).
Proof.
  intros Hb. destruct self_test_routes as (_ & _ & Hm & Ho). destruct self_test_entitled as [_ He].
  assert (Hs : RequestSubject submit_request = "node-local"%string) by reflexivity.
  rewrite (first_dispatch submit_request submit_match r "submitJob" Hm Ho He), Hs by by rewrite Hs.
  unfold DispatchMatchedOperation.
  rewrite (DispatchNode_none _ _ _ OpSubmitJob) by by rewrite Ho.
  unfold DispatchWorkspaceOperation. rewrite Ho. reflexivity.
Qed.

(** The job of the self test, as it is queued. *)
Definition self_test_record (id : string) : PlatformJobRecord :=
  {| job_id := id; job_tenant_id := "tenant-demo"; job_user_id := "user-demo";
     job_workspace_id := "workspace-demo"; job_action := "build"; job_status := "queued";
     job_region := config_region config; job_worker_pool_key := "linux/x86_64/build/nightly/minimal";
     job_created_at := default_created_at; job_worker_id := EmptyString;
     job_finished_at := EmptyString;
     job_request := default JNull (j_lookup self_test_job "job_request"); job_artifacts := [] |}.
Lemma self_test_valid : ValidateSubmitJobRequest self_test_job = None.
Proof. vm_compute. reflexivity. Qed.
Lemma self_test_queued id : BuildQueuedJobRecord self_test_job config id = inr (self_test_record id).
Proof. reflexivity. Qed.

Lemma submit_answered (r : PlatformRouter DB) : postgres_ r = None ->
  let id := ("job-" +:+ MemoryStateStore.PaddedNumber (next_job_sequence_ (memory_ r)) 12)%string in
  exists response r', HandleSubmitJob config submit_request r = (inr response, r')
    /\ status_code response = 200 /\ MemoryStateStore.GetJob id (memory_ r') = Some (self_test_record id).
Proof.
  intros Hp id. unfold HandleSubmitJob. cbn [submit_request req_body]. rewrite self_test_valid.
  unfold if_postgres. rewrite Hp. eexists _, _. split; [reflexivity|]. split; [reflexivity|].
  unfold MemoryStateStore.GetJob. apply lookup_insert_eq.
Qed.
End SelfTest.

Section Main.
Context {Server Net : Type} `{JsonLib} `{Host} `{LibPq Server} `{CurlHost curl_history} `{SigningHost} `{TomlLib}
  `{ProgramHost} {Network : Sockets Net} `{Schedule} `{ListenHost} `{OpenSsl} `{!Pem}.

Lemma self_test_runs config files :
  UsesPostgresState config = false ->
  exists health submit r,
    self_test config (initial_router (DB := PgStore Server) config files) = (inr (health, submit), r)
    /\ status_code health = 200 /\ status_code submit = 200
    /\ MemoryStateStore.GetJob "job-000000000001" (memory_ r) = Some (self_test_record config "job-000000000001").
Proof.
  intros Hmem. unfold self_test, m_bind at 1.
  destruct (health_answered config (initial_router (DB := PgStore Server) config files)) as (health & Hh & Eh);
    [apply lookup_empty|].
  rewrite Eh. unfold m_bind. set (r1 := admitted "node-local" "health" _).
  rewrite (submit_handler config r1) by reflexivity.
  destruct (submit_answered config (admitted "node-local" "submitJob" r1)) as (submit & r & Es & Hs & Hj).
  { cbn. by rewrite Hmem. }
  rewrite Es. exists health, submit, r. split; [reflexivity|]. by split_and!.
Qed.

(** What [main] catches: a handler that returns leaves no exception but undefined
    behaviour, and what holds of both results holds of the whole. *)
Lemma catch_std_ends {S A} (P : A -> Prop) (m : M exn S A) h (s : S) :
  (forall a s', m s = (inr a, s') -> P a) ->
  (forall e s, exists a s', h e s = (inr a, s') /\ P a) ->
  match (catch_std m h s).1 with inl e => e = UndefinedBehaviour | inr a => P a end.
Proof.
  intros Hm Hh. unfold catch_std, catch. destruct (m s) as [[e|a] s'] eqn:E; [|by eapply Hm].
  destruct e; try done;
    match goal with |- context [h ?e s'] => by destruct (Hh e s') as (a & s2 & -> & Ha) end.
Qed.

(** Servers return 0 or 1, and wait, unless behaviour is undefined. *)
Definition server_code (stop : ServerEnd) : Prop :=
  match stop with Exited code => code = 0 \/ code = 1 | _ => True end.
Lemma stopped_code e : server_code (stopped_by e).
Proof. destruct e; cbn; auto. Qed.
Lemma accept_code {C T} once (handle : C -> RouterM (PgStore Server) T) clients r :
  server_code (accept_loop once handle clients r).1.2.
Proof.
  revert r. induction clients as [|[client|] clients IH]; intros r; cbn [accept_loop]; [done| |by right].
  destruct (handle client r) as [[e|sent] r']; [apply stopped_code|].
  destruct once; [by left|]. specialize (IH r').
  by destruct (accept_loop false handle clients r') as [[texts stop] r''].
Qed.
Lemma serve_code {C T} config once (handle : C -> RouterM (PgStore Server) T) listener files clients :
  server_code (serve config once handle listener files clients).1.2.
Proof.
  unfold serve. destruct listener as [e|u]; [apply stopped_code|].
  pose proof (accept_code once handle clients (initial_router config files)) as Hc.
  by destruct (accept_loop _ _ _ _) as [[texts stop] r].
Qed.
Lemma server_codes config beast once files connections clients :
  server_code (RunBeastServer (DB := PgStore Server) config beast once files connections clients).1.2.
Proof.
  unfold RunBeastServer. destruct (tls_enabled (mtls config)); [|destruct beast].
  - assert (Hc : server_code (RunOpenSslServer (DB := PgStore Server) config once files clients).1.2).
    { unfold RunOpenSslServer. destruct (BuildTlsContext _ _) as [[e|mode] s]; [apply stopped_code|apply serve_code]. }
    by destruct (RunOpenSslServer _ _ _ _) as [[texts stop] r].
  - pose proof (serve_code config once (HandleConnection config) (OpenAcceptor config) files connections) as Hc.
    unfold RunBoostServer. by destruct (serve _ _ _ _ _ _) as [[answers stop] r].
  - pose proof (serve_code config once (HandlePosixConnection config) (CreateListener config) files clients) as Hc.
    unfold RunPosixServer. by destruct (serve _ _ _ _ _ _) as [[texts stop] r].
Qed.

(** How a run of a command may end. *)
Definition daemon_commands : list string :=
  ["--help"; "-h"; "--check-config"; "--serve"; "--serve-once"; "--migrate"; "--worker"; "--worker-once";
   "--sync-mirror-once"; "--print-routes"; "--print-migrations"; "--self-test"]%string.
Definition expected_end (command : string) (e : DaemonEnd) : Prop :=
  match e with
  | Running => command ∈ ["--serve"; "--serve-once"; "--worker"]%string
  | Exit code => (code = 0 \/ code = 1) /\ command ∈ daemon_commands
                 \/ code = 2 /\ command ∉ daemon_commands
  | Terminated e => command ∈ ["--check-config"; "--print-routes"; "--self-test"]%string
                    /\ exists payload, json_dump_indented payload = inl e
  | Undefined => command ∈ daemon_commands
  end.

Lemma printed_end command payload code after :
  (code = 0 \/ code = 1) -> command ∈ ["--check-config"; "--print-routes"; "--self-test"]%string ->
  command ∈ daemon_commands ->
  expected_end command (ended (print_json (Server := Server) (Net := Net) payload code after)).
Proof.
  intros Hc Hp Hin. unfold print_json. destruct (json_dump_indented payload) as [e|text] eqn:E; [|by left].
  destruct e; try exact Hin; (split; [exact Hp|by eexists]).
Qed.
Lemma server_end command beast config once (s : Surroundings (Net := Net)) :
  command ∈ ["--serve"; "--serve-once"; "--worker"]%string -> command ∈ daemon_commands ->
  expected_end command (ended (run_server (Server := Server) beast config once s)).
Proof.
  intros Hr Hin. unfold run_server.
  pose proof (server_codes config beast once (surrounding_files s) (connections s) (clients s)) as Hc.
  destruct (RunBeastServer _ _ _ _ _ _) as [[answers stop] r]. cbn in Hc |- *.
  destruct stop; [exact Hr|by left|exact Hin].
Qed.
Definition zero_or_one (code : Z) : Prop := code = 0 \/ code = 1.
Lemma ended_with_code command {A} (outcome : exn + A) (code : A -> DaemonEnd) (P : A -> Prop) :
  command ∈ daemon_commands ->
  match outcome with inl e => e = UndefinedBehaviour | inr a => P a end ->
  (forall a, P a -> expected_end command (code a)) -> expected_end command (end_of outcome code).
Proof. intros Hin Ho Hc. destruct outcome as [e|a]; cbn; [by subst e|by apply Hc]. Qed.

Lemma migrate_end config : "--migrate"%string ∈ daemon_commands ->
  expected_end "--migrate" (ended (run_migrate (Server := Server) (Net := Net) config)).
Proof.
  intros Hin. unfold run_migrate.
  match goal with |- context [catch_std ?m ?h ?s] =>
    pose proof (catch_std_ends (fun r : string * Z => zero_or_one r.2) m h s) as Hc;
    destruct (catch_std m h s) as [outcome store] end.
  cbn [fst ended] in Hc |- *. eapply ended_with_code; [done|apply Hc|].
  - intros a s' E. run_step E x s1 E1. run_step E y s2 E2. injection E as <- _. by left.
  - intros e s. eexists _, _. split; [reflexivity|]. by right.
  - intros a Ha. by left.
Qed.
Lemma mirror_end config (s : Surroundings (Net := Net)) : "--sync-mirror-once"%string ∈ daemon_commands ->
  expected_end "--sync-mirror-once" (ended (run_mirror (Server := Server) config s)).
Proof.
  intros Hin. unfold run_mirror, RunMirrorSyncOnce.
  match goal with |- context [catch_std ?m ?h ?s] =>
    pose proof (catch_std_ends zero_or_one m h s) as Hc; destruct (catch_std m h s) as [outcome w] end.
  cbn [fst ended] in Hc |- *. eapply ended_with_code; [done|apply Hc|].
  - intros a s' E. destruct (is_empty _); [done|]. run_step E origin s1 E1. run_step E size s2 E2.
    run_step E u s3 E3. injection E as <- _. by left.
  - intros e t. eexists _, _. split; [reflexivity|]. by right.
  - intros a Ha. by left.
Qed.

Definition worker_code (once : bool) (code : option Z) : Prop :=
  match code with Some code => zero_or_one code | None => once = false end.
Lemma worker_end command config once (s : Surroundings (Net := Net)) :
  command ∈ daemon_commands -> (once = false -> command = "--worker"%string) ->
  expected_end command (ended (run_worker (Server := Server) config once s)).
Proof.
  intros Hin Honce. unfold run_worker, RunWorker.
  match goal with |- context [catch_std ?m ?h ?s] =>
    pose proof (catch_std_ends (worker_code once) m h s) as Hc; destruct (catch_std m h s) as [outcome w] end.
  cbn [fst ended] in Hc |- *. eapply ended_with_code; [done|apply Hc|].
  - intros a s' E. run_step E control s1 E1. run_step E container s2 E2. run_step E u s3 E3.
    run_step E v s4 E4. destruct once; run_step E x s5 E5; injection E as <- _; [by left|done].
  - intros e t. eexists _, _. split; [reflexivity|]. by right.
  - intros [code|] Ha; [by left|]. rewrite (Honce Ha). by right; right; left.
Qed.

(** The self test on either store. *)
Lemma submission_ends config (r : PlatformRouter (PgStore Server)) :
  match (HandleSubmitJob config submit_request r).1 with
  | inl e => e = UndefinedBehaviour
  | inr _ => True
  end.
Proof.
  destruct (postgres_ r) as [store|] eqn:Ep.
  - unfold HandleSubmitJob. cbn [submit_request req_body]. rewrite self_test_valid.
    unfold if_postgres. rewrite Ep. unfold m_bind at 1.
    match goal with |- context [catch_std ?m ?h ?s] =>
      pose proof (catch_std_ends (fun _ => True) m h s (fun _ _ _ => I)) as Hc;
      destruct (catch_std m h s) as [[e|[response|id]] r1] end.
    + apply Hc. intros e' t. by eexists _, _.
    + done.
    + unfold m_bind at 1, lift. rewrite self_test_queued. unfold or_postgres_error.
      apply (catch_std_ends (fun _ => True)); [done|]. intros e' t. by eexists _, _.
  - destruct (submit_answered config r Ep) as (response & r' & -> & _). done.
Qed.
Lemma self_test_end config (s : Surroundings (Net := Net)) : "--self-test"%string ∈ daemon_commands ->
  expected_end "--self-test" (ended (run_self_test (Server := Server) config s)).
Proof.
  intros Hin. unfold run_self_test, self_test, m_bind at 1.
  destruct (health_answered config (initial_router (DB := PgStore Server) config (surrounding_files s)))
    as (health & Hh & ->); [apply lookup_empty|].
  set (r1 := admitted "node-local" "health" _). unfold m_bind.
  rewrite (submit_handler config r1) by reflexivity.
  pose proof (submission_ends config (admitted "node-local" "submitJob" r1)) as Hs.
  destruct (HandleSubmitJob _ _ _) as [[e|submit] r]; cbn [fst] in Hs; [by subst e|].
  apply printed_end; [|by right; right; left|done]. destruct (_ && _); auto.
Qed.

(** C40. The self test of a platform on its memory store passes.  Whatever the rest of
    the environment, the clock and the files, [--self-test] submits its job: the router
    it leaves has the job queued, under the first id and for the pool it names, and the
    process prints both answers and exits with 0, unless an answer cannot be printed
    as JSON, which ends it with that exception. *)
Theorem self_test_passes beast (s : Surroundings (Net := Net)) :
  UsesPostgresState (LoadPlatformConfigFromEnvironment get_env) = false ->
  let run := main (Server := Server) beast (Some "--self-test"%string) s in
  exists health submit r,
    aftermath run = Tested r
    /\ MemoryStateStore.GetJob "job-000000000001" (memory_ r)
       = Some (self_test_record (LoadPlatformConfigFromEnvironment get_env) "job-000000000001")
    /\ match json_dump_indented (obj [("health", health); ("submit", submit)]%string) with
       | inr text => ended run = Exit 0 /\ output run = text +:+ newline_text
       | inl e => ended run = end_of (A := unit) (inl e) (fun _ => Exit 0)
       end.
Proof.
  intros Hmem run.
  destruct (self_test_runs _ (surrounding_files s) Hmem) as (health & submit & r & E & Hh & Hs & Hj).
  assert (Er : run = print_json (obj [("health", resp_body health); ("submit", resp_body submit)]%string) 0 (Tested r)).
  { change run with (run_self_test (Server := Server) (LoadPlatformConfigFromEnvironment get_env) s).
    unfold run_self_test. rewrite E, Hh, Hs. reflexivity. }
  exists (resp_body health), (resp_body submit), r. rewrite Er. unfold print_json.
  destruct (json_dump_indented _); by split_and!.
Qed.

(** C27. Every run of the daemon ends as its command should.  A listener or a worker may
    still be running; a run that ends returns 0 or 1 for a command it knows and 2, and
    only then, for one it does not; every failure of a server, a worker, a migration, a
    mirror or the self test is one of these codes, so that no exception leaves [main]
    but one: a report that cannot be printed as JSON. *)
Theorem daemon_runs_end_as_expected beast argument (s : Surroundings (Net := Net)) :
  expected_end (default "--check-config"%string argument)
    (ended (main (Server := Server) beast argument s)).
Proof.
  unfold main. set (command := default "--check-config"%string argument). clearbody command.
  assert (Hknown : forall c, bool_decide (c ∈ daemon_commands) = true -> c ∈ daemon_commands)
    by (intros c; apply bool_decide_eq_true).
  destruct ((command =s "--help") || (command =s "-h")) eqn:E0.
  { left. split; [by left|]. apply orb_true_iff in E0 as [->%str_eqb_iff| ->%str_eqb_iff]; by apply Hknown. }
  apply orb_false_iff in E0 as [Ea%str_eqb_false Eb%str_eqb_false].
  repeat match goal with |- context [command =s ?c] =>
    let E := fresh "E" in destruct (command =s c) eqn:E;
      [apply str_eqb_iff in E; subst command|apply str_eqb_false in E] end.
  - apply printed_end; [by left|by left|by apply Hknown].
  - apply server_end; [by left|by apply Hknown].
  - apply server_end; [by right; left|by apply Hknown].
  - by apply migrate_end, Hknown.
  - apply worker_end; [by apply Hknown|done].
  - apply worker_end; [by apply Hknown|done].
  - by apply mirror_end, Hknown.
  - apply printed_end; [by left|by right; left|by apply Hknown].
  - left. split; [by left|by apply Hknown].
  - by apply self_test_end, Hknown.
  - right. split; [done|]. intros Hin.
    repeat (apply elem_of_cons in Hin as [->|Hin]; [congruence|]). by apply elem_of_nil in Hin.
Qed.
End Main.

(** ** A daemon without an environment *)

Section DaemonDemo.
Definition no_database : LibPq unit :=
  {| HAS_LIBPQ := false; PGconn := unit; server_at := fun _ => tt;
     PQconnectdb := fun _ s => (inl "unreachable"%string, s); PQexec := fun _ _ s => (inl "closed"%string, s);
     PQexecParams := fun _ _ _ s => (inl "closed"%string, s); PQfinish := fun _ s => s |}.
Definition no_network : Sockets unit :=
  {| getaddrinfo := fun _ _ => inl "unknown host"%string; peer := fun _ _ n => ([], n);
     curl := fun _ n => (inl "no curl"%string, n) |}.
Definition empty_environment : ProgramHost :=
  {| get_env := fun _ => None; run_program := fun _ _ t => (inl "no programs"%string, t) |}.
Definition no_heartbeats : Schedule := {| heartbeats_during := fun _ => 0%nat |}.
(** A host that opens every listener, and no OpenSSL. *)
Definition open_ports : ListenHost :=
  {| socket_error := None; inet_pton := fun _ => true; bind_error := fun _ _ => None; listen_error := None;
     acceptor_error := fun _ _ => None |}.
Definition no_openssl : OpenSsl :=
  {| EVP_PKEY := unit; PublicKey := unit; Signature := unit; public_key := fun key => key;
     keygen := fun _ _ => tt; sign := fun _ _ => tt; alt_names := fun _ => []; serial_bytes := fun _ => None;
     clock_count := fun _ => 0; call_error := fun _ => Some "no OpenSSL"%string |}.
Definition no_pem : Pem (H := no_openssl) :=
  {| PEM_write_PrivateKey := fun _ => EmptyString; PEM_read_PrivateKey := fun _ => None;
     PEM_write_X509 := fun _ => EmptyString; PEM_read_X509 := fun _ => None;
     to_be_signed := fun _ _ _ _ _ _ => EmptyString |}.
#[local] Existing Instances demo_json_lib demo_host demo_curl demo_signing demo_toml no_database no_network
  empty_environment no_heartbeats open_ports no_openssl no_pem.

Definition demo_surroundings : Surroundings :=
  mkSurroundings [] [] (mkWorkerWorld (mkWorld ∅ 0 initial_slots) tt 0) 3.

Lemma self_test_passes_witness :
  let run := main (Server := unit) false (Some "--self-test"%string) demo_surroundings in
  ended run = Exit 0
  /\ exists r, aftermath run = Tested r
       /\ option_map job_status (MemoryStateStore.GetJob "job-000000000001" (memory_ r)) = Some "queued"%string.
Proof.
  destruct (self_test_passes (Server := unit) false demo_surroundings)
    as (health & submit & r & Ha & Hj & Hend); [reflexivity|].
  split; [exact (proj1 Hend)|]. exists r. split; [exact Ha|]. by rewrite Hj.
Defined.

Example unknown_command :
  ended (main (Server := unit) false (Some "--frobnicate"%string) demo_surroundings) = Exit 2.
Proof. reflexivity. Qed.
Example migration_fails_without_a_driver :
  ended (main (Server := unit) false (Some "--migrate"%string) demo_surroundings) = Exit 1.
Proof. reflexivity. Qed.
End DaemonDemo.
